(** * InternS1: shape bookkeeping, masks and modality merging

    A shallow embedding of the parts of
    [src/transformers/models/interns1/modular_interns1.py] and
    [configuration_interns1.py] that do the tensor-shape bookkeeping:
    the padding mask, the convolutional subsampling of the time-series
    encoder, its attention masks, the merge of image and time-series
    features into the token embeddings, the projectors, the router
    load-balancing loss and the composite configuration.

    Tensors are nested lists in row-major order; integer tensors hold [Z].
    A Python exception is a value of [exn]; a function that can raise
    returns a [result]. *)

From Equations Require Import Equations.
From Stdlib Require Import String.
From Stdlib Require Import List ZArith Lia Bool QArith Qround.
From Stdlib Require Reals Lra.
Import ListNotations.

Set Implicit Arguments.
Local Open Scope Z_scope.

(** ** Exceptions and the error monad *)

Inductive exn : Type :=
| ValueError (msg : string)
| AssertionError (msg : string)
| RuntimeError (msg : string)
| IndexError (msg : string)
| ZeroDivisionError
| TypeError (msg : string)
| AttributeError (msg : string)
| KeyError (msg : string).

Inductive result (A : Type) : Type :=
| Ok (a : A)
| Raise (e : exn).
Arguments Ok {A} a.
Arguments Raise {A} e.

Definition bind {A B : Type} (m : result A) (k : A -> result B) : result B :=
  match m with
  | Ok a => k a
  | Raise e => Raise e
  end.

Notation "x <- m ;; k" := (bind m (fun x => k))
  (at level 61, m at next level, right associativity).
Notation "' p <- m ;; k" := (bind m (fun x => let p := x in k))
  (at level 61, p pattern, m at next level, right associativity).

(** [mapM f l] runs [f] over [l] from the left and stops at the first
    exception. *)
Fixpoint mapM {A B : Type} (f : A -> result B) (l : list A) : result (list B) :=
  match l with
  | [] => Ok []
  | a :: l' => b <- f a ;; bs <- mapM f l' ;; Ok (b :: bs)
  end.

(** ** Generic list helpers *)

(** [imap f l] is [[f 0 l[0]; f 1 l[1]; ...]]. *)
Definition imap {A B : Type} (f : nat -> A -> B) (l : list A) : list B :=
  map (fun p => f (fst p) (snd p)) (combine (seq 0 (length l)) l).

(** ** make_pad_mask *)

Module PadMask.

(** [lengths.max()]: raises on an empty tensor. *)
Definition tensor_max (lengths : list Z) : result Z :=
  match lengths with
  | [] => Raise (RuntimeError "max(): Expected reduction dim to be specified for input.numel() == 0")
  | x :: xs => Ok (fold_left Z.max xs x)
  end.

(** [torch.arange(lo, hi)] with the default step 1: raises when the upper
    bound is below the lower one. *)
Definition arange (lo hi : Z) : result (list Z) :=
  if hi <? lo then Raise (RuntimeError "upper bound and larger bound inconsistent with step sign")
  else Ok (map (fun k => lo + Z.of_nat k) (seq 0 (Z.to_nat (hi - lo)))).

(** [seq_range.unsqueeze(0).expand(n, max_len)]: n copies of the row. *)
Definition expand_rows {A : Type} (n : nat) (row : list A) : list (list A) :=
  repeat row n.

(** [expaned_lengths >= lengths.unsqueeze(-1)]: row i is compared with
    lengths[i]. *)
Definition ge_rows (expanded : list (list Z)) (lengths : list Z) : list (list bool) :=
  map (fun p => map (fun j => snd p <=? j) (fst p)) (combine expanded lengths).

Definition make_pad_mask (lengths : list Z) : result (list (list bool)) :=
  max_len <- tensor_max lengths ;;
  let n := length lengths in
  seq_range <- arange 0 max_len ;;
  let expaned_lengths := expand_rows n seq_range in
  Ok (ge_rows expaned_lengths lengths).

End PadMask.

(** ** Scalars

    The floating-point element type of the activations is kept abstract: the
    code moves, slices and pads activations, and the arithmetic it performs on
    them is the framework's. [Scalar] lists the operations the modelled
    modules apply to elements. *)

Class Scalar (A : Type) : Type := {
  s_zero : A;
  s_add : A -> A -> A;
  s_mul : A -> A -> A;
  (** [F.relu] and [nn.functional.gelu], element-wise *)
  s_relu : A -> A;
  s_gelu : A -> A;
  (** [s_standardize v x] is [(x - mean v) / sqrt (var v + eps)], the
      statistics part of [nn.LayerNorm] over the last dimension *)
  s_standardize : list A -> A -> A
}.

#[export] Instance Scalar_Z : Scalar Z := {
  s_zero := 0;
  s_add := Z.add;
  s_mul := Z.mul;
  s_relu := Z.max 0;
  s_gelu := fun x => x;
  s_standardize := fun _ x => x
}.

Definition s_sum {A : Type} `{Scalar A} (l : list A) : A := fold_right s_add s_zero l.

(** [x.shape[1]] and [x.shape[2]] of a tensor held as nested lists. *)
Definition shape1 {A : Type} (x : list (list A)) : nat :=
  match x with
  | [] => 0%nat
  | r :: _ => length r
  end.

Definition shape2 {A : Type} (x : list (list (list A))) : nat :=
  match x with
  | [] => 0%nat
  | r :: _ => shape1 r
  end.

(** A tensor of shape (B, T, C): every batch element has T frames of C
    channels. *)
Definition has_shape {A : Type} (B T C : nat) (x : list (list (list A))) : Prop :=
  length x = B /\
  Forall (fun s => length s = T /\ Forall (fun fr => length fr = C) s) x.

(** ** nn.Conv1d and nn.Linear

    Activations are kept time-major, (B, T, C): the [transpose(1, 2)] and
    [permute] calls around the convolutions only select the axis that
    [nn.Conv1d] reads as time. Learned parameters are functions of their
    indices. *)

Module Conv.

(** A constructed [nn.Conv1d]. The sizes of the weight are natural numbers;
    [stride_arg] and [padding_arg] are the stride and the padding as the
    constructor was given them, which it stores without looking at them. *)
Record Conv1d (A : Type) : Type := {
  in_channels : nat;
  out_channels : nat;
  kernel_size : nat;
  stride_arg : Z;
  padding_arg : Z;
  weight : nat -> nat -> nat -> A;   (* [out, in, k] *)
  bias : nat -> A
}.

(** The stride and the padding of a convolution, as numbers of frames. *)
Definition stride {A : Type} (c : Conv1d A) : nat := Z.to_nat (stride_arg c).
Definition padding {A : Type} (c : Conv1d A) : nat := Z.to_nat (padding_arg c).

(** [nn.Conv1d(in_channels, out_channels, kernel_size, stride, padding)]: the
    constructor allocates a weight of shape (out_channels, in_channels,
    kernel_size) and a bias of out_channels elements, which fails for a
    negative size. [w] holds the values of the weight and the bias. *)
Definition Conv1d_init {A : Type} (in_channels out_channels kernel_size stride padding : Z)
  (w : (nat -> nat -> nat -> A) * (nat -> A)) : result (Conv1d A) :=
  if (in_channels <? 0) || (out_channels <? 0) || (kernel_size <? 0) then
    Raise (RuntimeError "Trying to create tensor with negative dimension")
  else
    Ok {| Conv.in_channels := Z.to_nat in_channels;
          Conv.out_channels := Z.to_nat out_channels;
          Conv.kernel_size := Z.to_nat kernel_size;
          stride_arg := stride;
          padding_arg := padding;
          weight := fst w;
          bias := snd w |}.

Record Linear (A : Type) : Type := {
  in_features : nat;
  out_features : nat;
  lweight : nat -> nat -> A;   (* [out, in] *)
  lbias : nat -> A
}.

Record LayerNorm (A : Type) : Type := {
  normalized_shape : nat;
  gamma : nat -> A;
  beta : nat -> A
}.

(** The windows a kernel of size [k] visits when it slides by [s] over the
    padded signal: a window is produced as long as [k] frames remain. *)
Equations windows {F : Type} (k s : nat) (xp : list F) : list (list F) by wf (length xp) lt :=
  windows k s [] := [];
  windows k s (x :: xs) with Nat.ltb (S (length xs)) k => {
    | true := [];
    | false := firstn k (x :: xs) :: windows k s (skipn (Nat.pred s) xs) }.
Next Obligation.
  pose proof (length_skipn (Nat.pred s) xs). simpl. lia.
Qed.

Section ConvOps.
Context {A : Type} `{Scalar A}.

Definition zero_frames (n c : nat) : list (list A) := repeat (repeat s_zero c) n.

(** One output channel of one window. *)
Definition conv_at (c : Conv1d A) (w : list (list A)) (o : nat) : A :=
  s_add
    (s_sum (map (fun kk =>
       s_sum (map (fun ci => s_mul (weight c o ci kk) (nth ci (nth kk w []) s_zero))
                  (seq 0 (in_channels c))))
       (seq 0 (kernel_size c))))
    (bias c o).

(** [nn.Conv1d.forward] on one batch element. *)
Definition Conv1d_forward1 (c : Conv1d A) (xs : list (list A)) : result (list (list A)) :=
  if (kernel_size c =? 0)%nat || (stride c =? 0)%nat then
    Raise (RuntimeError "non-positive kernel size or stride is not supported")
  else if padding_arg c <? 0 then
    Raise (RuntimeError "negative padding is not supported")
  else if negb (forallb (fun fr => (length fr =? in_channels c)%nat) xs) then
    Raise (RuntimeError "expected input to have in_channels channels")
  else
    let xp := zero_frames (padding c) (in_channels c) ++ xs
              ++ zero_frames (padding c) (in_channels c) in
    if (length xp <? kernel_size c)%nat then
      Raise (RuntimeError "Kernel size can't be greater than actual input size")
    else
      Ok (map (fun w => map (conv_at c w) (seq 0 (out_channels c)))
              (windows (kernel_size c) (stride c) xp)).

Definition Conv1d_forward (c : Conv1d A) (x : list (list (list A))) : result (list (list (list A))) :=
  mapM (Conv1d_forward1 c) x.

(** [nn.Linear.forward] on one vector of the last dimension. *)
Definition Linear_forward1 (l : Linear A) (v : list A) : result (list A) :=
  if (length v =? in_features l)%nat then
    Ok (map (fun o => s_add (s_sum (imap (fun i x => s_mul (lweight l o i) x) v)) (lbias l o))
            (seq 0 (out_features l)))
  else Raise (RuntimeError "mat1 and mat2 shapes cannot be multiplied").

(** [nn.LayerNorm.forward] on one vector of the last dimension. *)
Definition LayerNorm_forward1 (l : LayerNorm A) (v : list A) : result (list A) :=
  if (length v =? normalized_shape l)%nat then
    Ok (imap (fun i x => s_add (s_mul (s_standardize v x) (gamma l i)) (beta l i)) v)
  else Raise (RuntimeError "Given normalized_shape, expected input with matching last dimension").

(** A module applied to the last dimension of a (B, T, C) tensor. *)
Definition on_last (f : list A -> result (list A)) (x : list (list (list A)))
  : result (list (list (list A))) :=
  mapM (mapM f) x.

Definition map3 (f : A -> A) (x : list (list (list A))) : list (list (list A)) :=
  map (map (map f)) x.

End ConvOps.

(** The output-length formula of the convolution,
    floor((L + 2 * padding - kernel) / stride) + 1. *)
Definition conv_out_len (L kernel stride padding : Z) : Z :=
  (L + 2 * padding - kernel) / stride + 1.

End Conv.

(** ** InternTimeSeriesEncoderConfig *)

Module TSConfig.

(** The attributes of the configuration the model reads. The first nine
    are set by [InternTimeSeriesEncoderConfig.__init__], the others by the
    Whisper configuration it extends. *)
Record InternTimeSeriesEncoderConfig : Type := {
  ts_adapt_in_dim : Z;
  ts_adapt_out_dim : Z;
  ts_hidden_dim : Z;
  ts_cnn_channels : list Z;
  ts_cnn_kernel_sizes : list Z;
  ts_cnn_strides : list Z;
  ts_cnn_paddings : list Z;
  ts_concat_subsampling_in_channels : Z;
  ts_concat_subsampling_concat_size : Z;
  use_flash_attn : bool;
  num_mel_bins : Z;
  d_model : Z;
  max_source_positions : Z;
  encoder_layers : Z
}.

(** The keyword arguments of the constructor: a key that is absent takes the
    default of the signature. The Whisper attributes have no default in this
    repository and are passed on as they are. *)
Record kwargs : Type := {
  kw_ts_adapt_in_dim : option Z;
  kw_ts_adapt_out_dim : option Z;
  kw_ts_hidden_dim : option Z;
  kw_ts_cnn_channels : option (list Z);
  kw_ts_cnn_kernel_sizes : option (list Z);
  kw_ts_cnn_strides : option (list Z);
  kw_ts_cnn_paddings : option (list Z);
  kw_ts_concat_subsampling_in_channels : option Z;
  kw_ts_concat_subsampling_concat_size : option Z;
  kw_use_flash_attn : option bool;
  kw_num_mel_bins : Z;
  kw_d_model : Z;
  kw_max_source_positions : Z;
  kw_encoder_layers : Z
}.

Definition default {T : Type} (o : option T) (d : T) : T :=
  match o with
  | Some v => v
  | None => d
  end.

(** [ts_cnn_channels[-1]]: the last element; raises on an empty list. *)
Definition last_item (l : list Z) : result Z :=
  match l with
  | [] => Raise (IndexError "list index out of range")
  | _ => Ok (last l 0)
  end.

Definition InternTimeSeriesEncoderConfig_init (kw : kwargs) : result InternTimeSeriesEncoderConfig :=
  let self := {|
    ts_adapt_in_dim := default (kw_ts_adapt_in_dim kw) 256;
    ts_adapt_out_dim := default (kw_ts_adapt_out_dim kw) 1024;
    ts_hidden_dim := default (kw_ts_hidden_dim kw) 1024;
    ts_cnn_channels := default (kw_ts_cnn_channels kw) [1; 32; 64; 128; 128];
    ts_cnn_kernel_sizes := default (kw_ts_cnn_kernel_sizes kw) [3; 5; 5; 5];
    ts_cnn_strides := default (kw_ts_cnn_strides kw) [2; 4; 4; 5];
    ts_cnn_paddings := default (kw_ts_cnn_paddings kw) [1; 2; 2; 2];
    ts_concat_subsampling_in_channels := default (kw_ts_concat_subsampling_in_channels kw) 128;
    ts_concat_subsampling_concat_size := default (kw_ts_concat_subsampling_concat_size kw) 2;
    use_flash_attn := default (kw_use_flash_attn kw) false;
    num_mel_bins := kw_num_mel_bins kw;
    d_model := kw_d_model kw;
    max_source_positions := kw_max_source_positions kw;
    encoder_layers := kw_encoder_layers kw
  |} in
  if negb (ts_adapt_out_dim self =? ts_hidden_dim self) then
    Raise (AssertionError "ts_adapt_out_dim should be equal to ts_hidden_dim")
  else
    c <- last_item (ts_cnn_channels self) ;;
    if negb (ts_concat_subsampling_in_channels self =? c) then
      Raise (AssertionError "ts_concat_subsampling_in_channels should be equal to the out_channel of the last cnn layer")
    else Ok self.

(** [InternTimeSeriesEncoderConfig()] with the Whisper attributes given. *)
Definition no_kwargs (mel d pos layers : Z) : kwargs := {|
  kw_ts_adapt_in_dim := None;
  kw_ts_adapt_out_dim := None;
  kw_ts_hidden_dim := None;
  kw_ts_cnn_channels := None;
  kw_ts_cnn_kernel_sizes := None;
  kw_ts_cnn_strides := None;
  kw_ts_cnn_paddings := None;
  kw_ts_concat_subsampling_in_channels := None;
  kw_ts_concat_subsampling_concat_size := None;
  kw_use_flash_attn := None;
  kw_num_mel_bins := mel;
  kw_d_model := d;
  kw_max_source_positions := pos;
  kw_encoder_layers := layers
|}.

End TSConfig.

(** ** ConcatSubsampling and Conv1dSubsampling *)

Module Subsampling.
Import Conv TSConfig.

Record ConcatSubsampling : Type := {
  cs_in_channels : Z;
  cs_out_channels : Z
}.

Definition ConcatSubsampling_init (in_channels concat_size : Z) : ConcatSubsampling :=
  {| cs_in_channels := in_channels; cs_out_channels := in_channels * concat_size |}.

(** [l[::2]] and [l[1::2]]. *)
Fixpoint evens {F : Type} (l : list F) : list F :=
  match l with
  | [] => []
  | a :: l' =>
      a :: match l' with
           | [] => []
           | _ :: l'' => evens l''
           end
  end.

Definition odds {F : Type} (l : list F) : list F := evens (tl l).

(** [torch.cat((a, b), dim=2)] of two (B, T, C) tensors: the sizes of the
    other dimensions have to agree. *)
Definition cat_dim2 {A : Type} (a b : list (list (list A))) : result (list (list (list A))) :=
  if (length a =? length b)%nat && (shape1 a =? shape1 b)%nat then
    Ok (map (fun p => map (fun q => fst q ++ snd q) (combine (fst p) (snd p))) (combine a b))
  else Raise (RuntimeError "Sizes of tensors must match except in dimension 2").

Definition ConcatSubsampling_forward {A : Type} (self : ConcatSubsampling)
  (x : list (list (list A))) (x_lens : list Z)
  : result (list (list (list A)) * list Z) :=
  let x := if Nat.eqb (shape1 x mod 2) 0 then x else map (@removelast _) x in
  let even_frames := map (@evens _) x in
  let odd_frames := map (@odds _) x in
  x <- cat_dim2 even_frames odd_frames ;;
  let x_lens := map (fun l => l / 2) x_lens in
  Ok (x, x_lens).

Section WithScalar.
Context {A : Type} `{Scalar A}.

Record Conv1dSubsampling : Type := {
  channels : list Z;
  kernel_sizes : list Z;
  strides : list Z;
  paddings : list Z;
  n_layers : Z;
  layers : list (Conv1d A);
  subsampling : ConcatSubsampling
}.

(** The loop of [__init__] that builds the convolutions, over the layer
    indices that are left: layer [i] maps [in_channels], the output channels
    of the layer before, to [channels[i + 1]] channels. [params i] holds the
    weight and bias of layer [i]. *)
Fixpoint build_layers_from (channels kernel_sizes strides paddings : list Z)
  (params : nat -> (nat -> nat -> nat -> A) * (nat -> A)) (in_channels : Z)
  (indices : list nat) : result (list (Conv1d A)) :=
  match indices with
  | [] => Ok []
  | i :: rest =>
      let out_channels := nth (i + 1) channels 0 in
      conv <- Conv1d_init in_channels out_channels (nth i kernel_sizes 0)
                          (nth i strides 0) (nth i paddings 0) (params i) ;;
      layers <- build_layers_from channels kernel_sizes strides paddings params
                                  out_channels rest ;;
      Ok (conv :: layers)
  end.

Definition build_layers (channels kernel_sizes strides paddings : list Z)
  (params : nat -> (nat -> nat -> nat -> A) * (nat -> A)) (n_layers : nat)
  : result (list (Conv1d A)) :=
  build_layers_from channels kernel_sizes strides paddings params
                    (nth 0 channels 0) (seq 0 n_layers).

Definition Conv1dSubsampling_init (config : InternTimeSeriesEncoderConfig)
  (params : nat -> (nat -> nat -> nat -> A) * (nat -> A)) : result Conv1dSubsampling :=
  let channels := ts_cnn_channels config in
  let kernel_sizes := ts_cnn_kernel_sizes config in
  let strides := ts_cnn_strides config in
  let paddings := ts_cnn_paddings config in
  let n_layers := Z.of_nat (length channels) - 1 in
  if negb ((Z.of_nat (length kernel_sizes) =? Z.of_nat (length strides))
           && (Z.of_nat (length strides) =? Z.of_nat (length paddings))
           && (Z.of_nat (length paddings) =? n_layers)) then
    Raise (ValueError "Length mismatch: channels should have 1 more element than kernel_sizes/strides/paddings.")
  else
    layers <- build_layers channels kernel_sizes strides paddings params (Z.to_nat n_layers) ;;
    Ok {| channels := channels;
          kernel_sizes := kernel_sizes;
          strides := strides;
          paddings := paddings;
          n_layers := n_layers;
          layers := layers;
          subsampling := ConcatSubsampling_init (ts_concat_subsampling_in_channels config)
                                                (ts_concat_subsampling_concat_size config) |}.

(** [x_lens] is a tensor of 64-bit integers. The lengths are integers
    here, and a length is in range when it is a 64-bit value and adding 1 to
    it does not wrap around. *)
Definition int64_in_range (l : Z) : Prop := - 2 ^ 63 <= l < 2 ^ 63 - 1.

(** The result of an addition of 64-bit integers: the sum modulo 2^64, as a
    signed number. *)
Definition wrap64 (z : Z) : Z := (z + 2 ^ 63) mod 2 ^ 64 - 2 ^ 63.

(** The update of the lengths in [forward] as the 64-bit arithmetic of the
    tensor computes it. *)
Definition subsampled_len64 (l : Z) : Z :=
  wrap64 (wrap64 (wrap64 (wrap64 (l + 1) / 2 + 3) / 4 + 3) / 4 + 4) / 5.

(** The same update on integers: the two agree on every length in range. *)
Definition subsampled_len (l : Z) : Z := ((((l + 1) / 2 + 3) / 4 + 3) / 4 + 4) / 5.

(** The loop [for layer in self.layers: x = layer(x); x = F.relu(x)]. *)
Fixpoint run_conv_layers (ls : list (Conv1d A)) (x : list (list (list A)))
  : result (list (list (list A))) :=
  match ls with
  | [] => Ok x
  | layer :: ls' =>
      x <- Conv1d_forward layer x ;;
      let x := map3 s_relu x in
      run_conv_layers ls' x
  end.

Definition Conv1dSubsampling_forward (self : Conv1dSubsampling)
  (x : list (list (list A))) (x_lens : option (list Z))
  : result (list (list (list A)) * list Z) :=
  x <- run_conv_layers (layers self) x ;;
  match x_lens with
  | None => Raise (TypeError "unsupported operand type(s) for +: 'NoneType' and 'int'")
  | Some x_lens =>
      let x_lens := map subsampled_len x_lens in
      ConcatSubsampling_forward (subsampling self) x x_lens
  end.

(** The configuration holds the default layers of the signature. *)
Definition default_layers (config : InternTimeSeriesEncoderConfig) : Prop :=
  ts_cnn_channels config = [1; 32; 64; 128; 128] /\
  ts_cnn_kernel_sizes config = [3; 5; 5; 5] /\
  ts_cnn_strides config = [2; 4; 4; 5] /\
  ts_cnn_paddings config = [1; 2; 2; 2].

Definition mk_conv (cin cout k s p : nat) (w : (nat -> nat -> nat -> A) * (nat -> A)) : Conv1d A :=
  {| in_channels := cin; out_channels := cout; kernel_size := k;
     stride_arg := Z.of_nat s; padding_arg := Z.of_nat p;
     weight := fst w; bias := snd w |}.

(** The convolution the loop of [__init__] builds at index [i]. *)
Definition layer_of (chans ks st pd : list Z)
  (params : nat -> (nat -> nat -> nat -> A) * (nat -> A)) (i : nat) : Conv1d A :=
  {| in_channels := Z.to_nat (nth i chans 0);
     out_channels := Z.to_nat (nth (i + 1) chans 0);
     kernel_size := Z.to_nat (nth i ks 0);
     stride_arg := nth i st 0;
     padding_arg := nth i pd 0;
     weight := fst (params i);
     bias := snd (params i) |}.

(** The temporal length after the four default convolutions, on naturals. *)
Definition default_conv_len (T : nat) : nat :=
  (((((((T + 2 * 1 - 3) / 2 + 1) + 2 * 2 - 5) / 4 + 1) + 2 * 2 - 5) / 4 + 1) + 2 * 2 - 5) / 5 + 1.

End WithScalar.

End Subsampling.
(** ** The attention masks of the time-series encoder

    The additive masks hold 0, -65504 and [torch.finfo(dtype).min]; all of
    them are integers, so a mask is a tensor over [Z]. *)

Module Masks.

(** [input.masked_fill(cond, v)] on a matrix. *)
Definition masked_fill (m : list (list Z)) (cond : list (list bool)) (v : Z) : list (list Z) :=
  map (fun p => map (fun q => if (snd q : bool) then v else fst q) (combine (fst p) (snd p)))
      (combine m cond).

(** The largest single-precision number. [torch.full] is called without a
    dtype and fills a single-precision tensor, so the fill value has to be
    within this bound: the [finfo.min] of float16, bfloat16 and float32 is,
    that of float64 is not. *)
Definition float32_max : Z := 2 ^ 128 - 2 ^ 104.

(** [_make_causal_mask(input_ids_shape, dtype, device, past_key_values_length)]
    with [input_ids_shape = (bsz, tgt_len)] and [finfo_min] the value of
    [torch.finfo(dtype).min], for a [finfo_min] within [float32_max]. *)
Definition _make_causal_mask (bsz tgt_len : nat) (finfo_min : Z) (past_key_values_length : Z)
  : list (list (list (list Z))) :=
  let mask := repeat (repeat finfo_min tgt_len) tgt_len in
  let mask_cond := map Z.of_nat (seq 0 tgt_len) in
  (* mask_cond < (mask_cond + 1).view(tgt_len, 1) *)
  let cond := map (fun ci => map (fun cj => cj <? ci + 1) mask_cond) mask_cond in
  let mask := masked_fill mask cond 0 in
  let mask :=
    if 0 <? past_key_values_length then
      map (fun row => repeat 0 (Z.to_nat past_key_values_length) ++ row) mask
    else mask in
  repeat [mask] bsz.

(** [_prepare_decoder_attention_mask] as [forward] calls it: the argument
    [attention_mask] is reset to [None] just before the call, so only the
    causal part is built. *)
Definition _prepare_decoder_attention_mask (bsz tgt_len : nat) (finfo_min : Z)
  (past_key_values_length : Z) : option (list (list (list (list Z)))) :=
  let combined_attention_mask := None in
  if (1 <? tgt_len)%nat then
    Some (_make_causal_mask bsz tgt_len finfo_min past_key_values_length)
  else combined_attention_mask.

(** Python's [round] of a float to an integer: to the nearest, ties to the
    even neighbour. *)
Definition py_round (q : Q) : Z :=
  let f := Qfloor q in
  match Qcompare (q - inject_Z f) (1 # 2) with
  | Lt => f
  | Gt => f + 1
  | Eq => if Z.even f then f else f + 1
  end.

(** [matrix[r0:r1, c0:c1] = torch.zeros(h, w)] for non-negative bounds: the
    slice is clipped to the matrix and has to have the shape of the
    right-hand side. *)
Definition assign_zeros (r0 r1 c0 c1 h w : Z) (matrix : list (list Z)) : result (list (list Z)) :=
  let n := Z.of_nat (length matrix) in
  let m := Z.of_nat (shape1 matrix) in
  let rows := Z.max 0 (Z.min r1 n - Z.min r0 n) in
  let cols := Z.max 0 (Z.min c1 m - Z.min c0 m) in
  if (rows =? h) && (cols =? w) then
    Ok (imap (fun r row =>
          if (r0 <=? Z.of_nat r) && (Z.of_nat r <? r1) then
            imap (fun c v => if (c0 <=? Z.of_nat c) && (Z.of_nat c <? c1) then 0 else v) row
          else row) matrix)
  else Raise (RuntimeError "shape mismatch: value tensor cannot be broadcast to indexing result").

(** The loop [for i in range(num_full_blocks)] of
    [prepare_chunk_attention_mask]. *)
Definition zero_full_blocks (block_size : Z) (num_full_blocks : Z) (matrix : list (list Z))
  : result (list (list Z)) :=
  fold_left
    (fun (acc : result (list (list Z))) (i : nat) =>
       matrix <- acc ;;
       let row_start := Z.of_nat i * block_size in
       let col_start := Z.of_nat i * block_size in
       assign_zeros row_start (row_start + block_size) col_start (col_start + block_size)
                    block_size block_size matrix)
    (seq 0 (Z.to_nat num_full_blocks)) (Ok matrix).

(** [prepare_chunk_attention_mask] with [input_shape = (bsz, n)]. The
    quotient [chunk_length / 4 * 2] is a float in the source; it is the exact
    quotient for every chunk length of magnitude up to 2^53. *)
Definition prepare_chunk_attention_mask (chunk_length : option Z) (bsz n : nat)
  : result (list (list (list (list Z)))) :=
  match chunk_length with
  | None => Raise (TypeError "unsupported operand type(s) for /: 'NoneType' and 'int'")
  | Some chunk_length =>
      let block_size := py_round (inject_Z chunk_length / 4 * 2) in
      let matrix_size := Z.of_nat n in
      let matrix := repeat (repeat 1 n) n in
      if block_size =? 0 then Raise ZeroDivisionError
      else
        let num_full_blocks := matrix_size / block_size in
        let remainder := matrix_size mod block_size in
        matrix <- zero_full_blocks block_size num_full_blocks matrix ;;
        matrix <-
          (if 0 <? remainder then
             let last_row_start := num_full_blocks * block_size in
             let last_col_start := num_full_blocks * block_size in
             assign_zeros last_row_start (last_row_start + remainder)
                          last_col_start (last_col_start + remainder)
                          remainder remainder matrix
           else Ok matrix) ;;
        let matrix := map (map (fun v => v * -65504)) matrix in
        Ok (repeat [matrix] bsz)
  end.

(** The n-by-n matrix whose entry (r, c) is [f r c]. *)
Definition tabulate {X : Type} (f : nat -> nat -> X) (n : nat) : list (list X) :=
  map (fun r => map (fun c => f r c) (seq 0 n)) (seq 0 n).

(** The block-diagonal pattern: rows and columns in the same block of
    [block_size] consecutive indices. *)
Definition same_block (block_size : Z) (r c : nat) : bool :=
  Z.of_nat r / block_size =? Z.of_nat c / block_size.

End Masks.

(** ** InternTimeSeriesEncoder and InternTimeSeriesModel *)

Module Encoder.
Import Conv TSConfig Subsampling PadMask Masks.

Definition mask4 : Type := list (list (list (list Z))).

Section WithScalar.
Context {A : Type} `{Scalar A}.

(** A [WhisperEncoderLayer]: it receives the hidden states and the attention
    mask. The class is defined outside this repository. *)
Definition encoder_layer : Type := list (list (list A)) -> option mask4 -> list (list (list A)).

(** A transformer layer returns hidden states of the shape it received. *)
Definition shape_preserving (l : encoder_layer) : Prop :=
  forall (B T C : nat) (x : list (list (list A))) (m : option mask4),
    has_shape B T C x -> has_shape B T C (l x m).

(** The random draws of a forward pass in training mode. *)
Record rng : Type := {
  dropout_keep : nat -> nat -> nat -> bool;
  layer_dropped : nat -> bool
}.

(** The learned parameters and the layers the constructor creates. *)
Record encoder_params : Type := {
  p_conv1 : (nat -> nat -> nat -> A) * (nat -> A);
  p_conv2 : (nat -> nat -> nat -> A) * (nat -> A);
  p_embed_positions : nat -> nat -> A;
  p_layer : nat -> encoder_layer;
  p_layer_norm : (nat -> A) * (nat -> A);
  p_adapt_in : (nat -> nat -> A) * (nat -> A);
  p_adapt_out : (nat -> nat -> A) * (nat -> A);
  (** scaling of the kept elements by dropout, 1 / (1 - config.dropout) *)
  p_dropout_scale : A -> A;
  (** [torch.finfo(dtype).min] of the dtype of the activations *)
  p_finfo_min : Z
}.

Record InternTimeSeriesEncoder : Type := {
  embed_dim : Z;
  enc_max_source_positions : Z;
  conv1 : Conv1d A;
  conv2 : Conv1d A;
  embed_positions : nat -> nat -> A;
  enc_layers : list encoder_layer;
  layer_norm : LayerNorm A;
  mask_type : option string;
  chunk_length : option Z;
  adapt_in : Linear A;
  adapt_out : Linear A;
  dropout_scale : A -> A;
  finfo_min : Z;
  training : bool
}.

Definition InternTimeSeriesEncoder_init (config : InternTimeSeriesEncoderConfig)
  (p : encoder_params) : InternTimeSeriesEncoder :=
  let embed_dim := d_model config in
  {| embed_dim := embed_dim;
     enc_max_source_positions := max_source_positions config;
     conv1 := {| in_channels := Z.to_nat (num_mel_bins config);
                 out_channels := Z.to_nat embed_dim;
                 kernel_size := 3; stride_arg := 1; padding_arg := 1;
                 weight := fst (p_conv1 p); bias := snd (p_conv1 p) |};
     conv2 := {| in_channels := Z.to_nat embed_dim;
                 out_channels := Z.to_nat embed_dim;
                 kernel_size := 3; stride_arg := 2; padding_arg := 1;
                 weight := fst (p_conv2 p); bias := snd (p_conv2 p) |};
     embed_positions := p_embed_positions p;
     enc_layers := map (p_layer p) (seq 0 (Z.to_nat (encoder_layers config)));
     layer_norm := {| normalized_shape := Z.to_nat (d_model config);
                      gamma := fst (p_layer_norm p); beta := snd (p_layer_norm p) |};
     mask_type := None;
     chunk_length := None;
     adapt_in := {| in_features := Z.to_nat (ts_adapt_in_dim config);
                    out_features := 80;
                    lweight := fst (p_adapt_in p); lbias := snd (p_adapt_in p) |};
     adapt_out := {| in_features := Z.to_nat embed_dim;
                     out_features := Z.to_nat (ts_adapt_out_dim config);
                     lweight := fst (p_adapt_out p); lbias := snd (p_adapt_out p) |};
     dropout_scale := p_dropout_scale p;
     finfo_min := p_finfo_min p;
     training := true |}.

Definition define_masktype (self : InternTimeSeriesEncoder) (masktype : option string)
  (chunk_length : option Z) : InternTimeSeriesEncoder :=
  {| embed_dim := embed_dim self;
     enc_max_source_positions := enc_max_source_positions self;
     conv1 := conv1 self; conv2 := conv2 self;
     embed_positions := embed_positions self;
     enc_layers := enc_layers self;
     layer_norm := layer_norm self;
     mask_type := masktype;
     chunk_length := chunk_length;
     adapt_in := adapt_in self; adapt_out := adapt_out self;
     dropout_scale := dropout_scale self;
     finfo_min := finfo_min self;
     training := training self |}.

(** [self.eval()] / [self.train(mode)]. *)
Definition set_training (self : InternTimeSeriesEncoder) (mode : bool) : InternTimeSeriesEncoder :=
  {| embed_dim := embed_dim self;
     enc_max_source_positions := enc_max_source_positions self;
     conv1 := conv1 self; conv2 := conv2 self;
     embed_positions := embed_positions self;
     enc_layers := enc_layers self;
     layer_norm := layer_norm self;
     mask_type := mask_type self;
     chunk_length := chunk_length self;
     adapt_in := adapt_in self; adapt_out := adapt_out self;
     dropout_scale := dropout_scale self;
     finfo_min := finfo_min self;
     training := mode |}.

(** The modules of the encoder have the dimensions [__init__] gives them for
    [config]; [define_masktype] and the training flag do not change them. *)
Definition encoder_wired (self : InternTimeSeriesEncoder) (config : InternTimeSeriesEncoderConfig)
  : Prop :=
  let init := InternTimeSeriesEncoder_init config
                {| p_conv1 := (weight (conv1 self), bias (conv1 self));
                   p_conv2 := (weight (conv2 self), bias (conv2 self));
                   p_embed_positions := embed_positions self;
                   p_layer := fun i => nth i (enc_layers self) (fun x _ => x);
                   p_layer_norm := (gamma (layer_norm self), beta (layer_norm self));
                   p_adapt_in := (lweight (adapt_in self), lbias (adapt_in self));
                   p_adapt_out := (lweight (adapt_out self), lbias (adapt_out self));
                   p_dropout_scale := dropout_scale self;
                   p_finfo_min := finfo_min self |} in
  conv1 self = conv1 init /\ conv2 self = conv2 init /\
  layer_norm self = layer_norm init /\
  adapt_in self = adapt_in init /\ adapt_out self = adapt_out init.

(** The addition of the position embeddings. The table has
    [max_source_positions] rows; for a longer input it is padded with zero
    rows, so frame [t] receives row [t] of the table, or zeros beyond it. *)
Definition add_positions (self : InternTimeSeriesEncoder) (inputs_embeds : list (list (list A)))
  : list (list (list A)) :=
  map (fun s =>
    imap (fun t fr =>
      imap (fun c v =>
        s_add v (if (Z.of_nat t <? enc_max_source_positions self)
                 then embed_positions self t c else s_zero)) fr) s) inputs_embeds.

(** [nn.functional.dropout(hidden_states, p, training)]. *)
Definition dropout (self : InternTimeSeriesEncoder) (r : rng) (x : list (list (list A)))
  : list (list (list A)) :=
  if training self then
    imap (fun b s => imap (fun t fr => imap (fun c v =>
      if dropout_keep r b t c then dropout_scale self v else s_zero) fr) s) x
  else x.

(** The loop over the encoder layers. A layer skipped by LayerDrop leaves the
    hidden states as they are. The second component lists, in order, the
    attention mask each called layer received. *)
Fixpoint run_layers (training : bool) (r : rng) (attention_mask : option mask4)
  (idx : nat) (layers : list encoder_layer) (hidden_states : list (list (list A)))
  : list (list (list A)) * list (option mask4) :=
  match layers with
  | [] => (hidden_states, [])
  | encoder_layer :: rest =>
      let to_drop := training && layer_dropped r idx in
      if to_drop then run_layers training r attention_mask (S idx) rest hidden_states
      else
        let hidden_states := encoder_layer hidden_states attention_mask in
        let '(out, trace) := run_layers training r attention_mask (S idx) rest hidden_states in
        (out, attention_mask :: trace)
  end.

(** The attention mask [forward] builds from [input_shape = (bsz, n)]. *)
Definition build_attention_mask (self : InternTimeSeriesEncoder) (bsz n : nat)
  : result (option mask4) :=
  let past_key_values_length := 0 in
  match mask_type self with
  | Some t =>
      if String.eqb t "chunk" then
        m <- prepare_chunk_attention_mask (chunk_length self) bsz n ;; Ok (Some m)
      else Ok (_prepare_decoder_attention_mask bsz n (finfo_min self) past_key_values_length)
  | None => Ok (_prepare_decoder_attention_mask bsz n (finfo_min self) past_key_values_length)
  end.

(** The first part of [forward]: the input adapter and the two convolutions,
    which give [inputs_embeds]. *)
Definition encoder_inputs_embeds (self : InternTimeSeriesEncoder)
  (input_features : list (list (list A))) : result (list (list (list A))) :=
  input_features <- on_last (Linear_forward1 (adapt_in self)) input_features ;;
  x <- Conv1d_forward (conv1 self) input_features ;;
  let inputs_embeds := map3 s_gelu x in
  x <- Conv1d_forward (conv2 self) inputs_embeds ;;
  Ok (map3 s_gelu x).

(** [InternTimeSeriesEncoder.forward] with [attention_mask], [head_mask],
    [output_attentions] and [output_hidden_states] left at [None]: the last
    hidden state, and the masks handed to the layers. *)
Definition InternTimeSeriesEncoder_forward (self : InternTimeSeriesEncoder) (r : rng)
  (input_features : list (list (list A)))
  : result (list (list (list A)) * list (option mask4)) :=
  inputs_embeds <- encoder_inputs_embeds self input_features ;;
  let hidden_states := add_positions self inputs_embeds in
  let hidden_states := dropout self r hidden_states in
  attention_mask <- build_attention_mask self (length inputs_embeds) (shape1 inputs_embeds) ;;
  let '(hidden_states, trace) :=
    run_layers (training self) r attention_mask 0 (enc_layers self) hidden_states in
  hidden_states <- on_last (LayerNorm_forward1 (layer_norm self)) hidden_states ;;
  hidden_states <- on_last (Linear_forward1 (adapt_out self)) hidden_states ;;
  Ok (hidden_states, trace).

Record InternTimeSeriesModel : Type := {
  model_config : InternTimeSeriesEncoderConfig;
  encoder_embed : @Conv1dSubsampling A;
  encoder : InternTimeSeriesEncoder
}.

Definition InternTimeSeriesModel_init (config : InternTimeSeriesEncoderConfig)
  (cnn_params : nat -> (nat -> nat -> nat -> A) * (nat -> A)) (p : encoder_params)
  : result InternTimeSeriesModel :=
  encoder_embed <- Conv1dSubsampling_init config cnn_params ;;
  Ok {| model_config := config;
        encoder_embed := encoder_embed;
        encoder := InternTimeSeriesEncoder_init config p |}.

(** What [forward] returns: a [TimeSeriesModelOutput], of which the last
    hidden state and the padding mask are kept. *)
Inductive ts_model_output : Type :=
| TimeSeriesModelOutput (last_hidden_state : list (list (list A)))
                        (ts_pad_mask : list (list bool)).

(** [(x_lens + 1) // 2], for a length in range. *)
Definition halve_len (l : Z) : Z := (l + 1) / 2.

(** [InternTimeSeriesModel.forward(time_series_signals, x_lens,
    return_dict=return_dict, time_series_embeds=time_series_embeds)] with
    [output_hidden_states] left off. With [return_dict=False] the encoder
    returns a plain tuple, and reading [encoder_outputs.last_hidden_state]
    raises. *)
Definition InternTimeSeriesModel_forward (self : InternTimeSeriesModel) (r : rng)
  (time_series_signals : option (list (list (list A)))) (x_lens : option (list Z))
  (return_dict : bool) (time_series_embeds : option (list (list (list A))))
  : result ts_model_output :=
  match time_series_signals, time_series_embeds with
  | None, None => Raise (ValueError "You have to specify time_series_signals or time_series_embeds")
  | _, _ =>
    '(input_embeds, x_lens) <-
      (let use_signals :=
         match time_series_signals with
         | Some signals =>
             '(e, l) <- Conv1dSubsampling_forward (encoder_embed self) signals x_lens ;;
             Ok (e, Some l)
         | None => Raise (AttributeError "'NoneType' object has no attribute 'shape'")
         end in
       match time_series_embeds with
       | Some embeds =>
           if (Z.of_nat (shape2 embeds) =? ts_adapt_in_dim (model_config self)) then Ok (embeds, x_lens)
           else use_signals
       | None => use_signals
       end) ;;
    '(last_hidden_state, _) <- InternTimeSeriesEncoder_forward (encoder self) r input_embeds ;;
    match x_lens with
    | None => Raise (TypeError "unsupported operand type(s) for +: 'NoneType' and 'int'")
    | Some x_lens =>
        let x_lens := map halve_len x_lens in
        if negb (forallb (fun l => 0 <? l) x_lens) then
          Raise (AssertionError "The length of time_series_embeds is so small.")
        else
          src_key_padding_mask <- make_pad_mask x_lens ;;
          if negb return_dict then
            Raise (AttributeError "'tuple' object has no attribute 'last_hidden_state'")
          else Ok (TimeSeriesModelOutput last_hidden_state src_key_padding_mask)
    end
  end.

End WithScalar.

End Encoder.
(** ** InternS1Model.forward: merging the modalities into the embeddings *)

Module Merge.

(** [thread f ms xs src] runs [f] over the elements of [xs] paired with the
    masks [ms], from the left, handing the unread part of the source from one
    call to the next. Elements without a mask are left as they are. *)
Fixpoint thread {A X M : Type} (f : M -> X -> list A -> result (X * list A))
  (ms : list M) (xs : list X) (src : list A) {struct xs} : result (list X * list A) :=
  match xs with
  | [] => Ok ([], src)
  | x :: xs' =>
      match ms with
      | [] => Ok (x :: xs', src)
      | m :: ms' =>
          '(y, src1) <- f m x src ;;
          '(ys, src2) <- thread f ms' xs' src1 ;;
          Ok (y :: ys, src2)
      end
  end.

(** The elements of [xs] whose bit is set. *)
Definition pick {X : Type} (bits : list bool) (xs : list X) : list X :=
  map snd (filter fst (combine bits xs)).

(** The rows of a (B, S, H) tensor at the positions a (B, S) mask selects, in
    row-major order. *)
Definition pick2 {X : Type} (mask : list (list bool)) (t : list (list X)) : list X :=
  concat (map (fun p => pick (fst p) (snd p)) (combine mask t)).

(** The error of [masked_scatter] when the source runs out. *)
Definition scatter_error : exn :=
  RuntimeError "masked_scatter: expected source to have at least as many elements as mask".

Section WithElements.
Context {A : Type} (A_eqb : A -> A -> bool).

(** One element of [masked_scatter]: where the mask is set the next element
    of the source is copied, which has to exist. *)
Definition scatter_elem (b : bool) (a : A) (src : list A) : result (A * list A) :=
  if b then
    match src with
    | s :: src' => Ok (s, src')
    | [] => Raise scatter_error
    end
  else Ok (a, src).

Definition scatter1 := thread scatter_elem.
Definition scatter2 := thread scatter1.
Definition scatter3 := thread scatter2.

(** [x.masked_scatter(mask, source)] on a (B, S, H) tensor, with [source]
    read in row-major order. *)
Definition masked_scatter (x : list (list (list A))) (mask : list (list (list bool)))
  (source : list A) : result (list (list (list A))) :=
  '(y, _) <- scatter3 mask x source ;; Ok y.

(** [x[mask]] for a mask of the shape of [x]: the selected elements. *)
Definition masked_select (x : list (list (list A))) (mask : list (list (list bool))) : list A :=
  concat (concat (map (fun p => map (fun q => pick (fst q) (snd q)) (combine (fst p) (snd p)))
                      (combine mask x))).

(** [mask.unsqueeze(-1).expand_as(x)]. *)
Definition expand_as (mask : list (list bool)) (x : list (list (list A)))
  : list (list (list bool)) :=
  map (fun p => map (fun q => repeat (fst q) (length (snd q))) (combine (fst p) (snd p)))
      (combine mask x).

(** The same on one batch element. *)
Definition m2 (bits : list bool) (rows : list (list A)) : list (list bool) :=
  map (fun q => repeat (fst q) (length (snd q))) (combine bits rows).

(** [t.numel()] and the row-major list of elements of a 3-D tensor. *)
Definition flatten3 (t : list (list (list A))) : list A := concat (concat t).
Definition numel3 (t : list (list (list A))) : nat := length (flatten3 t).

(** [input_ids == token_id]. *)
Definition eq_token (input_ids : list (list Z)) (token_id : Z) : list (list bool) :=
  map (map (fun i => i =? token_id)) input_ids.

(** [(inputs_embeds == v).all(-1)]. *)
Definition eq_embedding (inputs_embeds : list (list (list A))) (v : list A) : list (list bool) :=
  map (map (fun row => forallb (fun p => A_eqb (fst p) (snd p)) (combine row v))) inputs_embeds.

(** [features[~pad_mask]]: the rows of the (B, T, C) features at the
    positions the (B, T) mask does not mark as padding. The mask has to have
    the shape of the first two dimensions. *)
Definition select_valid (features : list (list (list A))) (pad_mask : list (list bool))
  : result (list (list A)) :=
  if (length pad_mask =? length features)%nat
     && forallb (fun p => (length (fst p) =? length (snd p))%nat) (combine pad_mask features) then
    Ok (pick2 (map (map negb) pad_mask) features)
  else Raise (IndexError "The shape of the mask does not match the shape of the indexed tensor").

Definition is_none {X : Type} (o : option X) : bool :=
  match o with
  | None => true
  | Some _ => false
  end.

(** The special-token mask of [forward]: from the token ids when they are
    given, otherwise by comparing the embeddings with the embedding of the
    token. *)
Definition special_mask (embed_tokens : Z -> list A) (input_ids : option (list (list Z)))
  (inputs_embeds : list (list (list A))) (token_id : Z) : list (list bool) :=
  match input_ids with
  | None => eq_embedding inputs_embeds (embed_tokens token_id)
  | Some ids => eq_token ids token_id
  end.

(** One merge block of [forward]: the mask of the special token is expanded
    over the hidden dimension, the number of selected elements is compared
    with the number of feature elements unless the graph is being compiled,
    and the features are scattered into the selected positions. The image
    block and the time-series block differ in the token, the features and the
    message. *)
Definition merge_features (compiling : bool) (msg : string) (embed_tokens : Z -> list A)
  (input_ids : option (list (list Z))) (inputs_embeds : list (list (list A)))
  (token_id : Z) (features : list A) : result (list (list (list A))) :=
  let special_mask := special_mask embed_tokens input_ids inputs_embeds token_id in
  let special_mask := expand_as special_mask inputs_embeds in
  if negb compiling
     && negb (length (masked_select inputs_embeds special_mask) =? length features)%nat then
    Raise (ValueError msg)
  else masked_scatter inputs_embeds special_mask features.

Definition image_mismatch : string := "Image features and image tokens do not match".
Definition ts_mismatch : string := "Time series features and time series tokens do not match".

(** [if pixel_values is not None: ...] *)
Definition merge_image (compiling : bool) (image_token_id : Z) (embed_tokens : Z -> list A)
  (input_ids : option (list (list Z))) (inputs_embeds : list (list (list A)))
  (image_features : option (list (list (list A)))) : result (list (list (list A))) :=
  match image_features with
  | None => Ok inputs_embeds
  | Some image_features =>
      merge_features compiling image_mismatch embed_tokens input_ids inputs_embeds
                     image_token_id (flatten3 image_features)
  end.

(** [if time_series_signals is not None: ...] *)
Definition merge_time_series (compiling : bool) (ts_context_token_id : Z)
  (embed_tokens : Z -> list A)
  (input_ids : option (list (list Z))) (inputs_embeds : list (list (list A)))
  (time_series : option (list (list (list A)) * list (list bool)))
  : result (list (list (list A))) :=
  match time_series with
  | None => Ok inputs_embeds
  | Some (time_series_features, ts_pad_mask) =>
      ts_features_valid <- select_valid time_series_features ts_pad_mask ;;
      merge_features compiling ts_mismatch embed_tokens input_ids inputs_embeds
                     ts_context_token_id (concat ts_features_valid)
  end.

(** The embeddings [forward] starts from. *)
Definition initial_embeds (embed_tokens : Z -> list A)
  (input_ids : option (list (list Z))) (inputs_embeds : option (list (list (list A))))
  : list (list (list A)) :=
  match inputs_embeds with
  | None => map (map embed_tokens) (match input_ids with Some ids => ids | None => [] end)
  | Some e => e
  end.

(** [InternS1Model.forward] up to the call of the language model: the value
    of [inputs_embeds] that is handed to [self.language_model].
    [image_features] is the result of [get_image_features] when
    [pixel_values] is given, [time_series] the pair returned by
    [get_time_series_features] when [time_series_signals] is given;
    [compiling] is [is_torchdynamo_compiling()]; [embed_tokens] is
    [self.get_input_embeddings()]. *)
Definition InternS1Model_forward (compiling : bool)
  (image_token_id ts_context_token_id : Z) (embed_tokens : Z -> list A)
  (input_ids : option (list (list Z))) (inputs_embeds : option (list (list (list A))))
  (image_features : option (list (list (list A))))
  (time_series : option (list (list (list A)) * list (list bool)))
  : result (list (list (list A))) :=
  if xorb (is_none input_ids) (negb (is_none inputs_embeds)) then
    Raise (ValueError "You must specify exactly one of input_ids or inputs_embeds")
  else
    let inputs_embeds := initial_embeds embed_tokens input_ids inputs_embeds in
    inputs_embeds <- merge_image compiling image_token_id embed_tokens input_ids
                                 inputs_embeds image_features ;;
    merge_time_series compiling ts_context_token_id embed_tokens input_ids
                      inputs_embeds time_series.

(** The number of embedding elements at the positions of a special token,
    [inputs_embeds[special_mask].numel()]. *)
Definition token_elements (embed_tokens : Z -> list A) (input_ids : option (list (list Z)))
  (inputs_embeds : list (list (list A))) (token_id : Z) : nat :=
  length (masked_select inputs_embeds
            (expand_as (special_mask embed_tokens input_ids inputs_embeds token_id) inputs_embeds)).

(** The closed form of [thread]: [total] is the number of source elements a
    run reads, [rebuild] the result written from exactly those elements. *)
Fixpoint total {X M : Type} (cnt : M -> X -> nat) (ms : list M) (xs : list X) {struct xs}
  : nat :=
  match xs with
  | [] => 0%nat
  | x :: xs' =>
      match ms with
      | [] => 0%nat
      | m :: ms' => (cnt m x + total cnt ms' xs')%nat
      end
  end.

Fixpoint rebuild {X M : Type} (cnt : M -> X -> nat) (g : M -> X -> list A -> X)
  (ms : list M) (xs : list X) (chunk : list A) {struct xs} : list X :=
  match xs with
  | [] => []
  | x :: xs' =>
      match ms with
      | [] => x :: xs'
      | m :: ms' =>
          g m x (firstn (cnt m x) chunk) :: rebuild cnt g ms' xs' (skipn (cnt m x) chunk)
      end
  end.

Definition cnt0 (b : bool) (a : A) : nat := if b then 1%nat else 0%nat.
Definition g0 (b : bool) (a : A) (chunk : list A) : A := if b then hd a chunk else a.
Definition cnt1 := total cnt0.
Definition g1 := rebuild cnt0 g0.
Definition cnt2 := total cnt1.
Definition g2 := rebuild cnt1 g1.
Definition cnt3 := total cnt2.
Definition g3 := rebuild cnt2 g2.

End WithElements.

End Merge.
(** ** InternS1VisionConfig and InternS1Config *)

Module Config.
Import TSConfig.

(** [image_size] and [patch_size] are an int or a list of two ints. *)
Inductive size_arg : Type :=
| SizeInt (n : Z)
| SizeList (l : list Z).

(** [x if isinstance(x, (list, tuple)) else (x, x)] *)
Definition as_pair (s : size_arg) : list Z :=
  match s with
  | SizeList l => l
  | SizeInt n => [n; n]
  end.

Record InternS1VisionConfig : Type := {
  hidden_size : Z;
  num_hidden_layers : Z;
  num_attention_heads : Z;
  attention_bias : bool;
  use_qk_norm : bool;
  intermediate_size : Z;
  hidden_act : string;
  hidden_dropout_prob : Q;
  attention_dropout : Q;
  projection_dropout : Q;
  drop_path_rate : Q;
  initializer_range : Q;
  norm_type : string;
  layer_norm_eps : Q;
  image_size : list Z;
  patch_size : list Z;
  num_channels : Z;
  use_mask_token : bool;
  use_absolute_position_embeddings : bool;
  layer_scale_init_value : Q;
  use_mean_pooling : bool
}.

(** The keyword arguments of [InternS1VisionConfig.__init__]. *)
Record vision_kwargs : Type := {
  kw_hidden_size : option Z;
  kw_num_hidden_layers : option Z;
  kw_num_attention_heads : option Z;
  kw_attention_bias : option bool;
  kw_use_qk_norm : option bool;
  kw_intermediate_size : option Z;
  kw_hidden_act : option string;
  kw_hidden_dropout_prob : option Q;
  kw_attention_dropout : option Q;
  kw_projection_dropout : option Q;
  kw_drop_path_rate : option Q;
  kw_initializer_range : option Q;
  kw_norm_type : option string;
  kw_layer_norm_eps : option Q;
  kw_image_size : option size_arg;
  kw_patch_size : option size_arg;
  kw_num_channels : option Z;
  kw_use_mask_token : option bool;
  kw_use_absolute_position_embeddings : option bool;
  kw_layer_scale_init_value : option Q;
  kw_use_mean_pooling : option bool
}.

Definition InternS1VisionConfig_init (kw : vision_kwargs) : InternS1VisionConfig := {|
  hidden_size := default (kw_hidden_size kw) 1024;
  num_hidden_layers := default (kw_num_hidden_layers kw) 24;
  num_attention_heads := default (kw_num_attention_heads kw) 16;
  attention_bias := default (kw_attention_bias kw) false;
  use_qk_norm := default (kw_use_qk_norm kw) false;
  intermediate_size := default (kw_intermediate_size kw) 4096;
  hidden_act := default (kw_hidden_act kw) "gelu"%string;
  hidden_dropout_prob := default (kw_hidden_dropout_prob kw) 0%Q;
  attention_dropout := default (kw_attention_dropout kw) 0%Q;
  projection_dropout := default (kw_projection_dropout kw) 0%Q;
  drop_path_rate := default (kw_drop_path_rate kw) 0%Q;
  initializer_range := default (kw_initializer_range kw) (2 # 100)%Q;
  norm_type := default (kw_norm_type kw) "layer_norm"%string;
  layer_norm_eps := default (kw_layer_norm_eps kw) (1 # 1000000)%Q;
  image_size := as_pair (default (kw_image_size kw) (SizeList [448; 448]));
  patch_size := as_pair (default (kw_patch_size kw) (SizeList [14; 14]));
  num_channels := default (kw_num_channels kw) 3;
  use_mask_token := default (kw_use_mask_token kw) false;
  use_absolute_position_embeddings := default (kw_use_absolute_position_embeddings kw) true;
  layer_scale_init_value := default (kw_layer_scale_init_value kw) (1 # 10)%Q;
  use_mean_pooling := default (kw_use_mean_pooling kw) true
|}.

Definition no_vision_kwargs : vision_kwargs := {|
  kw_hidden_size := None; kw_num_hidden_layers := None; kw_num_attention_heads := None;
  kw_attention_bias := None; kw_use_qk_norm := None; kw_intermediate_size := None;
  kw_hidden_act := None; kw_hidden_dropout_prob := None; kw_attention_dropout := None;
  kw_projection_dropout := None; kw_drop_path_rate := None; kw_initializer_range := None;
  kw_norm_type := None; kw_layer_norm_eps := None; kw_image_size := None;
  kw_patch_size := None; kw_num_channels := None; kw_use_mask_token := None;
  kw_use_absolute_position_embeddings := None; kw_layer_scale_init_value := None;
  kw_use_mean_pooling := None
|}.

(** The forms a sub-configuration argument can take: [None], a dict of
    keyword arguments, an instance of the configuration class, or any other
    object. *)
Inductive config_arg (D C : Type) : Type :=
| ArgNone
| ArgDict (d : D)
| ArgInstance (c : C)
| ArgOther.
Arguments ArgNone {D C}.
Arguments ArgDict {D C} d.
Arguments ArgInstance {D C} c.
Arguments ArgOther {D C}.

(** The attributes of the text configuration the model reads. The classes of
    [CONFIG_MAPPING] are defined outside this repository;
    [output_router_logits] is present for the mixture-of-experts backbones
    only. *)
Record TextConfig : Type := {
  text_model_type : string;
  text_hidden_size : Z;
  vocab_size : Z;
  output_router_logits : option bool;
  num_experts : Z;
  num_experts_per_tok : Z
}.

Section Init.

(** [CONFIG_MAPPING]: from a model type to the constructor of its
    configuration class, which takes the keyword arguments. *)
Context {TK : Type} (CONFIG_MAPPING : string -> option (option TK -> TextConfig)).
(** The defaults [WhisperConfig] gives to [num_mel_bins], [d_model],
    [max_source_positions] and [encoder_layers]. *)
Context (whisper_defaults : Z * Z * Z * Z).

(** An [InternS1Config] object: an attribute that [__init__] has not assigned
    is absent. *)
Record InternS1Config : Type := {
  image_token_id : Z;
  ts_context_token_id : Z;
  ts_select_layer : Z;
  image_seq_length : Z;
  downsample_ratio : Q;
  projector_hidden_act : string;
  vision_feature_layer : Z;
  vision_feature_select_strategy : string;
  vision_config : option InternS1VisionConfig;
  ts_config : option InternTimeSeriesEncoderConfig;
  text_config : option TextConfig
}.

Record init_kwargs : Type := {
  kw_image_token_id : option Z;
  kw_ts_context_token_id : option Z;
  kw_ts_select_layer : option Z;
  kw_image_seq_length : option Z;
  kw_downsample_ratio : option Q;
  kw_projector_hidden_act : option string;
  kw_vision_feature_layer : option Z;
  kw_vision_feature_select_strategy : option string
}.

Definition lookup_config (model_type : string) : result (option TK -> TextConfig) :=
  match CONFIG_MAPPING model_type with
  | Some cls => Ok cls
  | None => Raise (KeyError model_type)
  end.

Definition default_ts_config : result InternTimeSeriesEncoderConfig :=
  let '(mel, d, pos, layers) := whisper_defaults in
  InternTimeSeriesEncoderConfig_init (no_kwargs mel d pos layers).

(** [InternS1Config.__init__]. The text dict carries its ["model_type"] entry,
    if any, next to the other keyword arguments. The remaining [**kwargs] go
    to [PretrainedConfig.__init__], which is outside this repository; they
    cannot name [vision_config], [text_config] or [ts_config], which are
    parameters of this signature. *)
Definition InternS1Config_init
  (vision_config : config_arg vision_kwargs InternS1VisionConfig)
  (text_config : config_arg (option string * TK) TextConfig)
  (ts_config : config_arg kwargs InternTimeSeriesEncoderConfig)
  (kw : init_kwargs) : result InternS1Config :=
  (* self.vision_config *)
  let self_vision_config :=
    match vision_config with
    | ArgDict d => Some (InternS1VisionConfig_init d)
    | ArgInstance c => Some c
    | ArgNone => Some (InternS1VisionConfig_init no_vision_kwargs)
    | ArgOther => None
    end in
  (* the local variable text_config *)
  text_config <-
    match text_config with
    | ArgDict (model_type, d) =>
        let model_type := default model_type "qwen3_moe"%string in
        cls <- lookup_config model_type ;;
        Ok (Some (cls (Some d)))
    | ArgNone =>
        cls <- lookup_config "qwen3_moe"%string ;;
        Ok (Some (cls None))
    | ArgInstance c => Ok (Some c)
    | ArgOther => Ok None
    end ;;
  (* self.ts_config: the dict branch only rebinds the local variable *)
  self_ts_config <-
    match ts_config with
    | ArgDict d =>
        ts_config <- InternTimeSeriesEncoderConfig_init d ;;
        Ok None
    | ArgInstance c => Ok (Some c)
    | ArgNone =>
        c <- default_ts_config ;;
        Ok (Some c)
    | ArgOther => Ok None
    end ;;
  Ok {| image_token_id := default (kw_image_token_id kw) 151667;
        ts_context_token_id := default (kw_ts_context_token_id kw) 151668;
        ts_select_layer := default (kw_ts_select_layer kw) (-1);
        image_seq_length := default (kw_image_seq_length kw) 256;
        downsample_ratio := default (kw_downsample_ratio kw) (1 # 2)%Q;
        projector_hidden_act := default (kw_projector_hidden_act kw) "gelu"%string;
        vision_feature_layer := default (kw_vision_feature_layer kw) (-1);
        vision_feature_select_strategy :=
          default (kw_vision_feature_select_strategy kw) "default"%string;
        vision_config := self_vision_config;
        ts_config := self_ts_config;
        text_config := text_config |}.

Definition no_init_kwargs : init_kwargs := {|
  kw_image_token_id := None; kw_ts_context_token_id := None; kw_ts_select_layer := None;
  kw_image_seq_length := None; kw_downsample_ratio := None; kw_projector_hidden_act := None;
  kw_vision_feature_layer := None; kw_vision_feature_select_strategy := None
|}.

End Init.

(** A table with the one entry the defaults need, for the examples. *)
Definition example_text_config : TextConfig := {|
  text_model_type := "qwen3_moe";
  text_hidden_size := 2;
  vocab_size := 16;
  output_router_logits := Some false;
  num_experts := 2;
  num_experts_per_tok := 1
|}.

Definition example_CONFIG_MAPPING (model_type : string) : option (option unit -> TextConfig) :=
  if String.eqb model_type "qwen3_moe" then Some (fun _ => example_text_config) else None.

Definition example_whisper_defaults : Z * Z * Z * Z := (80, 384, 1500, 4).

End Config.
(** ** InternTSProjector and InternS1MultiModalProjector *)

Module Projector.
Import Conv TSConfig Config.

(** A tensor of any rank of at least one: a vector of the last dimension, or
    a stack of tensors along a leading dimension. *)
#[warnings="-register-all"]
Inductive tensor (A : Type) : Type :=
| Vec (v : list A)
| Stack (ts : list (tensor A)).
Arguments Vec {A} v.
Arguments Stack {A} ts.

(** A module that acts on the last dimension, applied to a tensor. *)
Fixpoint map_last {A : Type} (f : list A -> result (list A)) (t : tensor A)
  : result (tensor A) :=
  match t with
  | Vec v => y <- f v ;; Ok (Vec y)
  | Stack ts =>
      ys <- (fix go (l : list (tensor A)) : result (list (tensor A)) :=
               match l with
               | [] => Ok []
               | x :: l' => y <- map_last f x ;; ys <- go l' ;; Ok (y :: ys)
               end) ts ;;
      Ok (Stack ys)
  end.

(** An element-wise activation. *)
Fixpoint tmap {A : Type} (f : A -> A) (t : tensor A) : tensor A :=
  match t with
  | Vec v => Vec (map f v)
  | Stack ts => Stack (map (tmap f) ts)
  end.

(** The leading dimensions of a tensor: the tensor with its vectors emptied. *)
Fixpoint leading {A : Type} (t : tensor A) : tensor unit :=
  match t with
  | Vec _ => Vec []
  | Stack ts => Stack (map leading ts)
  end.

(** Every vector of the last dimension has [n] elements. *)
Fixpoint last_dim {A : Type} (n : nat) (t : tensor A) : Prop :=
  match t with
  | Vec v => length v = n
  | Stack ts =>
      (fix all (l : list (tensor A)) : Prop :=
         match l with
         | [] => True
         | x :: l' => last_dim n x /\ all l'
         end) ts
  end.

(** [int(x)] of a float: truncation towards zero. *)
Definition py_int (q : Q) : Z := Z.quot (Qnum q) (Zpos (Qden q)).

(** [int(1 / downsample_ratio) ** 2] *)
Definition downsample_factor (downsample_ratio : Q) : result Z :=
  if Qeq_bool downsample_ratio 0 then Raise ZeroDivisionError
  else Ok (py_int (1 / downsample_ratio) ^ 2).

Definition attribute {T : Type} (name : string) (o : option T) : result T :=
  match o with
  | Some v => Ok v
  | None => Raise (AttributeError name)
  end.

Section WithScalar.
Context {A : Type} `{Scalar A}.

Record InternTSProjector : Type := {
  ts_layer_norm : LayerNorm A;
  ts_linear_1 : Linear A;
  ts_linear_2 : Linear A
}.

(** The learned parameters of a projector. *)
Record projector_params : Type := {
  pp_layer_norm : (nat -> A) * (nat -> A);
  pp_linear_1 : (nat -> nat -> A) * (nat -> A);
  pp_linear_2 : (nat -> nat -> A) * (nat -> A)
}.

Definition mk_layer_norm (n : Z) (p : (nat -> A) * (nat -> A)) : LayerNorm A :=
  {| normalized_shape := Z.to_nat n; gamma := fst p; beta := snd p |}.

Definition mk_linear (n_in n_out : Z) (p : (nat -> nat -> A) * (nat -> A)) : Linear A :=
  {| in_features := Z.to_nat n_in; out_features := Z.to_nat n_out;
     lweight := fst p; lbias := snd p |}.

(** [nn.LayerNorm(n)] and [nn.Linear(n_in, n_out)]: the constructors
    allocate the parameters, which fails for a negative size. *)
Definition LayerNorm_init (n : Z) (p : (nat -> A) * (nat -> A)) : result (LayerNorm A) :=
  if n <? 0 then Raise (RuntimeError "Trying to create tensor with negative dimension")
  else Ok (mk_layer_norm n p).

Definition Linear_init (n_in n_out : Z) (p : (nat -> nat -> A) * (nat -> A))
  : result (Linear A) :=
  if (n_in <? 0) || (n_out <? 0) then
    Raise (RuntimeError "Trying to create tensor with negative dimension")
  else Ok (mk_linear n_in n_out p).

Definition InternTSProjector_init (config : InternS1Config) (p : projector_params)
  : result InternTSProjector :=
  tc <- attribute "ts_config" (ts_config config) ;;
  let ts_hidden_size := ts_hidden_dim tc in
  xc <- attribute "text_config" (text_config config) ;;
  let llm_hidden_size := text_hidden_size xc in
  layer_norm <- LayerNorm_init ts_hidden_size (pp_layer_norm p) ;;
  linear_1 <- Linear_init ts_hidden_size llm_hidden_size (pp_linear_1 p) ;;
  linear_2 <- Linear_init llm_hidden_size llm_hidden_size (pp_linear_2 p) ;;
  Ok {| ts_layer_norm := layer_norm;
        ts_linear_1 := linear_1;
        ts_linear_2 := linear_2 |}.

Definition InternTSProjector_forward (self : InternTSProjector) (ts_features : tensor A)
  : result (tensor A) :=
  hidden_states <- map_last (LayerNorm_forward1 (ts_layer_norm self)) ts_features ;;
  hidden_states <- map_last (Linear_forward1 (ts_linear_1 self)) hidden_states ;;
  let hidden_states := tmap s_gelu hidden_states in
  map_last (Linear_forward1 (ts_linear_2 self)) hidden_states.

Record InternS1MultiModalProjector : Type := {
  mm_layer_norm : LayerNorm A;
  mm_linear_1 : Linear A;
  mm_act : A -> A;
  mm_linear_2 : Linear A
}.

(** [ACT2FN], the table of activation functions, is defined outside this
    repository. The statements of [__init__] run in order: the layer norm,
    whose size reads [vision_config] and the downsample ratio, the first
    linear layer, which reads [text_config], the activation, the second
    linear layer. *)
Definition InternS1MultiModalProjector_init (ACT2FN : string -> option (A -> A))
  (config : InternS1Config) (p : projector_params) : result InternS1MultiModalProjector :=
  vc <- attribute "vision_config" (vision_config config) ;;
  k <- downsample_factor (downsample_ratio config) ;;
  layer_norm <- LayerNorm_init (hidden_size vc * k) (pp_layer_norm p) ;;
  xc <- attribute "text_config" (text_config config) ;;
  linear_1 <- Linear_init (hidden_size vc * k) (text_hidden_size xc) (pp_linear_1 p) ;;
  act <- match ACT2FN (projector_hidden_act config) with
         | Some f => Ok f
         | None => Raise (KeyError (projector_hidden_act config))
         end ;;
  linear_2 <- Linear_init (text_hidden_size xc) (text_hidden_size xc) (pp_linear_2 p) ;;
  Ok {| mm_layer_norm := layer_norm;
        mm_linear_1 := linear_1;
        mm_act := act;
        mm_linear_2 := linear_2 |}.

Definition InternS1MultiModalProjector_forward (self : InternS1MultiModalProjector)
  (image_features : tensor A) : result (tensor A) :=
  hidden_states <- map_last (LayerNorm_forward1 (mm_layer_norm self)) image_features ;;
  hidden_states <- map_last (Linear_forward1 (mm_linear_1 self)) hidden_states ;;
  let hidden_states := tmap (mm_act self) hidden_states in
  map_last (Linear_forward1 (mm_linear_2 self)) hidden_states.

(** What the projector does to one vector of the last dimension. *)
Definition project_vector (ln : LayerNorm A) (l1 : Linear A) (act : A -> A) (l2 : Linear A)
  (v : list A) : result (list A) :=
  a <- LayerNorm_forward1 ln v ;;
  b <- Linear_forward1 l1 a ;;
  Linear_forward1 l2 (map act b).

End WithScalar.

End Projector.
(** ** load_balancing_loss_func and the loss of InternS1ForConditionalGeneration

    The routing weights are floating-point numbers; they are modelled as real
    numbers, so that the softmax is the exact one. *)

Module Loss.
Import Stdlib.Reals.Reals.
Local Open Scope R_scope.

(** [torch.sum] of a 1-D tensor. *)
Definition rsum (l : list R) : R := fold_right Rplus 0 l.

(** [softmax(row, dim=-1)] *)
Definition softmax_row (row : list R) : list R :=
  let es := map exp row in
  map (fun e => e / rsum es) es.

(** The candidate with the largest value; among equal values the one that
    comes first. *)
Fixpoint best (l : list (nat * R)) : option (nat * R) :=
  match l with
  | [] => None
  | p :: l' =>
      match best l' with
      | None => Some p
      | Some q => if Rle_dec (snd q) (snd p) then Some p else Some q
      end
  end.

(** The indices of the [k] largest values, largest first. *)
Fixpoint topk_indices (k : nat) (cands : list (nat * R)) : list nat :=
  match k with
  | O => []
  | S k' =>
      match best cands with
      | None => []
      | Some p =>
          fst p :: topk_indices k' (filter (fun q => negb (fst q =? fst p)%nat) cands)
      end
  end.

(** [torch.topk(row, k, dim=-1)], the indices: [k] may not exceed the number
    of entries. *)
Definition topk (k : nat) (row : list R) : result (list nat) :=
  if (length row <? k)%nat then Raise (RuntimeError "selected index k out of range")
  else Ok (topk_indices k (combine (seq 0 (length row)) row)).

Definition one_hot_row (num_classes index : nat) : list R :=
  map (fun e => if (e =? index)%nat then 1 else 0) (seq 0 num_classes).

(** [one_hot(index, num_classes)]: the index has to be a class. *)
Definition one_hot (num_classes : nat) (index : nat) : result (list R) :=
  if (index <? num_classes)%nat then Ok (one_hot_row num_classes index)
  else Raise (RuntimeError "Class values must be smaller than num_classes.").

(** [torch.mean(m, dim=0)] and the weighted variant
    [torch.sum(m * w, dim=0) / torch.sum(w, dim=0)] for a matrix with [width]
    columns; [w] holds one weight per row. *)
Definition col_mean (width : nat) (m : list (list R)) : list R :=
  map (fun e => rsum (map (fun row => nth e row 0) m) / INR (length m)) (seq 0 width).

Definition col_weighted_mean (width : nat) (w : list R) (m : list (list R)) : list R :=
  map (fun e => rsum (map (fun p => nth e (fst p) 0 * snd p) (combine m w)) / rsum w)
      (seq 0 width).

(** What the function can be given as [gate_logits]. *)
Inductive gate_logits_arg : Type :=
| GateNone
| GateTensor (t : list (list R))
| GateTuple (layers : list (list (list R))).

(** What it returns: the Python integer 0 or a scalar tensor. *)
Inductive loss_value : Type :=
| IntZero
| Scalar (r : R).

(** [load_balancing_loss_func(gate_logits, num_experts, top_k, attention_mask)].
    Every layer of [gate_logits] has shape [tokens, num_experts], as the
    docstring has it, and a row of another width is rejected; the attention
    mask has shape [batch_size, sequence_length]. [torch.topk] is taken to
    return the smaller index first among equal weights. *)
Definition load_balancing_loss_func (gate_logits : gate_logits_arg) (num_experts : nat)
  (top_k : nat) (attention_mask : option (list (list R))) : result loss_value :=
  match gate_logits with
  | GateNone => Ok IntZero
  | GateTensor _ => Ok IntZero
  | GateTuple [] => Raise (IndexError "tuple index out of range")
  | GateTuple layers =>
      let concatenated_gate_logits := concat layers in
      if negb (forallb (fun row => (length row =? num_experts)%nat) concatenated_gate_logits) then
        Raise (RuntimeError "The size of tensor a must match the size of tensor b")
      else
        let routing_weights := map softmax_row concatenated_gate_logits in
        selected_experts <- mapM (topk top_k) routing_weights ;;
        expert_mask <- mapM (mapM (one_hot num_experts)) selected_experts ;;
        '(tokens_per_expert, router_prob_per_expert) <-
          match attention_mask with
          | None =>
              Ok (map (fun k => col_mean num_experts (map (fun tk => nth k tk []) expert_mask))
                      (seq 0 top_k),
                  col_mean num_experts routing_weights)
          | Some attention_mask =>
              let batch_size := length attention_mask in
              let sequence_length := shape1 attention_mask in
              if (batch_size * sequence_length =? 0)%nat then Raise ZeroDivisionError
              else
                let num_hidden_layers :=
                  (length concatenated_gate_logits / (batch_size * sequence_length))%nat in
                (* one weight per token of every layer *)
                let w := concat (repeat (concat attention_mask) num_hidden_layers) in
                if negb (length w =? length concatenated_gate_logits)%nat then
                  Raise (RuntimeError "The size of tensor a must match the size of tensor b")
                else
                  Ok (map (fun k => col_weighted_mean num_experts w
                                      (map (fun tk => nth k tk []) expert_mask))
                          (seq 0 top_k),
                      col_weighted_mean num_experts w routing_weights)
          end ;;
        let overall_loss :=
          rsum (map (fun row => rsum (map (fun p => fst p * snd p)
                                          (combine row router_prob_per_expert)))
                    tokens_per_expert) in
        Ok (Scalar (overall_loss * INR num_experts))
  end.

(** The keyword arguments of the call [self.model(...)] in
    [InternS1ForConditionalGeneration.forward]. The call names
    [output_router_logits] and also unpacks [**kwargs]; for a
    mixture-of-experts model [forward] has stored the same key in [kwargs]
    just before, and Python rejects a keyword that is given twice. For any
    other model the call goes on into [InternS1Model.forward]; what it
    returns is a parameter of [forward_loss]. *)
Definition call_model (is_moe_model : bool) : result unit :=
  if is_moe_model then
    Raise (TypeError "got multiple values for keyword argument 'output_router_logits'")
  else Ok tt.

(** [InternS1ForConditionalGeneration.forward] from the call of
    [self.model] on. [is_moe_model] says whether the text configuration has
    the attribute [output_router_logits], [config_output_router_logits] is
    its value; [lm_loss] is the value of [self.loss_function] when labels are
    given, [router_logits] is [outputs.router_logits]. The result is the pair
    [(loss, aux_loss)] of the output. *)
Definition forward_loss (is_moe_model : bool) (config_output_router_logits : bool)
  (router_aux_loss_coef : R) (num_experts num_experts_per_tok : nat)
  (output_router_logits : option bool) (labels_given : bool) (lm_loss : R)
  (router_logits : gate_logits_arg) (attention_mask : option (list (list R)))
  : result (option R * option R) :=
  let output_router_logits :=
    if is_moe_model then
      Some (match output_router_logits with
            | Some b => b
            | None => config_output_router_logits
            end)
    else output_router_logits in
  _ <- call_model is_moe_model ;;
  let loss := if labels_given then Some lm_loss else None in
  let truthy := match output_router_logits with Some true => true | _ => false end in
  if is_moe_model && truthy && labels_given then
    aux_loss <- load_balancing_loss_func router_logits num_experts num_experts_per_tok
                                         attention_mask ;;
    match aux_loss with
    | IntZero => Raise (AttributeError "'int' object has no attribute 'to'")
    | Scalar a =>
        Ok (match loss with
            | Some l => Some (l + router_aux_loss_coef * a)
            | None => None
            end, Some a)
    end
  else Ok (loss, None).

(** Whether [forward] computes the auxiliary loss: the text backbone is a
    mixture-of-experts model, [output_router_logits] is enabled, by the
    argument or else by the configuration, and labels are given. *)
Definition aux_loss_enabled (is_moe_model config_output_router_logits : bool)
  (output_router_logits : option bool) (labels_given : bool) : bool :=
  is_moe_model
  && match output_router_logits with
     | Some b => b
     | None => config_output_router_logits
     end
  && labels_given.

(** The sum of [f 0 + ... + f (n - 1)]. *)
Definition bigsum (n : nat) (f : nat -> R) : R := rsum (map f (seq 0 n)).

(** The experts [torch.topk] selects for a token with the given logits. *)
Definition selected (top_k : nat) (logits : list R) : list nat :=
  topk_indices top_k (combine (seq 0 (length logits)) (softmax_row logits)).

(** The indicator that expert [e] is among the selected experts. *)
Definition among (e : nat) (sel : list nat) : R :=
  if existsb (Nat.eqb e) sel then 1 else 0.

(** The loss as the specification words it: [num_experts] times the sum over
    the experts of the mean, over tokens and top-k slots, of the indicator
    that the expert is among the top-k, times the mean routing probability of
    the expert. *)
Definition balance_formula (num_experts top_k : nat) (logits : list (list R)) : R :=
  INR num_experts *
  bigsum num_experts (fun e =>
    (rsum (map (fun row => bigsum top_k (fun _ => among e (selected top_k row))) logits)
       / INR (length logits * top_k))
    * (rsum (map (fun row => nth e (softmax_row row) 0) logits) / INR (length logits))).

End Loss.
(** ** The outputs of the time-series model and their selection

    [InternTimeSeriesEncoder.forward] and [InternTimeSeriesModel.forward]
    with the arguments [output_hidden_states] and [return_dict], and
    [InternS1Model.get_time_series_features], which chooses among the hidden
    states. [output_attentions] is left at [None] by every caller in this
    file and is taken to be off. *)

Module Outputs.
Import Conv TSConfig Subsampling PadMask Masks Encoder Projector.

(** [t[k]] on a tuple: negative indices count from the end. *)
Definition tuple_index {X : Type} (t : list X) (k : Z) : result X :=
  let n := Z.of_nat (length t) in
  let i := if k <? 0 then k + n else k in
  if (i <? 0) || (n <=? i) then Raise (IndexError "tuple index out of range")
  else
    match nth_error t (Z.to_nat i) with
    | Some v => Ok v
    | None => Raise (IndexError "tuple index out of range")
    end.

(** Every vector of a (B, T, C) tensor has [n] elements. *)
Definition vectors_of_length {A : Type} (n : nat) (x : list (list (list A))) : Prop :=
  Forall (Forall (fun v => length v = n)) x.

(** A (B, T, C) tensor as a tensor of rank three. *)
Definition to_tensor {A : Type} (x : list (list (list A))) : tensor A :=
  Stack (map (fun s => Stack (map (@Vec A) s)) x).

Section WithScalar.
Context {A : Type} `{Scalar A}.

(** The loop over the layers when [output_hidden_states] is on: before every
    layer, skipped or not, the normalised hidden states are appended to
    [encoder_states]. *)
Fixpoint run_layers_states (training : bool) (r : rng) (attention_mask : option mask4)
  (layer_norm : LayerNorm A) (idx : nat) (layers : list encoder_layer)
  (hidden_states : list (list (list A))) (encoder_states : list (list (list (list A))))
  : result (list (list (list A)) * list (list (list (list A)))) :=
  match layers with
  | [] => Ok (hidden_states, encoder_states)
  | encoder_layer :: rest =>
      st <- on_last (LayerNorm_forward1 layer_norm) hidden_states ;;
      let encoder_states := encoder_states ++ [st] in
      let to_drop := training && layer_dropped r idx in
      let hidden_states :=
        if to_drop then hidden_states else encoder_layer hidden_states attention_mask in
      run_layers_states training r attention_mask layer_norm (S idx) rest
                        hidden_states encoder_states
  end.

(** What the encoder returns: the plain tuple of the values that are not
    None when [return_dict] is false, a [BaseModelOutput] otherwise. *)
Inductive encoder_outputs : Type :=
| EncoderTuple (hidden_states : list (list (list A)))
               (encoder_states : option (list (list (list (list A)))))
| BaseModelOutput (last_hidden_state : list (list (list A)))
                  (hidden_states : option (list (list (list (list A))))).

(** [InternTimeSeriesEncoder.forward(input_features, output_hidden_states,
    return_dict)]. *)
Definition InternTimeSeriesEncoder_forward_outputs (self : InternTimeSeriesEncoder) (r : rng)
  (input_features : list (list (list A))) (output_hidden_states return_dict : bool)
  : result encoder_outputs :=
  inputs_embeds <- encoder_inputs_embeds self input_features ;;
  let hidden_states := add_positions self inputs_embeds in
  let hidden_states := dropout self r hidden_states in
  attention_mask <- build_attention_mask self (length inputs_embeds) (shape1 inputs_embeds) ;;
  '(hidden_states, encoder_states) <-
    (if output_hidden_states then
       '(h, states) <- run_layers_states (training self) r attention_mask (layer_norm self)
                                         0 (enc_layers self) hidden_states [] ;;
       Ok (h, Some states)
     else
       Ok (fst (run_layers (training self) r attention_mask 0 (enc_layers self) hidden_states),
           None)) ;;
  hidden_states <- on_last (LayerNorm_forward1 (layer_norm self)) hidden_states ;;
  hidden_states <- on_last (Linear_forward1 (adapt_out self)) hidden_states ;;
  let encoder_states :=
    match encoder_states with
    | Some states => Some (states ++ [hidden_states])
    | None => None
    end in
  if negb return_dict then Ok (EncoderTuple hidden_states encoder_states)
  else Ok (BaseModelOutput hidden_states encoder_states).

(** [encoder_outputs.last_hidden_state] and [encoder_outputs.hidden_states]:
    a tuple has neither attribute. *)
Definition get_last_hidden_state (o : encoder_outputs) : result (list (list (list A))) :=
  match o with
  | BaseModelOutput h _ => Ok h
  | EncoderTuple _ _ => Raise (AttributeError "'tuple' object has no attribute 'last_hidden_state'")
  end.

Definition get_hidden_states (o : encoder_outputs)
  : result (option (list (list (list (list A))))) :=
  match o with
  | BaseModelOutput _ s => Ok s
  | EncoderTuple _ _ => Raise (AttributeError "'tuple' object has no attribute 'hidden_states'")
  end.

(** A [TimeSeriesModelOutput]. *)
Record ts_model_outputs : Type := {
  out_last_hidden_state : list (list (list A));
  out_hidden_states : option (list (list (list (list A))));
  out_ts_pad_mask : list (list bool)
}.

(** What [InternTimeSeriesModel.forward] returns: the tuple
    [(last_hidden_state,) + encoder_outputs[1:]] or a
    [TimeSeriesModelOutput]. *)
Inductive model_outputs : Type :=
| ModelTuple (last_hidden_state : list (list (list A)))
             (rest : option (list (list (list (list A)))))
| ModelOutput (o : ts_model_outputs).

(** The first part of [InternTimeSeriesModel.forward]: the input embeddings
    and the lengths that go with them, from [time_series_embeds] when they
    have three dimensions and [ts_adapt_in_dim] channels, otherwise from
    [encoder_embed] applied to the signals. *)
Definition model_input_embeds (self : InternTimeSeriesModel)
  (time_series_signals : option (list (list (list A)))) (x_lens : option (list Z))
  (time_series_embeds : option (list (list (list A))))
  : result (list (list (list A)) * option (list Z)) :=
  match time_series_signals, time_series_embeds with
  | None, None => Raise (ValueError "You have to specify time_series_signals or time_series_embeds")
  | _, _ =>
      let use_signals :=
        match time_series_signals with
        | Some signals =>
            '(e, l) <- Conv1dSubsampling_forward (encoder_embed self) signals x_lens ;;
            Ok (e, Some l)
        | None => Raise (AttributeError "'NoneType' object has no attribute 'shape'")
        end in
      match time_series_embeds with
      | Some embeds =>
          if (Z.of_nat (shape2 embeds) =? ts_adapt_in_dim (model_config self)) then Ok (embeds, x_lens)
          else use_signals
      | None => use_signals
      end
  end.

(** [InternTimeSeriesModel.forward(time_series_signals, x_lens,
    output_hidden_states, return_dict, time_series_embeds)] with the two
    flags resolved. *)
Definition InternTimeSeriesModel_forward_outputs (self : InternTimeSeriesModel) (r : rng)
  (time_series_signals : option (list (list (list A)))) (x_lens : option (list Z))
  (output_hidden_states return_dict : bool)
  (time_series_embeds : option (list (list (list A))))
  : result model_outputs :=
  '(input_embeds, x_lens) <- model_input_embeds self time_series_signals x_lens
                                                time_series_embeds ;;
  encoder_outputs <- InternTimeSeriesEncoder_forward_outputs (encoder self) r input_embeds
                       output_hidden_states return_dict ;;
  match x_lens with
  | None => Raise (TypeError "unsupported operand type(s) for +: 'NoneType' and 'int'")
  | Some x_lens =>
      let x_lens := map halve_len x_lens in
      if negb (forallb (fun l => 0 <? l) x_lens) then
        Raise (AssertionError "The length of time_series_embeds is so small.")
      else
        src_key_padding_mask <- make_pad_mask x_lens ;;
        last_hidden_state <- get_last_hidden_state encoder_outputs ;;
        if negb return_dict then
          Ok (ModelTuple last_hidden_state
                (match encoder_outputs with
                 | EncoderTuple _ s => s
                 | BaseModelOutput _ s => s
                 end))
        else
          hidden_states <- get_hidden_states encoder_outputs ;;
          Ok (ModelOutput {| out_last_hidden_state := last_hidden_state;
                             out_hidden_states := hidden_states;
                             out_ts_pad_mask := src_key_padding_mask |})
  end.

(** The attributes of a [TimeSeriesModelOutput]; the call in
    [get_time_series_features] passes [return_dict=True]. *)
Definition as_model_output (o : model_outputs) : result ts_model_outputs :=
  match o with
  | ModelOutput o => Ok o
  | ModelTuple _ _ => Raise (AttributeError "'tuple' object has no attribute 'last_hidden_state'")
  end.

(** [InternS1Model.get_time_series_features(time_series_signals, x_lens)];
    [select_layer], [time_series_model] and [ts_projector] are the
    attributes of the model. *)
Definition get_time_series_features (select_layer : Z)
  (time_series_model : InternTimeSeriesModel) (ts_projector : InternTSProjector) (r : rng)
  (time_series_signals : list (list (list A))) (x_lens : option (list Z))
  : result (tensor A * list (list bool)) :=
  '(ts_embeds, ts_pad_mask) <-
    (if select_layer =? -1 then
       ts_output <- InternTimeSeriesModel_forward_outputs time_series_model r
                      (Some time_series_signals) x_lens false true None ;;
       ts_output <- as_model_output ts_output ;;
       Ok (out_last_hidden_state ts_output, out_ts_pad_mask ts_output)
     else
       ts_output <- InternTimeSeriesModel_forward_outputs time_series_model r
                      (Some time_series_signals) x_lens true true None ;;
       ts_output <- as_model_output ts_output ;;
       match out_hidden_states ts_output with
       | None => Raise (TypeError "'NoneType' object is not subscriptable")
       | Some hidden_states =>
           ts_embeds <- tuple_index hidden_states select_layer ;;
           Ok (ts_embeds, out_ts_pad_mask ts_output)
       end) ;;
  time_series_features <- InternTSProjector_forward ts_projector (to_tensor ts_embeds) ;;
  Ok (time_series_features, ts_pad_mask).

End WithScalar.

End Outputs.
(** ** Image features: pixel shuffle and the vision encoder loop

    A 4-D tensor is a nested list in row-major order; its sizes are read
    from the first element of every level, as [.size()] gives them for a
    tensor without an empty dimension. Floats are rationals, as for
    [downsample_ratio]. *)

Module Vision.
Import Conv Config Projector Outputs.

Definition shape3 {A : Type} (x : list (list (list (list A)))) : nat :=
  match x with
  | [] => 0%nat
  | r :: _ => shape2 r
  end.

(** A tensor of shape (B, W, H, C). *)
Definition has_shape4 {A : Type} (B W H C : nat) (x : list (list (list (list A)))) : Prop :=
  length x = B /\ Forall (has_shape W H C) x.

(** [count] consecutive pieces of [size] elements. *)
Fixpoint chunks {X : Type} (size count : nat) (l : list X) : list (list X) :=
  match count with
  | O => []
  | S c => firstn size l :: chunks size c (skipn size l)
  end.

(** [x.view(batch_size, d1, d2, d3)] of a contiguous 4-D tensor whose first
    size is [batch_size]: the elements of every batch element, in row-major
    order, are regrouped. The number of elements has to be that of the new
    shape. A negative size is refused: [pixel_shuffle] passes sizes of one
    sign, so that a size of -1, which would be inferred, comes with a
    non-positive size next to it. *)
Definition view4 {A : Type} (d1 d2 d3 : Z) (x : list (list (list (list A))))
  : result (list (list (list (list A)))) :=
  if (d1 <? 0) || (d2 <? 0) || (d3 <? 0) then
    Raise (RuntimeError "invalid shape dimension")
  else if negb (Z.of_nat (length (concat (concat (concat x))))
                =? Z.of_nat (length x) * d1 * d2 * d3) then
    Raise (RuntimeError "shape is invalid for input of size")
  else
    Ok (map (fun xb => map (chunks (Z.to_nat d3) (Z.to_nat d2))
                           (chunks (Z.to_nat (d2 * d3)) (Z.to_nat d1) (concat (concat xb))))
            x).

(** [x.permute(0, 2, 1, 3).contiguous()] on one batch element of sizes
    (d1, d2, _): entry (j, i) of the result is entry (i, j). *)
Definition transpose12 {X : Type} (d1 d2 : nat) (xb : list (list (list X)))
  : list (list (list X)) :=
  map (fun j => map (fun i => nth j (nth i xb []) []) (seq 0 d1)) (seq 0 d2).

(** [a % b] on floats: the remainder has the sign of [b]. *)
Definition py_fmod (a b : Q) : Q := (a - b * inject_Z (Qfloor (a / b)))%Q.

(** [InternS1Model.pixel_shuffle(vision_features, scale_factor)], with
    [scale_factor] the exact value of the floating-point argument. The
    remainder of a float division is exact; the products
    [height * scale_factor] are exact when the factor is a power of two, as
    the default 0.5 is, and the sizes are below 2^53. *)
Definition pixel_shuffle {A : Type} (vision_features : list (list (list (list A))))
  (scale_factor : Q) : result (list (list (list (list A)))) :=
  let batch_size := length vision_features in
  let width := Z.of_nat (shape1 vision_features) in
  let height := Z.of_nat (shape2 vision_features) in
  let channels := Z.of_nat (shape3 vision_features) in
  if Qeq_bool scale_factor 0 then Raise ZeroDivisionError
  else if negb (Qeq_bool (py_fmod (inject_Z height) scale_factor) 0)
          || negb (Qeq_bool (py_fmod (inject_Z width) scale_factor) 0) then
    Raise (ValueError "Height and width must be divisible by scale_factor for proper downsampling.")
  else
    let h1 := py_int (inject_Z height * scale_factor) in
    let c1 := py_int (inject_Z channels / scale_factor) in
    vision_features <- view4 width h1 c1 vision_features ;;
    let vision_features :=
      map (transpose12 (Z.to_nat width) (Z.to_nat h1)) vision_features in
    let w2 := py_int (inject_Z width * scale_factor) in
    let c2 := py_int (inject_Z channels / (scale_factor * scale_factor)) in
    vision_features <- view4 h1 w2 c2 vision_features ;;
    Ok (map (transpose12 (Z.to_nat h1) (Z.to_nat w2)) vision_features).

(** [x.reshape(batch_size, feature_size, feature_size, -1)] of a 3-D tensor:
    the last size is inferred from the number of elements. *)
Definition reshape_square {A : Type} (feature_size : Z) (x : list (list (list A)))
  : result (list (list (list (list A)))) :=
  let numel := Z.of_nat (length (concat (concat x))) in
  let known := Z.of_nat (length x) * feature_size * feature_size in
  if (known =? 0) || negb (numel mod known =? 0) then
    Raise (RuntimeError "shape is invalid for input of size")
  else
    let last := numel / known in
    Ok (map (fun xb => map (chunks (Z.to_nat last) (Z.to_nat feature_size))
                           (chunks (Z.to_nat (feature_size * last)) (Z.to_nat feature_size)
                                   (concat xb)))
            x).

(** [x.reshape(batch_size, -1, x.shape[-1])] of a 4-D tensor: the two middle
    dimensions are merged. *)
Definition reshape_tokens {A : Type} (x : list (list (list (list A))))
  : result (list (list (list A))) :=
  if (Z.of_nat (length x) * Z.of_nat (shape3 x) =? 0) then
    Raise (RuntimeError "cannot reshape tensor of 0 elements: the unspecified dimension is ambiguous")
  else Ok (map (@concat _) x).

Section WithScalar.
Context {A : Type} `{Scalar A}.

(** [InternS1Model.get_image_features] from the hidden state of the vision
    tower on: [vision_features] is [last_hidden_state] of the tower (the
    case [vision_feature_layer == -1]); [downsample_ratio] and the projector
    are attributes of the model. [int(channels ** 0.5)] is the integer
    square root on the sizes a tensor can have. *)
Definition get_image_features (multi_modal_projector : InternS1MultiModalProjector)
  (downsample_ratio : Q) (vision_features : list (list (list A)))
  (vision_feature_select_strategy : string) : result (tensor A) :=
  let vision_features :=
    if String.eqb vision_feature_select_strategy "default"
    then map (@tl _) vision_features else vision_features in
  let channels := Z.of_nat (shape1 vision_features) in
  let feature_size := Z.sqrt channels in
  vision_features <- reshape_square feature_size vision_features ;;
  vision_features <- pixel_shuffle vision_features downsample_ratio ;;
  vision_features <- reshape_tokens vision_features ;;
  InternS1MultiModalProjector_forward multi_modal_projector (to_tensor vision_features).

End WithScalar.

(** [InternS1VisionEncoder.forward]: the loop over the layers. A layer is
    called with the hidden states and [output_attentions] and returns the
    new hidden states and its attention weights; outside training (no
    dropout, no drop path) it is a function of these two arguments. *)
Section EncoderLoop.
Context {H W : Type}.

Definition vision_layer : Type := H -> bool -> H * W.

Fixpoint vision_layers_loop (layer : list vision_layer)
  (output_attentions output_hidden_states : bool)
  (hidden_states : H) (all_hidden_states : option (list H))
  (all_self_attentions : option (list W)) : H * option (list H) * option (list W) :=
  match layer with
  | [] => (hidden_states, all_hidden_states, all_self_attentions)
  | layer_module :: rest =>
      let all_hidden_states :=
        if output_hidden_states
        then option_map (fun l => l ++ [hidden_states]) all_hidden_states
        else all_hidden_states in
      let layer_outputs := layer_module hidden_states output_attentions in
      let hidden_states := fst layer_outputs in
      let all_self_attentions :=
        if output_attentions
        then option_map (fun l => l ++ [snd layer_outputs]) all_self_attentions
        else all_self_attentions in
      vision_layers_loop rest output_attentions output_hidden_states
                         hidden_states all_hidden_states all_self_attentions
  end.

(** The fields of the [BaseModelOutput] it returns. *)
Definition InternS1VisionEncoder_forward (layer : list vision_layer)
  (hidden_states : H) (output_attentions output_hidden_states : bool)
  : H * option (list H) * option (list W) :=
  let all_hidden_states := if output_hidden_states then Some [] else None in
  let all_self_attentions := if output_attentions then Some [] else None in
  let '(hidden_states, all_hidden_states, all_self_attentions) :=
    vision_layers_loop layer output_attentions output_hidden_states
                       hidden_states all_hidden_states all_self_attentions in
  let all_hidden_states :=
    if output_hidden_states
    then option_map (fun l => l ++ [hidden_states]) all_hidden_states
    else all_hidden_states in
  (hidden_states, all_hidden_states, all_self_attentions).

End EncoderLoop.

End Vision.
(** ** InternS1Model.forward: the call of the language model *)

Module LanguageModelCall.
Import Merge.

(** The keyword arguments of the call [self.language_model(...)] in
    [InternS1Model.forward]: the call names [output_router_logits] and also
    unpacks [**kwargs], in which [forward] has stored the same key when the
    text backbone is a mixture-of-experts model; Python rejects a keyword
    that is given twice. *)
Definition call_language_model (is_moe_model : bool) : result unit :=
  if is_moe_model then
    Raise (TypeError "got multiple values for keyword argument 'output_router_logits'")
  else Ok tt.

Section WithElements.
Context {A : Type} (A_eqb : A -> A -> bool).

(** [InternS1Model.forward] up to the point where the language model takes
    over: the merge of the modalities, then the call. The result is the
    [inputs_embeds] the language model is called with. *)
Definition InternS1Model_forward_call (is_moe_model compiling : bool)
  (image_token_id ts_context_token_id : Z) (embed_tokens : Z -> list A)
  (input_ids : option (list (list Z))) (inputs_embeds : option (list (list (list A))))
  (image_features : option (list (list (list A))))
  (time_series : option (list (list (list A)) * list (list bool)))
  : result (list (list (list A))) :=
  inputs_embeds <- InternS1Model_forward A_eqb compiling image_token_id ts_context_token_id
                     embed_tokens input_ids inputs_embeds image_features time_series ;;
  _ <- call_language_model is_moe_model ;;
  Ok inputs_embeds.

End WithElements.

End LanguageModelCall.
(** ** Concrete inputs

    Small instances over the integers, on which the definitions evaluate. *)

Module Examples.
Import Conv TSConfig Subsampling Masks Encoder Merge Config Projector.

(** The default time-series configuration, with the Whisper attributes of a
    small encoder. *)
Definition ex_ts_config : InternTimeSeriesEncoderConfig := {|
  ts_adapt_in_dim := 256;
  ts_adapt_out_dim := 1024;
  ts_hidden_dim := 1024;
  ts_cnn_channels := [1; 32; 64; 128; 128];
  ts_cnn_kernel_sizes := [3; 5; 5; 5];
  ts_cnn_strides := [2; 4; 4; 5];
  ts_cnn_paddings := [1; 2; 2; 2];
  ts_concat_subsampling_in_channels := 128;
  ts_concat_subsampling_concat_size := 2;
  use_flash_attn := false;
  num_mel_bins := 80;
  d_model := 4;
  max_source_positions := 1500;
  encoder_layers := 2
|}.

Definition ex_cnn_params (i : nat) : (nat -> nat -> nat -> Z) * (nat -> Z) :=
  (fun _ _ _ => 1, fun _ => 0).

Definition ex_subsampling : @Conv1dSubsampling Z := {|
  channels := ts_cnn_channels ex_ts_config;
  kernel_sizes := ts_cnn_kernel_sizes ex_ts_config;
  strides := ts_cnn_strides ex_ts_config;
  paddings := ts_cnn_paddings ex_ts_config;
  n_layers := 4;
  layers := [ mk_conv 1 32 3 2 1 (ex_cnn_params 0%nat); mk_conv 32 64 5 4 2 (ex_cnn_params 1%nat);
              mk_conv 64 128 5 4 2 (ex_cnn_params 2%nat);
              mk_conv 128 128 5 5 2 (ex_cnn_params 3%nat) ];
  subsampling := ConcatSubsampling_init 128 2
|}.

(** Layers that return their input, half-precision masks. *)
Definition ex_encoder_params : @encoder_params Z := {|
  p_conv1 := (fun _ _ _ => 1, fun _ => 0);
  p_conv2 := (fun _ _ _ => 1, fun _ => 0);
  p_embed_positions := fun _ _ => 1;
  p_layer := fun _ x _ => x;
  p_layer_norm := (fun _ => 1, fun _ => 0);
  p_adapt_in := (fun _ _ => 1, fun _ => 0);
  p_adapt_out := (fun _ _ => 1, fun _ => 0);
  p_dropout_scale := fun v => v;
  p_finfo_min := -65504
|}.

Definition ex_model : @InternTimeSeriesModel Z := {|
  model_config := ex_ts_config;
  encoder_embed := ex_subsampling;
  encoder := InternTimeSeriesEncoder_init ex_ts_config ex_encoder_params
|}.

Definition ex_rng : rng := {|
  dropout_keep := fun _ _ _ => true;
  layer_dropped := fun _ => false
|}.

(** One signal of 320 samples. *)
Definition ex_signal : list (list (list Z)) := [repeat [1] 320].
Definition ex_x_lens : list Z := [320].

(** A small encoder fed directly with four frames of one channel. *)
Definition ex_small_config : InternTimeSeriesEncoderConfig := {|
  ts_adapt_in_dim := 1;
  ts_adapt_out_dim := 2;
  ts_hidden_dim := 2;
  ts_cnn_channels := [1; 32; 64; 128; 128];
  ts_cnn_kernel_sizes := [3; 5; 5; 5];
  ts_cnn_strides := [2; 4; 4; 5];
  ts_cnn_paddings := [1; 2; 2; 2];
  ts_concat_subsampling_in_channels := 128;
  ts_concat_subsampling_concat_size := 2;
  use_flash_attn := false;
  num_mel_bins := 80;
  d_model := 2;
  max_source_positions := 3;
  encoder_layers := 2
|}.

Definition ex_small_encoder : @InternTimeSeriesEncoder Z :=
  InternTimeSeriesEncoder_init ex_small_config ex_encoder_params.

Definition ex_chunk_encoder : @InternTimeSeriesEncoder Z :=
  define_masktype ex_small_encoder (Some "chunk"%string) (Some 5).

Definition ex_frames : list (list (list Z)) := [[[1]; [2]; [3]; [4]]].

Definition unwrap {X : Type} (d : X) (r : result X) : X :=
  match r with
  | Ok x => x
  | Raise _ => d
  end.

Definition ex_inputs_embeds : list (list (list Z)) :=
  Eval vm_compute in unwrap [] (encoder_inputs_embeds ex_small_encoder ex_frames).


Definition ex_chunk_forward : list (list (list Z)) * list (option mask4) :=
  Eval vm_compute in
    unwrap ([], []) (InternTimeSeriesEncoder_forward ex_chunk_encoder ex_rng ex_frames).

(** A sequence of four tokens with one image token (7) and one time-series
    context token (8); embeddings of two elements. *)
Definition ex_embed_tokens (i : Z) : list Z := [i; i + 100].
Definition ex_input_ids : list (list Z) := [[1; 7; 8; 2]].
Definition ex_image_features : list (list (list Z)) := [[[10; 11]]].
Definition ex_time_series : list (list (list Z)) * list (list bool) :=
  ([[[20; 21]; [0; 0]]], [[false; true]]).

Definition ex_merged : list (list (list Z)) :=
  Eval vm_compute in
    unwrap [] (InternS1Model_forward Z.eqb false 7 8 ex_embed_tokens
                 (Some ex_input_ids) None (Some ex_image_features) (Some ex_time_series)).


Definition ex_projector_params : @projector_params Z := {|
  pp_layer_norm := (fun _ => 1, fun _ => 0);
  pp_linear_1 := (fun _ _ => 1, fun _ => 0);
  pp_linear_2 := (fun _ _ => 1, fun _ => 0)
|}.

Definition ex_ACT2FN (name : string) : option (Z -> Z) :=
  if String.eqb name "gelu" then Some s_gelu else None.

Definition ex_ts_projector : @InternTSProjector Z := {|
  ts_layer_norm := mk_layer_norm 2 (pp_layer_norm ex_projector_params);
  ts_linear_1 := mk_linear 2 2 (pp_linear_1 ex_projector_params);
  ts_linear_2 := mk_linear 2 2 (pp_linear_2 ex_projector_params)
|}.



End Examples.
(** ** More concrete inputs *)

Module Examples2.
Import Conv TSConfig Subsampling Masks Encoder Merge Config Projector Outputs Vision Examples.

(** The small encoder with mask_type 'chunk' and no chunk length. *)
Definition ex_chunk_none_encoder : @InternTimeSeriesEncoder Z :=
  define_masktype ex_small_encoder (Some "chunk"%string) None.

(** One frame of one channel. *)
Definition ex_one_frame : list (list (list Z)) := [[[1]]].

Definition ex_one_inputs_embeds : list (list (list Z)) :=
  Eval vm_compute in unwrap [] (encoder_inputs_embeds ex_small_encoder ex_one_frame).

Definition ex_one_forward : list (list (list Z)) * list (option mask4) :=
  Eval vm_compute in
    unwrap ([], []) (InternTimeSeriesEncoder_forward ex_small_encoder ex_rng ex_one_frame).

(** The small configuration with 40 mel bins. *)
Definition ex_mel40_config : InternTimeSeriesEncoderConfig := {|
  ts_adapt_in_dim := 1;
  ts_adapt_out_dim := 2;
  ts_hidden_dim := 2;
  ts_cnn_channels := [1; 32; 64; 128; 128];
  ts_cnn_kernel_sizes := [3; 5; 5; 5];
  ts_cnn_strides := [2; 4; 4; 5];
  ts_cnn_paddings := [1; 2; 2; 2];
  ts_concat_subsampling_in_channels := 128;
  ts_concat_subsampling_concat_size := 2;
  use_flash_attn := false;
  num_mel_bins := 40;
  d_model := 2;
  max_source_positions := 3;
  encoder_layers := 2
|}.

Definition ex_mel40_encoder : @InternTimeSeriesEncoder Z :=
  InternTimeSeriesEncoder_init ex_mel40_config ex_encoder_params.

(** A vision configuration with hidden size 1, and the composite
    configuration around it. *)
Definition ex_vision_kwargs : vision_kwargs := {|
  kw_hidden_size := Some 1; kw_num_hidden_layers := None; kw_num_attention_heads := None;
  kw_attention_bias := None; kw_use_qk_norm := None; kw_intermediate_size := None;
  kw_hidden_act := None; kw_hidden_dropout_prob := None; kw_attention_dropout := None;
  kw_projection_dropout := None; kw_drop_path_rate := None; kw_initializer_range := None;
  kw_norm_type := None; kw_layer_norm_eps := None; kw_image_size := None;
  kw_patch_size := None; kw_num_channels := None; kw_use_mask_token := None;
  kw_use_absolute_position_embeddings := None; kw_layer_scale_init_value := None;
  kw_use_mean_pooling := None
|}.

Definition ex_vision_config : InternS1Config := {|
  image_token_id := 151667;
  ts_context_token_id := 151668;
  ts_select_layer := -1;
  image_seq_length := 256;
  downsample_ratio := (1 # 2)%Q;
  projector_hidden_act := "gelu";
  vision_feature_layer := -1;
  vision_feature_select_strategy := "default";
  vision_config := Some (InternS1VisionConfig_init ex_vision_kwargs);
  ts_config := Some ex_small_config;
  text_config := Some example_text_config
|}.

Definition ex_small_mm_projector : @InternS1MultiModalProjector Z := {|
  mm_layer_norm := mk_layer_norm 4 (pp_layer_norm ex_projector_params);
  mm_linear_1 := mk_linear 4 2 (pp_linear_1 ex_projector_params);
  mm_act := s_gelu;
  mm_linear_2 := mk_linear 2 2 (pp_linear_2 ex_projector_params)
|}.

(** The hidden state of a vision tower for one image of 2 by 2 patches: the
    CLS token and four patch tokens of one element. *)
Definition ex_vision_features : list (list (list Z)) := [[[9]; [1]; [2]; [3]; [4]]].

(** The time-series model on one signal of 320 samples, with the hidden
    states. *)
Definition ex_ts_outputs : @ts_model_outputs Z :=
  Eval vm_compute in
    match InternTimeSeriesModel_forward_outputs ex_model ex_rng (Some ex_signal)
            (Some ex_x_lens) true true None with
    | Ok (ModelOutput o) => o
    | _ => {| out_last_hidden_state := []; out_hidden_states := None; out_ts_pad_mask := [] |}
    end.

Definition ex_states : list (list (list (list Z))) :=
  Eval vm_compute in
    match out_hidden_states ex_ts_outputs with
    | Some s => s
    | None => []
    end.

End Examples2.
(** * Properties *)

(** Linear arithmetic with floor division and remainder by constants. *)
Ltac divlia := zify; Z.div_mod_to_equations; lia.

(** ** The error monad and list helpers *)

Lemma mapM_ok {A B : Type} (f : A -> result B) (g : A -> B) (l : list A) :
  (forall a, In a l -> f a = Ok (g a)) -> mapM f l = Ok (map g l).
Proof.
  induction l as [|a l IH]; intros H; simpl; [reflexivity|].
  rewrite (H a (or_introl eq_refl)); simpl.
  rewrite IH; [reflexivity|]. intros b Hb. apply H. now right.
Qed.

Lemma imap_length {A B : Type} (f : nat -> A -> B) (l : list A) :
  length (imap f l) = length l.
Proof.
  unfold imap. rewrite length_map, length_combine, length_seq. lia.
Qed.

Lemma nth_imap {A B : Type} (f : nat -> A -> B) (l : list A) (i : nat) (da : A) (db : B) :
  (i < length l)%nat -> nth i (imap f l) db = f i (nth i l da).
Proof.
  intros Hi. unfold imap.
  rewrite (nth_indep _ db (f (fst (0%nat, da)) (snd (0%nat, da)))).
  2:{ rewrite length_map, length_combine, length_seq. lia. }
  rewrite (map_nth (fun p => f (fst p) (snd p))).
  rewrite combine_nth by (rewrite length_seq; reflexivity).
  rewrite seq_nth by assumption. reflexivity.
Qed.

(** ** make_pad_mask *)

Module PadMaskFacts.
Import PadMask.

Lemma fold_left_max_ge (xs : list Z) (x : Z) :
  x <= fold_left Z.max xs x /\ Forall (fun y => y <= fold_left Z.max xs x) xs.
Proof.
  revert x. induction xs as [|y ys IH]; intros x; simpl.
  - split; [lia | constructor].
  - destruct (IH (Z.max x y)) as [H1 H2]. split; [lia|].
    constructor; [lia | exact H2].
Qed.

Lemma fold_left_max_in (xs : list Z) (x : Z) :
  fold_left Z.max xs x = x \/ In (fold_left Z.max xs x) xs.
Proof.
  revert x. induction xs as [|y ys IH]; intros x; simpl; [now left|].
  destruct (IH (Z.max x y)) as [H | H].
  - rewrite H. destruct (Z.max_spec x y) as [[_ E] | [_ E]]; rewrite E; auto.
  - right. now right.
Qed.

(** The maximum of a non-empty tensor is characterised by membership and
    upper bound. *)
Lemma tensor_max_unique (lengths : list Z) (m : Z) :
  In m lengths -> Forall (fun l => l <= m) lengths -> tensor_max lengths = Ok m.
Proof.
  intros Hin Hub. destruct lengths as [|x xs]; [contradiction|].
  simpl. f_equal.
  destruct (fold_left_max_ge xs x) as [G1 G2].
  assert (Hm : m <= fold_left Z.max xs x).
  { destruct Hin as [<- | Hin]; [exact G1|].
    rewrite Forall_forall in G2. now apply G2. }
  assert (Hle : fold_left Z.max xs x <= m).
  { rewrite Forall_forall in Hub.
    destruct (fold_left_max_in xs x) as [E | E].
    - rewrite E. apply Hub. now left.
    - apply Hub. now right. }
  lia.
Qed.

Lemma nth_arange0 (m : Z) (j : nat) :
  (j < Z.to_nat m)%nat ->
  nth j (map (fun k => 0 + Z.of_nat k) (seq 0 (Z.to_nat m))) 0 = Z.of_nat j.
Proof.
  intros Hj.
  change 0 with ((fun k => 0 + Z.of_nat k) 0%nat) at 2.
  rewrite map_nth, seq_nth by assumption. simpl. lia.
Qed.

Lemma ge_rows_length (rows : list (list Z)) (lengths : list Z) :
  length rows = length lengths -> length (ge_rows rows lengths) = length lengths.
Proof.
  intros H. unfold ge_rows. rewrite length_map, length_combine. lia.
Qed.

Lemma nth_ge_rows (row : list Z) (lengths : list Z) (i : nat) :
  (i < length lengths)%nat ->
  nth i (ge_rows (expand_rows (length lengths) row) lengths) [] =
  map (fun j => nth i lengths 0 <=? j) row.
Proof.
  intros Hi. unfold ge_rows, expand_rows.
  set (f := fun p : list Z * Z => map (fun j => snd p <=? j) (fst p)).
  rewrite (nth_indep _ [] (f (row, 0))).
  2:{ rewrite length_map, length_combine, repeat_length. lia. }
  rewrite map_nth, combine_nth by (rewrite repeat_length; reflexivity).
  rewrite nth_repeat_lt by assumption. reflexivity.
Qed.

Lemma ge_rows_repeat (row : list Z) (lengths : list Z) :
  ge_rows (expand_rows (length lengths) row) lengths =
  map (fun len => map (fun j => len <=? j) row) lengths.
Proof.
  unfold ge_rows, expand_rows. induction lengths as [|l ls IH]; simpl; [reflexivity|].
  f_equal. exact IH.
Qed.

(** The mask in closed form, for a non-negative maximum. *)
Lemma make_pad_mask_ok (lengths : list Z) (m : Z) :
  tensor_max lengths = Ok m -> 0 <= m ->
  make_pad_mask lengths =
  Ok (map (fun len => map (fun j => len <=? Z.of_nat j) (seq 0 (Z.to_nat m))) lengths).
Proof.
  intros Hmax Hm. unfold make_pad_mask. rewrite Hmax. simpl bind.
  unfold arange. destruct (Z.ltb_spec m 0); [lia|]. simpl bind.
  rewrite ge_rows_repeat. f_equal. apply map_ext. intros len.
  rewrite Z.sub_0_r, map_map. reflexivity.
Qed.

Lemma nth_pad_mask_row (lengths : list Z) (n i j : nat) (d : bool) :
  (i < length lengths)%nat -> (j < n)%nat ->
  nth j (nth i (map (fun len => map (fun j => len <=? Z.of_nat j) (seq 0 n)) lengths) []) d
  = (nth i lengths 0 <=? Z.of_nat j).
Proof.
  intros Hi Hj.
  rewrite (nth_indep _ [] ((fun len => map (fun j => len <=? Z.of_nat j) (seq 0 n)) 0))
    by (rewrite length_map; exact Hi).
  rewrite (map_nth (fun len => map (fun j => len <=? Z.of_nat j) (seq 0 n))).
  rewrite (nth_indep _ d ((fun j => nth i lengths 0 <=? Z.of_nat j) 0%nat))
    by (rewrite length_map, length_seq; exact Hj).
  rewrite (map_nth (fun j => nth i lengths 0 <=? Z.of_nat j)), seq_nth by exact Hj.
  reflexivity.
Qed.

Lemma pad_mask_row_length (lengths : list Z) (n i : nat) :
  (i < length lengths)%nat ->
  length (nth i (map (fun len => map (fun j => len <=? Z.of_nat j) (seq 0 n)) lengths) []) = n.
Proof.
  intros Hi.
  rewrite (nth_indep _ [] ((fun len => map (fun j => len <=? Z.of_nat j) (seq 0 n)) 0))
    by (rewrite length_map; exact Hi).
  rewrite (map_nth (fun len => map (fun j => len <=? Z.of_nat j) (seq 0 n))).
  rewrite length_map, length_seq. reflexivity.
Qed.

(** C9. For a 1-D integer tensor of n lengths with positive maximum m,
    [make_pad_mask] returns an n-by-m boolean matrix whose entry (i, j) is
    True exactly when j >= lengths[i]. *)
Theorem make_pad_mask_spec (lengths : list Z) (m : Z) :
  In m lengths -> Forall (fun l => l <= m) lengths -> 0 < m ->
  exists mask,
    make_pad_mask lengths = Ok mask /\
    length mask = length lengths /\
    forall i, (i < length lengths)%nat ->
      length (nth i mask []) = Z.to_nat m /\
      forall j, (j < Z.to_nat m)%nat ->
        (nth j (nth i mask []) false = true <-> nth i lengths 0 <= Z.of_nat j).
Proof.
  intros Hin Hub Hpos.
  pose proof (tensor_max_unique Hin Hub) as Hmax.
  eexists. split; [apply make_pad_mask_ok with (m := m); [exact Hmax | lia]|].
  split; [apply length_map|].
  intros i Hi. split; [apply pad_mask_row_length; exact Hi|].
  intros j Hj. rewrite nth_pad_mask_row by assumption.
  apply Z.leb_le.
Qed.

End PadMaskFacts.

(** ** Convolution: the number of windows and the shape of the output *)

Module ConvFacts.
Import Conv.

Lemma windows_length {F : Type} (k s : nat) (xp : list F) :
  (1 <= k)%nat -> (1 <= s)%nat ->
  length (windows k s xp) =
  if (length xp <? k)%nat then 0%nat else ((length xp - k) / s + 1)%nat.
Proof.
  intros Hk Hs.
  remember (length xp) as n eqn:Hn. revert xp Hn.
  induction n as [n IH] using lt_wf_ind. intros xp Hn.
  destruct xp as [|x xs].
  - simp windows. simpl in Hn. subst n.
    destruct (Nat.ltb_spec 0 k); [reflexivity | lia].
  - simp windows. simpl in Hn. rewrite <- Hn.
    destruct (Nat.ltb_spec n k) as [Hlt | Hge]; simpl; [reflexivity|].
    rewrite (IH (length (skipn (Nat.pred s) xs))) by (rewrite ?length_skipn; lia || reflexivity).
    rewrite length_skipn.
    destruct (Nat.ltb_spec (length xs - Nat.pred s) k) as [Hlt' | Hge'].
    + rewrite Nat.div_small by lia. reflexivity.
    + replace (n - k)%nat with ((length xs - Nat.pred s - k) + 1 * s)%nat by lia.
      rewrite Nat.div_add by lia. lia.
Qed.

(** On naturals the window count is the convolution formula. *)
Lemma conv_out_len_nat (L k s p : nat) :
  (1 <= s)%nat -> (k <= L + 2 * p)%nat ->
  Z.of_nat ((L + 2 * p - k) / s + 1) =
  conv_out_len (Z.of_nat L) (Z.of_nat k) (Z.of_nat s) (Z.of_nat p).
Proof.
  intros Hs Hk. unfold conv_out_len.
  rewrite Nat2Z.inj_add, Nat2Z.inj_div, Nat2Z.inj_sub by lia.
  f_equal. f_equal. lia.
Qed.

Section WithScalar.
Context {A : Type} `{Scalar A}.

Lemma zero_frames_length (n c : nat) : length (zero_frames (A:=A) n c) = n.
Proof. apply repeat_length. Qed.

Lemma forallb_channels (c : nat) (xs : list (list A)) :
  Forall (fun fr => length fr = c) xs ->
  forallb (fun fr => (length fr =? c)%nat) xs = true.
Proof.
  intros Hx. apply forallb_forall. rewrite Forall_forall in Hx.
  intros fr Hin. apply Nat.eqb_eq. now apply Hx.
Qed.

(** A convolution applied to a signal of [L] frames with the right number of
    channels returns [floor((L + 2p - k) / s) + 1] frames of [out_channels]
    channels, provided the padded signal holds one kernel. *)
Lemma Conv1d_forward1_shape (c : Conv1d A) (L : nat) (xs : list (list A)) :
  (1 <= kernel_size c)%nat -> (1 <= stride c)%nat -> 0 <= padding_arg c ->
  (kernel_size c <= L + 2 * padding c)%nat ->
  length xs = L -> Forall (fun fr => length fr = in_channels c) xs ->
  exists ys, Conv1d_forward1 c xs = Ok ys /\
    length ys = ((L + 2 * padding c - kernel_size c) / stride c + 1)%nat /\
    Forall (fun fr => length fr = out_channels c) ys.
Proof.
  intros Hk Hs Hp Hfit HL Hch. unfold Conv1d_forward1.
  destruct (Nat.eqb_spec (kernel_size c) 0); [lia|].
  destruct (Nat.eqb_spec (stride c) 0); [lia|]. simpl.
  destruct (Z.ltb_spec (padding_arg c) 0); [lia|].
  rewrite (forallb_channels Hch). simpl.
  set (xp := zero_frames (padding c) (in_channels c) ++ xs ++ zero_frames (padding c) (in_channels c)).
  assert (Hxp : length xp = (L + 2 * padding c)%nat).
  { unfold xp. rewrite !length_app, !zero_frames_length. lia. }
  destruct (Nat.ltb_spec (length xp) (kernel_size c)) as [Hlt | Hge]; [lia|].
  eexists. split; [reflexivity|]. split.
  - rewrite length_map, windows_length by assumption.
    destruct (Nat.ltb_spec (length xp) (kernel_size c)); [lia|].
    rewrite Hxp. reflexivity.
  - apply Forall_map. apply Forall_forall. intros w _.
    rewrite length_map, length_seq. reflexivity.
Qed.

(** A signal too short for the kernel is rejected. *)
Lemma Conv1d_forward1_too_short (c : Conv1d A) (xs : list (list A)) :
  (length xs + 2 * padding c < kernel_size c)%nat ->
  exists e, Conv1d_forward1 c xs = Raise e.
Proof.
  intros Hshort. unfold Conv1d_forward1.
  destruct ((kernel_size c =? 0)%nat || (stride c =? 0)%nat); [eexists; reflexivity|].
  destruct (padding_arg c <? 0); [eexists; reflexivity|].
  destruct (negb (forallb _ xs)); [eexists; reflexivity|].
  rewrite !length_app, !zero_frames_length.
  destruct (Nat.ltb_spec (padding c + (length xs + padding c)) (kernel_size c)); [|lia].
  eexists; reflexivity.
Qed.

Lemma mapM_shape {X Y : Type} (f : X -> result Y) (P : X -> Prop) (Q : Y -> Prop) (l : list X) :
  (forall a, P a -> exists b, f a = Ok b /\ Q b) ->
  Forall P l ->
  exists bs, mapM f l = Ok bs /\ length bs = length l /\ Forall Q bs.
Proof.
  intros Hf Hl. induction Hl as [|a l Ha Hl IH]; simpl.
  - exists []. repeat split. constructor.
  - destruct (Hf a Ha) as (b & Eb & Qb). destruct IH as (bs & Ebs & Hlen & Qbs).
    rewrite Eb, Ebs. simpl. exists (b :: bs). repeat split.
    + simpl. lia.
    + now constructor.
Qed.

Lemma mapM_raise_head {X Y : Type} (f : X -> result Y) (a : X) (l : list X) (e : exn) :
  f a = Raise e -> mapM f (a :: l) = Raise e.
Proof. intros E. simpl. rewrite E. reflexivity. Qed.

Lemma Conv1d_forward_shape (c : Conv1d A) (B L : nat) (x : list (list (list A))) :
  (1 <= kernel_size c)%nat -> (1 <= stride c)%nat -> 0 <= padding_arg c ->
  (kernel_size c <= L + 2 * padding c)%nat ->
  has_shape B L (in_channels c) x ->
  exists y, Conv1d_forward c x = Ok y /\
    has_shape B ((L + 2 * padding c - kernel_size c) / stride c + 1) (out_channels c) y.
Proof.
  intros Hk Hs Hp Hfit [HB Hx]. unfold Conv1d_forward.
  destruct (@mapM_shape _ _ (Conv1d_forward1 c)
              (fun s => length s = L /\ Forall (fun fr => length fr = in_channels c) s)
              (fun s => length s = ((L + 2 * padding c - kernel_size c) / stride c + 1)%nat
                        /\ Forall (fun fr => length fr = out_channels c) s) x)
    as (y & Ey & Hlen & Hy).
  - intros s [Hs1 Hs2].
    destruct (Conv1d_forward1_shape c Hk Hs Hp Hfit Hs1 Hs2) as (ys & E & H1 & H2).
    exists ys. auto.
  - exact Hx.
  - exists y. split; [exact Ey|]. split; [lia | exact Hy].
Qed.

Lemma map3_shape (f : A -> A) (B T C : nat) (x : list (list (list A))) :
  has_shape B T C x -> has_shape B T C (map3 f x).
Proof.
  intros [HB Hx]. unfold map3. split; [rewrite length_map; exact HB|].
  apply Forall_map. eapply Forall_impl; [|exact Hx].
  intros s [Hs1 Hs2]. split; [rewrite length_map; exact Hs1|].
  apply Forall_map. eapply Forall_impl; [|exact Hs2].
  intros fr Hfr. rewrite length_map. exact Hfr.
Qed.

End WithScalar.

End ConvFacts.
(** ** ConcatSubsampling and Conv1dSubsampling *)

Module SubsamplingFacts.
Import Conv TSConfig Subsampling ConvFacts.

Lemma has_shape_shape1 {A : Type} (B T C : nat) (x : list (list (list A))) :
  has_shape B T C x -> x <> [] -> shape1 x = T.
Proof.
  intros [_ Hx] Hne. destruct x as [|s x]; [congruence|].
  simpl. inversion Hx as [|? ? [Hs _] _]. exact Hs.
Qed.

Lemma has_shape_nil {A : Type} (T C : nat) : has_shape (A:=A) 0 T C [].
Proof. split; [reflexivity | constructor]. Qed.

Lemma evens_length_aux {F : Type} (l : list F) :
  length (evens l) = ((length l + 1) / 2)%nat /\
  forall a, length (evens (a :: l)) = ((length l + 2) / 2)%nat.
Proof.
  induction l as [|b l [IH1 IH2]].
  - split; [reflexivity | intros a; reflexivity].
  - split; [rewrite IH2; simpl length; f_equal; lia|]. intros a.
    change (evens (a :: b :: l)) with (a :: evens l).
    simpl length. rewrite IH1.
    replace (S (length l) + 2)%nat with ((length l + 1) + 1 * 2)%nat by lia.
    rewrite Nat.div_add by lia. lia.
Qed.

Lemma evens_length {F : Type} (l : list F) :
  length (evens l) = ((length l + 1) / 2)%nat.
Proof. apply evens_length_aux. Qed.

Lemma odds_length {F : Type} (l : list F) :
  length (odds l) = (length l / 2)%nat.
Proof.
  unfold odds. rewrite evens_length. destruct l as [|a l]; [reflexivity|].
  simpl tl. simpl length. f_equal. lia.
Qed.

Lemma Forall_evens_aux {F : Type} (P : F -> Prop) (l : list F) :
  (Forall P l -> Forall P (evens l)) /\
  (forall a, Forall P (a :: l) -> Forall P (evens (a :: l))).
Proof.
  induction l as [|b l [IH1 IH2]].
  - split; intros; simpl; auto.
  - split; [apply IH2|]. intros a Ha.
    change (evens (a :: b :: l)) with (a :: evens l).
    inversion Ha as [|? ? Pa Hbl]. inversion Hbl as [|? ? Pb Hl].
    constructor; auto.
Qed.

Lemma Forall_evens {F : Type} (P : F -> Prop) (l : list F) :
  Forall P l -> Forall P (evens l).
Proof. apply Forall_evens_aux. Qed.

Lemma Forall_odds {F : Type} (P : F -> Prop) (l : list F) :
  Forall P l -> Forall P (odds l).
Proof.
  intros Hl. unfold odds. apply Forall_evens.
  destruct l; [constructor|]. simpl. now inversion Hl.
Qed.

Lemma Forall_removelast {F : Type} (P : F -> Prop) (l : list F) :
  Forall P l -> Forall P (removelast l).
Proof.
  induction l as [|a l IH]; intros Hl; simpl; [constructor|].
  inversion Hl as [|? ? Pa Hl']. destruct l; [constructor|].
  constructor; auto.
Qed.

Lemma removelast_length {F : Type} (l : list F) :
  length (removelast l) = Nat.pred (length l).
Proof.
  induction l as [|a l IH]; [reflexivity|].
  simpl. destruct l; [reflexivity|]. simpl in *. rewrite IH. reflexivity.
Qed.

Lemma map_rows_shape {A : Type} (g : list (list A) -> list (list A)) (B T T' C : nat)
  (x : list (list (list A))) :
  (forall s, length s = T -> length (g s) = T') ->
  (forall s, Forall (fun fr => length fr = C) s -> Forall (fun fr => length fr = C) (g s)) ->
  has_shape B T C x -> has_shape B T' C (map g x).
Proof.
  intros Hlen Hall [HB Hx]. split; [rewrite length_map; exact HB|].
  apply Forall_map. eapply Forall_impl; [|exact Hx].
  intros s [Hs1 Hs2]. split; auto.
Qed.

Lemma combine_rows_shape {A : Type} (T C1 C2 : nat) (s t : list (list A)) :
  length s = T -> length t = T ->
  Forall (fun fr => length fr = C1) s -> Forall (fun fr => length fr = C2) t ->
  length (map (fun q => fst q ++ snd q) (combine s t)) = T /\
  Forall (fun fr => length fr = (C1 + C2)%nat) (map (fun q => fst q ++ snd q) (combine s t)).
Proof.
  intros Hs Ht Hcs Hct. split.
  - rewrite length_map, length_combine. lia.
  - clear Hs Ht. revert t Hct. induction Hcs as [|f s Hf Hcs IH]; intros t Hct; simpl; [constructor|].
    destruct Hct as [|g t Hg Hct]; simpl; [constructor|].
    constructor; [rewrite length_app; simpl; lia | apply IH; exact Hct].
Qed.

Lemma cat_dim2_shape {A : Type} (B T C1 C2 : nat) (a b : list (list (list A))) :
  has_shape B T C1 a -> has_shape B T C2 b ->
  exists y, cat_dim2 a b = Ok y /\ has_shape B T (C1 + C2) y.
Proof.
  intros Ha Hb. unfold cat_dim2.
  assert (Hs1 : shape1 a = shape1 b).
  { destruct a as [|s a], b as [|t b]; try reflexivity.
    - destruct Ha as [Ha _], Hb as [Hb _]. simpl in *. lia.
    - destruct Ha as [Ha _], Hb as [Hb _]. simpl in *. lia.
    - rewrite (has_shape_shape1 Ha), (has_shape_shape1 Hb) by discriminate. reflexivity. }
  destruct Ha as [HBa Ha], Hb as [HBb Hb].
  rewrite Hs1, HBa, HBb, !Nat.eqb_refl. simpl.
  eexists. split; [reflexivity|]. split.
  - rewrite length_map, length_combine. lia.
  - clear HBa HBb Hs1. revert b Hb.
    induction Ha as [|s a [Hs Hcs] Ha IH]; intros b Hb; simpl; [constructor|].
    destruct Hb as [|t b [Ht Hct] Hb]; simpl; [constructor|].
    constructor; [apply combine_rows_shape; assumption | apply IH; exact Hb].
Qed.

(** [ConcatSubsampling.forward] halves the temporal length, dropping the last
    frame of an odd-length input, and concatenates the channels of each pair
    of neighbouring frames; the lengths are halved alike. *)
Lemma ConcatSubsampling_forward_shape {A : Type} (self : ConcatSubsampling)
  (B T C : nat) (x : list (list (list A))) (x_lens : list Z) :
  has_shape B T C x ->
  exists x', ConcatSubsampling_forward self x x_lens = Ok (x', map (fun l => l / 2) x_lens) /\
    has_shape B (T / 2) (C + C) x'.
Proof.
  intros Hx. unfold ConcatSubsampling_forward.
  set (x1 := if (shape1 x mod 2 =? 0)%nat then x else map (@removelast _) x).
  assert (H1 : has_shape B (2 * (T / 2)) C x1).
  { destruct x as [|s x0].
    - destruct Hx as [HB _]. simpl in HB. subst B.
      unfold x1. simpl. apply has_shape_nil.
    - assert (HT : shape1 (s :: x0) = T) by (apply (has_shape_shape1 Hx); discriminate).
      unfold x1. rewrite HT.
      destruct (Nat.eqb_spec (T mod 2) 0) as [Hev | Hodd].
      + replace (2 * (T / 2))%nat with T; [exact Hx|].
        pose proof (Nat.div_mod_eq T 2). lia.
      + apply map_rows_shape with (T := T); [| |exact Hx].
        * intros s' Hs'. rewrite removelast_length, Hs'.
          pose proof (Nat.div_mod_eq T 2). pose proof (Nat.mod_upper_bound T 2). lia.
        * intros s'. apply Forall_removelast. }
  assert (He : has_shape B (T / 2) C (map (@evens _) x1)).
  { apply map_rows_shape with (T := (2 * (T / 2))%nat); [| |exact H1].
    - intros s Hs. rewrite evens_length, Hs.
      replace (2 * (T / 2) + 1)%nat with (1 + (T / 2) * 2)%nat by lia.
      rewrite Nat.div_add by lia. reflexivity.
    - intros s. apply Forall_evens. }
  assert (Ho : has_shape B (T / 2) C (map (@odds _) x1)).
  { apply map_rows_shape with (T := (2 * (T / 2))%nat); [| |exact H1].
    - intros s Hs. rewrite odds_length, Hs.
      rewrite Nat.mul_comm, Nat.div_mul by lia. reflexivity.
    - intros s. apply Forall_odds. }
  destruct (cat_dim2_shape He Ho) as (y & Ey & Hy).
  rewrite Ey. simpl. exists y. split; [reflexivity | exact Hy].
Qed.

(** The convolution formula of each default layer in closed form. *)
Lemma conv_out_len_closed (L : Z) :
  conv_out_len L 3 2 1 = (L + 1) / 2 /\
  conv_out_len L 5 4 2 = (L + 3) / 4 /\
  conv_out_len L 5 5 2 = (L + 4) / 5.
Proof. unfold conv_out_len. repeat split; divlia. Qed.

Lemma subsampled_len_compose (L : Z) :
  subsampled_len L =
  conv_out_len (conv_out_len (conv_out_len (conv_out_len L 3 2 1) 5 4 2) 5 4 2) 5 5 2.
Proof.
  unfold subsampled_len.
  destruct (conv_out_len_closed L) as (-> & _ & _).
  destruct (conv_out_len_closed ((L + 1) / 2)) as (_ & -> & _).
  destruct (conv_out_len_closed (((L + 1) / 2 + 3) / 4)) as (_ & -> & _).
  destruct (conv_out_len_closed ((((L + 1) / 2 + 3) / 4 + 3) / 4)) as (_ & _ & ->).
  reflexivity.
Qed.

Section WithScalar.
Context {A : Type} `{Scalar A}.

Lemma init_default_layers (config : InternTimeSeriesEncoderConfig)
  (params : nat -> (nat -> nat -> nat -> A) * (nat -> A)) (self : Conv1dSubsampling) :
  default_layers config ->
  Conv1dSubsampling_init config params = Ok self ->
  layers self = [ mk_conv 1 32 3 2 1 (params 0%nat); mk_conv 32 64 5 4 2 (params 1%nat);
                  mk_conv 64 128 5 4 2 (params 2%nat); mk_conv 128 128 5 5 2 (params 3%nat) ].
Proof.
  intros (Hc & Hk & Hs & Hp). unfold Conv1dSubsampling_init.
  rewrite Hc, Hk, Hs, Hp. simpl negb. cbv iota.
  cbn [length Z.of_nat Pos.of_succ_nat Pos.succ Z.sub Z.add Z.opp Z.pos_sub Z.succ_double
       Z.pred_double Z.double Pos.pred_double Z.to_nat Pos.to_nat Pos.iter_op Nat.add].
  intros E. vm_compute in E. injection E as <-. reflexivity.
Qed.

Lemma default_conv_len_Z (T : nat) :
  (1 <= T)%nat -> Z.of_nat (default_conv_len T) = subsampled_len (Z.of_nat T).
Proof.
  intros HT. rewrite subsampled_len_compose. unfold default_conv_len.
  rewrite (@conv_out_len_nat _ 5 5 2)%nat by lia.
  rewrite (@conv_out_len_nat _ 5 4 2)%nat by lia.
  rewrite (@conv_out_len_nat _ 5 4 2)%nat by lia.
  rewrite (@conv_out_len_nat T 3 2 1)%nat by lia.
  reflexivity.
Qed.

Lemma run_default_layers (ps : nat -> (nat -> nat -> nat -> A) * (nat -> A))
  (B T : nat) (x : list (list (list A))) :
  (1 <= T)%nat -> has_shape B T 1 x ->
  exists y,
    run_conv_layers [ mk_conv 1 32 3 2 1 (ps 0%nat); mk_conv 32 64 5 4 2 (ps 1%nat);
                      mk_conv 64 128 5 4 2 (ps 2%nat); mk_conv 128 128 5 5 2 (ps 3%nat) ] x = Ok y /\
    has_shape B (default_conv_len T) 128 y.
Proof.
  intros HT Hx. unfold run_conv_layers.
  edestruct (@Conv1d_forward_shape A _ (mk_conv 1 32 3 2 1 (ps 0%nat)) B) as (y1 & E1 & H1);
    cycle 4; [exact Hx | | unfold stride, padding; simpl; lia ..].
  rewrite E1. simpl bind. apply (map3_shape s_relu) in H1.
  edestruct (@Conv1d_forward_shape A _ (mk_conv 32 64 5 4 2 (ps 1%nat)) B) as (y2 & E2 & H2);
    cycle 4; [exact H1 | | unfold stride, padding; simpl; lia ..].
  rewrite E2. simpl bind. apply (map3_shape s_relu) in H2.
  edestruct (@Conv1d_forward_shape A _ (mk_conv 64 128 5 4 2 (ps 2%nat)) B) as (y3 & E3 & H3);
    cycle 4; [exact H2 | | unfold stride, padding; simpl; lia ..].
  rewrite E3. simpl bind. apply (map3_shape s_relu) in H3.
  edestruct (@Conv1d_forward_shape A _ (mk_conv 128 128 5 5 2 (ps 3%nat)) B) as (y4 & E4 & H4);
    cycle 4; [exact H3 | | unfold stride, padding; simpl; lia ..].
  rewrite E4. simpl bind. apply (map3_shape s_relu) in H4.
  eexists. split; [reflexivity | exact H4].
Qed.

Lemma Conv1dSubsampling_forward_default (config : InternTimeSeriesEncoderConfig)
  (params : nat -> (nat -> nat -> nat -> A) * (nat -> A)) (self : Conv1dSubsampling)
  (B T : nat) (x : list (list (list A))) (x_lens : list Z) :
  default_layers config ->
  Conv1dSubsampling_init config params = Ok self ->
  (1 <= T)%nat -> has_shape B T 1 x ->
  exists x',
    Conv1dSubsampling_forward self x (Some x_lens)
      = Ok (x', map (fun l => l / 2) (map subsampled_len x_lens)) /\
    has_shape B (default_conv_len T / 2) (128 + 128) x'.
Proof.
  intros Hd Hinit HT Hx. unfold Conv1dSubsampling_forward.
  rewrite (@init_default_layers config params self Hd Hinit).
  destruct (@run_default_layers params B T x HT Hx) as (y & Ey & Hy).
  rewrite Ey. simpl bind.
  apply ConcatSubsampling_forward_shape. exact Hy.
Qed.

(** With an empty signal the first convolution has no room for its kernel. *)
Lemma Conv1dSubsampling_forward_empty_signal (config : InternTimeSeriesEncoderConfig)
  (params : nat -> (nat -> nat -> nat -> A) * (nat -> A)) (self : Conv1dSubsampling)
  (s : list (list A)) (x : list (list (list A))) (x_lens : list Z) :
  default_layers config ->
  Conv1dSubsampling_init config params = Ok self ->
  length s = 0%nat ->
  exists e, Conv1dSubsampling_forward self (s :: x) (Some x_lens) = Raise e.
Proof.
  intros Hd Hinit Hs. unfold Conv1dSubsampling_forward.
  rewrite (@init_default_layers config params self Hd Hinit).
  destruct (@Conv1d_forward1_too_short A _ (mk_conv 1 32 3 2 1 (params 0%nat)) s) as (e & He).
  { rewrite Hs. unfold padding. simpl. lia. }
  exists e. unfold run_conv_layers, Conv1d_forward.
  rewrite (@mapM_raise_head _ _ _ _ _ _ He). reflexivity.
Qed.

(** C3. For a batch of shape (B, T, 1) whose lengths all equal T, the lengths
    that [Conv1dSubsampling.forward] returns equal the temporal length of the
    tensor it returns. The closed-form update of the lengths is the
    composition of the convolution output-length formula over the default
    layers, and the halving by [ConcatSubsampling] is the final [// 2]. The
    call returns for every T >= 1. *)
Theorem Conv1dSubsampling_forward_lens (config : InternTimeSeriesEncoderConfig)
  (params : nat -> (nat -> nat -> nat -> A) * (nat -> A)) (self : Conv1dSubsampling)
  (B T : nat) (x : list (list (list A))) (x_lens : list Z) :
  default_layers config ->
  Conv1dSubsampling_init config params = Ok self ->
  has_shape B T 1 x ->
  length x_lens = B -> Forall (fun l => l = Z.of_nat T) x_lens ->
  subsampled_len (Z.of_nat T) =
    conv_out_len (conv_out_len (conv_out_len (conv_out_len (Z.of_nat T) 3 2 1) 5 4 2) 5 4 2) 5 5 2 /\
  ((1 <= T)%nat -> exists x' lens', Conv1dSubsampling_forward self x (Some x_lens) = Ok (x', lens')) /\
  (forall x' lens', Conv1dSubsampling_forward self x (Some x_lens) = Ok (x', lens') ->
     length x' = B /\ length lens' = B /\
     Forall (fun l => l = Z.of_nat (shape1 x')) lens' /\
     Forall (fun l => l = subsampled_len (Z.of_nat T) / 2) lens' /\
     Forall (fun s => Z.of_nat (length s) = subsampled_len (Z.of_nat T) / 2) x').
Proof.
  intros Hd Hinit Hx Hlen Hall.
  split; [apply subsampled_len_compose|].
  split.
  { intros HT.
    destruct (@Conv1dSubsampling_forward_default config params self B T x x_lens Hd Hinit HT Hx) as (x' & E & _).
    eauto. }
  intros x' lens' E.
  destruct (Nat.eq_dec T 0) as [HT0 | HT0].
  - (* T = 0 *)
    destruct x as [|s x0].
    + destruct Hx as [HB _]. simpl in HB. subst B.
      destruct x_lens; [|discriminate].
      unfold Conv1dSubsampling_forward in E.
      rewrite (@init_default_layers config params self Hd Hinit) in E. simpl in E.
      injection E as <- <-. repeat split; constructor.
    + assert (Hs : length s = 0%nat).
      { destruct Hx as [_ Hx]. inversion Hx as [|? ? [Hs _] _]. lia. }
      destruct (@Conv1dSubsampling_forward_empty_signal config params self s x0 x_lens Hd Hinit Hs) as (e & He).
      rewrite He in E. discriminate.
  - (* T >= 1 *)
    assert (HT : (1 <= T)%nat) by lia.
    destruct (@Conv1dSubsampling_forward_default config params self B T x x_lens Hd Hinit HT Hx) as (y & Ey & [HyB Hy]).
    rewrite Ey in E. injection E as <- <-.
    assert (Hhalf : Z.of_nat (default_conv_len T / 2) = subsampled_len (Z.of_nat T) / 2).
    { rewrite Nat2Z.inj_div, default_conv_len_Z by assumption. reflexivity. }
    assert (Hl : Forall (fun l => l = subsampled_len (Z.of_nat T) / 2)
                   (map (fun l => l / 2) (map subsampled_len x_lens))).
    { rewrite map_map. apply Forall_map. eapply Forall_impl; [|exact Hall].
      intros l ->. reflexivity. }
    repeat split.
    + exact HyB.
    + rewrite !length_map. exact Hlen.
    + destruct y as [|s y0].
      * simpl in HyB. subst B. destruct x_lens; [constructor | discriminate].
      * simpl shape1. inversion Hy as [|? ? [Hs _] _].
        rewrite Hs, Hhalf. exact Hl.
    + exact Hl.
    + eapply Forall_impl; [|exact Hy]. intros s [Hs _]. rewrite Hs. exact Hhalf.
Qed.

End WithScalar.

End SubsamplingFacts.
(** ** The attention masks *)

Module MaskFacts.
Import Masks.

Lemma nth_tabulate {X : Type} (f : nat -> nat -> X) (n r c : nat) (d : X) :
  (r < n)%nat -> (c < n)%nat -> nth c (nth r (tabulate f n) []) d = f r c.
Proof.
  intros Hr Hc. unfold tabulate.
  rewrite (nth_indep _ [] ((fun r => map (fun c => f r c) (seq 0 n)) 0%nat))
    by (rewrite length_map, length_seq; exact Hr).
  rewrite (map_nth (fun r => map (fun c => f r c) (seq 0 n))), seq_nth by exact Hr.
  rewrite (nth_indep _ d ((fun c => f (0 + r)%nat c) 0%nat))
    by (rewrite length_map, length_seq; exact Hc).
  rewrite (map_nth (fun c => f (0 + r)%nat c)), seq_nth by exact Hc.
  reflexivity.
Qed.

Lemma tabulate_length {X : Type} (f : nat -> nat -> X) (n : nat) :
  length (tabulate f n) = n.
Proof. unfold tabulate. rewrite length_map, length_seq. reflexivity. Qed.

Lemma tabulate_row_length {X : Type} (f : nat -> nat -> X) (n r : nat) :
  (r < n)%nat -> length (nth r (tabulate f n) []) = n.
Proof.
  intros Hr. unfold tabulate.
  rewrite (nth_indep _ [] ((fun r => map (fun c => f r c) (seq 0 n)) 0%nat))
    by (rewrite length_map, length_seq; exact Hr).
  rewrite (map_nth (fun r => map (fun c => f r c) (seq 0 n))).
  rewrite length_map, length_seq. reflexivity.
Qed.

Lemma tabulate_ext {X : Type} (f g : nat -> nat -> X) (n : nat) :
  (forall r c, (r < n)%nat -> (c < n)%nat -> f r c = g r c) ->
  tabulate f n = tabulate g n.
Proof.
  intros Hfg. unfold tabulate. apply map_ext_in. intros r Hr.
  apply map_ext_in. intros c Hc. apply in_seq in Hr, Hc. apply Hfg; lia.
Qed.

Lemma shape1_tabulate {X : Type} (f : nat -> nat -> X) (n : nat) :
  shape1 (tabulate f n) = n.
Proof.
  destruct n as [|n]; [reflexivity|].
  unfold tabulate. simpl. rewrite length_map, length_seq. reflexivity.
Qed.

Lemma imap_map_seq {X Y : Type} (g : nat -> X -> Y) (f : nat -> X) (n : nat) :
  imap g (map f (seq 0 n)) = map (fun i => g i (f i)) (seq 0 n).
Proof.
  unfold imap. rewrite length_map, length_seq.
  generalize 0%nat as k. induction n as [|n IH]; intros k; simpl; [reflexivity|].
  f_equal. apply IH.
Qed.

Lemma repeat_map_seq {X : Type} (x : X) (n : nat) :
  repeat x n = map (fun _ => x) (seq 0 n).
Proof.
  generalize 0%nat as k. induction n as [|n IH]; intros k; simpl; [reflexivity|].
  f_equal. apply IH.
Qed.

Lemma repeat_tabulate {X : Type} (x : X) (n : nat) :
  repeat (repeat x n) n = tabulate (fun _ _ => x) n.
Proof.
  unfold tabulate. rewrite (repeat_map_seq (repeat x n)).
  apply map_ext. intros _. apply repeat_map_seq.
Qed.

Lemma combine_map_seq {X Y : Type} (f : nat -> X) (g : nat -> Y) (n : nat) :
  combine (map f (seq 0 n)) (map g (seq 0 n)) = map (fun i => (f i, g i)) (seq 0 n).
Proof.
  generalize 0%nat as k. induction n as [|n IH]; intros k; simpl; [reflexivity|].
  f_equal. apply IH.
Qed.

Lemma masked_fill_tabulate (f : nat -> nat -> Z) (cond : nat -> nat -> bool) (v : Z) (n : nat) :
  masked_fill (tabulate f n) (tabulate cond n) v =
  tabulate (fun r c => if cond r c then v else f r c) n.
Proof.
  unfold masked_fill, tabulate. rewrite combine_map_seq, map_map.
  apply map_ext. intros r. simpl. rewrite combine_map_seq, map_map. reflexivity.
Qed.

(** The matrix of [_make_causal_mask] without cached keys: 0 on and below
    the diagonal, [finfo_min] above it. *)
Lemma _make_causal_mask_tabulate (bsz n : nat) (finfo_min : Z) :
  _make_causal_mask bsz n finfo_min 0 =
  repeat [tabulate (fun i j => if (j <=? i)%nat then 0 else finfo_min) n] bsz.
Proof.
  unfold _make_causal_mask. simpl (0 <? 0). cbv iota.
  f_equal. f_equal.
  rewrite repeat_tabulate.
  replace (map (fun ci => map (fun cj => cj <? ci + 1) (map Z.of_nat (seq 0 n)))
               (map Z.of_nat (seq 0 n)))
    with (tabulate (fun i j => Z.of_nat j <? Z.of_nat i + 1) n).
  2:{ unfold tabulate. rewrite map_map. apply map_ext. intros i. rewrite map_map. reflexivity. }
  rewrite masked_fill_tabulate. apply tabulate_ext. intros i j _ _.
  destruct (Z.ltb_spec (Z.of_nat j) (Z.of_nat i + 1)), (Nat.leb_spec j i); try reflexivity; lia.
Qed.

Lemma div_eq_iff (bs r k : Z) :
  0 < bs -> (r / bs = k <-> k * bs <= r < k * bs + bs).
Proof.
  intros Hbs. split.
  - intros <-. pose proof (Z.mul_div_le r bs Hbs). pose proof (Z.mul_succ_div_gt r bs Hbs). lia.
  - intros Hr. symmetry. apply Z.div_unique with (r := r - k * bs); lia.
Qed.

Lemma in_block_eqb (bs r k : Z) :
  0 < bs -> (k * bs <=? r) && (r <? k * bs + bs) = (r / bs =? k).
Proof.
  intros Hbs. pose proof (div_eq_iff r k Hbs) as Hiff.
  destruct (Z.leb_spec (k * bs) r), (Z.ltb_spec r (k * bs + bs)), (Z.eqb_spec (r / bs) k);
    simpl; try reflexivity; lia.
Qed.

Lemma assign_zeros_tabulate (r0 r1 c0 c1 h w : Z) (f : nat -> nat -> Z) (n : nat) :
  0 <= r0 <= r1 -> r1 <= Z.of_nat n -> 0 <= c0 <= c1 -> c1 <= Z.of_nat n ->
  h = r1 - r0 -> w = c1 - c0 ->
  assign_zeros r0 r1 c0 c1 h w (tabulate f n) =
  Ok (tabulate (fun r c =>
        if (r0 <=? Z.of_nat r) && (Z.of_nat r <? r1) && ((c0 <=? Z.of_nat c) && (Z.of_nat c <? c1))
        then 0 else f r c) n).
Proof.
  intros Hr0 Hr1 Hc0 Hc1 -> ->. unfold assign_zeros.
  rewrite tabulate_length, shape1_tabulate.
  replace (Z.max 0 (Z.min r1 (Z.of_nat n) - Z.min r0 (Z.of_nat n)) =? r1 - r0) with true
    by (symmetry; apply Z.eqb_eq; lia).
  replace (Z.max 0 (Z.min c1 (Z.of_nat n) - Z.min c0 (Z.of_nat n)) =? c1 - c0) with true
    by (symmetry; apply Z.eqb_eq; lia).
  simpl andb. cbv iota. f_equal.
  unfold tabulate. rewrite imap_map_seq. apply map_ext. intros r.
  destruct ((r0 <=? Z.of_nat r) && (Z.of_nat r <? r1)); simpl andb; cbv iota.
  - rewrite imap_map_seq. reflexivity.
  - reflexivity.
Qed.

(** After the loop over the first [k] full blocks, exactly the entries of
    those diagonal blocks are zero. *)
Lemma zero_full_blocks_tabulate (bs : Z) (k n : nat) (f0 : nat -> nat -> Z) :
  0 < bs -> Z.of_nat k * bs <= Z.of_nat n ->
  zero_full_blocks bs (Z.of_nat k) (tabulate f0 n) =
  Ok (tabulate (fun r c =>
        if (Z.of_nat r / bs <? Z.of_nat k) && same_block bs r c then 0 else f0 r c) n).
Proof.
  intros Hbs. unfold zero_full_blocks. rewrite Nat2Z.id.
  induction k as [|k IH]; intros Hk.
  - simpl. f_equal. apply tabulate_ext. intros r c _ _.
    pose proof (Z.div_pos (Z.of_nat r) bs ltac:(lia) Hbs).
    change (Z.of_nat 0) with 0.
    destruct (Z.ltb_spec (Z.of_nat r / bs) 0); [lia | reflexivity].
  - rewrite seq_S, fold_left_app. simpl plus. rewrite IH by lia. simpl fold_left. simpl bind.
    rewrite assign_zeros_tabulate; try lia.
    f_equal. apply tabulate_ext. intros r c _ _.
    rewrite !in_block_eqb by exact Hbs. unfold same_block.
    destruct (Z.eqb_spec (Z.of_nat r / bs) (Z.of_nat k)),
             (Z.eqb_spec (Z.of_nat c / bs) (Z.of_nat k)),
             (Z.eqb_spec (Z.of_nat r / bs) (Z.of_nat c / bs)),
             (Z.ltb_spec (Z.of_nat r / bs) (Z.of_nat k)),
             (Z.ltb_spec (Z.of_nat r / bs) (Z.of_nat (S k))); simpl; try reflexivity; lia.
Qed.

(** [prepare_chunk_attention_mask] for a positive block size: a block-diagonal
    matrix, replicated over the batch. *)
Lemma prepare_chunk_attention_mask_tabulate (chunk_length : Z) (bsz n : nat) :
  0 < py_round (inject_Z chunk_length / 4 * 2) ->
  prepare_chunk_attention_mask (Some chunk_length) bsz n =
  Ok (repeat [tabulate (fun r c =>
        if same_block (py_round (inject_Z chunk_length / 4 * 2)) r c then 0 else -65504) n] bsz).
Proof.
  intros Hbs. unfold prepare_chunk_attention_mask.
  set (bs := py_round (inject_Z chunk_length / 4 * 2)) in *.
  destruct (Z.eqb_spec bs 0); [lia|].
  rewrite repeat_tabulate.
  assert (Hq : 0 <= Z.of_nat n / bs) by (apply Z.div_pos; lia).
  pose proof (Z.mul_div_le (Z.of_nat n) bs Hbs) as Hle.
  pose proof (Z.div_mod (Z.of_nat n) bs ltac:(lia)) as Hdm.
  pose proof (Z.mod_pos_bound (Z.of_nat n) bs Hbs) as Hmod.
  rewrite <- (Z2Nat.id (Z.of_nat n / bs)) at 1 by exact Hq.
  rewrite zero_full_blocks_tabulate by (rewrite ?Z2Nat.id; lia).
  simpl bind. rewrite Z2Nat.id by exact Hq.
  assert (Hbound : forall r, (r < n)%nat -> Z.of_nat r / bs <= Z.of_nat n / bs).
  { intros r Hr. apply Z.div_le_mono; lia. }
  destruct (Z.ltb_spec 0 (Z.of_nat n mod bs)) as [Hrem | Hrem].
  - rewrite assign_zeros_tabulate by lia. simpl bind.
    f_equal. f_equal. f_equal. unfold tabulate.
    rewrite map_map. apply map_ext_in. intros r Hr. rewrite map_map.
    apply map_ext_in. intros c Hc. apply in_seq in Hr, Hc.
    assert (Hin : forall i, (i < n)%nat ->
      (Z.of_nat n / bs * bs <=? Z.of_nat i) && (Z.of_nat i <? Z.of_nat n / bs * bs + Z.of_nat n mod bs)
      = (Z.of_nat i / bs =? Z.of_nat n / bs)).
    { intros i Hi. rewrite <- (in_block_eqb (Z.of_nat i) (Z.of_nat n / bs) Hbs).
      f_equal.
      destruct (Z.ltb_spec (Z.of_nat i) (Z.of_nat n / bs * bs + Z.of_nat n mod bs)),
               (Z.ltb_spec (Z.of_nat i) (Z.of_nat n / bs * bs + bs)); try reflexivity; lia. }
    rewrite !Hin by lia. unfold same_block.
    pose proof (Hbound r ltac:(lia)). pose proof (Hbound c ltac:(lia)).
    destruct (Z.eqb_spec (Z.of_nat r / bs) (Z.of_nat n / bs)),
             (Z.eqb_spec (Z.of_nat c / bs) (Z.of_nat n / bs)),
             (Z.eqb_spec (Z.of_nat r / bs) (Z.of_nat c / bs)),
             (Z.ltb_spec (Z.of_nat r / bs) (Z.of_nat n / bs)); simpl; try reflexivity; lia.
  - simpl bind. f_equal. f_equal. f_equal. unfold tabulate.
    rewrite map_map. apply map_ext_in. intros r Hr. rewrite map_map.
    apply map_ext_in. intros c Hc. apply in_seq in Hr, Hc.
    assert (Hlt : Z.of_nat r / bs < Z.of_nat n / bs).
    { apply Z.div_lt_upper_bound; lia. }
    unfold same_block.
    destruct (Z.eqb_spec (Z.of_nat r / bs) (Z.of_nat c / bs)),
             (Z.ltb_spec (Z.of_nat r / bs) (Z.of_nat n / bs)); simpl; try reflexivity; lia.
Qed.

End MaskFacts.
(** ** The time-series encoder *)

Module EncoderFacts.
Import Conv TSConfig Subsampling PadMask Masks Encoder ConvFacts SubsamplingFacts MaskFacts.

Section WithScalar.
Context {A : Type} `{Scalar A}.

(** Every layer that is called receives the mask the loop was started with. *)
Lemma run_layers_trace (tr : bool) (r : rng) (am : option mask4) (layers : list encoder_layer)
  (idx : nat) (hs : list (list (list A))) :
  Forall (fun m => m = am) (snd (run_layers tr r am idx layers hs)).
Proof.
  revert idx hs. induction layers as [|l ls IH]; intros idx hs; simpl; [constructor|].
  destruct (tr && layer_dropped r idx); [apply IH|].
  specialize (IH (S idx) (l hs am)).
  destruct (run_layers tr r am (S idx) ls (l hs am)) as [out trace]. simpl in *.
  constructor; [reflexivity | exact IH].
Qed.

(** Outside training no layer is skipped. *)
Lemma run_layers_eval_length (r : rng) (am : option mask4) (layers : list encoder_layer)
  (idx : nat) (hs : list (list (list A))) :
  length (snd (run_layers false r am idx layers hs)) = length layers.
Proof.
  revert idx hs. induction layers as [|l ls IH]; intros idx hs; simpl; [reflexivity|].
  specialize (IH (S idx) (l hs am)).
  destruct (run_layers false r am (S idx) ls (l hs am)) as [out trace]. simpl in *.
  now rewrite IH.
Qed.

Lemma run_layers_shape (tr : bool) (r : rng) (am : option mask4) (layers : list encoder_layer)
  (idx B T C : nat) (hs : list (list (list A))) :
  Forall shape_preserving layers ->
  has_shape B T C hs ->
  has_shape B T C (fst (run_layers tr r am idx layers hs)).
Proof.
  intros Hl. revert idx hs. induction Hl as [|l ls Hp Hl IH]; intros idx hs Hhs; simpl; [exact Hhs|].
  destruct (tr && layer_dropped r idx); [apply IH; exact Hhs|].
  specialize (IH (S idx) (l hs am) (Hp _ _ _ _ _ Hhs)).
  destruct (run_layers tr r am (S idx) ls (l hs am)) as [out trace]. exact IH.
Qed.

(** The parts of [forward] that produce the mask handed to the layers. *)
Lemma forward_inv (self : @InternTimeSeriesEncoder A) (r : rng) (x : list (list (list A)))
  (h : list (list (list A))) (trace : list (option mask4)) :
  InternTimeSeriesEncoder_forward self r x = Ok (h, trace) ->
  exists e am,
    encoder_inputs_embeds self x = Ok e /\
    build_attention_mask self (length e) (shape1 e) = Ok am /\
    Forall (fun m => m = am) trace /\
    (training self = false -> length trace = length (enc_layers self)).
Proof.
  unfold InternTimeSeriesEncoder_forward. intros E.
  destruct (encoder_inputs_embeds self x) as [e|]; [|discriminate]. simpl in E.
  destruct (build_attention_mask self (length e) (shape1 e)) as [am|] eqn:Eam; [|discriminate].
  simpl in E.
  pose proof (run_layers_trace (training self) r am (enc_layers self) 0
                (dropout self r (add_positions self e))) as Htr.
  pose proof (run_layers_eval_length r am (enc_layers self) 0
                (dropout self r (add_positions self e))) as Hlen.
  destruct (run_layers (training self) r am 0 (enc_layers self)
              (dropout self r (add_positions self e))) as [hs tr] eqn:Erun.
  destruct (on_last (LayerNorm_forward1 (layer_norm self)) hs) as [h1|]; [|discriminate].
  simpl in E.
  destruct (on_last (Linear_forward1 (adapt_out self)) h1) as [h2|]; [|discriminate].
  simpl in E. injection E as <- <-.
  exists e, am.
  split; [reflexivity|]. split; [exact Eam|]. split; [exact Htr|].
  intros Hev. rewrite Hev in Erun. rewrite Erun in Hlen. exact Hlen.
Qed.

Lemma build_attention_mask_default (self : @InternTimeSeriesEncoder A) (bsz n : nat) :
  mask_type self <> Some "chunk"%string ->
  build_attention_mask self bsz n =
  Ok (_prepare_decoder_attention_mask bsz n (finfo_min self) 0).
Proof.
  intros Hne. unfold build_attention_mask.
  destruct (mask_type self) as [t|]; [|reflexivity].
  destruct (String.eqb_spec t "chunk"); [subst t; congruence | reflexivity].
Qed.



(** C6. With mask_type 'chunk' and a positive block size
    round(chunk_length / 4 * 2), [prepare_chunk_attention_mask] returns, for
    every batch size and sequence length n, the same n-by-n matrix for every
    batch element: 0 where row and column lie in the same block of
    consecutive indices, the trailing partial block included, and -65504
    elsewhere. It is the mask every called encoder layer receives. *)
Theorem chunk_mask_is_block_diagonal (chunk_len : Z) :
  0 < py_round (inject_Z chunk_len / 4 * 2) ->
  let block_size := py_round (inject_Z chunk_len / 4 * 2) in
  (forall bsz n : nat, exists M : list (list Z),
     prepare_chunk_attention_mask (Some chunk_len) bsz n = Ok (repeat [M] bsz) /\
     length M = n /\
     (forall r c, (r < n)%nat -> (c < n)%nat ->
        length (nth r M []) = n /\
        nth c (nth r M []) 0 =
          if Z.of_nat r / block_size =? Z.of_nat c / block_size then 0 else -65504) /\
     (forall r c, (r < n)%nat -> (c < n)%nat ->
        Z.of_nat n / block_size * block_size <= Z.of_nat r ->
        Z.of_nat n / block_size * block_size <= Z.of_nat c ->
        nth c (nth r M []) 0 = 0) /\
     (forall (self : @InternTimeSeriesEncoder A) (r : rng) (x e h : list (list (list A)))
             (trace : list (option mask4)),
        mask_type self = Some "chunk"%string ->
        chunk_length self = Some chunk_len ->
        encoder_inputs_embeds self x = Ok e ->
        length e = bsz -> shape1 e = n ->
        InternTimeSeriesEncoder_forward self r x = Ok (h, trace) ->
        Forall (fun m => m = Some (repeat [M] bsz)) trace)).
Proof.
  intros Hbs block_size bsz n.
  exists (tabulate (fun r c => if same_block block_size r c then 0 else -65504) n).
  split; [apply prepare_chunk_attention_mask_tabulate; exact Hbs|].
  split; [apply tabulate_length|].
  split; [|split].
  - intros r c Hr Hc. split; [apply tabulate_row_length; exact Hr|].
    rewrite nth_tabulate by assumption. reflexivity.
  - intros r c Hr Hc Hr' Hc'. rewrite nth_tabulate by assumption.
    unfold same_block. fold block_size in Hbs.
    assert (Hblk : forall i, (i < n)%nat ->
              Z.of_nat n / block_size * block_size <= Z.of_nat i ->
              Z.of_nat i / block_size = Z.of_nat n / block_size).
    { intros i Hi Hi'. apply div_eq_iff; [exact Hbs|].
      pose proof (Z.mul_succ_div_gt (Z.of_nat n) block_size Hbs). lia. }
    rewrite (Hblk r Hr Hr'), (Hblk c Hc Hc'), Z.eqb_refl. reflexivity.
  - intros self r x e h trace Hmt Hcl He HB Hn Hfwd.
    destruct (forward_inv _ _ _ Hfwd) as (e' & am & He' & Ham & Htr & _).
    rewrite He in He'. injection He' as <-.
    unfold build_attention_mask in Ham. rewrite Hmt, Hcl, String.eqb_refl in Ham.
    rewrite HB, Hn in Ham.
    rewrite prepare_chunk_attention_mask_tabulate in Ham by exact Hbs.
    simpl in Ham. injection Ham as <-. exact Htr.
Qed.

End WithScalar.

End EncoderFacts.
(** ** InternTimeSeriesModel: the padding mask *)

Module ModelFacts.
Import Conv TSConfig Subsampling PadMask Masks Encoder.
Import ConvFacts SubsamplingFacts MaskFacts PadMaskFacts EncoderFacts.

Lemma halve_len_conv (M : Z) : halve_len M = conv_out_len M 3 2 1.
Proof. unfold halve_len, conv_out_len. divlia. Qed.

Lemma halve_len_nat (M : nat) :
  (1 <= M)%nat -> Z.of_nat ((M + 2 * 1 - 3) / 2 + 1) = halve_len (Z.of_nat M).
Proof.
  intros HM. unfold halve_len.
  rewrite Nat2Z.inj_add, Nat2Z.inj_div, Nat2Z.inj_sub by lia.
  rewrite Nat2Z.inj_add. simpl Z.of_nat.
  Z.div_mod_to_equations. lia.
Qed.

Lemma make_pad_mask_inv (lengths : list Z) (mask : list (list bool)) :
  make_pad_mask lengths = Ok mask ->
  exists m, 0 <= m /\ In m lengths /\ Forall (fun l => l <= m) lengths /\
    mask = map (fun len => map (fun j => len <=? Z.of_nat j) (seq 0 (Z.to_nat m))) lengths.
Proof.
  intros E. destruct lengths as [|x xs]; [discriminate|].
  assert (Hmax : tensor_max (x :: xs) = Ok (fold_left Z.max xs x)) by reflexivity.
  set (m := fold_left Z.max xs x) in *.
  assert (Hm : 0 <= m).
  { unfold make_pad_mask in E. rewrite Hmax in E. simpl bind in E. unfold arange in E.
    destruct (Z.ltb_spec m 0); [discriminate | lia]. }
  exists m. split; [exact Hm|].
  destruct (fold_left_max_ge xs x) as [G1 G2]. fold m in G1, G2.
  split; [|split].
  - destruct (fold_left_max_in xs x) as [E' | E']; fold m in E'.
    + left. congruence.
    + right. exact E'.
  - constructor; assumption.
  - rewrite (@make_pad_mask_ok (x :: xs) m Hmax Hm) in E. injection E as <-. reflexivity.
Qed.

Section WithScalar.
Context {A : Type} `{Scalar A}.

Lemma Linear_forward1_ok (l : Linear A) (v : list A) :
  length v = in_features l ->
  exists y, Linear_forward1 l v = Ok y /\ length y = out_features l.
Proof.
  intros Hv. unfold Linear_forward1. rewrite Hv, Nat.eqb_refl.
  eexists. split; [reflexivity|]. rewrite length_map, length_seq. reflexivity.
Qed.

Lemma LayerNorm_forward1_ok (l : LayerNorm A) (v : list A) :
  length v = normalized_shape l ->
  exists y, LayerNorm_forward1 l v = Ok y /\ length y = normalized_shape l.
Proof.
  intros Hv. unfold LayerNorm_forward1. rewrite Hv, Nat.eqb_refl.
  eexists. split; [reflexivity|]. rewrite imap_length. exact Hv.
Qed.

Lemma on_last_shape (f : list A -> result (list A)) (B T C C' : nat) (x : list (list (list A))) :
  (forall v, length v = C -> exists y, f v = Ok y /\ length y = C') ->
  has_shape B T C x ->
  exists y, on_last f x = Ok y /\ has_shape B T C' y.
Proof.
  intros Hf [HB Hx]. unfold on_last.
  destruct (@mapM_shape _ _ (mapM f)
              (fun s => length s = T /\ Forall (fun fr => length fr = C) s)
              (fun s => length s = T /\ Forall (fun fr => length fr = C') s) x)
    as (y & Ey & Hlen & Hy).
  - intros s [Hs1 Hs2].
    destruct (@mapM_shape _ _ f (fun fr => length fr = C) (fun fr => length fr = C') s Hf Hs2)
      as (t & Et & Ht1 & Ht2).
    exists t. split; [exact Et|]. split; [lia | exact Ht2].
  - exact Hx.
  - exists y. split; [exact Ey|]. split; [lia | exact Hy].
Qed.

Lemma imap3_shape (g : nat -> nat -> nat -> A -> A) (B T C : nat) (x : list (list (list A))) :
  has_shape B T C x ->
  has_shape B T C (imap (fun b s => imap (fun t fr => imap (fun c v => g b t c v) fr) s) x).
Proof.
  intros [HB Hx]. split; [rewrite imap_length; exact HB|].
  apply Forall_forall. intros s Hs.
  apply (In_nth _ _ []) in Hs. destruct Hs as (b & Hb & <-).
  rewrite imap_length in Hb. rewrite (nth_imap _ _ [] []) by exact Hb.
  rewrite Forall_forall in Hx. destruct (Hx (nth b x []) (nth_In _ _ Hb)) as [Hs1 Hs2].
  split; [rewrite imap_length; exact Hs1|].
  apply Forall_forall. intros fr Hfr.
  apply (In_nth _ _ []) in Hfr. destruct Hfr as (t & Ht & <-).
  rewrite imap_length in Ht. rewrite (nth_imap _ _ [] []) by exact Ht.
  rewrite imap_length. rewrite Forall_forall in Hs2. apply Hs2. apply nth_In. exact Ht.
Qed.

Lemma add_positions_shape (self : @InternTimeSeriesEncoder A) (B T C : nat) (x : list (list (list A))) :
  has_shape B T C x -> has_shape B T C (add_positions self x).
Proof.
  intros [HB Hx]. unfold add_positions. split; [rewrite length_map; exact HB|].
  apply Forall_map. eapply Forall_impl; [|exact Hx]. intros s [Hs1 Hs2].
  split; [rewrite imap_length; exact Hs1|].
  apply Forall_forall. intros fr Hfr.
  apply (In_nth _ _ []) in Hfr. destruct Hfr as (t & Ht & <-).
  rewrite imap_length in Ht. rewrite (nth_imap _ _ [] []) by exact Ht.
  rewrite imap_length. rewrite Forall_forall in Hs2. apply Hs2. apply nth_In. exact Ht.
Qed.

Lemma dropout_shape (self : @InternTimeSeriesEncoder A) (r : rng) (B T C : nat)
  (x : list (list (list A))) :
  has_shape B T C x -> has_shape B T C (dropout self r x).
Proof.
  intros Hx. unfold dropout. destruct (training self); [|exact Hx].
  apply (imap3_shape (fun b t c v => if dropout_keep r b t c then dropout_scale self v else s_zero)).
  exact Hx.
Qed.

Lemma has_shape_eq (B T T' C C' : nat) (x : list (list (list A))) :
  T = T' -> C = C' -> has_shape B T C x -> has_shape B T' C' x.
Proof. intros -> ->. exact (fun h => h). Qed.

(** The dimensions of a wired encoder. *)
Lemma wired_dims (self : @InternTimeSeriesEncoder A) (config : InternTimeSeriesEncoderConfig) :
  encoder_wired self config ->
  (in_features (adapt_in self) = Z.to_nat (ts_adapt_in_dim config) /\
   out_features (adapt_in self) = 80%nat) /\
  (in_channels (conv1 self) = Z.to_nat (num_mel_bins config) /\
   out_channels (conv1 self) = Z.to_nat (d_model config) /\
   kernel_size (conv1 self) = 3%nat /\ stride (conv1 self) = 1%nat /\ padding (conv1 self) = 1%nat) /\
  (in_channels (conv2 self) = Z.to_nat (d_model config) /\
   out_channels (conv2 self) = Z.to_nat (d_model config) /\
   kernel_size (conv2 self) = 3%nat /\ stride (conv2 self) = 2%nat /\ padding (conv2 self) = 1%nat) /\
  normalized_shape (layer_norm self) = Z.to_nat (d_model config) /\
  (in_features (adapt_out self) = Z.to_nat (d_model config) /\
   out_features (adapt_out self) = Z.to_nat (ts_adapt_out_dim config)).
Proof.
  intros (Hc1 & Hc2 & Hln & Hai & Hao).
  repeat split.
  - apply (f_equal (@in_features A)) in Hai. exact Hai.
  - apply (f_equal (@out_features A)) in Hai. exact Hai.
  - apply (f_equal (@in_channels A)) in Hc1. exact Hc1.
  - apply (f_equal (@out_channels A)) in Hc1. exact Hc1.
  - apply (f_equal (@kernel_size A)) in Hc1. exact Hc1.
  - apply (f_equal (@stride A)) in Hc1. exact Hc1.
  - apply (f_equal (@padding A)) in Hc1. exact Hc1.
  - apply (f_equal (@in_channels A)) in Hc2. exact Hc2.
  - apply (f_equal (@out_channels A)) in Hc2. exact Hc2.
  - apply (f_equal (@kernel_size A)) in Hc2. exact Hc2.
  - apply (f_equal (@stride A)) in Hc2. exact Hc2.
  - apply (f_equal (@padding A)) in Hc2. exact Hc2.
  - apply (f_equal (@normalized_shape A)) in Hln. exact Hln.
  - apply (f_equal (@in_features A)) in Hao. exact Hao.
  - apply (f_equal (@out_features A)) in Hao. exact Hao.
Qed.

Lemma init_wired (config : InternTimeSeriesEncoderConfig) (p : @encoder_params A) :
  encoder_wired (InternTimeSeriesEncoder_init config p) config.
Proof. unfold encoder_wired. repeat split; reflexivity. Qed.

(** The input adapter and the two convolutions turn M frames into
    floor((M + 2 - 3) / 2) + 1 frames of d_model channels. *)
Lemma encoder_inputs_embeds_shape (self : @InternTimeSeriesEncoder A)
  (config : InternTimeSeriesEncoderConfig) (B M : nat) (x : list (list (list A))) :
  encoder_wired self config -> num_mel_bins config = 80 ->
  (1 <= M)%nat -> has_shape B M (Z.to_nat (ts_adapt_in_dim config)) x ->
  exists e, encoder_inputs_embeds self x = Ok e /\
    has_shape B ((M + 2 * 1 - 3) / 2 + 1) (Z.to_nat (d_model config)) e.
Proof.
  intros Hw Hmel HM Hx.
  destruct (wired_dims Hw) as ((Hai1 & Hai2) & (Hc1i & Hc1o & Hc1k & Hc1s & Hc1p)
                               & (Hc2i & Hc2o & Hc2k & Hc2s & Hc2p) & _ & _).
  unfold encoder_inputs_embeds.
  destruct (@on_last_shape (Linear_forward1 (adapt_in self)) B M
              (Z.to_nat (ts_adapt_in_dim config)) 80 x) as (x1 & E1 & H1).
  { intros v Hv. rewrite <- Hai2. apply Linear_forward1_ok. rewrite Hai1. exact Hv. }
  { exact Hx. }
  rewrite E1. simpl bind.
  edestruct (@Conv1d_forward_shape A _ (conv1 self) B M x1) as (x2 & E2 & H2).
  { rewrite Hc1k. lia. } { rewrite Hc1s. lia. } { unfold padding in Hc1p. lia. }
  { rewrite Hc1k, Hc1p. lia. }
  { rewrite Hc1i, Hmel. exact H1. }
  rewrite E2. simpl bind.
  rewrite Hc1k, Hc1s, Hc1p, Hc1o in H2.
  apply (map3_shape s_gelu) in H2.
  apply (@has_shape_eq B _ M _ (Z.to_nat (d_model config))) in H2;
    [| rewrite Nat.div_1_r; lia | reflexivity].
  edestruct (@Conv1d_forward_shape A _ (conv2 self) B M (map3 s_gelu x2)) as (x3 & E3 & H3).
  { rewrite Hc2k. lia. } { rewrite Hc2s. lia. } { unfold padding in Hc2p. lia. }
  { rewrite Hc2k, Hc2p. lia. }
  { rewrite Hc2i. exact H2. }
  rewrite E3. simpl bind.
  rewrite Hc2k, Hc2s, Hc2p, Hc2o in H3.
  apply (map3_shape s_gelu) in H3.
  eexists. split; [reflexivity | exact H3].
Qed.

(** A wired encoder whose layers preserve shapes, and whose mask can be built,
    returns one output frame per frame of [inputs_embeds]. *)
Lemma encoder_forward_shape (self : @InternTimeSeriesEncoder A)
  (config : InternTimeSeriesEncoderConfig) (r : rng) (B M : nat) (x : list (list (list A))) :
  encoder_wired self config -> num_mel_bins config = 80 ->
  Forall shape_preserving (enc_layers self) ->
  (forall bsz n, exists am, build_attention_mask self bsz n = Ok am) ->
  (1 <= M)%nat -> has_shape B M (Z.to_nat (ts_adapt_in_dim config)) x ->
  exists h trace, InternTimeSeriesEncoder_forward self r x = Ok (h, trace) /\
    has_shape B ((M + 2 * 1 - 3) / 2 + 1) (Z.to_nat (ts_adapt_out_dim config)) h.
Proof.
  intros Hw Hmel Hlayers Hmask HM Hx.
  destruct (encoder_inputs_embeds_shape Hw Hmel HM Hx) as (e & Ee & He).
  destruct (wired_dims Hw) as (_ & _ & _ & Hln & (Hao1 & Hao2)).
  unfold InternTimeSeriesEncoder_forward. rewrite Ee. simpl bind.
  destruct (Hmask (length e) (shape1 e)) as (am & Eam). rewrite Eam. simpl bind.
  pose proof (dropout_shape self r (add_positions_shape self He)) as Hd.
  pose proof (run_layers_shape (training self) r am 0 Hlayers Hd) as Hrun.
  destruct (run_layers (training self) r am 0 (enc_layers self)
              (dropout self r (add_positions self e))) as [hs tr]. cbn [fst] in Hrun.
  destruct (@on_last_shape (LayerNorm_forward1 (layer_norm self)) B ((M + 2 * 1 - 3) / 2 + 1)
              (Z.to_nat (d_model config)) (Z.to_nat (d_model config)) hs) as (h1 & E1 & H1).
  { intros v Hv. rewrite <- Hln. apply LayerNorm_forward1_ok. rewrite Hln. exact Hv. }
  { exact Hrun. }
  rewrite E1. simpl bind.
  destruct (@on_last_shape (Linear_forward1 (adapt_out self)) B ((M + 2 * 1 - 3) / 2 + 1)
              (Z.to_nat (d_model config)) (Z.to_nat (ts_adapt_out_dim config)) h1) as (h2 & E2 & H2).
  { intros v Hv. rewrite <- Hao2. apply Linear_forward1_ok. rewrite Hao1. exact Hv. }
  { exact H1. }
  rewrite E2. simpl bind. eexists. eexists. split; [reflexivity | exact H2].
Qed.

(** The lengths [Conv1dSubsampling.forward] returns are the closed-form
    update followed by the halving, whatever the signal. *)
Lemma Conv1dSubsampling_forward_lens_inv (self : @Conv1dSubsampling A)
  (x e : list (list (list A))) (l l' : list Z) :
  Conv1dSubsampling_forward self x (Some l) = Ok (e, l') ->
  l' = map (fun v => subsampled_len v / 2) l.
Proof.
  unfold Conv1dSubsampling_forward, ConcatSubsampling_forward. intros E.
  destruct (run_conv_layers (layers self) x) as [y|]; [|discriminate]. simpl bind in E.
  match type of E with
  | bind ?c _ = _ => destruct c as [z|]; [|discriminate]
  end.
  simpl in E. injection E as _ <-. rewrite map_map. reflexivity.
Qed.

Lemma forallb_pos (l : list Z) :
  forallb (fun v => 0 <? v) l = true <-> Forall (fun v => 0 < v) l.
Proof.
  rewrite forallb_forall, Forall_forall. split; intros Hl v Hv.
  - apply Z.ltb_lt. now apply Hl.
  - apply Z.ltb_lt. now apply Hl.
Qed.

(** C4. On signals of shape (B, T, 1), with lengths that are 64-bit integers
    below the largest one, the padding mask that
    [InternTimeSeriesModel.forward] returns is [make_pad_mask] of the lengths
    (x_lens' + 1) // 2, with x_lens' the lengths from [Conv1dSubsampling]. The
    halving is the output-length formula of the encoder's stride-2
    convolution; row i of the mask is False exactly below the halved length of
    element i; the call only returns with [return_dict] set and when every
    halved length is positive. With a wired encoder, shape-preserving layers
    and long enough signals the call returns, the encoder output has one frame
    per halved length, and for unpadded signals the mask row covers exactly
    the output frames. *)
Theorem InternTimeSeriesModel_forward_pad_mask (self : @InternTimeSeriesModel A)
  (config : InternTimeSeriesEncoderConfig)
  (cnn_params : nat -> (nat -> nat -> nat -> A) * (nat -> A)) (r : rng)
  (B T : nat) (x : list (list (list A))) (x_lens : list Z) :
  model_config self = config ->
  default_layers config ->
  Conv1dSubsampling_init config cnn_params = Ok (encoder_embed self) ->
  has_shape B T 1 x -> length x_lens = B ->
  Forall int64_in_range x_lens ->
  let halved := map halve_len (map (fun v => subsampled_len v / 2) x_lens) in
  (forall M, halve_len M = conv_out_len M 3 2 1) /\
  (forall return_dict out,
     InternTimeSeriesModel_forward self r (Some x) (Some x_lens) return_dict None = Ok out ->
     (exists e lens',
        Conv1dSubsampling_forward (encoder_embed self) x (Some x_lens) = Ok (e, lens') /\
        halved = map halve_len lens') /\
     Forall (fun v => 0 < v) halved /\
     exists mask,
       make_pad_mask halved = Ok mask /\
       return_dict = true /\
       (exists h, out = TimeSeriesModelOutput h mask) /\
       length mask = B /\
       forall i j, (i < B)%nat -> (j < length (nth i mask []))%nat ->
         (nth j (nth i mask []) true = false <-> Z.of_nat j < nth i halved 0)) /\
  (encoder_wired (encoder self) config ->
   ts_adapt_in_dim config = 256 -> num_mel_bins config = 80 ->
   Forall shape_preserving (enc_layers (encoder self)) ->
   (forall bsz n, exists am, build_attention_mask (encoder self) bsz n = Ok am) ->
   (1 <= B)%nat -> (1 <= T)%nat -> (1 <= default_conv_len T / 2)%nat ->
   Forall (fun v => 0 < v) halved ->
   exists h mask,
     InternTimeSeriesModel_forward self r (Some x) (Some x_lens) true None
       = Ok (TimeSeriesModelOutput h mask) /\
     has_shape B (Z.to_nat (halve_len (subsampled_len (Z.of_nat T) / 2)))
               (Z.to_nat (ts_adapt_out_dim config)) h /\
     (Forall (fun v => v = Z.of_nat T) x_lens ->
      forall i, (i < B)%nat ->
        length (nth i mask []) = length (nth i h []) /\
        Forall (fun b => b = false) (nth i mask []))).
Proof.
  intros Hcfg Hd Hinit Hx Hlen Hrange halved.
  split; [exact halve_len_conv|]. split.
  - (* what a returning call returns *)
    intros rd out E. unfold InternTimeSeriesModel_forward in E.
    destruct (Conv1dSubsampling_forward (encoder_embed self) x (Some x_lens))
      as [[e l']|] eqn:Esub; [|discriminate].
    pose proof (Conv1dSubsampling_forward_lens_inv _ _ _ Esub) as Hl'. subst l'.
    simpl bind in E.
    destruct (InternTimeSeriesEncoder_forward (encoder self) r e) as [[h tr]|]; [|discriminate].
    simpl bind in E. fold halved in E.
    destruct (forallb (fun l => 0 <? l) halved) eqn:Epos; [|discriminate].
    simpl negb in E. cbv iota in E.
    destruct (make_pad_mask halved) as [mask|] eqn:Emask; [|discriminate].
    simpl bind in E.
    split; [eexists; eexists; split; [reflexivity | reflexivity]|].
    split; [apply forallb_pos; exact Epos|].
    exists mask. split; [reflexivity|].
    destruct rd; simpl in E; [|discriminate]. split; [reflexivity|]. split.
    { injection E as <-. eauto. }
    destruct (make_pad_mask_inv _ Emask) as (m & Hm & _ & _ & ->).
    assert (HlenB : length halved = B) by (unfold halved; rewrite !length_map; exact Hlen).
    split; [rewrite length_map; exact HlenB|].
    intros i j Hi Hj. rewrite pad_mask_row_length in Hj by lia.
    rewrite nth_pad_mask_row by lia.
    destruct (Z.leb_spec (nth i halved 0) (Z.of_nat j)); split; intros;
      try lia; try discriminate; try reflexivity.
  - (* the call returns *)
    intros Hw Hin Hmel Hlayers Hmask HB HT HM Hpos.
    destruct (@Conv1dSubsampling_forward_default A _ config cnn_params (encoder_embed self)
                B T x x_lens Hd Hinit HT Hx) as (e & Ee & He).
    assert (He' : has_shape B (default_conv_len T / 2) (Z.to_nat (ts_adapt_in_dim config)) e).
    { rewrite Hin. exact He. }
    destruct (@encoder_forward_shape (encoder self) config r B (default_conv_len T / 2) e
                Hw Hmel Hlayers Hmask HM He') as (h & tr & Eh & Hh).
    assert (HlenB : length halved = B) by (unfold halved; rewrite !length_map; exact Hlen).
    assert (Hne : halved <> []).
    { intros Hnil. rewrite Hnil in HlenB. simpl in HlenB. lia. }
    destruct halved as [|v vs] eqn:Ehalved; [congruence|].
    assert (Hmax : tensor_max (v :: vs) = Ok (fold_left Z.max vs v)) by reflexivity.
    destruct (fold_left_max_ge vs v) as [G1 G2].
    assert (Hv : 0 < v) by (inversion Hpos; assumption).
    assert (Hmask' := @make_pad_mask_ok (v :: vs) (fold_left Z.max vs v) Hmax ltac:(lia)).
    assert (HL : Z.of_nat ((default_conv_len T / 2 + 2 * 1 - 3) / 2 + 1)
                 = halve_len (subsampled_len (Z.of_nat T) / 2)).
    { rewrite <- (default_conv_len_Z HT), <- (Nat2Z.inj_div _ 2).
      apply halve_len_nat. exact HM. }
    eexists. eexists. split; [|split].
    + unfold InternTimeSeriesModel_forward. rewrite Ee. simpl bind. rewrite Eh. simpl bind.
      rewrite (map_map subsampled_len (fun l => l / 2)).
      fold halved. rewrite Ehalved.
      replace (forallb (fun l => 0 <? l) (v :: vs)) with true
        by (symmetry; apply forallb_pos; exact Hpos).
      simpl negb. cbv iota. rewrite Hmask'. reflexivity.
    + rewrite <- HL, Nat2Z.id. exact Hh.
    + intros Huni i Hi.
      assert (Hall : Forall (fun w => w = Z.of_nat ((default_conv_len T / 2 + 2 * 1 - 3) / 2 + 1))
                            (v :: vs)).
      { rewrite <- Ehalved. unfold halved. rewrite map_map. apply Forall_map.
        eapply Forall_impl; [|exact Huni]. intros w ->. symmetry. exact HL. }
      assert (Hmx : fold_left Z.max vs v = Z.of_nat ((default_conv_len T / 2 + 2 * 1 - 3) / 2 + 1)).
      { destruct (fold_left_max_in vs v) as [E' | E'].
        - rewrite E'. now inversion Hall.
        - rewrite Forall_forall in Hall. apply Hall. now right. }
      rewrite Hmx, Nat2Z.id.
      assert (Hi' : (i < length (v :: vs))%nat) by lia.
      rewrite pad_mask_row_length by exact Hi'.
      destruct Hh as [HhB Hh]. split.
      * rewrite Forall_forall in Hh.
        destruct (Hh (nth i h [])) as [Hs _]; [apply nth_In; lia | symmetry; exact Hs].
      * apply Forall_forall. intros b Hb.
        apply (In_nth _ _ true) in Hb. destruct Hb as (j & Hj & <-).
        rewrite pad_mask_row_length in Hj by exact Hi'.
        rewrite nth_pad_mask_row by assumption.
        rewrite Forall_forall in Hall. rewrite (Hall (nth i (v :: vs) 0)) by (apply nth_In; exact Hi').
        apply Z.leb_gt. lia.
Qed.

End WithScalar.

End ModelFacts.
(** ** The merge of image and time-series features *)

Module MergeFacts.
Import Merge.

Lemma firstn_firstn_add {X : Type} (c t : nat) (l : list X) :
  firstn c (firstn (c + t) l) = firstn c l.
Proof. rewrite firstn_firstn. f_equal. lia. Qed.

Lemma skipn_firstn_add {X : Type} (c t : nat) (l : list X) :
  skipn c (firstn (c + t) l) = firstn t (skipn c l).
Proof.
  revert l. induction c as [|c IH]; intros l; [reflexivity|].
  destruct l as [|x l]; simpl.
  - rewrite firstn_nil. reflexivity.
  - apply IH.
Qed.

Lemma skipn_skipn_add {X : Type} (c t : nat) (l : list X) :
  skipn t (skipn c l) = skipn (c + t) l.
Proof.
  revert l. induction c as [|c IH]; intros l; [reflexivity|].
  destruct l as [|x l]; simpl; [apply skipn_nil | apply IH].
Qed.

(** The closed form of a threaded traversal. *)
Lemma thread_closed {A X M : Type} (f : M -> X -> list A -> result (X * list A))
  (cnt : M -> X -> nat) (g : M -> X -> list A -> X) (e : exn) :
  (forall m x src,
     f m x src = if (cnt m x <=? length src)%nat
                 then Ok (g m x (firstn (cnt m x) src), skipn (cnt m x) src)
                 else Raise e) ->
  forall ms xs src,
    thread f ms xs src =
    if (total cnt ms xs <=? length src)%nat
    then Ok (rebuild cnt g ms xs (firstn (total cnt ms xs) src), skipn (total cnt ms xs) src)
    else Raise e.
Proof.
  intros Hf ms xs. revert ms. induction xs as [|x xs IH]; intros ms src.
  - reflexivity.
  - destruct ms as [|m ms]; [reflexivity|].
    cbn [thread total rebuild]. rewrite Hf.
    destruct (Nat.leb_spec (cnt m x) (length src)) as [Hc | Hc].
    + simpl bind. rewrite IH. rewrite length_skipn.
      destruct (Nat.leb_spec (total cnt ms xs) (length src - cnt m x)) as [Ht | Ht].
      * destruct (Nat.leb_spec (cnt m x + total cnt ms xs) (length src)); [|lia].
        simpl bind. rewrite firstn_firstn_add, skipn_firstn_add, skipn_skipn_add.
        reflexivity.
      * destruct (Nat.leb_spec (cnt m x + total cnt ms xs) (length src)); [lia|].
        reflexivity.
    + destruct (Nat.leb_spec (cnt m x + total cnt ms xs) (length src)); [lia|].
      reflexivity.
Qed.

Section WithElements.
Context {A : Type}.

Lemma scatter_elem_closed (b : bool) (a : A) (src : list A) :
  scatter_elem b a src =
  if (cnt0 b a <=? length src)%nat
  then Ok (g0 b a (firstn (cnt0 b a) src), skipn (cnt0 b a) src)
  else Raise scatter_error.
Proof. destruct b, src; reflexivity. Qed.

Lemma scatter3_closed (mask : list (list (list bool))) (x : list (list (list A))) (src : list A) :
  scatter3 mask x src =
  if (cnt3 mask x <=? length src)%nat
  then Ok (g3 mask x (firstn (cnt3 mask x) src), skipn (cnt3 mask x) src)
  else Raise scatter_error.
Proof.
  apply thread_closed. apply thread_closed. apply thread_closed.
  apply scatter_elem_closed.
Qed.

Lemma pick_nil_r {X : Type} (bits : list bool) : pick bits (@nil X) = [].
Proof. unfold pick. rewrite combine_nil. reflexivity. Qed.

Lemma pick_cons {X : Type} (b : bool) (bs : list bool) (x : X) (xs : list X) :
  pick (b :: bs) (x :: xs) = if b then x :: pick bs xs else pick bs xs.
Proof. unfold pick. simpl. destruct b; reflexivity. Qed.

Lemma pick2_cons {X : Type} (m : list bool) (ms : list (list bool)) (y : list X)
  (ys : list (list X)) :
  pick2 (m :: ms) (y :: ys) = pick m y ++ pick2 ms ys.
Proof. reflexivity. Qed.

Lemma pick2_nil_r {X : Type} (mask : list (list bool)) : pick2 mask (@nil (list X)) = [].
Proof. unfold pick2. rewrite combine_nil. reflexivity. Qed.

(** *** One row under a uniform mask *)

Lemma cnt1_repeat (b : bool) (x : list A) :
  cnt1 (repeat b (length x)) x = if b then length x else 0%nat.
Proof.
  unfold cnt1. induction x as [|a x IH]; simpl; [destruct b; reflexivity|].
  rewrite IH. destruct b; reflexivity.
Qed.

Lemma g1_repeat (b : bool) (x chunk : list A) :
  length chunk = (if b then length x else 0%nat) ->
  g1 (repeat b (length x)) x chunk = if b then chunk else x.
Proof.
  unfold g1. revert chunk. induction x as [|a x IH]; intros chunk Hlen; simpl.
  - destruct b; [destruct chunk; [reflexivity | discriminate] | reflexivity].
  - destruct b; simpl.
    + destruct chunk as [|c chunk]; [discriminate|]. simpl.
      rewrite IH by (simpl in Hlen; lia). reflexivity.
    + rewrite IH by exact Hlen. reflexivity.
Qed.

Lemma pick_repeat (b : bool) (x : list A) :
  pick (repeat b (length x)) x = if b then x else [].
Proof.
  induction x as [|a x IH]; simpl; [destruct b; reflexivity|].
  rewrite pick_cons, IH. destruct b; reflexivity.
Qed.

(** *** One batch element: a sequence of rows *)

Lemma cnt2_m2 (bits : list bool) (rows : list (list A)) :
  cnt2 (m2 bits rows) rows = length (concat (pick bits rows)).
Proof.
  unfold cnt2. revert bits. induction rows as [|r rs IH]; intros bits.
  - rewrite pick_nil_r. reflexivity.
  - destruct bits as [|b bs]; [reflexivity|].
    cbn [m2 combine map total fst snd]. fold (m2 bs rs).
    rewrite IH, cnt1_repeat, pick_cons.
    destruct b; simpl; rewrite ?length_app; reflexivity.
Qed.

Lemma g2_m2 (bits : list bool) (rows : list (list A)) (chunk : list A) :
  length chunk = cnt2 (m2 bits rows) rows ->
  map (@length A) (g2 (m2 bits rows) rows chunk) = map (@length A) rows /\
  concat (pick bits (g2 (m2 bits rows) rows chunk)) = chunk /\
  (forall s, nth s bits false = false ->
     nth s (g2 (m2 bits rows) rows chunk) [] = nth s rows []).
Proof.
  unfold g2. revert bits chunk. induction rows as [|r rs IH]; intros bits chunk Hlen.
  - rewrite cnt2_m2, pick_nil_r in Hlen. simpl in Hlen.
    destruct chunk; [|discriminate]. cbn [rebuild]. rewrite pick_nil_r.
    repeat split; try (intros; reflexivity).
  - destruct bits as [|b bs].
    + simpl in Hlen. destruct chunk; [|discriminate]. cbn [m2 combine map rebuild].
      repeat split; try (intros; reflexivity).
    + cbn [m2 combine map rebuild fst snd]. fold (m2 bs rs).
      assert (Hc : cnt2 (m2 (b :: bs) (r :: rs)) (r :: rs)
                   = (cnt1 (repeat b (length r)) r + cnt2 (m2 bs rs) rs)%nat) by reflexivity.
      rewrite Hc in Hlen. clear Hc.
      set (c := cnt1 (repeat b (length r)) r) in *.
      assert (Hc : c = if b then length r else 0%nat) by apply cnt1_repeat.
      assert (Hf : length (firstn c chunk) = c) by (rewrite length_firstn; lia).
      assert (Hs : length (skipn c chunk) = cnt2 (m2 bs rs) rs) by (rewrite length_skipn; lia).
      destruct (IH bs (skipn c chunk) Hs) as (IH1 & IH2 & IH3).
      fold (g1 (repeat b (length r)) r (firstn c chunk)).
      rewrite g1_repeat by (rewrite Hf; exact Hc).
      split; [|split].
      * cbn [map]. rewrite IH1. f_equal. destruct b; [rewrite Hf, Hc; reflexivity | reflexivity].
      * rewrite pick_cons. destruct b.
        -- cbn [concat]. rewrite IH2. apply firstn_skipn.
        -- rewrite IH2. rewrite Hc. reflexivity.
      * intros [|s] Hbit; simpl in Hbit.
        -- subst b. reflexivity.
        -- simpl. apply IH3. exact Hbit.
Qed.

Lemma select_m2 (bits : list bool) (rows : list (list A)) :
  concat (map (fun q => pick (fst q) (snd q)) (combine (m2 bits rows) rows))
  = concat (pick bits rows).
Proof.
  revert bits. induction rows as [|r rs IH]; intros bits.
  - rewrite combine_nil, pick_nil_r. reflexivity.
  - destruct bits as [|b bs]; [reflexivity|].
    cbn [m2 combine map concat fst snd]. fold (m2 bs rs).
    rewrite IH, pick_repeat, pick_cons. destruct b; reflexivity.
Qed.

(** *** The batch *)

Lemma expand_as_cons (m : list bool) (ms : list (list bool)) (y : list (list A))
  (ys : list (list (list A))) :
  expand_as (m :: ms) (y :: ys) = m2 m y :: expand_as ms ys.
Proof. reflexivity. Qed.

Lemma cnt3_expand (mask : list (list bool)) (t : list (list (list A))) :
  cnt3 (expand_as mask t) t = length (concat (pick2 mask t)).
Proof.
  unfold cnt3. revert mask. induction t as [|y t IH]; intros mask.
  - rewrite pick2_nil_r. reflexivity.
  - destruct mask as [|m ms]; [reflexivity|].
    rewrite expand_as_cons, pick2_cons, concat_app, length_app.
    cbn [total]. rewrite IH. fold (cnt2 (m2 m y) y). rewrite cnt2_m2. reflexivity.
Qed.

Lemma g3_expand (mask : list (list bool)) (t : list (list (list A))) (chunk : list A) :
  length chunk = cnt3 (expand_as mask t) t ->
  map (map (@length A)) (g3 (expand_as mask t) t chunk) = map (map (@length A)) t /\
  concat (pick2 mask (g3 (expand_as mask t) t chunk)) = chunk /\
  (forall b s, nth s (nth b mask []) false = false ->
     nth s (nth b (g3 (expand_as mask t) t chunk) []) [] = nth s (nth b t []) []).
Proof.
  unfold g3. revert mask chunk. induction t as [|y t IH]; intros mask chunk Hlen.
  - rewrite cnt3_expand, pick2_nil_r in Hlen. simpl in Hlen.
    destruct chunk; [|discriminate]. cbn [rebuild]. rewrite pick2_nil_r.
    repeat split; try (intros; reflexivity).
  - destruct mask as [|m ms].
    + simpl in Hlen. destruct chunk; [|discriminate]. cbn [expand_as combine map rebuild].
      repeat split; try (intros; reflexivity).
    + rewrite expand_as_cons in *. cbn [rebuild].
      assert (Hc : cnt3 (m2 m y :: expand_as ms t) (y :: t)
                   = (cnt2 (m2 m y) y + cnt3 (expand_as ms t) t)%nat) by reflexivity.
      rewrite Hc in Hlen. clear Hc.
      set (c := cnt2 (m2 m y) y) in *.
      assert (Hf : length (firstn c chunk) = c) by (rewrite length_firstn; lia).
      assert (Hs : length (skipn c chunk) = cnt3 (expand_as ms t) t)
        by (rewrite length_skipn; lia).
      destruct (IH ms (skipn c chunk) Hs) as (IH1 & IH2 & IH3).
      destruct (@g2_m2 m y (firstn c chunk) Hf) as (G1 & G2 & G3).
      split; [|split].
      * cbn [map]. rewrite IH1. f_equal. exact G1.
      * rewrite pick2_cons, concat_app, IH2.
        fold (g2 (m2 m y) y (firstn c chunk)). rewrite G2. apply firstn_skipn.
      * intros [|b] s Hbit; simpl in Hbit.
        -- simpl. apply G3. exact Hbit.
        -- simpl. apply IH3. exact Hbit.
Qed.

Lemma masked_select_expand (mask : list (list bool)) (t : list (list (list A))) :
  masked_select t (expand_as mask t) = concat (pick2 mask t).
Proof.
  unfold masked_select. revert mask. induction t as [|y t IH]; intros mask.
  - rewrite combine_nil, pick2_nil_r. reflexivity.
  - destruct mask as [|m ms]; [reflexivity|].
    rewrite expand_as_cons, pick2_cons, concat_app.
    cbn [combine map concat fst snd]. rewrite concat_app, IH, select_m2. reflexivity.
Qed.

(** [masked_scatter] under an expanded mask: it succeeds exactly when the
    source has enough elements; the selected rows then hold, in order, the
    first elements of the source, and every other row is unchanged. *)
Lemma masked_scatter_expand (mask : list (list bool)) (x : list (list (list A))) (src : list A) :
  let n := length (concat (pick2 mask x)) in
  ((n <= length src)%nat ->
   exists y, masked_scatter x (expand_as mask x) src = Ok y /\
     map (map (@length A)) y = map (map (@length A)) x /\
     concat (pick2 mask y) = firstn n src /\
     (forall b s, nth s (nth b mask []) false = false ->
        nth s (nth b y []) [] = nth s (nth b x []) [])) /\
  ((length src < n)%nat -> masked_scatter x (expand_as mask x) src = Raise scatter_error).
Proof.
  intros n. unfold masked_scatter. rewrite scatter3_closed, cnt3_expand. fold n.
  split; intros Hn.
  - destruct (Nat.leb_spec n (length src)); [|lia]. simpl bind.
    eexists. split; [reflexivity|].
    apply g3_expand. rewrite cnt3_expand, length_firstn. fold n. lia.
  - destruct (Nat.leb_spec n (length src)); [lia|]. reflexivity.
Qed.

Variable A_eqb : A -> A -> bool.

Lemma token_elements_pick (embed_tokens : Z -> list A) (input_ids : option (list (list Z)))
  (E : list (list (list A))) (tok : Z) :
  token_elements A_eqb embed_tokens input_ids E tok
  = length (concat (pick2 (special_mask A_eqb embed_tokens input_ids E tok) E)).
Proof. unfold token_elements. rewrite masked_select_expand. reflexivity. Qed.

(** What a merge block returns when it returns. *)
Lemma merge_features_ok (compiling : bool) (msg : string) (embed_tokens : Z -> list A)
  (input_ids : option (list (list Z))) (E E' : list (list (list A))) (tok : Z) (src : list A) :
  merge_features A_eqb compiling msg embed_tokens input_ids E tok src = Ok E' ->
  let mask := special_mask A_eqb embed_tokens input_ids E tok in
  let n := token_elements A_eqb embed_tokens input_ids E tok in
  map (map (@length A)) E' = map (map (@length A)) E /\
  concat (pick2 mask E') = firstn n src /\
  (forall b s, nth s (nth b mask []) false = false ->
     nth s (nth b E' []) [] = nth s (nth b E []) []) /\
  (compiling = false -> n = length src).
Proof.
  intros Hok mask n. unfold merge_features in Hok. fold mask in Hok.
  assert (Hn : n = length (concat (pick2 mask E))) by apply token_elements_pick.
  rewrite masked_select_expand in Hok. rewrite <- Hn in Hok.
  destruct (masked_scatter_expand mask E src) as [Hle Hgt]. cbv zeta in Hle, Hgt.
  rewrite <- Hn in Hle, Hgt.
  assert (Hcase : (n <= length src)%nat /\ (compiling = false -> n = length src)).
  { destruct compiling; simpl in Hok.
    - split; [|discriminate].
      destruct (Nat.le_gt_cases n (length src)) as [Hc | Hc]; [exact Hc|].
      rewrite (Hgt Hc) in Hok. discriminate.
    - destruct (Nat.eqb_spec n (length src)) as [Heq | Hne]; simpl in Hok; [|discriminate].
      split; [lia | intros _; exact Heq]. }
  destruct Hcase as [Hc Hnc].
  destruct (Hle Hc) as (y & Ey & Hy1 & Hy2 & Hy3).
  assert (E' = y).
  { destruct compiling; simpl in Hok.
    - congruence.
    - destruct (Nat.eqb_spec n (length src)); simpl in Hok; [congruence | discriminate]. }
  subst y. repeat split; assumption.
Qed.

(** Outside compilation a merge block raises its ValueError exactly when the
    counts differ, and completes when they agree. *)
Lemma merge_features_checked (msg : string) (embed_tokens : Z -> list A)
  (input_ids : option (list (list Z))) (E : list (list (list A))) (tok : Z) (src : list A) :
  let n := token_elements A_eqb embed_tokens input_ids E tok in
  (n <> length src ->
   merge_features A_eqb false msg embed_tokens input_ids E tok src = Raise (ValueError msg)) /\
  (n = length src ->
   exists E', merge_features A_eqb false msg embed_tokens input_ids E tok src = Ok E').
Proof.
  intros n. unfold merge_features.
  set (mask := special_mask A_eqb embed_tokens input_ids E tok).
  assert (Hn : n = length (concat (pick2 mask E))) by apply token_elements_pick.
  rewrite masked_select_expand, <- Hn.
  split; intros Hc.
  - destruct (Nat.eqb_spec n (length src)); [contradiction | reflexivity].
  - destruct (Nat.eqb_spec n (length src)); [|contradiction]. simpl.
    destruct (masked_scatter_expand mask E src) as [Hle _]. cbv zeta in Hle.
    rewrite <- Hn in Hle. destruct (Hle ltac:(lia)) as (y & Ey & _). eauto.
Qed.

Lemma merge_features_raises (compiling : bool) (msg msg' : string) (embed_tokens : Z -> list A)
  (input_ids : option (list (list Z))) (E : list (list (list A))) (tok : Z) (src : list A) :
  merge_features A_eqb compiling msg embed_tokens input_ids E tok src = Raise (ValueError msg') ->
  msg' = msg /\ compiling = false /\
  token_elements A_eqb embed_tokens input_ids E tok <> length src.
Proof.
  unfold merge_features. fold (token_elements A_eqb embed_tokens input_ids E tok).
  set (n := token_elements A_eqb embed_tokens input_ids E tok).
  set (mask := special_mask A_eqb embed_tokens input_ids E tok).
  assert (Hn : n = length (concat (pick2 mask E))) by apply token_elements_pick.
  destruct (masked_scatter_expand mask E src) as [Hle Hgt]. cbv zeta in Hle, Hgt.
  rewrite <- Hn in Hle, Hgt.
  assert (Hsc : forall m, masked_scatter E (expand_as mask E) src <> Raise (ValueError m)).
  { intros m Hm. destruct (Nat.le_gt_cases n (length src)) as [Hc | Hc].
    - destruct (Hle Hc) as (y & Ey & _). congruence.
    - rewrite (Hgt Hc) in Hm. discriminate. }
  destruct compiling; simpl.
  - intros Hr. apply Hsc in Hr. contradiction.
  - destruct (Nat.eqb_spec n (length src)); simpl.
    + intros Hr. apply Hsc in Hr. contradiction.
    + intros Hr. injection Hr as <-. auto.
Qed.

(** C2. Outside compilation [InternS1Model.forward] raises the image
    ValueError exactly when the number of embedding elements at the image-token
    positions differs from the number of image-feature elements; it raises the
    time-series ValueError exactly when the image block has completed and the
    number of embedding elements at the context-token positions differs from
    the number of valid time-series feature elements; when the counts of a
    block agree the block completes, and when both agree the merge returns. *)
Theorem forward_raises_iff_counts_differ (image_token_id ts_context_token_id : Z)
  (embed_tokens : Z -> list A)
  (input_ids : option (list (list Z))) (inputs_embeds : option (list (list (list A))))
  (image_features : option (list (list (list A))))
  (time_series : option (list (list (list A)) * list (list bool))) :
  xorb (is_none input_ids) (negb (is_none inputs_embeds)) = false ->
  let E0 := initial_embeds embed_tokens input_ids inputs_embeds in
  let fwd := InternS1Model_forward A_eqb false image_token_id ts_context_token_id embed_tokens
               input_ids inputs_embeds image_features time_series in
  let img := merge_image A_eqb false image_token_id embed_tokens input_ids E0 image_features in
  (fwd = Raise (ValueError image_mismatch) <->
   exists f, image_features = Some f /\
     token_elements A_eqb embed_tokens input_ids E0 image_token_id <> numel3 f) /\
  ((forall f, image_features = Some f ->
      token_elements A_eqb embed_tokens input_ids E0 image_token_id = numel3 f) ->
   exists E1, img = Ok E1) /\
  (fwd = Raise (ValueError ts_mismatch) <->
   exists E1 f pm valid, img = Ok E1 /\ time_series = Some (f, pm) /\
     select_valid f pm = Ok valid /\
     token_elements A_eqb embed_tokens input_ids E1 ts_context_token_id
       <> length (concat valid)) /\
  (forall E1, img = Ok E1 ->
     (forall f pm, time_series = Some (f, pm) ->
        exists valid, select_valid f pm = Ok valid /\
          token_elements A_eqb embed_tokens input_ids E1 ts_context_token_id
            = length (concat valid)) ->
     exists out, fwd = Ok out).
Proof.
  intros Hxor E0 fwd img.
  assert (Hfwd : fwd = bind img (fun E1 =>
            merge_time_series A_eqb false ts_context_token_id embed_tokens input_ids E1 time_series)).
  { unfold fwd, InternS1Model_forward. rewrite Hxor. reflexivity. }
  assert (Hts : forall E1 m,
            merge_time_series A_eqb false ts_context_token_id embed_tokens input_ids E1 time_series
              = Raise (ValueError m) ->
            m = ts_mismatch /\
            exists f pm valid, time_series = Some (f, pm) /\ select_valid f pm = Ok valid /\
              token_elements A_eqb embed_tokens input_ids E1 ts_context_token_id
                <> length (concat valid)).
  { intros E1 m Hr. unfold merge_time_series in Hr.
    destruct time_series as [[f pm]|]; [|discriminate].
    destruct (select_valid f pm) as [valid|] eqn:Ev.
    - simpl bind in Hr. apply merge_features_raises in Hr. destruct Hr as (-> & _ & Hne).
      split; [reflexivity|]. exists f, pm, valid. auto.
    - simpl in Hr. unfold select_valid in Ev.
      destruct (_ && _) in Ev; [discriminate|]. injection Ev as <-. discriminate. }
  assert (Himg : forall m, img = Raise (ValueError m) ->
            m = image_mismatch /\
            exists f, image_features = Some f /\
              token_elements A_eqb embed_tokens input_ids E0 image_token_id <> numel3 f).
  { intros m Hr. unfold img, merge_image in Hr.
    destruct image_features as [f|]; [|discriminate].
    apply merge_features_raises in Hr. destruct Hr as (-> & _ & Hne).
    split; [reflexivity|]. exists f. auto. }
  split; [|split; [|split]].
  - rewrite Hfwd. split.
    + intros Hr. destruct img as [E1|e] eqn:Eimg.
      * simpl in Hr. apply Hts in Hr. destruct Hr as [Hm _]. discriminate.
      * simpl in Hr. injection Hr as ->. destruct (Himg _ eq_refl) as [_ Hex]. exact Hex.
    + intros (f & -> & Hne). unfold img, merge_image.
      destruct (merge_features_checked image_mismatch embed_tokens input_ids E0
                  image_token_id (flatten3 f)) as [Hraise _].
      rewrite (Hraise Hne). reflexivity.
  - intros Hmatch. unfold img, merge_image.
    destruct image_features as [f|]; [|eauto].
    destruct (merge_features_checked image_mismatch embed_tokens input_ids E0
                image_token_id (flatten3 f)) as [_ Hok].
    apply Hok. apply Hmatch. reflexivity.
  - rewrite Hfwd. split.
    + intros Hr. destruct img as [E1|e] eqn:Eimg.
      * simpl in Hr. apply Hts in Hr. destruct Hr as (_ & f & pm & valid & H1 & H2 & H3).
        exists E1, f, pm, valid. auto.
      * simpl in Hr. injection Hr as ->. destruct (Himg _ eq_refl) as [Hm _]. discriminate.
    + intros (E1 & f & pm & valid & -> & -> & Ev & Hne). simpl.
      rewrite Ev. simpl bind.
      destruct (merge_features_checked ts_mismatch embed_tokens input_ids E1
                  ts_context_token_id (concat valid)) as [Hraise _].
      exact (Hraise Hne).
  - intros E1 HE1 Hmatch. rewrite Hfwd, HE1. simpl bind. unfold merge_time_series.
    destruct time_series as [[f pm]|]; [|eauto].
    destruct (Hmatch f pm eq_refl) as (valid & Ev & Hn). rewrite Ev. simpl bind.
    destruct (merge_features_checked ts_mismatch embed_tokens input_ids E1
                ts_context_token_id (concat valid)) as [_ Hok].
    apply Hok. exact Hn.
Qed.

Lemma nth_eq_token_false (ids : list (list Z)) (tok : Z) (b s : nat) :
  nth s (nth b ids []) 0 <> tok ->
  nth s (nth b (eq_token ids tok) []) false = false.
Proof.
  intros Hne. unfold eq_token.
  change (@nil bool) with (map (fun i => i =? tok) []).
  rewrite (map_nth (map (fun i => i =? tok))).
  destruct (Nat.lt_ge_cases s (length (nth b ids []))) as [Hs | Hs].
  - rewrite (nth_indep _ false ((fun i => i =? tok) 0)) by (rewrite length_map; exact Hs).
    rewrite (map_nth (fun i => i =? tok)). apply Z.eqb_neq. exact Hne.
  - apply nth_overflow. rewrite length_map. exact Hs.
Qed.

Lemma pick_ext {X : Type} (d : X) (bits : list bool) (ys rows : list X) :
  length ys = length rows ->
  (forall s, nth s bits false = true -> nth s ys d = nth s rows d) ->
  pick bits ys = pick bits rows.
Proof.
  revert ys rows. induction bits as [|b bs IH]; intros ys rows Hlen Hsame; [reflexivity|].
  destruct ys as [|y ys], rows as [|r rows]; try discriminate.
  - rewrite !pick_nil_r. reflexivity.
  - rewrite !pick_cons.
    assert (Htl : pick bs ys = pick bs rows).
    { apply IH; [simpl in Hlen; lia|]. intros s Hs. apply (Hsame (S s)). exact Hs. }
    rewrite Htl. destruct b; [|reflexivity].
    f_equal. apply (Hsame 0%nat). reflexivity.
Qed.

Lemma pick2_ext {X : Type} (d : X) (mask : list (list bool)) (y x : list (list X)) :
  map (@length X) y = map (@length X) x ->
  (forall b s, nth s (nth b mask []) false = true -> nth s (nth b y []) d = nth s (nth b x []) d) ->
  pick2 mask y = pick2 mask x.
Proof.
  revert y x. induction mask as [|m ms IH]; intros y x Hlen Hsame; [reflexivity|].
  destruct y as [|y0 y], x as [|x0 x]; try discriminate.
  - rewrite !pick2_nil_r. reflexivity.
  - rewrite !pick2_cons. simpl in Hlen. injection Hlen as Hl0 Hl.
    f_equal.
    + apply pick_ext with (d := d); [exact Hl0|]. intros s Hs. apply (Hsame 0%nat s Hs).
    + apply IH; [exact Hl|]. intros b s Hs. apply (Hsame (S b) s Hs).
Qed.

Lemma map_map_length (y x : list (list (list A))) :
  map (map (@length A)) y = map (map (@length A)) x ->
  map (@length (list A)) y = map (@length (list A)) x.
Proof.
  revert x. induction y as [|y0 y IH]; intros x Hlen; destruct x as [|x0 x]; try discriminate.
  - reflexivity.
  - simpl in Hlen. injection Hlen as Hl0 Hl. simpl. f_equal.
    + apply (f_equal (@length nat)) in Hl0. rewrite !length_map in Hl0. exact Hl0.
    + apply IH. exact Hl.
Qed.

Lemma map_pick {X Y : Type} (f : X -> Y) (bits : list bool) (xs : list X) :
  map f (pick bits xs) = pick bits (map f xs).
Proof.
  revert bits. induction xs as [|x xs IH]; intros bits.
  - simpl map. rewrite !pick_nil_r. reflexivity.
  - destruct bits as [|b bs]; [reflexivity|].
    simpl map. rewrite !pick_cons, <- IH. destruct b; reflexivity.
Qed.

Lemma map_pick2 {X Y : Type} (f : X -> Y) (mask : list (list bool)) (t : list (list X)) :
  map f (pick2 mask t) = pick2 mask (map (map f) t).
Proof.
  revert mask. induction t as [|y t IH]; intros mask.
  - simpl map. rewrite !pick2_nil_r. reflexivity.
  - destruct mask as [|m ms]; [reflexivity|].
    simpl map. rewrite !pick2_cons, map_app, IH, map_pick. reflexivity.
Qed.

Lemma length_concat {X : Type} (l : list (list X)) :
  length (concat l) = list_sum (map (@length X) l).
Proof.
  induction l as [|x l IH]; [reflexivity|].
  simpl. rewrite length_app, IH. reflexivity.
Qed.

(** The number of selected elements only depends on the shape. *)
Lemma selected_elements_shape (mask : list (list bool)) (y x : list (list (list A))) :
  map (map (@length A)) y = map (map (@length A)) x ->
  length (concat (pick2 mask y)) = length (concat (pick2 mask x)).
Proof.
  intros Hshape. rewrite !length_concat, !map_pick2, Hshape. reflexivity.
Qed.

(** C1. In a forward call with [input_ids] and distinct special tokens, the
    embeddings handed to the language model keep the shape of the token
    embeddings; the rows at the image-token positions hold, in order, the
    elements of the image features (all of them outside compilation); the rows
    at the context-token positions hold, in order, the elements of the
    non-padding time-series features; and the row at every other position is
    the token embedding, unchanged. *)
Theorem forward_replaces_special_tokens (compiling : bool)
  (image_token_id ts_context_token_id : Z) (embed_tokens : Z -> list A)
  (input_ids : list (list Z))
  (image_features : option (list (list (list A))))
  (time_series : option (list (list (list A)) * list (list bool)))
  (out : list (list (list A))) :
  image_token_id <> ts_context_token_id ->
  InternS1Model_forward A_eqb compiling image_token_id ts_context_token_id embed_tokens
    (Some input_ids) None image_features time_series = Ok out ->
  let E0 := map (map embed_tokens) input_ids in
  map (map (@length A)) out = map (map (@length A)) E0 /\
  (forall f, image_features = Some f ->
     concat (pick2 (eq_token input_ids image_token_id) out)
       = firstn (token_elements A_eqb embed_tokens (Some input_ids) E0 image_token_id)
                (flatten3 f) /\
     (compiling = false ->
      concat (pick2 (eq_token input_ids image_token_id) out) = flatten3 f)) /\
  (forall f pm, time_series = Some (f, pm) ->
     exists valid, select_valid f pm = Ok valid /\
       concat (pick2 (eq_token input_ids ts_context_token_id) out)
         = firstn (token_elements A_eqb embed_tokens (Some input_ids) E0 ts_context_token_id)
                  (concat valid) /\
       (compiling = false ->
        concat (pick2 (eq_token input_ids ts_context_token_id) out) = concat valid)) /\
  (forall b s,
     (image_features <> None -> nth s (nth b input_ids []) 0 <> image_token_id) ->
     (time_series <> None -> nth s (nth b input_ids []) 0 <> ts_context_token_id) ->
     nth s (nth b out []) [] = nth s (nth b E0 []) []).
Proof.
  intros Hdistinct Hfwd E0.
  unfold InternS1Model_forward in Hfwd. simpl xorb in Hfwd. cbv iota in Hfwd.
  change (initial_embeds embed_tokens (Some input_ids) None) with E0 in Hfwd.
  destruct (merge_image A_eqb compiling image_token_id embed_tokens (Some input_ids) E0
              image_features) as [E1|] eqn:Himg; [|discriminate].
  simpl bind in Hfwd.
  set (imask := eq_token input_ids image_token_id).
  set (tmask := eq_token input_ids ts_context_token_id).
  (* the image block *)
  assert (F1 : map (map (@length A)) E1 = map (map (@length A)) E0 /\
               (forall f, image_features = Some f ->
                  concat (pick2 imask E1)
                    = firstn (token_elements A_eqb embed_tokens (Some input_ids) E0 image_token_id)
                             (flatten3 f) /\
                  (compiling = false ->
                   token_elements A_eqb embed_tokens (Some input_ids) E0 image_token_id
                     = length (flatten3 f))) /\
               (forall b s, (image_features <> None -> nth s (nth b imask []) false = false) ->
                  nth s (nth b E1 []) [] = nth s (nth b E0 []) [])).
  { unfold merge_image in Himg. destruct image_features as [f|].
    - apply merge_features_ok in Himg. cbv zeta in Himg.
      destruct Himg as (H1 & H2 & H3 & H4).
      split; [exact H1|]. split.
      + intros f' Hf'. injection Hf' as <-. split; [exact H2 | exact H4].
      + intros b s Hbit. apply H3. apply Hbit. discriminate.
    - injection Himg as <-. split; [reflexivity|]. split; [discriminate|]. reflexivity. }
  destruct F1 as (S1 & P1 & U1).
  (* the time-series block *)
  assert (F2 : map (map (@length A)) out = map (map (@length A)) E1 /\
               (forall f pm, time_series = Some (f, pm) ->
                  exists valid, select_valid f pm = Ok valid /\
                    concat (pick2 tmask out)
                      = firstn (token_elements A_eqb embed_tokens (Some input_ids) E1
                                  ts_context_token_id) (concat valid) /\
                    (compiling = false ->
                     token_elements A_eqb embed_tokens (Some input_ids) E1 ts_context_token_id
                       = length (concat valid))) /\
               (forall b s, (time_series <> None -> nth s (nth b tmask []) false = false) ->
                  nth s (nth b out []) [] = nth s (nth b E1 []) [])).
  { unfold merge_time_series in Hfwd. destruct time_series as [[f pm]|].
    - destruct (select_valid f pm) as [valid|] eqn:Ev; [|discriminate].
      simpl bind in Hfwd. apply merge_features_ok in Hfwd. cbv zeta in Hfwd.
      destruct Hfwd as (H1 & H2 & H3 & H4).
      split; [exact H1|]. split.
      + intros f' pm' Hf'. injection Hf' as <- <-. exists valid. auto.
      + intros b s Hbit. apply H3. apply Hbit. discriminate.
    - injection Hfwd as <-. split; [reflexivity|]. split; [discriminate|]. reflexivity. }
  destruct F2 as (S2 & P2 & U2).
  assert (Hcount : forall tok,
            token_elements A_eqb embed_tokens (Some input_ids) E1 tok
            = token_elements A_eqb embed_tokens (Some input_ids) E0 tok).
  { intros tok. rewrite !token_elements_pick. apply selected_elements_shape. exact S1. }
  split; [rewrite S2; exact S1|]. split; [|split].
  - intros f Hf. destruct (P1 f Hf) as (Hp & Hall).
    assert (Hkeep : pick2 imask out = pick2 imask E1).
    { apply pick2_ext with (d := @nil A); [apply map_map_length; exact S2|].
      intros b s Hbit. apply U2. intros _.
      apply nth_eq_token_false. intros Hts.
      assert (Him : nth s (nth b input_ids []) 0 = image_token_id).
      { destruct (Z.eq_dec (nth s (nth b input_ids []) 0) image_token_id) as [E|E]; [exact E|].
        unfold imask in Hbit. rewrite (nth_eq_token_false _ _ _ E) in Hbit. discriminate. }
      congruence. }
    rewrite Hkeep. split; [exact Hp|].
    intros Hc. rewrite Hp, (Hall Hc). apply firstn_all.
  - intros f pm Hf. destruct (P2 f pm Hf) as (valid & Ev & Hp & Hall).
    exists valid. split; [exact Ev|]. rewrite <- Hcount. split; [exact Hp|].
    intros Hc. rewrite Hp, (Hall Hc). apply firstn_all.
  - intros b s Hi Ht. rewrite U2, U1; [reflexivity | |].
    + intros Hn. apply nth_eq_token_false. apply Hi. exact Hn.
    + intros Hn. apply nth_eq_token_false. apply Ht. exact Hn.
Qed.

End WithElements.

End MergeFacts.
(** ** The composite configuration *)

Module ConfigFacts.
Import TSConfig Config.

Section Init.
Context {TK : Type} (CONFIG_MAPPING : string -> option (option TK -> TextConfig)).
Context (whisper_defaults : Z * Z * Z * Z).

(** Every accepted form of [vision_config] leaves the attribute set. *)
Lemma vision_config_is_set
  (v : config_arg vision_kwargs InternS1VisionConfig)
  (t : config_arg (option string * TK) TextConfig)
  (ts : config_arg kwargs InternTimeSeriesEncoderConfig)
  (kw : init_kwargs) (cfg : InternS1Config) :
  InternS1Config_init CONFIG_MAPPING whisper_defaults v t ts kw = Ok cfg ->
  v <> ArgOther ->
  exists vc, vision_config cfg = Some vc.
Proof.
  unfold InternS1Config_init. intros E Hv.
  match type of E with bind ?c _ = _ => destruct c; [|discriminate] end. simpl in E.
  match type of E with bind ?c _ = _ => destruct c; [|discriminate] end. simpl in E.
  injection E as <-. simpl. destruct v; eauto. congruence.
Qed.

(** [None] and an instance leave [ts_config] set. *)
Lemma ts_config_is_set_without_dict
  (v : config_arg vision_kwargs InternS1VisionConfig)
  (t : config_arg (option string * TK) TextConfig)
  (ts : config_arg kwargs InternTimeSeriesEncoderConfig)
  (kw : init_kwargs) (cfg : InternS1Config) :
  InternS1Config_init CONFIG_MAPPING whisper_defaults v t ts kw = Ok cfg ->
  ts = ArgNone \/ (exists c, ts = ArgInstance c) ->
  exists tc, ts_config cfg = Some tc.
Proof.
  unfold InternS1Config_init. intros E Hts.
  match type of E with bind ?c _ = _ => destruct c; [|discriminate] end. simpl in E.
  destruct Hts as [-> | [c ->]].
  - destruct (default_ts_config whisper_defaults) as [tc|]; [|discriminate].
    simpl in E. injection E as <-. simpl. eauto.
  - simpl in E. injection E as <-. simpl. eauto.
Qed.

(** With a dict the attribute [ts_config] is never assigned. *)
Lemma ts_config_is_unset_with_dict
  (v : config_arg vision_kwargs InternS1VisionConfig)
  (t : config_arg (option string * TK) TextConfig)
  (d : kwargs) (kw : init_kwargs) (cfg : InternS1Config) :
  InternS1Config_init CONFIG_MAPPING whisper_defaults v t (ArgDict d) kw = Ok cfg ->
  ts_config cfg = None.
Proof.
  unfold InternS1Config_init. intros E.
  match type of E with bind ?c _ = _ => destruct c; [|discriminate] end. simpl in E.
  destruct (InternTimeSeriesEncoderConfig_init d); [|discriminate].
  simpl in E. injection E as <-. reflexivity.
Qed.

End Init.

(** C10, on the code: [InternS1Config(ts_config={...})] with the default
    values in the dict returns an object on which [vision_config] is set and
    [ts_config] is not. *)
Theorem InternS1Config_init_dict_leaves_ts_config_unset :
  exists cfg,
    InternS1Config_init example_CONFIG_MAPPING example_whisper_defaults
      ArgNone ArgNone (ArgDict (no_kwargs 80 384 1500 4)) no_init_kwargs = Ok cfg /\
    vision_config cfg = Some (InternS1VisionConfig_init no_vision_kwargs) /\
    ts_config cfg = None.
Proof. eexists. split; [reflexivity|]. split; reflexivity. Qed.

End ConfigFacts.
(** ** The projectors *)

Module ProjectorFacts.
Import Conv TSConfig Config Projector ModelFacts.

Lemma tensor_induction {A : Type} (P : tensor A -> Prop) :
  (forall v, P (Vec v)) ->
  (forall ts, Forall P ts -> P (Stack ts)) ->
  forall t, P t.
Proof.
  intros HV HS.
  refine (fix IH (t : tensor A) : P t :=
            match t with
            | Vec v => HV v
            | Stack ts =>
                HS ts ((fix go (l : list (tensor A)) : Forall P l :=
                          match l with
                          | [] => Forall_nil P
                          | x :: l' => Forall_cons x (IH x) (go l')
                          end) ts)
            end).
Qed.

Lemma map_last_Stack {A : Type} (f : list A -> result (list A)) (ts : list (tensor A)) :
  map_last f (Stack ts) = bind (mapM (map_last f) ts) (fun ys => Ok (Stack ys)).
Proof.
  simpl. f_equal. induction ts as [|x ts IH]; [reflexivity|].
  simpl. rewrite IH. reflexivity.
Qed.

Lemma last_dim_Stack {A : Type} (n : nat) (ts : list (tensor A)) :
  last_dim n (Stack ts) <-> Forall (last_dim n) ts.
Proof.
  simpl. induction ts as [|x ts IH].
  - split; [constructor | trivial].
  - split.
    + intros [Hx Hts]. constructor; [exact Hx | apply IH; exact Hts].
    + intros Hall. inversion Hall as [|? ? Hx Hts]. split; [exact Hx | apply IH; exact Hts].
Qed.

(** A module that maps vectors of length [n] to vectors of length [m] maps a
    tensor of last dimension [n] to one of last dimension [m] with the same
    leading dimensions. *)
Lemma map_last_shape {A : Type} (f : list A -> result (list A)) (n m : nat) (t : tensor A) :
  (forall v, length v = n -> exists y, f v = Ok y /\ length y = m) ->
  last_dim n t ->
  exists t', map_last f t = Ok t' /\ leading t' = leading t /\ last_dim m t'.
Proof.
  intros Hf. induction t as [v | ts IH] using tensor_induction; intros Ht.
  - destruct (Hf v Ht) as (y & Ey & Hy). exists (Vec y). simpl. rewrite Ey. auto.
  - apply last_dim_Stack in Ht. rewrite map_last_Stack.
    assert (Hts : exists ys, mapM (map_last f) ts = Ok ys /\
                    map leading ys = map leading ts /\ Forall (last_dim m) ys).
    { induction IH as [|x ts Hx _ IHts]; [exists []; repeat split; constructor|].
      inversion Ht as [|? ? Htx Htts]; subst.
      destruct (Hx Htx) as (y & Ey & Ly & Dy).
      destruct (IHts Htts) as (ys & Eys & Lys & Dys).
      exists (y :: ys). simpl. rewrite Ey, Eys. simpl.
      split; [reflexivity|]. split; [rewrite Ly, Lys; reflexivity | constructor; assumption]. }
    destruct Hts as (ys & Eys & Lys & Dys). exists (Stack ys).
    rewrite Eys. simpl bind. split; [reflexivity|].
    split; [simpl; rewrite Lys; reflexivity | apply last_dim_Stack; exact Dys].
Qed.

(** Two modules applied one after the other act as their composition on every
    vector. *)
Lemma map_last_fuse {A : Type} (f g : list A -> result (list A)) (t t1 : tensor A) :
  map_last f t = Ok t1 ->
  map_last (fun v => bind (f v) g) t = map_last g t1.
Proof.
  revert t1. induction t as [v | ts IH] using tensor_induction; intros t1 Hf.
  - simpl in Hf. destruct (f v) as [y|] eqn:Ey; [|discriminate].
    simpl in Hf. injection Hf as <-. simpl. rewrite Ey. reflexivity.
  - rewrite map_last_Stack in Hf.
    destruct (mapM (map_last f) ts) as [ys|] eqn:Eys; [|discriminate].
    simpl in Hf. injection Hf as <-. rewrite !map_last_Stack. f_equal.
    revert ys Eys. induction IH as [|x ts Hx _ IHts]; intros ys Eys.
    + simpl in Eys. injection Eys as <-. reflexivity.
    + simpl in Eys. destruct (map_last f x) as [y|] eqn:Ey; [|discriminate].
      simpl in Eys. destruct (mapM (map_last f) ts) as [ys'|] eqn:Eys'; [|discriminate].
      simpl in Eys. injection Eys as <-.
      simpl. rewrite (Hx y eq_refl), (IHts ys' eq_refl). reflexivity.
Qed.

Lemma map_last_tmap {A : Type} (g : list A -> result (list A)) (a : A -> A) (t : tensor A) :
  map_last g (tmap a t) = map_last (fun v => g (map a v)) t.
Proof.
  induction t as [v | ts IH] using tensor_induction; [reflexivity|].
  simpl tmap. rewrite !map_last_Stack. f_equal.
  induction IH as [|x ts Hx _ IHts]; [reflexivity|].
  simpl. rewrite Hx, IHts. reflexivity.
Qed.

Lemma leading_tmap {A : Type} (a : A -> A) (t : tensor A) :
  leading (tmap a t) = leading t.
Proof.
  induction t as [v | ts IH] using tensor_induction; [reflexivity|].
  simpl. f_equal. rewrite map_map.
  induction IH as [|x ts Hx _ IHts]; [reflexivity|].
  simpl. rewrite Hx, IHts. reflexivity.
Qed.

Lemma last_dim_tmap {A : Type} (a : A -> A) (n : nat) (t : tensor A) :
  last_dim n t -> last_dim n (tmap a t).
Proof.
  induction t as [v | ts IH] using tensor_induction; intros Ht.
  - simpl in *. rewrite length_map. exact Ht.
  - apply last_dim_Stack in Ht. simpl tmap. apply last_dim_Stack.
    apply Forall_map. induction IH as [|x ts Hx _ IHts]; [constructor|].
    inversion Ht; subst. constructor; auto.
Qed.

Section WithScalar.
Context {A : Type} `{Scalar A}.

(** The common shape of the two projectors. *)
Lemma projector_shape (ln : LayerNorm A) (l1 l2 : Linear A) (act : A -> A) (x : tensor A) :
  in_features l1 = normalized_shape ln ->
  in_features l2 = out_features l1 ->
  last_dim (normalized_shape ln) x ->
  exists y,
    bind (map_last (LayerNorm_forward1 ln) x) (fun h =>
      bind (map_last (Linear_forward1 l1) h) (fun h =>
        map_last (Linear_forward1 l2) (tmap act h))) = Ok y /\
    leading y = leading x /\
    last_dim (out_features l2) y /\
    map_last (project_vector ln l1 act l2) x = Ok y.
Proof.
  intros H1 H2 Hx.
  destruct (@map_last_shape A (LayerNorm_forward1 ln) (normalized_shape ln) (normalized_shape ln) x) as (h1 & E1 & L1 & D1).
  { intros v Hv. apply LayerNorm_forward1_ok. exact Hv. }
  { exact Hx. }
  destruct (@map_last_shape A (Linear_forward1 l1) (normalized_shape ln) (out_features l1) h1) as (h2 & E2 & L2 & D2).
  { intros v Hv. apply Linear_forward1_ok. rewrite H1. exact Hv. }
  { exact D1. }
  destruct (@map_last_shape A (Linear_forward1 l2) (out_features l1) (out_features l2) (tmap act h2))
    as (h3 & E3 & L3 & D3).
  { intros v Hv. apply Linear_forward1_ok. rewrite H2. exact Hv. }
  { apply last_dim_tmap. exact D2. }
  exists h3. rewrite E1. simpl bind. rewrite E2. simpl bind.
  split; [exact E3|]. split; [rewrite L3, leading_tmap, L2, L1; reflexivity|].
  split; [exact D3|].
  unfold project_vector.
  rewrite (map_last_fuse _ _ _ E1).
  rewrite (map_last_fuse _ _ _ E2).
  rewrite <- map_last_tmap. exact E3.
Qed.

(** What the constructors return, when they return. *)
Lemma LayerNorm_init_cases (n : Z) (p : (nat -> A) * (nat -> A)) :
  (0 <= n -> LayerNorm_init n p = Ok (mk_layer_norm n p)) /\
  (n < 0 -> exists msg, LayerNorm_init n p = Raise (RuntimeError msg)).
Proof.
  unfold LayerNorm_init. destruct (Z.ltb_spec n 0); split; intros Hn;
    try lia; [eexists|]; reflexivity.
Qed.

Lemma Linear_init_cases (n_in n_out : Z) (p : (nat -> nat -> A) * (nat -> A)) :
  (0 <= n_in -> 0 <= n_out -> Linear_init n_in n_out p = Ok (mk_linear n_in n_out p)) /\
  (n_in < 0 \/ n_out < 0 -> exists msg, Linear_init n_in n_out p = Raise (RuntimeError msg)).
Proof.
  unfold Linear_init. destruct (Z.ltb_spec n_in 0), (Z.ltb_spec n_out 0); cbn [orb];
    split; intros; try lia; try (eexists; reflexivity); reflexivity.
Qed.


Lemma InternS1MultiModalProjector_init_inv (ACT2FN : string -> option (A -> A))
  (config : InternS1Config) (p : projector_params) (proj : InternS1MultiModalProjector)
  (vc : InternS1VisionConfig) (xc : TextConfig) (k : Z) :
  vision_config config = Some vc -> text_config config = Some xc ->
  downsample_factor (downsample_ratio config) = Ok k ->
  InternS1MultiModalProjector_init ACT2FN config p = Ok proj ->
  exists act,
    ACT2FN (projector_hidden_act config) = Some act /\
    0 <= hidden_size vc * k /\ 0 <= text_hidden_size xc /\
    proj = {| mm_layer_norm := mk_layer_norm (hidden_size vc * k) (pp_layer_norm p);
              mm_linear_1 := mk_linear (hidden_size vc * k) (text_hidden_size xc)
                                       (pp_linear_1 p);
              mm_act := act;
              mm_linear_2 := mk_linear (text_hidden_size xc) (text_hidden_size xc)
                                       (pp_linear_2 p) |}.
Proof.
  intros Hvc Hxc Hk E. unfold InternS1MultiModalProjector_init in E.
  rewrite Hvc, Hxc, Hk in E. cbn [attribute bind] in E.
  unfold LayerNorm_init, Linear_init in E.
  destruct (Z.ltb_spec (hidden_size vc * k) 0); cbn [bind orb] in E; [discriminate|].
  destruct (Z.ltb_spec (text_hidden_size xc) 0); cbn [bind orb] in E; [discriminate|].
  destruct (ACT2FN (projector_hidden_act config)) as [act|]; cbn [bind] in E; [|discriminate].
  injection E as <-. exists act. auto.
Qed.


End WithScalar.

End ProjectorFacts.
(** ** The load-balancing loss *)

Module LossFacts.
Import Stdlib.Reals.Reals Stdlib.micromega.Lra.
Import Loss MaskFacts.
Local Open Scope R_scope.

(** *** Finite sums *)

Lemma rsum_map_ext_in {X : Type} (f g : X -> R) (l : list X) :
  (forall x, In x l -> f x = g x) -> rsum (map f l) = rsum (map g l).
Proof. intros Hfg. f_equal. apply map_ext_in. exact Hfg. Qed.

Lemma rsum_map_plus {X : Type} (f g : X -> R) (l : list X) :
  rsum (map (fun x => f x + g x) l) = rsum (map f l) + rsum (map g l).
Proof. induction l as [|x l IH]; simpl; [lra | rewrite IH; lra]. Qed.

Lemma rsum_map_scal_r {X : Type} (c : R) (f : X -> R) (l : list X) :
  rsum (map (fun x => f x * c) l) = rsum (map f l) * c.
Proof. induction l as [|x l IH]; simpl; [lra | rewrite IH; lra]. Qed.

Lemma rsum_map_zero {X : Type} (l : list X) : rsum (map (fun _ => 0) l) = 0.
Proof. induction l as [|x l IH]; simpl; [reflexivity | rewrite IH; lra]. Qed.

Lemma rsum_map_const {X : Type} (c : R) (l : list X) :
  rsum (map (fun _ => c) l) = INR (length l) * c.
Proof.
  induction l as [|x l IH]; [simpl; lra|].
  cbn [map rsum fold_right length]. fold (rsum (map (fun _ : X => c) l)).
  rewrite IH, S_INR. lra.
Qed.

Lemma rsum_exchange {X Y : Type} (f : X -> Y -> R) (lx : list X) (ly : list Y) :
  rsum (map (fun x => rsum (map (fun y => f x y) ly)) lx)
  = rsum (map (fun y => rsum (map (fun x => f x y) lx)) ly).
Proof.
  induction lx as [|x lx IH]; simpl.
  - rewrite rsum_map_zero. reflexivity.
  - fold (rsum (map (fun x0 => rsum (map (fun y => f x0 y) ly)) lx)). rewrite IH.
    rewrite <- rsum_map_plus. reflexivity.
Qed.

Lemma bigsum_ext (n : nat) (f g : nat -> R) :
  (forall i, (i < n)%nat -> f i = g i) -> bigsum n f = bigsum n g.
Proof.
  intros Hfg. apply rsum_map_ext_in. intros i Hi. apply in_seq in Hi. apply Hfg. lia.
Qed.

(** *** The selection of the top-k experts *)

Lemma best_some (l : list (nat * R)) :
  l <> [] -> exists p, best l = Some p /\ In p l.
Proof.
  induction l as [|p l IH]; [congruence|]. intros _. simpl.
  destruct l as [|q l].
  - exists p. simpl. auto.
  - destruct IH as (b & Eb & Hb); [discriminate|]. rewrite Eb.
    destruct (Rle_dec (snd b) (snd p)); [exists p | exists b]; split; simpl; auto.
Qed.

Lemma best_in (l : list (nat * R)) (p : nat * R) : best l = Some p -> In p l.
Proof.
  intros E. destruct l as [|q l]; [discriminate|].
  destruct (@best_some (q :: l)) as (b & Eb & Hb); [discriminate|]. congruence.
Qed.

Lemma topk_indices_in (k : nat) (cands : list (nat * R)) (i : nat) :
  In i (topk_indices k cands) -> In i (map fst cands).
Proof.
  revert cands. induction k as [|k IH]; intros cands Hi; [contradiction|].
  simpl in Hi. destruct (best cands) as [p|] eqn:Eb; [|contradiction].
  destruct Hi as [<- | Hi].
  - apply in_map. apply best_in. exact Eb.
  - apply IH in Hi. apply in_map_iff in Hi. destruct Hi as (q & <- & Hq).
    apply filter_In in Hq. apply in_map. apply Hq.
Qed.

Lemma topk_indices_nodup (k : nat) (cands : list (nat * R)) :
  NoDup (topk_indices k cands).
Proof.
  revert cands. induction k as [|k IH]; intros cands; [constructor|].
  simpl. destruct (best cands) as [p|] eqn:Eb; [|constructor].
  constructor; [|apply IH].
  intros Hi. apply topk_indices_in in Hi. apply in_map_iff in Hi.
  destruct Hi as (q & Hfst & Hq). apply filter_In in Hq. destruct Hq as [_ Hq].
  rewrite Hfst, Nat.eqb_refl in Hq. discriminate.
Qed.

Lemma filter_out_length (cands : list (nat * R)) (p : nat * R) :
  NoDup (map fst cands) -> In p cands ->
  S (length (filter (fun q => negb (fst q =? fst p)%nat) cands)) = length cands.
Proof.
  induction cands as [|q cands IH]; intros Hnd Hin; [contradiction|].
  simpl in Hnd. inversion Hnd as [|? ? Hnotin Hnd']; subst. simpl.
  destruct Hin as [-> | Hin].
  - rewrite Nat.eqb_refl. simpl. f_equal.
    rewrite (proj2 (filter_ext_in_iff _ (fun _ => true) cands)).
    + clear. induction cands; simpl; [reflexivity | f_equal; assumption].
    + intros q Hq. destruct (Nat.eqb_spec (fst q) (fst p)) as [E|E]; [|reflexivity].
      exfalso. apply Hnotin. rewrite <- E. apply in_map. exact Hq.
  - destruct (Nat.eqb_spec (fst q) (fst p)) as [E|E]; simpl.
    + exfalso. apply Hnotin. rewrite E. apply in_map. exact Hin.
    + f_equal. apply IH; assumption.
Qed.

Lemma filter_nodup_fst (f : nat * R -> bool) (cands : list (nat * R)) :
  NoDup (map fst cands) -> NoDup (map fst (filter f cands)).
Proof.
  induction cands as [|q cands IH]; intros Hnd; [constructor|].
  simpl in Hnd. inversion Hnd as [|? ? Hnotin Hnd']; subst. simpl.
  destruct (f q); [|apply IH; exact Hnd'].
  simpl. constructor; [|apply IH; exact Hnd'].
  intros Hin. apply Hnotin. apply in_map_iff in Hin. destruct Hin as (r & Er & Hr).
  apply filter_In in Hr. rewrite <- Er. apply in_map. apply Hr.
Qed.

Lemma topk_indices_length (k : nat) (cands : list (nat * R)) :
  NoDup (map fst cands) -> (k <= length cands)%nat ->
  length (topk_indices k cands) = k.
Proof.
  revert cands. induction k as [|k IH]; intros cands Hnd Hk; [reflexivity|].
  assert (Hne : cands <> []) by (intros ->; simpl in Hk; lia).
  destruct (best_some Hne) as (p & Eb & Hp).
  cbn [topk_indices]. rewrite Eb. cbn [length]. f_equal. apply IH.
  - apply filter_nodup_fst. exact Hnd.
  - pose proof (@filter_out_length cands p Hnd Hp). lia.
Qed.

Lemma map_fst_combine_eq {X Y : Type} (a : list X) (b : list Y) :
  length a = length b -> map fst (combine a b) = a.
Proof.
  revert b. induction a as [|x a IH]; intros b Hlen; [reflexivity|].
  destruct b as [|y b]; [discriminate|]. simpl. f_equal. apply IH. simpl in Hlen. lia.
Qed.

Lemma softmax_row_length (row : list R) : length (softmax_row row) = length row.
Proof. unfold softmax_row. rewrite !length_map. reflexivity. Qed.

(** The selected experts of a token: [top_k] distinct experts. *)
Lemma selected_props (top_k : nat) (row : list R) :
  (top_k <= length row)%nat ->
  length (selected top_k row) = top_k /\
  NoDup (selected top_k row) /\
  (forall i, In i (selected top_k row) -> (i < length row)%nat).
Proof.
  intros Hk. unfold selected.
  assert (Hfst : map fst (combine (seq 0 (length row)) (softmax_row row)) = seq 0 (length row)).
  { apply map_fst_combine_eq. rewrite length_seq, softmax_row_length. reflexivity. }
  split; [|split].
  - apply topk_indices_length.
    + rewrite Hfst. apply seq_NoDup.
    + rewrite length_combine, length_seq, softmax_row_length. lia.
  - apply topk_indices_nodup.
  - intros i Hi. apply topk_indices_in in Hi. rewrite Hfst in Hi. apply in_seq in Hi. lia.
Qed.

Lemma topk_ok (top_k : nat) (row : list R) :
  (top_k <= length row)%nat -> topk top_k (softmax_row row) = Ok (selected top_k row).
Proof.
  intros Hk. unfold topk, selected. rewrite softmax_row_length.
  destruct (Nat.ltb_spec (length row) top_k); [lia | reflexivity].
Qed.

Lemma mapM_map_ok {X Y Z : Type} (f : Y -> result Z) (h : X -> Y) (g : X -> Z) (l : list X) :
  (forall a, In a l -> f (h a) = Ok (g a)) -> mapM f (map h l) = Ok (map g l).
Proof.
  induction l as [|a l IH]; intros Hf; [reflexivity|].
  simpl. rewrite (Hf a (or_introl eq_refl)). simpl.
  rewrite IH; [reflexivity|]. intros b Hb. apply Hf. now right.
Qed.

Lemma bigsum_S (n : nat) (f : nat -> R) :
  bigsum (S n) f = f 0%nat + bigsum n (fun k => f (S k)).
Proof.
  unfold bigsum. simpl. rewrite <- seq_shift, map_map. reflexivity.
Qed.

(** Over the slots of a token, the one-hot rows of the selected experts add up
    to the indicator of being selected. *)
Lemma indicator_sum (e : nat) (sel : list nat) :
  NoDup sel ->
  bigsum (length sel) (fun k => if (e =? nth k sel 0)%nat then 1 else 0) = among e sel.
Proof.
  unfold among. induction sel as [|a sel IH]; intros Hnd; [reflexivity|].
  inversion Hnd as [|? ? Hnotin Hnd']; subst.
  cbn [length]. rewrite bigsum_S. cbn [nth existsb]. rewrite (IH Hnd').
  destruct (Nat.eqb_spec e a) as [-> | Hne]; simpl.
  - replace (existsb (Nat.eqb a) sel) with false; [lra|].
    symmetry. apply not_true_is_false. intros Hex. apply existsb_exists in Hex.
    destruct Hex as (x & Hx & Ex). apply Nat.eqb_eq in Ex. subst x. contradiction.
  - lra.
Qed.

Lemma nth_one_hot_row (E idx e : nat) :
  (e < E)%nat -> nth e (one_hot_row E idx) 0 = if (e =? idx)%nat then 1 else 0.
Proof.
  intros He. unfold one_hot_row.
  rewrite (nth_indep _ 0 ((fun e => if (e =? idx)%nat then 1 else 0) 0%nat))
    by (rewrite length_map, length_seq; exact He).
  rewrite (map_nth (fun e => if (e =? idx)%nat then 1 else 0)), seq_nth by exact He.
  reflexivity.
Qed.

Lemma one_hot_ok (E idx : nat) : (idx < E)%nat -> one_hot E idx = Ok (one_hot_row E idx).
Proof. intros Hi. unfold one_hot. destruct (Nat.ltb_spec idx E); [reflexivity | lia]. Qed.

Lemma mapM_all_ok {X Y : Type} (f : X -> result Y) (g : X -> Y) (l : list X) :
  (forall a, In a l -> f a = Ok (g a)) -> mapM f l = Ok (map g l).
Proof.
  intros Hf. rewrite <- (map_id l) at 1. apply mapM_map_ok. exact Hf.
Qed.

(** The sum the code computes without attention mask, token by token. *)
Lemma overall_loss_sum (E K : nat) (logits : list (list R)) :
  Forall (fun row => length row = E) logits -> (K <= E)%nat ->
  rsum (map (fun row => rsum (map (fun p => fst p * snd p)
                              (combine row (col_mean E (map softmax_row logits)))))
            (map (fun k => col_mean E
                    (map (fun tk => nth k tk [])
                         (map (fun row => map (one_hot_row E) (selected K row)) logits)))
                 (seq 0 K)))
  = bigsum K (fun k => bigsum E (fun e =>
      (rsum (map (fun row => if (e =? nth k (selected K row) 0)%nat then 1 else 0) logits)
         / INR (length logits))
      * (rsum (map (fun row => nth e (softmax_row row) 0) logits) / INR (length logits)))).
Proof.
  intros Hrows HK. unfold bigsum. rewrite map_map.
  apply rsum_map_ext_in. intros k Hk. apply in_seq in Hk.
  unfold col_mean. rewrite combine_map_seq, map_map.
  apply rsum_map_ext_in. intros e He. apply in_seq in He. cbn [fst snd].
  rewrite !length_map, !map_map. f_equal. f_equal.
  apply rsum_map_ext_in. intros row Hrow.
  rewrite Forall_forall in Hrows. pose proof (Hrows row Hrow) as Hlen.
  destruct (@selected_props K row ltac:(lia)) as (Hsl & _ & _).
  rewrite (nth_indep _ [] (one_hot_row E 0%nat)) by (rewrite length_map, Hsl; lia).
  rewrite (map_nth (one_hot_row E)). apply nth_one_hot_row. lia.
Qed.

(** The value for a tuple of layers, without attention mask. *)
Lemma loss_tuple_formula (layers : list (list (list R))) (E K : nat) :
  Forall (fun row => length row = E) (concat layers) ->
  concat layers <> [] ->
  (1 <= K <= E)%nat ->
  load_balancing_loss_func (GateTuple layers) E K None
    = Ok (Scalar (balance_formula E K (concat layers))).
Proof.
  intros Hrows Hne HK.
  destruct layers as [|l0 ls]; [simpl in Hne; congruence|].
  unfold load_balancing_loss_func.
  set (logits := concat (l0 :: ls)) in *.
  replace (forallb (fun row => (length row =? E)%nat) logits) with true.
  2:{ symmetry. apply forallb_forall. rewrite Forall_forall in Hrows.
      intros row Hrow. apply Nat.eqb_eq. now apply Hrows. }
  simpl negb. cbv iota.
  rewrite (@mapM_map_ok _ _ _ (topk K) softmax_row (selected K) logits).
  2:{ intros row Hrow. apply topk_ok. rewrite Forall_forall in Hrows.
      rewrite (Hrows row Hrow). lia. }
  simpl bind.
  rewrite (@mapM_map_ok _ _ _ (mapM (one_hot E)) (selected K)
             (fun row => map (one_hot_row E) (selected K row)) logits).
  2:{ intros row Hrow. apply mapM_all_ok. intros i Hi. apply one_hot_ok.
      rewrite Forall_forall in Hrows.
      destruct (@selected_props K row) as (_ & _ & Hlt); [rewrite (Hrows row Hrow); lia|].
      rewrite <- (Hrows row Hrow). apply Hlt. exact Hi. }
  simpl bind. f_equal. f_equal.
  rewrite (overall_loss_sum Hrows) by lia.
  unfold balance_formula. rewrite Rmult_comm. f_equal.
  (* exchange the sums over slots and experts *)
  unfold bigsum at 1 2.
  rewrite rsum_exchange. fold (bigsum E).
  apply bigsum_ext. intros e He.
  rewrite rsum_map_scal_r. f_equal.
  assert (HN : INR (length logits) <> 0).
  { apply not_0_INR. destruct logits; [congruence | discriminate]. }
  assert (HKr : INR K <> 0) by (apply not_0_INR; lia).
  unfold Rdiv. rewrite rsum_map_scal_r. rewrite rsum_exchange.
  rewrite (@rsum_map_ext_in _
             (fun row => rsum (map (fun k => if (e =? nth k (selected K row) 0)%nat then 1 else 0)
                                   (seq 0 K)))
             (fun row => among e (selected K row)) logits).
  2:{ intros row Hrow. rewrite Forall_forall in Hrows.
      destruct (@selected_props K row) as (Hsl & Hnd & _); [rewrite (Hrows row Hrow); lia|].
      rewrite <- (indicator_sum e Hnd), Hsl. reflexivity. }
  rewrite (@rsum_map_ext_in _
             (fun row => bigsum K (fun _ => among e (selected K row)))
             (fun row => among e (selected K row) * INR K) logits).
  2:{ intros row _. unfold bigsum. rewrite rsum_map_const, length_seq. lra. }
  rewrite rsum_map_scal_r, mult_INR. field. split; assumption.
Qed.

(** X29. [load_balancing_loss_func] returns the integer 0 when [gate_logits]
    is None or is not a tuple. For a tuple of layers of shape
    [tokens, num_experts] with at least one token, 1 <= top_k <= num_experts
    and no attention mask, it returns num_experts times the sum over the
    experts of the mean, over tokens and top-k slots, of the indicator that the
    expert is among the top-k experts of the token, times the mean routing
    probability of the expert. *)
Theorem load_balancing_loss_formula (layers : list (list (list R))) (E K : nat) :
  Forall (fun row => length row = E) (concat layers) ->
  concat layers <> [] ->
  (1 <= K <= E)%nat ->
  (forall am, load_balancing_loss_func GateNone E K am = Ok IntZero) /\
  (forall t am, load_balancing_loss_func (GateTensor t) E K am = Ok IntZero) /\
  load_balancing_loss_func (GateTuple layers) E K None
    = Ok (Scalar (balance_formula E K (concat layers))).
Proof.
  intros Hrows Hne HK.
  split; [reflexivity|]. split; [reflexivity|].
  apply loss_tuple_formula; assumption.
Qed.

(** C7, on the code. [InternS1ForConditionalGeneration.forward] contains the
    computation of the auxiliary loss, guarded by a mixture-of-experts
    backbone, enabled router logits and given labels, but for a
    mixture-of-experts backbone the call of [self.model] before it is given
    [output_router_logits] twice and raises a TypeError: with router logits
    of one token and two experts, labels and [output_router_logits=True], the
    guard holds, the loss function would return a scalar, and [forward]
    raises. The same holds for every argument; without a mixture-of-experts
    backbone, once [self.model] has returned, [forward] returns the loss of
    the labels and no auxiliary loss. *)
Theorem forward_raises_for_moe_backbone :
  aux_loss_enabled true false (Some true) true = true /\
  (exists a, load_balancing_loss_func (GateTuple [[[0; 0]]]) 2 1 None = Ok (Scalar a)) /\
  forward_loss true false 1 2 1 (Some true) true 0 (GateTuple [[[0; 0]]]) None
  = Raise (TypeError "got multiple values for keyword argument 'output_router_logits'") /\
  (forall cfg_orl coef E K orl labels lm rl am,
     forward_loss true cfg_orl coef E K orl labels lm rl am
     = Raise (TypeError "got multiple values for keyword argument 'output_router_logits'")) /\
  (forall cfg_orl coef E K orl labels lm rl am,
     forward_loss false cfg_orl coef E K orl labels lm rl am
     = Ok (if labels then Some lm else None, None)).
Proof.
  split; [reflexivity|]. split.
  - eexists. apply (@loss_tuple_formula [[[0; 0]]] 2 1).
    + repeat constructor.
    + discriminate.
    + lia.
  - split; [reflexivity|]. split; [reflexivity|].
    intros cfg_orl coef E K orl labels lm rl am. unfold forward_loss. reflexivity.
Qed.

End LossFacts.
(** ** The theorems at concrete inputs *)

Module Witnesses.
Import Conv TSConfig Subsampling PadMask Masks Encoder Merge Config Projector Loss Examples.
Import PadMaskFacts SubsamplingFacts EncoderFacts ModelFacts MergeFacts ProjectorFacts LossFacts.

(** The example of the docstring of [make_pad_mask]. *)
Lemma make_pad_mask_spec_witness :
  In 5 [1; 3; 2; 5] /\ Forall (fun l => l <= 5) [1; 3; 2; 5] /\ 0 < 5 /\
  exists mask,
    make_pad_mask [1; 3; 2; 5] = Ok mask /\
    length mask = length [1; 3; 2; 5] /\
    forall i, (i < length [1; 3; 2; 5])%nat ->
      length (nth i mask []) = Z.to_nat 5 /\
      forall j, (j < Z.to_nat 5)%nat ->
        (nth j (nth i mask []) false = true <-> nth i [1; 3; 2; 5] 0 <= Z.of_nat j).
Proof.
  assert (H1 : In 5 [1; 3; 2; 5]) by (simpl; auto).
  assert (H2 : Forall (fun l => l <= 5) [1; 3; 2; 5]) by (repeat constructor; lia).
  assert (H3 : 0 < 5) by lia.
  exact (conj H1 (conj H2 (conj H3 (@make_pad_mask_spec [1; 3; 2; 5] 5 H1 H2 H3)))).
Defined.

Lemma ex_signal_shape : has_shape 1 320 1 ex_signal.
Proof. split; [reflexivity|]. repeat constructor. Defined.

Lemma ex_default_layers : default_layers ex_ts_config.
Proof. repeat split. Defined.

(** One signal of 320 samples: the lengths and the tensor both come out
    as 1. *)
Lemma Conv1dSubsampling_forward_lens_witness :
  default_layers ex_ts_config /\
  Conv1dSubsampling_init ex_ts_config ex_cnn_params = Ok ex_subsampling /\
  has_shape 1 320 1 ex_signal /\
  length ex_x_lens = 1%nat /\ Forall (fun l => l = Z.of_nat 320) ex_x_lens /\
  exists x' lens',
    Conv1dSubsampling_forward ex_subsampling ex_signal (Some ex_x_lens) = Ok (x', lens') /\
    Forall (fun l => l = Z.of_nat (shape1 x')) lens'.
Proof.
  assert (H2 : Conv1dSubsampling_init ex_ts_config ex_cnn_params = Ok ex_subsampling)
    by reflexivity.
  assert (H4 : length ex_x_lens = 1%nat) by reflexivity.
  assert (H5 : Forall (fun l => l = Z.of_nat 320) ex_x_lens) by (repeat constructor).
  destruct (@Conv1dSubsampling_forward_lens Z _ ex_ts_config ex_cnn_params ex_subsampling
              1 320 ex_signal ex_x_lens ex_default_layers H2 ex_signal_shape H4 H5)
    as (_ & Hret & Hprop).
  destruct (Hret ltac:(lia)) as (x' & lens' & E).
  refine (conj ex_default_layers (conj H2 (conj ex_signal_shape (conj H4 (conj H5 _))))).
  exists x', lens'. split; [exact E|].
  exact (proj1 (proj2 (proj2 (Hprop x' lens' E)))).
Defined.

Lemma ex_layers_preserve : Forall shape_preserving (enc_layers (encoder ex_model)).
Proof.
  change (Forall (@shape_preserving Z) [(fun x _ => x); (fun x _ => x)]).
  constructor; [intros B T C x m Hx; exact Hx|].
  constructor; [intros B T C x m Hx; exact Hx|].
  constructor.
Defined.

(** The same signal through the whole time-series model: the call returns,
    with a mask. *)
Lemma InternTimeSeriesModel_forward_pad_mask_witness :
  model_config ex_model = ex_ts_config /\
  default_layers ex_ts_config /\
  Conv1dSubsampling_init ex_ts_config ex_cnn_params = Ok (encoder_embed ex_model) /\
  has_shape 1 320 1 ex_signal /\ length ex_x_lens = 1%nat /\
  Forall int64_in_range ex_x_lens /\
  exists h mask,
    InternTimeSeriesModel_forward ex_model ex_rng (Some ex_signal) (Some ex_x_lens) true None
      = Ok (TimeSeriesModelOutput h mask).
Proof.
  assert (H1 : model_config ex_model = ex_ts_config) by reflexivity.
  assert (H3 : Conv1dSubsampling_init ex_ts_config ex_cnn_params = Ok (encoder_embed ex_model))
    by reflexivity.
  assert (H5 : length ex_x_lens = 1%nat) by reflexivity.
  assert (H6 : Forall int64_in_range ex_x_lens)
    by (repeat constructor; unfold int64_in_range; lia).
  destruct (@InternTimeSeriesModel_forward_pad_mask Z _ ex_model ex_ts_config ex_cnn_params
              ex_rng 1 320 ex_signal ex_x_lens H1 ex_default_layers H3 ex_signal_shape H5 H6)
    as (_ & _ & Hret).
  refine (conj H1 (conj ex_default_layers (conj H3 (conj ex_signal_shape (conj H5 (conj H6 _)))))).
  destruct Hret as (h & mask & E & _).
  - apply init_wired.
  - reflexivity.
  - reflexivity.
  - exact ex_layers_preserve.
  - intros bsz n. eexists. reflexivity.
  - lia.
  - lia.
  - vm_compute. lia.
  - vm_compute. repeat constructor.
  - exists h, mask. exact E.
Defined.


(** chunk_length 5 gives blocks of round(2.5) = 2 positions. *)
Lemma chunk_mask_is_block_diagonal_witness :
  0 < py_round (inject_Z 5 / 4 * 2) /\
  forall bsz n : nat, exists M : list (list Z),
    prepare_chunk_attention_mask (Some 5) bsz n = Ok (repeat [M] bsz) /\ length M = n.
Proof.
  assert (H1 : 0 < py_round (inject_Z 5 / 4 * 2)) by (vm_compute; reflexivity).
  split; [exact H1|]. intros bsz n.
  destruct (@chunk_mask_is_block_diagonal Z _ 5 H1 bsz n) as (M & E & Hlen & _).
  exists M. split; [exact E | exact Hlen].
Defined.

(** A sequence with one image token and one context token. *)
Lemma forward_replaces_special_tokens_witness :
  7 <> 8 /\
  InternS1Model_forward Z.eqb false 7 8 ex_embed_tokens (Some ex_input_ids) None
    (Some ex_image_features) (Some ex_time_series) = Ok ex_merged /\
  concat (pick2 (eq_token ex_input_ids 7) ex_merged) = flatten3 ex_image_features.
Proof.
  assert (H1 : 7 <> 8) by lia.
  assert (H2 : InternS1Model_forward Z.eqb false 7 8 ex_embed_tokens (Some ex_input_ids) None
                 (Some ex_image_features) (Some ex_time_series) = Ok ex_merged)
    by (vm_compute; reflexivity).
  destruct (@forward_replaces_special_tokens Z Z.eqb false 7 8 ex_embed_tokens ex_input_ids
              (Some ex_image_features) (Some ex_time_series) ex_merged H1 H2)
    as (_ & Himg & _).
  exact (conj H1 (conj H2 (proj2 (Himg ex_image_features eq_refl) eq_refl))).
Defined.

Lemma forward_raises_iff_counts_differ_witness :
  xorb (is_none (Some ex_input_ids)) (negb (is_none (@None (list (list (list Z)))))) = false /\
  exists out,
    InternS1Model_forward Z.eqb false 7 8 ex_embed_tokens (Some ex_input_ids) None
      (Some ex_image_features) None = Ok out.
Proof.
  assert (H1 : xorb (is_none (Some ex_input_ids)) (negb (is_none (@None (list (list (list Z))))))
               = false) by reflexivity.
  destruct (@forward_raises_iff_counts_differ Z Z.eqb 7 8 ex_embed_tokens (Some ex_input_ids)
              None (Some ex_image_features) None H1) as (_ & Himg & _ & Hok).
  split; [exact H1|].
  destruct Himg as (E1 & HE1).
  - intros f Hf. injection Hf as <-. vm_compute. reflexivity.
  - apply (Hok E1 HE1). intros f pm Hf. discriminate.
Defined.


End Witnesses.

Module LossWitness.
Import Stdlib.Reals.Reals.
Import Loss LossFacts.

(** One token, two experts with equal logits, both selected. *)
Lemma load_balancing_loss_formula_witness :
  Forall (fun row => length row = 2%nat) (concat [[[0%R; 0%R]]]) /\
  concat [[[0%R; 0%R]]] <> [] /\ (1 <= 2 <= 2)%nat /\
  load_balancing_loss_func (GateTuple [[[0%R; 0%R]]]) 2 2 None
    = Ok (Scalar (balance_formula 2 2 (concat [[[0%R; 0%R]]]))).
Proof.
  assert (H1 : Forall (fun row => length row = 2%nat) (concat [[[0%R; 0%R]]]))
    by (repeat constructor).
  assert (H2 : concat [[[0%R; 0%R]]] <> []) by discriminate.
  assert (H3 : (1 <= 2 <= 2)%nat) by lia.
  exact (conj H1 (conj H2 (conj H3
           (proj2 (proj2 (@load_balancing_loss_formula [[[0%R; 0%R]]] 2 2 H1 H2 H3)))))).
Defined.

End LossWitness.
(** ** Further properties: padding masks and lengths *)

Module LengthProps.
Import Conv TSConfig Subsampling PadMask Merge Examples.
Import PadMaskFacts ConvFacts SubsamplingFacts MergeFacts.

Lemma ge_row_closed (len : Z) (n : nat) :
  map (fun j => len <=? Z.of_nat j) (seq 0 n)
  = repeat false (Nat.min (Z.to_nat len) n) ++ repeat true (n - Z.to_nat len).
Proof.
  induction n as [|n IH]; [rewrite Nat.min_0_r; reflexivity|].
  rewrite seq_S, map_app, IH. cbn [map Nat.add].
  destruct (Z.leb_spec len (Z.of_nat n)) as [Hle | Hgt].
  - replace (Nat.min (Z.to_nat len) (S n)) with (Nat.min (Z.to_nat len) n) by lia.
    replace (S n - Z.to_nat len)%nat with (S (n - Z.to_nat len)) by lia.
    rewrite <- app_assoc. f_equal. cbn [repeat]. symmetry. apply repeat_cons.
  - replace (Nat.min (Z.to_nat len) n) with n by lia.
    replace (Nat.min (Z.to_nat len) (S n)) with (S n) by lia.
    replace (n - Z.to_nat len)%nat with 0%nat by lia.
    replace (S n - Z.to_nat len)%nat with 0%nat by lia.
    cbn [repeat]. rewrite !app_nil_r. symmetry. apply repeat_cons.
Qed.

Lemma tensor_max_bounds (lengths : list Z) (m : Z) :
  tensor_max lengths = Ok m -> In m lengths /\ Forall (fun l => l <= m) lengths.
Proof.
  destruct lengths as [|x xs]; [discriminate|]. simpl. intros E. injection E as <-.
  destruct (fold_left_max_ge xs x) as [G1 G2]. split.
  - destruct (fold_left_max_in xs x) as [E | E]; [left; congruence | right; exact E].
  - constructor; assumption.
Qed.

Lemma make_pad_mask_inv_max (lengths : list Z) (mask : list (list bool)) :
  make_pad_mask lengths = Ok mask ->
  exists m, tensor_max lengths = Ok m /\ 0 <= m /\
    mask = map (fun len => map (fun j => len <=? Z.of_nat j) (seq 0 (Z.to_nat m))) lengths.
Proof.
  intros E. destruct (tensor_max lengths) as [m|e] eqn:Em.
  - exists m. split; [reflexivity|].
    destruct (Z.lt_ge_cases m 0) as [Hneg | Hpos].
    + unfold make_pad_mask, arange in E. rewrite Em in E. simpl bind in E.
      destruct (Z.ltb_spec m 0); [discriminate | lia].
    + split; [exact Hpos|]. rewrite (make_pad_mask_ok _ Em Hpos) in E. congruence.
  - unfold make_pad_mask in E. rewrite Em in E. discriminate.
Qed.

(** X1. [make_pad_mask] returns exactly when some length is non-negative, and
    then with one row per length; on an empty tensor, or when every length is
    negative, it raises a RuntimeError (from [max()] or from [arange]). *)
Theorem make_pad_mask_returns_iff (lengths : list Z) :
  ((exists l, In l lengths /\ 0 <= l) ->
   exists mask, make_pad_mask lengths = Ok mask /\ length mask = length lengths) /\
  ((forall l, In l lengths -> l < 0) ->
   exists msg, make_pad_mask lengths = Raise (RuntimeError msg)).
Proof.
  split.
  - intros (l & Hin & Hl).
    destruct lengths as [|x xs]; [contradiction|].
    destruct (tensor_max (x :: xs)) as [m|e] eqn:Em; [|discriminate].
    destruct (tensor_max_bounds _ Em) as [_ Hub]. rewrite Forall_forall in Hub.
    pose proof (Hub l Hin) as Hlm.
    rewrite (make_pad_mask_ok _ Em) by lia.
    eexists. split; [reflexivity | apply length_map].
  - intros Hneg. destruct lengths as [|x xs]; [eexists; reflexivity|].
    destruct (tensor_max (x :: xs)) as [m|e] eqn:Em; [|discriminate].
    destruct (tensor_max_bounds _ Em) as [Hin _]. pose proof (Hneg m Hin) as Hm.
    unfold make_pad_mask, arange. rewrite Em. simpl bind.
    destruct (Z.ltb_spec m 0); [|lia]. eexists; reflexivity.
Qed.

Lemma make_pad_mask_closed (lengths : list Z) (mask : list (list bool)) :
  make_pad_mask lengths = Ok mask ->
  exists m, tensor_max lengths = Ok m /\ 0 <= m /\
    mask = map (fun len => repeat false (Z.to_nat len)
                           ++ repeat true (Z.to_nat (m - Z.max 0 len))) lengths.
Proof.
  intros E. destruct (make_pad_mask_inv_max _ E) as (m & Em & Hm & ->).
  exists m. split; [exact Em|]. split; [exact Hm|].
  destruct (tensor_max_bounds _ Em) as [_ Hub]. rewrite Forall_forall in Hub.
  apply map_ext_in. intros len Hlen. pose proof (Hub len Hlen).
  rewrite ge_row_closed. f_equal; f_equal; lia.
Qed.

(** X2. In the mask [make_pad_mask] returns the padding is a suffix: with m
    the largest length, row i is [lengths[i]] times False followed by
    [m - lengths[i]] times True (a negative length gives a row of True). *)
Theorem make_pad_mask_rows (lengths : list Z) (mask : list (list bool)) :
  make_pad_mask lengths = Ok mask ->
  exists m, tensor_max lengths = Ok m /\ 0 <= m /\
    mask = map (fun len => repeat false (Z.to_nat len)
                           ++ repeat true (Z.to_nat (m - Z.max 0 len))) lengths.
Proof. apply make_pad_mask_closed. Qed.

Lemma make_pad_mask_rows_witness :
  make_pad_mask [1; 3; 2; 5] = Ok [[false; true; true; true; true];
                                   [false; false; false; true; true];
                                   [false; false; true; true; true];
                                   [false; false; false; false; false]] /\
  exists m, tensor_max [1; 3; 2; 5] = Ok m /\ 0 <= m.
Proof.
  assert (H : make_pad_mask [1; 3; 2; 5] = Ok [[false; true; true; true; true];
                                               [false; false; false; true; true];
                                               [false; false; true; true; true];
                                               [false; false; false; false; false]])
    by reflexivity.
  split; [exact H|].
  destruct (make_pad_mask_rows _ H) as (m & Em & Hm & _).
  exists m. split; [exact Em | exact Hm].
Defined.

Lemma pick_prefix {X : Type} (a b : nat) (xs : list X) :
  pick (repeat true a ++ repeat false b) xs = firstn a xs.
Proof.
  revert xs. induction a as [|a IH]; intros xs.
  - cbn [repeat app firstn]. revert xs. induction b as [|b IHb]; intros xs.
    + reflexivity.
    + destruct xs as [|x xs]; [apply pick_nil_r|].
      cbn [repeat]. rewrite pick_cons. apply IHb.
  - destruct xs as [|x xs]; [apply pick_nil_r|].
    cbn [repeat app]. rewrite pick_cons. cbn [firstn]. f_equal. apply IH.
Qed.

Lemma pick2_prefixes {X : Type} (m : Z) (lengths : list Z) (features : list (list X)) :
  pick2 (map (map negb)
           (map (fun len => repeat false (Z.to_nat len)
                            ++ repeat true (Z.to_nat (m - Z.max 0 len))) lengths)) features
  = concat (map (fun p => firstn (Z.to_nat (snd p)) (fst p)) (combine features lengths)).
Proof.
  revert features. induction lengths as [|l ls IH]; intros features.
  - rewrite combine_nil. reflexivity.
  - destruct features as [|s features]; [reflexivity|].
    cbn [map combine concat fst snd]. rewrite pick2_cons, IH. f_equal.
    rewrite map_app, !map_repeat. apply pick_prefix.
Qed.

Lemma length_prefixes {X : Type} (m : Z) (lengths : list Z) (features : list (list X)) :
  length features = length lengths ->
  Forall (fun s => Z.of_nat (length s) = m) features ->
  Forall (fun l => 0 <= l <= m) lengths ->
  Z.of_nat (length (concat (map (fun p => firstn (Z.to_nat (snd p)) (fst p))
                                (combine features lengths))))
  = fold_right Z.add 0 lengths.
Proof.
  revert features. induction lengths as [|l ls IH]; intros features Hlen Hf Hl.
  - rewrite combine_nil. reflexivity.
  - destruct features as [|s features]; [discriminate|].
    inversion Hf as [|? ? Hs Hf']. inversion Hl as [|? ? Hl0 Hl']. subst.
    cbn [combine map concat fst snd fold_right].
    rewrite length_app, Nat2Z.inj_add, IH by (simpl in Hlen; auto; lia).
    rewrite length_firstn. lia.
Qed.

(** X3. The rows [time_series_features[~ts_pad_mask]] selects with the mask
    of [make_pad_mask]: when the features have one batch element per length
    and as many frames as the largest length, the first [lengths[b]] frames
    of every batch element, in order, so [sum(lengths)] rows in all. When
    the number of batch elements or the number of frames differs from the
    shape of the mask, the selection raises an IndexError. *)
Theorem select_valid_pad_mask {A : Type} (features : list (list (list A))) (lengths : list Z)
  (mask : list (list bool)) (m : Z) :
  make_pad_mask lengths = Ok mask ->
  tensor_max lengths = Ok m ->
  Forall (fun l => 0 <= l) lengths ->
  (length features = length lengths /\
   Forall (fun s => Z.of_nat (length s) = m) features ->
   exists rows, select_valid features mask = Ok rows /\
     rows = concat (map (fun p => firstn (Z.to_nat (snd p)) (fst p))
                        (combine features lengths)) /\
     Z.of_nat (length rows) = fold_right Z.add 0 lengths) /\
  (~ (length features = length lengths /\
      Forall (fun s => Z.of_nat (length s) = m) features) ->
   exists msg, select_valid features mask = Raise (IndexError msg)).
Proof.
  intros Emask Emax Hpos.
  destruct (make_pad_mask_closed _ Emask) as (m' & Em' & Hm & ->).
  assert (m' = m) by congruence. subst m'.
  destruct (tensor_max_bounds _ Emax) as [_ Hub].
  assert (Hrange : Forall (fun l => 0 <= l <= m) lengths).
  { rewrite Forall_forall in *. intros l Hl. split; [apply Hpos | apply Hub]; exact Hl. }
  set (row := fun len => repeat false (Z.to_nat len) ++ repeat true (Z.to_nat (m - Z.max 0 len))).
  assert (Hrow : forall l, 0 <= l <= m -> Z.of_nat (length (row l)) = m).
  { intros l Hl. unfold row. rewrite length_app, !repeat_length. lia. }
  assert (Hall : forall (fs : list (list (list A))) (ls : list Z),
             Forall (fun l => 0 <= l <= m) ls -> length fs = length ls ->
             forallb (fun p => (length (fst p) =? length (snd p))%nat) (combine (map row ls) fs) = true
             <-> Forall (fun s => Z.of_nat (length s) = m) fs).
  { intros fs ls. revert fs. induction ls as [|l ls IH]; intros fs Hls Hlen.
    - destruct fs; [|discriminate]. simpl. split; [constructor | reflexivity].
    - destruct fs as [|s fs]; [discriminate|].
      inversion Hls as [|? ? Hl Hls']. subst.
      cbn [map combine forallb fst snd]. rewrite andb_true_iff, (IH fs Hls') by (simpl in Hlen; lia).
      rewrite Nat.eqb_eq. pose proof (Hrow l Hl). split.
      + intros [H1 H2]. constructor; [lia | exact H2].
      + intros Hf. inversion Hf. split; [lia | assumption]. }
  unfold select_valid. rewrite length_map. split.
  - intros [Hlen Hf].
    rewrite Hlen, Nat.eqb_refl. cbn [andb].
    rewrite (proj2 (Hall features lengths Hrange Hlen) Hf).
    eexists. split; [reflexivity|]. split.
    + apply pick2_prefixes.
    + unfold row. rewrite pick2_prefixes. apply length_prefixes with (m := m); assumption.
  - intros Hnot.
    destruct (Nat.eqb_spec (length lengths) (length features)) as [Hlen | Hlen];
      [|eexists; reflexivity].
    cbn [andb].
    destruct (forallb _ (combine (map row lengths) features)) eqn:Efa; [|eexists; reflexivity].
    exfalso. apply Hnot. split; [lia|].
    apply (Hall features lengths Hrange); [lia | exact Efa].
Qed.

(** Two batch elements of three frames, of lengths 3 and 1. *)
Lemma select_valid_pad_mask_witness :
  make_pad_mask [3; 1] = Ok [[false; false; false]; [false; true; true]] /\
  tensor_max [3; 1] = Ok 3 /\
  Forall (fun l => 0 <= l) [3; 1] /\
  select_valid [[[1]; [2]; [3]]; [[4]; [0]; [0]]] [[false; false; false]; [false; true; true]]
    = Ok [[1]; [2]; [3]; [4]].
Proof.
  assert (H1 : make_pad_mask [3; 1] = Ok [[false; false; false]; [false; true; true]])
    by reflexivity.
  assert (H2 : tensor_max [3; 1] = Ok 3) by reflexivity.
  assert (H3 : Forall (fun l => 0 <= l) [3; 1]) by (repeat constructor; lia).
  refine (conj H1 (conj H2 (conj H3 _))).
  destruct (@select_valid_pad_mask Z [[[1]; [2]; [3]]; [[4]; [0]; [0]]] [3; 1] _ 3 H1 H2 H3)
    as [Hok _].
  destruct Hok as (rows & E & -> & _).
  - split; [reflexivity | repeat constructor].
  - exact E.
Defined.

End LengthProps.
(** ** Further properties: the subsampling modules and their configuration *)

Module SubsamplingProps.
Import Conv TSConfig Subsampling Examples.
Import ConvFacts SubsamplingFacts.

Lemma subsampled_len_closed (l : Z) : subsampled_len l = (l + 159) / 160.
Proof. unfold subsampled_len. Z.div_mod_to_equations. lia. Qed.

Lemma wrap64_id (z : Z) : - 2 ^ 63 <= z < 2 ^ 63 -> wrap64 z = z.
Proof. intros Hz. unfold wrap64. rewrite Z.mod_small by lia. lia. Qed.

(** On a length in range no step of the 64-bit update wraps around. *)
Lemma subsampled_len64_in_range (l : Z) :
  int64_in_range l -> subsampled_len64 l = subsampled_len l.
Proof.
  unfold int64_in_range, subsampled_len64, subsampled_len. intros Hl.
  rewrite (wrap64_id (z := l + 1)) by lia.
  assert (H1 : - 2 ^ 62 <= (l + 1) / 2 <= 2 ^ 62) by (Z.div_mod_to_equations; lia).
  rewrite (wrap64_id (z := (l + 1) / 2 + 3)) by lia.
  assert (H2 : - 2 ^ 61 <= ((l + 1) / 2 + 3) / 4 <= 2 ^ 61) by (Z.div_mod_to_equations; lia).
  rewrite (wrap64_id (z := ((l + 1) / 2 + 3) / 4 + 3)) by lia.
  assert (H3 : - 2 ^ 60 <= (((l + 1) / 2 + 3) / 4 + 3) / 4 <= 2 ^ 60)
    by (Z.div_mod_to_equations; lia).
  rewrite (wrap64_id (z := (((l + 1) / 2 + 3) / 4 + 3) / 4 + 4)) by lia.
  reflexivity.
Qed.

Section WithScalar.
Context {A : Type} `{Scalar A}.

(** X4. Whatever convolutions the module holds, for lengths that are 64-bit
    integers below the largest one the lengths that
    [Conv1dSubsampling.forward] returns are floor(ceil(l / 160) / 2): no step
    of the update ((((l + 1) // 2 + 3) // 4 + 3) // 4 + 4) // 5 wraps around,
    its value is the ceiling of l / 160, and [ConcatSubsampling] halves it.
    At the largest 64-bit integer the first addition wraps and the update is
    negative. *)
Theorem Conv1dSubsampling_forward_lens_closed (self : @Conv1dSubsampling A)
  (x e : list (list (list A))) (x_lens l' : list Z) :
  Forall int64_in_range x_lens ->
  Conv1dSubsampling_forward self x (Some x_lens) = Ok (e, l') ->
  l' = map (fun l => (l + 159) / 160 / 2) x_lens /\
  Forall (fun l => subsampled_len64 l = (l + 159) / 160 /\
                   160 * (subsampled_len64 l - 1) < l <= 160 * subsampled_len64 l) x_lens /\
  subsampled_len64 (2 ^ 63 - 1) < 0.
Proof.
  intros Hrange E. split; [|split].
  - unfold Conv1dSubsampling_forward, ConcatSubsampling_forward in E.
    destruct (run_conv_layers (layers self) x) as [y|]; [|discriminate]. simpl bind in E.
    match type of E with
    | bind ?c _ = _ => destruct c as [z|]; [|discriminate]
    end.
    simpl in E. injection E as _ <-. rewrite map_map.
    apply map_ext. intros l. rewrite subsampled_len_closed. reflexivity.
  - eapply Forall_impl; [|exact Hrange]. intros l Hl.
    rewrite (subsampled_len64_in_range Hl), subsampled_len_closed.
    split; [reflexivity|]. Z.div_mod_to_equations. lia.
  - vm_compute. reflexivity.
Qed.

Lemma nth_evens {F : Type} (l : list F) (t : nat) (d : F) :
  nth t (evens l) d = nth (2 * t) l d.
Proof.
  revert l. induction t as [|t IH]; intros l.
  - destruct l; reflexivity.
  - destruct l as [|a [|b l]];
      [rewrite !nth_overflow by (simpl; lia); reflexivity
      |rewrite !nth_overflow by (simpl; lia); reflexivity|].
    change (evens (a :: b :: l)) with (a :: evens l).
    replace (2 * S t)%nat with (S (S (2 * t))) by lia. cbn [nth]. apply IH.
Qed.

Lemma nth_odds {F : Type} (l : list F) (t : nat) (d : F) :
  nth t (odds l) d = nth (2 * t + 1) l d.
Proof.
  unfold odds. rewrite nth_evens. destruct l as [|a l].
  - rewrite !nth_overflow by (simpl; lia). reflexivity.
  - replace (2 * t + 1)%nat with (S (2 * t)) by lia. reflexivity.
Qed.

Lemma nth_removelast {F : Type} (l : list F) (i : nat) (d : F) :
  (S i < length l)%nat -> nth i (removelast l) d = nth i l d.
Proof.
  revert i. induction l as [|a l IH]; intros i Hi; [simpl in Hi; lia|].
  destruct l as [|b l]; [simpl in Hi; lia|].
  destruct i as [|i]; [reflexivity|].
  change (removelast (a :: b :: l)) with (a :: removelast (b :: l)).
  cbn [nth]. apply IH. simpl in Hi |- *. lia.
Qed.

Lemma nth_map_removelast {F : Type} (l : list (list F)) (k : nat) :
  nth k (map (@removelast F) l) [] = removelast (nth k l []).
Proof. exact (map_nth (@removelast F) l [] k). Qed.

Lemma nth_map_evens {F : Type} (l : list (list F)) (k : nat) :
  nth k (map (@evens F) l) [] = evens (nth k l []).
Proof. exact (map_nth (@evens F) l [] k). Qed.

Lemma nth_map_odds {F : Type} (l : list (list F)) (k : nat) :
  nth k (map (@odds F) l) [] = odds (nth k l []).
Proof. exact (map_nth (@odds F) l [] k). Qed.

(** X5. [ConcatSubsampling.forward] on a (B, T, C) tensor returns a
    (B, T // 2, 2C) tensor whose frame t is frame 2t of the input followed by
    frame 2t + 1; the last frame of an input of odd length is dropped, and
    the lengths are halved, rounding down. *)
Theorem ConcatSubsampling_forward_pairs (self : ConcatSubsampling)
  (B T C : nat) (x : list (list (list A))) (x_lens : list Z) :
  has_shape B T C x ->
  exists y, ConcatSubsampling_forward self x x_lens = Ok (y, map (fun l => l / 2) x_lens) /\
    has_shape B (T / 2) (C + C) y /\
    forall b t, (b < B)%nat -> (t < T / 2)%nat ->
      nth t (nth b y []) [] = nth (2 * t) (nth b x []) [] ++ nth (2 * t + 1) (nth b x []) [].
Proof.
  intros Hx.
  destruct (ConcatSubsampling_forward_shape self x_lens Hx) as (y & Ey & Hy).
  exists y. split; [exact Ey|]. split; [exact Hy|].
  intros b t Hb Ht.
  unfold ConcatSubsampling_forward in Ey.
  set (x1 := if (shape1 x mod 2 =? 0)%nat then x else map (@removelast _) x) in Ey.
  unfold cat_dim2 in Ey.
  destruct ((length (map (@evens _) x1) =? length (map (@odds _) x1))%nat
            && (shape1 (map (@evens _) x1) =? shape1 (map (@odds _) x1))%nat);
    [|discriminate].
  simpl in Ey. injection Ey as <-.
  destruct Hx as [HB Hx]. rewrite Forall_forall in Hx.
  assert (Hx1 : length x1 = B /\
                forall i, (i < 2 * (T / 2))%nat ->
                  nth i (nth b x1 []) [] = nth i (nth b x []) []).
  { unfold x1. destruct (shape1 x mod 2 =? 0)%nat eqn:Ev; [split; [exact HB | reflexivity]|].
    split; [rewrite length_map; exact HB|]. intros i Hi.
    rewrite nth_map_removelast. apply nth_removelast.
    assert (Hin : In (nth b x []) x) by (apply nth_In; lia).
    destruct (Hx _ Hin) as [HT _]. rewrite HT.
    assert (HsT : shape1 x = T).
    { destruct x as [|s x0]; [simpl in HB; lia|]. simpl.
      destruct (Hx s (or_introl eq_refl)) as [Hs _]. exact Hs. }
    rewrite HsT in Ev. apply Nat.eqb_neq in Ev.
    pose proof (Nat.div_mod_eq T 2). pose proof (Nat.mod_upper_bound T 2). lia. }
  destruct Hx1 as [HB1 Hnth].
  set (f := fun p : list (list A) * list (list A) =>
              map (fun q => fst q ++ snd q) (combine (fst p) (snd p))).
  rewrite (nth_indep _ [] (f ([], []))).
  2:{ rewrite length_map, length_combine, !length_map. lia. }
  rewrite (map_nth f), combine_nth by (rewrite !length_map; reflexivity).
  unfold f. cbn [fst snd].
  rewrite nth_map_evens, nth_map_odds.
  set (s := nth b x1 []) in *.
  assert (Hs : length s = (2 * (T / 2))%nat).
  { assert (Hin : In (nth b x []) x) by (apply nth_In; lia).
    destruct (Hx _ Hin) as [HT _].
    assert (HsT : shape1 x = T).
    { destruct x as [|s0 x0]; [simpl in HB; lia|]. simpl.
      destruct (Hx s0 (or_introl eq_refl)) as [Hs0 _]. exact Hs0. }
    pose proof (Nat.div_mod_eq T 2). pose proof (Nat.mod_upper_bound T 2).
    unfold s, x1. rewrite HsT. destruct (Nat.eqb_spec (T mod 2) 0) as [Ev | Ev].
    - lia.
    - rewrite nth_map_removelast, removelast_length. lia. }
  assert (He : length (evens s) = (T / 2)%nat).
  { rewrite evens_length, Hs.
    replace (2 * (T / 2) + 1)%nat with (1 + (T / 2) * 2)%nat by lia.
    rewrite Nat.div_add by lia. reflexivity. }
  assert (Ho : length (odds s) = (T / 2)%nat).
  { rewrite odds_length, Hs. rewrite Nat.mul_comm, Nat.div_mul by lia. reflexivity. }
  set (g := fun q : list A * list A => fst q ++ snd q).
  rewrite (nth_indep _ [] (g ([], []))).
  2:{ rewrite length_map, length_combine, He, Ho. lia. }
  rewrite (map_nth g), combine_nth by lia.
  unfold g. cbn [fst snd]. rewrite nth_evens, nth_odds, !Hnth by lia. reflexivity.
Qed.


(** The constructor of a convolution returns exactly for non-negative
    sizes of the weight. *)
Lemma Conv1d_init_cases (cin cout k s p : Z) (w : (nat -> nat -> nat -> A) * (nat -> A)) :
  (0 <= cin /\ 0 <= cout /\ 0 <= k ->
   Conv1d_init cin cout k s p w
   = Ok {| in_channels := Z.to_nat cin; out_channels := Z.to_nat cout;
           kernel_size := Z.to_nat k; stride_arg := s; padding_arg := p;
           weight := fst w; bias := snd w |}) /\
  (~ (0 <= cin /\ 0 <= cout /\ 0 <= k) ->
   exists msg, Conv1d_init cin cout k s p w = Raise (RuntimeError msg)).
Proof.
  unfold Conv1d_init.
  destruct (Z.ltb_spec cin 0), (Z.ltb_spec cout 0), (Z.ltb_spec k 0); cbn [orb];
    split; intros Hc; try reflexivity; try (eexists; reflexivity); try lia;
    exfalso; apply Hc; lia.
Qed.

(** The loop of [__init__]: it returns the convolutions of the lists when the
    sizes of every layer are non-negative and raises at the first layer
    whose sizes are not. *)
Lemma build_layers_from_cases (chans ks st pd : list Z)
  (params : nat -> (nat -> nat -> nat -> A) * (nat -> A)) (n k : nat) :
  let ok := fun i => 0 <= nth i chans 0 /\ 0 <= nth (i + 1) chans 0 /\ 0 <= nth i ks 0 in
  ((forall i, (k <= i < k + n)%nat -> ok i) ->
   build_layers_from chans ks st pd params (nth k chans 0) (seq k n)
   = Ok (map (layer_of chans ks st pd params) (seq k n))) /\
  (~ (forall i, (k <= i < k + n)%nat -> ok i) ->
   exists msg, build_layers_from chans ks st pd params (nth k chans 0) (seq k n)
               = Raise (RuntimeError msg)).
Proof.
  intros ok. revert k. induction n as [|n IH]; intros k.
  - split; [reflexivity|]. intros Hnot. exfalso. apply Hnot. intros i Hi. lia.
  - cbn [seq build_layers_from].
    destruct (Conv1d_init_cases (nth k chans 0) (nth (k + 1) chans 0) (nth k ks 0)
                (nth k st 0) (nth k pd 0) (params k)) as [Hok Hbad].
    destruct (IH (S k)) as [IHok IHbad].
    replace (nth (S k) chans 0) with (nth (k + 1) chans 0) in IHok, IHbad
      by (f_equal; lia).
    split.
    + intros Hall. rewrite Hok by (apply (Hall k); lia). cbn [bind].
      rewrite IHok by (intros i Hi; apply Hall; lia). reflexivity.
    + intros Hnot.
      assert (Hdec : ok k \/ ~ ok k).
      { unfold ok. destruct (Z.le_gt_cases 0 (nth k chans 0)),
          (Z.le_gt_cases 0 (nth (k + 1) chans 0)), (Z.le_gt_cases 0 (nth k ks 0));
          [left; auto | right; lia ..]. }
      destruct Hdec as [Hk | Hk].
      * rewrite (Hok Hk). cbn [bind].
        destruct IHbad as (msg & Emsg).
        { intros Hall. apply Hnot. intros i Hi.
          destruct (Nat.eq_dec i k) as [-> | Hne]; [exact Hk | apply Hall; lia]. }
        rewrite Emsg. exists msg. reflexivity.
      * destruct (Hbad Hk) as (msg & Emsg). rewrite Emsg. exists msg. reflexivity.
Qed.

(** X6. [Conv1dSubsampling.__init__] raises its ValueError exactly when
    kernel_sizes, strides and paddings do not all have one element less than
    channels (an empty channel list included). When they have, it builds
    len(channels) - 1 convolutions and returns exactly when the channels and
    the kernel size of every one of them are non-negative; otherwise the
    constructor of a convolution raises a RuntimeError. In the module it
    returns convolution i maps channels[i] to channels[i + 1] channels with
    kernel_sizes[i], and holds strides[i] and paddings[i] as given, so each
    convolution accepts the output of the one before. *)
Theorem Conv1dSubsampling_init_layers (config : InternTimeSeriesEncoderConfig)
  (params : nat -> (nat -> nat -> nat -> A) * (nat -> A)) :
  let chans := ts_cnn_channels config in
  let ks := ts_cnn_kernel_sizes config in
  let st := ts_cnn_strides config in
  let pd := ts_cnn_paddings config in
  let fits := length ks = length st /\ length st = length pd /\
              S (length pd) = length chans in
  let sizes := forall i, (i < length chans - 1)%nat ->
                 0 <= nth i chans 0 /\ 0 <= nth (i + 1) chans 0 /\ 0 <= nth i ks 0 in
  (fits -> sizes ->
   exists self, Conv1dSubsampling_init config params = Ok self /\
     length (layers self) = (length chans - 1)%nat /\
     (forall i, (i < length chans - 1)%nat ->
        let c := nth i (layers self) (layer_of chans ks st pd params 0) in
        Z.of_nat (in_channels c) = nth i chans 0 /\
        Z.of_nat (out_channels c) = nth (i + 1) chans 0 /\
        Z.of_nat (kernel_size c) = nth i ks 0 /\
        stride_arg c = nth i st 0 /\
        padding_arg c = nth i pd 0) /\
     (forall i, (i + 1 < length chans - 1)%nat ->
        out_channels (nth i (layers self) (layer_of chans ks st pd params 0))
        = in_channels (nth (i + 1) (layers self) (layer_of chans ks st pd params 0)))) /\
  (fits -> ~ sizes ->
   exists msg, Conv1dSubsampling_init config params = Raise (RuntimeError msg)) /\
  (~ fits ->
   exists msg, Conv1dSubsampling_init config params = Raise (ValueError msg)).
Proof.
  intros chans ks st pd fits sizes. unfold Conv1dSubsampling_init.
  fold chans ks st pd.
  destruct (build_layers_from_cases chans ks st pd params (length chans - 1) 0)
    as [Hok Hbad]. cbv zeta in Hok, Hbad.
  assert (Hsizes : sizes <-> (forall i, (0 <= i < 0 + (length chans - 1))%nat ->
                     0 <= nth i chans 0 /\ 0 <= nth (i + 1) chans 0 /\ 0 <= nth i ks 0)).
  { unfold sizes. split; intros Hs i Hi; apply Hs; lia. }
  split; [|split].
  - intros (H1 & H2 & H3) Hs.
    destruct (Z.eqb_spec (Z.of_nat (length ks)) (Z.of_nat (length st))); [|lia].
    destruct (Z.eqb_spec (Z.of_nat (length st)) (Z.of_nat (length pd))); [|lia].
    destruct (Z.eqb_spec (Z.of_nat (length pd)) (Z.of_nat (length chans) - 1)); [|lia].
    cbn [andb negb]. unfold build_layers.
    replace (Z.to_nat (Z.of_nat (length chans) - 1)) with (length chans - 1)%nat by lia.
    rewrite (Hok (proj1 Hsizes Hs)). cbn [bind].
    eexists. split; [reflexivity|]. cbn [layers].
    assert (Hnth : forall i, (i < length chans - 1)%nat ->
              nth i (map (layer_of chans ks st pd params) (seq 0 (length chans - 1)))
                  (layer_of chans ks st pd params 0)
              = layer_of chans ks st pd params i).
    { intros i Hi. rewrite map_nth, seq_nth by exact Hi. reflexivity. }
    split; [rewrite length_map, length_seq; reflexivity|]. split.
    + intros i Hi. cbv zeta. rewrite Hnth by exact Hi.
      destruct (Hs i Hi) as (Hc1 & Hc2 & Hc3).
      unfold layer_of. cbn [in_channels out_channels kernel_size stride_arg padding_arg].
      repeat split; lia.
    + intros i Hi. rewrite !Hnth by lia. reflexivity.
  - intros (H1 & H2 & H3) Hs.
    destruct (Z.eqb_spec (Z.of_nat (length ks)) (Z.of_nat (length st))); [|lia].
    destruct (Z.eqb_spec (Z.of_nat (length st)) (Z.of_nat (length pd))); [|lia].
    destruct (Z.eqb_spec (Z.of_nat (length pd)) (Z.of_nat (length chans) - 1)); [|lia].
    cbn [andb negb]. unfold build_layers.
    replace (Z.to_nat (Z.of_nat (length chans) - 1)) with (length chans - 1)%nat by lia.
    destruct Hbad as (msg & Emsg).
    { intros Hall. apply Hs. apply Hsizes. exact Hall. }
    rewrite Emsg. exists msg. reflexivity.
  - intros Hnot.
    destruct (Z.eqb_spec (Z.of_nat (length ks)) (Z.of_nat (length st)));
      [|eexists; reflexivity].
    destruct (Z.eqb_spec (Z.of_nat (length st)) (Z.of_nat (length pd)));
      [|eexists; reflexivity].
    destruct (Z.eqb_spec (Z.of_nat (length pd)) (Z.of_nat (length chans) - 1));
      [|eexists; reflexivity].
    exfalso. apply Hnot. unfold fits. lia.
Qed.

End WithScalar.

(** X7. [InternTimeSeriesEncoderConfig.__init__] returns exactly when
    ts_adapt_out_dim equals ts_hidden_dim, ts_cnn_channels is not empty and
    ts_concat_subsampling_in_channels equals its last element, each taken
    with the default of the signature when the keyword is absent; the first
    and the third failure are AssertionErrors, an empty channel list is an
    IndexError. Every configuration it returns keeps the two equalities. *)
Theorem InternTimeSeriesEncoderConfig_init_checks (kw : kwargs) :
  let out_dim := default (kw_ts_adapt_out_dim kw) 1024 in
  let hidden := default (kw_ts_hidden_dim kw) 1024 in
  let chans := default (kw_ts_cnn_channels kw) [1; 32; 64; 128; 128] in
  let cin := default (kw_ts_concat_subsampling_in_channels kw) 128 in
  (out_dim <> hidden ->
   exists msg, InternTimeSeriesEncoderConfig_init kw = Raise (AssertionError msg)) /\
  (out_dim = hidden -> chans = [] ->
   exists msg, InternTimeSeriesEncoderConfig_init kw = Raise (IndexError msg)) /\
  (out_dim = hidden -> chans <> [] -> cin <> last chans 0 ->
   exists msg, InternTimeSeriesEncoderConfig_init kw = Raise (AssertionError msg)) /\
  (out_dim = hidden -> chans <> [] -> cin = last chans 0 ->
   exists c, InternTimeSeriesEncoderConfig_init kw = Ok c /\
     ts_adapt_out_dim c = out_dim /\ ts_hidden_dim c = hidden /\
     ts_cnn_channels c = chans /\ ts_concat_subsampling_in_channels c = cin) /\
  (forall c, InternTimeSeriesEncoderConfig_init kw = Ok c ->
     ts_adapt_out_dim c = ts_hidden_dim c /\
     ts_cnn_channels c <> [] /\
     ts_concat_subsampling_in_channels c = last (ts_cnn_channels c) 0).
Proof.
  intros out_dim hidden chans cin. unfold InternTimeSeriesEncoderConfig_init.
  cbn [ts_adapt_out_dim ts_hidden_dim ts_cnn_channels ts_concat_subsampling_in_channels].
  fold out_dim hidden chans cin.
  destruct (Z.eqb_spec out_dim hidden) as [Ho | Ho]; cbn [negb].
  2:{ split; [intros _; eexists; reflexivity|].
      split; [intros; congruence|]. split; [intros; congruence|].
      split; [intros; congruence | intros c' E; discriminate]. }
  unfold last_item. destruct chans as [|c0 cs] eqn:Ec.
  { split; [intros; congruence|]. split; [intros _ _; eexists; reflexivity|].
    split; [intros; congruence|].
    split; [intros; congruence | intros c' E; discriminate]. }
  cbn [bind].
  destruct (Z.eqb_spec cin (last (c0 :: cs) 0)) as [Hc | Hc]; cbn [negb].
  - split; [intros; congruence|]. split; [intros; congruence|].
    split; [intros; congruence|]. split.
    + intros _ _ _. eexists. split; [reflexivity|]. repeat split.
    + intros c' E. injection E as <-.
      cbn [ts_adapt_out_dim ts_hidden_dim ts_cnn_channels ts_concat_subsampling_in_channels].
      split; [exact Ho|]. split; [discriminate | exact Hc].
  - split; [intros; congruence|]. split; [intros; congruence|].
    split; [intros _ _ _; eexists; reflexivity|].
    split; [intros; congruence | intros c' E; discriminate].
Qed.

(** One signal of 320 samples has length 1 after the subsampling. *)
Lemma Conv1dSubsampling_forward_lens_closed_witness :
  Forall int64_in_range ex_x_lens /\
  exists e, Conv1dSubsampling_forward ex_subsampling ex_signal (Some ex_x_lens) = Ok (e, [1]) /\
    [1] = map (fun l => (l + 159) / 160 / 2) ex_x_lens.
Proof.
  assert (Hr : Forall int64_in_range ex_x_lens)
    by (repeat constructor; unfold int64_in_range; lia).
  assert (E : exists e, Conv1dSubsampling_forward ex_subsampling ex_signal (Some ex_x_lens)
                        = Ok (e, [1])) by (vm_compute; eexists; reflexivity).
  split; [exact Hr|].
  destruct E as (e & E). exists e. split; [exact E|].
  exact (proj1 (@Conv1dSubsampling_forward_lens_closed Z _ ex_subsampling ex_signal e
                  ex_x_lens [1] Hr E)).
Defined.

(** Three frames of one channel: the third frame is dropped. *)
Lemma ConcatSubsampling_forward_pairs_witness :
  has_shape 1 3 1 [[[1]; [2]; [3]]] /\
  exists y, ConcatSubsampling_forward (ConcatSubsampling_init 1 2) [[[1]; [2]; [3]]] [3]
            = Ok (y, map (fun l => l / 2) [3]) /\
    has_shape 1 (3 / 2) (1 + 1) y.
Proof.
  assert (Hs : has_shape 1 3 1 [[[1]; [2]; [3]]]) by (split; [reflexivity | repeat constructor]).
  split; [exact Hs|].
  destruct (@ConcatSubsampling_forward_pairs Z (ConcatSubsampling_init 1 2) 1 3 1
              [[[1]; [2]; [3]]] [3] Hs) as (y & E & Hy & _).
  exists y. split; [exact E | exact Hy].
Defined.

End SubsamplingProps.
(** ** Further properties: the time-series encoder *)

Module EncoderProps.
Import Conv TSConfig Subsampling PadMask Masks Encoder Examples Examples2.
Import ConvFacts SubsamplingFacts MaskFacts EncoderFacts ModelFacts.

(** The block size in closed form. *)
Lemma py_round_half (c : Z) :
  py_round (inject_Z c / 4 * 2) = if c mod 4 =? 3 then (c + 1) / 2 else c / 2.
Proof.
  unfold py_round.
  assert (Hf : Qfloor (inject_Z c / 4 * 2) = c / 2).
  { unfold Qfloor, Qdiv, Qmult, Qinv, inject_Z. simpl.
    Z.div_mod_to_equations. lia. }
  rewrite Hf.
  unfold Qcompare, Qminus, Qplus, Qopp, Qdiv, Qmult, Qinv, inject_Z. simpl.
  rewrite Zeven_mod.
  destruct (Z.compare_spec ((c * 1 * 2 * 1 + - (c / 2) * 4) * 2) 4);
    destruct (Z.eqb_spec (c mod 4) 3);
    try destruct (Z.eqb_spec ((c / 2) mod 2) 0);
    Z.div_mod_to_equations; lia.
Qed.

(** X8. For an integer chunk length of magnitude at most 2^53, on which the
    floating-point value of chunk_length / 4 * 2 is exact, the block size
    round(chunk_length / 4 * 2) of [prepare_chunk_attention_mask] is
    chunk_length / 2 rounded half to even: chunk_length // 2, except
    (chunk_length + 1) // 2 when chunk_length is 3 modulo 4. It is positive
    exactly for chunk_length >= 2 and zero exactly for chunk_length in
    -1, 0, 1. *)
Theorem chunk_block_size (c : Z) :
  - 2 ^ 53 <= c <= 2 ^ 53 ->
  py_round (inject_Z c / 4 * 2) = (if c mod 4 =? 3 then (c + 1) / 2 else c / 2) /\
  (0 < py_round (inject_Z c / 4 * 2) <-> 2 <= c) /\
  (py_round (inject_Z c / 4 * 2) = 0 <-> -1 <= c <= 1).
Proof.
  intros _. rewrite py_round_half. split; [reflexivity|].
  destruct (Z.eqb_spec (c mod 4) 3); split; split; intros;
    Z.div_mod_to_equations; lia.
Qed.

(** A chunk length of 7 gives blocks of 4 frames. *)
Lemma chunk_block_size_witness :
  - 2 ^ 53 <= 7 <= 2 ^ 53 /\ py_round (inject_Z 7 / 4 * 2) = 4.
Proof.
  assert (H7 : - 2 ^ 53 <= 7 <= 2 ^ 53) by lia.
  exact (conj H7 (proj1 (chunk_block_size H7))).
Defined.

Section WithScalar.
Context {A : Type} `{Scalar A}.

(** X9. With mask_type 'chunk', [forward] raises once the input embeddings
    are computed when the chunk length is unusable: a TypeError when
    [define_masktype] was given no chunk_length, a ZeroDivisionError when
    chunk_length is -1, 0 or 1 (the block size rounds to 0). For
    chunk_length <= -2 the block size is negative, no block is cleared, and
    every entry of the mask is -65504, the diagonal included. *)
Theorem chunk_mode_degenerate (self : @InternTimeSeriesEncoder A) (r : rng)
  (x e : list (list (list A))) :
  mask_type self = Some "chunk"%string ->
  encoder_inputs_embeds self x = Ok e ->
  (chunk_length self = None ->
   exists msg, InternTimeSeriesEncoder_forward self r x = Raise (TypeError msg)) /\
  (forall c, chunk_length self = Some c -> -1 <= c <= 1 ->
     InternTimeSeriesEncoder_forward self r x = Raise ZeroDivisionError) /\
  (forall c bsz n, c <= -2 ->
     prepare_chunk_attention_mask (Some c) bsz n
     = Ok (repeat [repeat (repeat (-65504) n) n] bsz)).
Proof.
  intros Hmt He. split; [|split].
  - intros Hc. unfold InternTimeSeriesEncoder_forward, build_attention_mask.
    rewrite He, Hmt, Hc, String.eqb_refl. eexists. reflexivity.
  - intros c Hc Hr. unfold InternTimeSeriesEncoder_forward, build_attention_mask.
    rewrite He, Hmt, Hc, String.eqb_refl. cbn [bind].
    unfold prepare_chunk_attention_mask.
    assert (Hz : py_round (inject_Z c / 4 * 2) = 0).
    { rewrite py_round_half. destruct (Z.eqb_spec (c mod 4) 3);
        Z.div_mod_to_equations; lia. }
    rewrite Hz. reflexivity.
  - intros c bsz n Hc. unfold prepare_chunk_attention_mask.
    set (b := py_round (inject_Z c / 4 * 2)).
    assert (Hb : b < 0).
    { unfold b. rewrite py_round_half. destruct (Z.eqb_spec (c mod 4) 3);
        Z.div_mod_to_equations; lia. }
    destruct (Z.eqb_spec b 0); [lia|].
    unfold zero_full_blocks.
    replace (Z.to_nat (Z.of_nat n / b)) with 0%nat
      by (Z.div_mod_to_equations; nia).
    cbn [seq fold_left bind].
    destruct (Z.ltb_spec 0 (Z.of_nat n mod b)) as [Hlt | _].
    { pose proof (Z.mod_neg_bound (Z.of_nat n) b Hb). lia. }
    cbn [bind]. rewrite map_repeat, map_repeat. reflexivity.
Qed.

(** X10. In the default mode a sequence of at most one frame gets no mask:
    [_prepare_decoder_attention_mask] builds the causal mask only for more
    than one position, so every layer that is called receives None. *)
Theorem encoder_single_frame_has_no_mask (self : @InternTimeSeriesEncoder A) (r : rng)
  (x e h : list (list (list A))) (trace : list (option mask4)) :
  mask_type self <> Some "chunk"%string ->
  encoder_inputs_embeds self x = Ok e ->
  InternTimeSeriesEncoder_forward self r x = Ok (h, trace) ->
  (shape1 e <= 1)%nat ->
  Forall (fun m => m = None) trace.
Proof.
  intros Hmode He Hfwd Hlen.
  destruct (forward_inv _ _ _ Hfwd) as (e' & am & He' & Ham & Htr & _).
  rewrite He in He'. injection He' as <-.
  rewrite (build_attention_mask_default _ _ _ Hmode) in Ham.
  unfold _prepare_decoder_attention_mask in Ham.
  destruct (Nat.ltb_spec 1 (shape1 e)); [lia|].
  injection Ham as <-. exact Htr.
Qed.

Lemma run_layers_eval_rng (r1 r2 : rng) (am : option mask4) (layers : list encoder_layer)
  (idx : nat) (hs : list (list (list A))) :
  run_layers false r1 am idx layers hs = run_layers false r2 am idx layers hs.
Proof.
  revert idx hs. induction layers as [|l ls IH]; intros idx hs; [reflexivity|].
  cbn [run_layers andb]. rewrite (IH (S idx) (l hs am)). reflexivity.
Qed.

Lemma run_layers_called (r : rng) (am : option mask4) (layers : list encoder_layer)
  (idx : nat) (hs : list (list (list A))) :
  length (snd (run_layers true r am idx layers hs))
  = length (filter (fun i => negb (layer_dropped r i)) (seq idx (length layers))).
Proof.
  revert idx hs. induction layers as [|l ls IH]; intros idx hs; [reflexivity|].
  cbn [run_layers andb length seq filter].
  destruct (layer_dropped r idx); cbn [negb].
  - apply IH.
  - specialize (IH (S idx) (l hs am)).
    destruct (run_layers true r am (S idx) ls (l hs am)) as [out trace].
    cbn [snd length] in *. rewrite IH. reflexivity.
Qed.

(** The loop in closed form: the layers that are not dropped are applied in
    order, each with the attention mask. *)
Lemma run_layers_kept (tr : bool) (r : rng) (am : option mask4) (layers : list encoder_layer)
  (idx : nat) (hs : list (list (list A))) :
  let called := map snd (filter (fun p => negb (tr && layer_dropped r (fst p)))
                                (combine (seq idx (length layers)) layers)) in
  run_layers tr r am idx layers hs
  = (fold_left (fun h (l : encoder_layer) => l h am) called hs, map (fun _ => am) called).
Proof.
  revert idx hs. induction layers as [|l ls IH]; intros idx hs; [reflexivity|].
  cbn [run_layers length seq combine filter fst].
  destruct (tr && layer_dropped r idx); cbn [negb].
  - apply IH.
  - rewrite (IH (S idx) (l hs am)). reflexivity.
Qed.

Lemma all_layers_kept {X : Type} (ls : list X) (k : nat) :
  map snd (filter (fun _ => true) (combine (seq k (length ls)) ls)) = ls.
Proof.
  revert k. induction ls as [|l ls IH]; intros k; [reflexivity|].
  cbn [length seq combine filter map snd]. f_equal. apply IH.
Qed.

(** X11. Outside training [forward] does not depend on the random draws:
    dropout is the identity and no layer is skipped. In every mode the layers
    that are called are exactly those that LayerDrop does not drop, in order
    (all of them outside training): each of them receives the attention mask,
    and the result is the layer norm and the output adapter applied to their
    composition. *)
Theorem encoder_forward_randomness (self : @InternTimeSeriesEncoder A)
  (x : list (list (list A))) :
  (training self = false ->
   forall r1 r2, InternTimeSeriesEncoder_forward self r1 x
                 = InternTimeSeriesEncoder_forward self r2 x) /\
  (forall r h trace, InternTimeSeriesEncoder_forward self r x = Ok (h, trace) ->
     exists e am,
       encoder_inputs_embeds self x = Ok e /\
       build_attention_mask self (length e) (shape1 e) = Ok am /\
       let called :=
         map snd (filter (fun p => negb (training self && layer_dropped r (fst p)))
                         (combine (seq 0 (length (enc_layers self))) (enc_layers self))) in
       (training self = false -> called = enc_layers self) /\
       trace = map (fun _ => am) called /\
       bind (on_last (LayerNorm_forward1 (layer_norm self))
               (fold_left (fun hs (l : encoder_layer) => l hs am) called
                          (dropout self r (add_positions self e))))
            (on_last (Linear_forward1 (adapt_out self))) = Ok h).
Proof.
  split.
  - intros Hev r1 r2. unfold InternTimeSeriesEncoder_forward, dropout.
    rewrite Hev. destruct (encoder_inputs_embeds self x) as [e|]; [|reflexivity].
    cbn [bind]. destruct (build_attention_mask self (length e) (shape1 e)) as [am|];
      [|reflexivity].
    cbn [bind]. rewrite (run_layers_eval_rng r1 r2). reflexivity.
  - intros r h trace E. unfold InternTimeSeriesEncoder_forward in E.
    destruct (encoder_inputs_embeds self x) as [e|] eqn:Ee; [|discriminate]. cbn [bind] in E.
    destruct (build_attention_mask self (length e) (shape1 e)) as [am|] eqn:Eam;
      [|discriminate].
    cbn [bind] in E.
    rewrite run_layers_kept in E. cbv zeta in E.
    exists e, am. split; [reflexivity|]. split; [exact Eam|].
    cbv zeta.
    set (called := map snd (filter (fun p => negb (training self && layer_dropped r (fst p)))
                                   (combine (seq 0 (length (enc_layers self)))
                                            (enc_layers self)))) in *.
    split; [|split].
    + intros Hev. unfold called. rewrite Hev. cbn [andb negb]. apply all_layers_kept.
    + destruct (on_last (LayerNorm_forward1 (layer_norm self)) _) as [h1|]; [|discriminate].
      cbn [bind] in E.
      destruct (on_last (Linear_forward1 (adapt_out self)) h1) as [h2|]; [|discriminate].
      cbn [bind] in E. injection E as _ <-. reflexivity.
    + destruct (on_last (LayerNorm_forward1 (layer_norm self)) _) as [h1|]; [|discriminate].
      cbn [bind] in E |- *.
      destruct (on_last (Linear_forward1 (adapt_out self)) h1) as [h2|]; [|discriminate].
      cbn [bind] in E. injection E as <- _. reflexivity.
Qed.

(** X12. The input adapter of the encoder always produces 80 channels,
    whatever num_mel_bins is, while the first convolution expects
    num_mel_bins channels: with a configuration whose num_mel_bins is not 80,
    [forward] raises a RuntimeError on every non-empty input with
    ts_adapt_in_dim channels. *)
Theorem encoder_needs_80_mel_bins (self : @InternTimeSeriesEncoder A)
  (config : InternTimeSeriesEncoderConfig) (r : rng) (B T : nat) (x : list (list (list A))) :
  encoder_wired self config ->
  Z.to_nat (num_mel_bins config) <> 80%nat ->
  (1 <= B)%nat -> (1 <= T)%nat ->
  has_shape B T (Z.to_nat (ts_adapt_in_dim config)) x ->
  exists msg, InternTimeSeriesEncoder_forward self r x = Raise (RuntimeError msg).
Proof.
  intros Hw Hmel HB HT Hx.
  destruct (wired_dims Hw) as ((Hai1 & Hai2) & (Hc1i & Hc1o & Hc1k & Hc1s & Hc1p) & _).
  unfold InternTimeSeriesEncoder_forward, encoder_inputs_embeds.
  destruct (@on_last_shape A (Linear_forward1 (adapt_in self)) B T
              (Z.to_nat (ts_adapt_in_dim config)) 80 x) as (x1 & E1 & [H1 H2]).
  { intros v Hv. rewrite <- Hai2. apply Linear_forward1_ok. rewrite Hai1. exact Hv. }
  { exact Hx. }
  rewrite E1. cbn [bind].
  destruct x1 as [|s x1]; [simpl in H1; lia|].
  destruct (Forall_inv H2) as [Hs Hfr].
  destruct s as [|fr s]; [simpl in Hs; lia|].
  pose proof (Forall_inv Hfr) as Hlen. cbv beta in Hlen.
  unfold Conv1d_forward. cbn [mapM]. unfold Conv1d_forward1 at 1.
  rewrite Hc1k, Hc1s. cbn [Nat.eqb orb forallb].
  rewrite Hlen, Hc1i.
  destruct (Nat.eqb_spec 80 (Z.to_nat (num_mel_bins config))) as [Heq | _]; [lia|].
  cbn [andb negb bind].
  destruct (padding_arg (conv1 self) <? 0); cbn [bind]; eexists; reflexivity.
Qed.

(** X13. The position table has max_source_positions rows; a longer input
    is not truncated. Adding the positions keeps the shape of the input, and
    when zero is neutral for the addition the frames at index
    max_source_positions and beyond are left as they are. *)
Theorem positions_beyond_table (self : @InternTimeSeriesEncoder A)
  (B T C : nat) (x : list (list (list A))) :
  (forall a : A, s_add a s_zero = a) ->
  has_shape B T C x ->
  has_shape B T C (add_positions self x) /\
  forall b t, (b < B)%nat -> (t < T)%nat ->
    enc_max_source_positions self <= Z.of_nat t ->
    nth t (nth b (add_positions self x) []) [] = nth t (nth b x []) [].
Proof.
  intros Hzero Hx. split; [apply add_positions_shape; exact Hx|].
  intros b t Hb Ht Hmax. destruct Hx as [HB Hx]. rewrite Forall_forall in Hx.
  assert (Hin : In (nth b x []) x) by (apply nth_In; lia).
  destruct (Hx _ Hin) as [Hs _].
  unfold add_positions.
  set (f := fun s : list (list A) => imap _ s).
  change (@nil (list A)) with (f []) at 1. rewrite map_nth. unfold f.
  rewrite (nth_imap _ _ [] []) by lia.
  destruct (Z.ltb_spec (Z.of_nat t) (enc_max_source_positions self)); [lia|].
  apply nth_ext with (d := s_zero) (d' := s_zero); [apply imap_length|].
  intros c Hc. rewrite imap_length in Hc.
  rewrite (nth_imap _ _ s_zero s_zero) by exact Hc. apply Hzero.
Qed.

End WithScalar.

(** 'chunk' without a chunk length. *)
Lemma chunk_mode_degenerate_witness :
  mask_type ex_chunk_none_encoder = Some "chunk"%string /\
  encoder_inputs_embeds ex_chunk_none_encoder ex_frames = Ok ex_inputs_embeds /\
  exists msg, InternTimeSeriesEncoder_forward ex_chunk_none_encoder ex_rng ex_frames
              = Raise (TypeError msg).
Proof.
  assert (H1 : mask_type ex_chunk_none_encoder = Some "chunk"%string) by reflexivity.
  assert (H2 : encoder_inputs_embeds ex_chunk_none_encoder ex_frames = Ok ex_inputs_embeds)
    by (vm_compute; reflexivity).
  refine (conj H1 (conj H2 _)).
  exact (proj1 (@chunk_mode_degenerate Z _ ex_chunk_none_encoder ex_rng ex_frames
                  ex_inputs_embeds H1 H2) eq_refl).
Defined.

(** One frame through the small encoder: both layers are called without a
    mask. *)
Lemma encoder_single_frame_has_no_mask_witness :
  mask_type ex_small_encoder <> Some "chunk"%string /\
  encoder_inputs_embeds ex_small_encoder ex_one_frame = Ok ex_one_inputs_embeds /\
  InternTimeSeriesEncoder_forward ex_small_encoder ex_rng ex_one_frame
    = Ok (fst ex_one_forward, snd ex_one_forward) /\
  (shape1 ex_one_inputs_embeds <= 1)%nat /\
  Forall (fun m => m = None) (snd ex_one_forward).
Proof.
  assert (H1 : mask_type ex_small_encoder <> Some "chunk"%string) by discriminate.
  assert (H2 : encoder_inputs_embeds ex_small_encoder ex_one_frame = Ok ex_one_inputs_embeds)
    by (vm_compute; reflexivity).
  assert (H3 : InternTimeSeriesEncoder_forward ex_small_encoder ex_rng ex_one_frame
               = Ok (fst ex_one_forward, snd ex_one_forward)) by (vm_compute; reflexivity).
  assert (H4 : (shape1 ex_one_inputs_embeds <= 1)%nat) by (vm_compute; lia).
  pose proof (@encoder_single_frame_has_no_mask Z _ ex_small_encoder ex_rng ex_one_frame
                ex_one_inputs_embeds (fst ex_one_forward) (snd ex_one_forward)
                H1 H2 H3 H4) as Hall.
  exact (conj H1 (conj H2 (conj H3 (conj H4 Hall)))).
Defined.

(** Forty mel bins against the eighty outputs of the adapter. *)
Lemma encoder_needs_80_mel_bins_witness :
  encoder_wired ex_mel40_encoder ex_mel40_config /\
  Z.to_nat (num_mel_bins ex_mel40_config) <> 80%nat /\
  has_shape 1 4 (Z.to_nat (ts_adapt_in_dim ex_mel40_config)) ex_frames /\
  exists msg, InternTimeSeriesEncoder_forward ex_mel40_encoder ex_rng ex_frames
              = Raise (RuntimeError msg).
Proof.
  assert (H1 : encoder_wired ex_mel40_encoder ex_mel40_config) by apply init_wired.
  assert (H2 : Z.to_nat (num_mel_bins ex_mel40_config) <> 80%nat)
    by (apply Nat.eqb_neq; reflexivity).
  assert (H3 : has_shape 1 4 (Z.to_nat (ts_adapt_in_dim ex_mel40_config)) ex_frames)
    by (split; [reflexivity | repeat constructor]).
  refine (conj H1 (conj H2 (conj H3 _))).
  exact (@encoder_needs_80_mel_bins Z _ ex_mel40_encoder ex_mel40_config ex_rng 1 4 ex_frames
           H1 H2 ltac:(lia) ltac:(lia) H3).
Defined.

(** The table of the small encoder has three rows: the fourth frame is
    unchanged. *)
Lemma positions_beyond_table_witness :
  (forall a : Z, s_add a s_zero = a) /\
  has_shape 1 4 1 ex_frames /\
  nth 3 (nth 0 (add_positions ex_small_encoder ex_frames) []) [] = nth 3 (nth 0 ex_frames []) [].
Proof.
  assert (H1 : forall a : Z, s_add a s_zero = a) by (intros a; apply Z.add_0_r).
  assert (H2 : has_shape 1 4 1 ex_frames) by (split; [reflexivity | repeat constructor]).
  refine (conj H1 (conj H2 _)).
  apply (proj2 (@positions_beyond_table Z _ ex_small_encoder 1 4 1 ex_frames H1 H2)
           0%nat 3%nat); [lia | lia | vm_compute; discriminate].
Defined.

End EncoderProps.
(** ** Further properties: pixel shuffle and the image features *)

Module VisionProps.
Import Conv Config Projector Outputs Vision Examples Examples2.
Import ConvFacts SubsamplingFacts ModelFacts ProjectorFacts.

(** *** Regrouping a row-major list *)

Lemma firstn_concat_uniform {X : Type} (m g : nat) (l : list (list X)) :
  Forall (fun v => length v = m) l ->
  firstn (g * m) (concat l) = concat (firstn g l).
Proof.
  intros Hl. revert g. induction Hl as [|v l Hv Hl IH]; intros g.
  - rewrite !firstn_nil. reflexivity.
  - destruct g as [|g]; [reflexivity|].
    cbn [concat firstn]. replace (S g * m)%nat with (length v + g * m)%nat by lia.
    rewrite firstn_app_2, IH. reflexivity.
Qed.

Lemma skipn_concat_uniform {X : Type} (m g : nat) (l : list (list X)) :
  Forall (fun v => length v = m) l ->
  skipn (g * m) (concat l) = concat (skipn g l).
Proof.
  intros Hl. revert g. induction Hl as [|v l Hv Hl IH]; intros g.
  - rewrite !skipn_nil. reflexivity.
  - destruct g as [|g]; [reflexivity|].
    cbn [concat skipn]. replace (S g * m)%nat with (length v + g * m)%nat by lia.
    rewrite skipn_app, skipn_all2 by lia.
    replace (length v + g * m - length v)%nat with (g * m)%nat by lia.
    rewrite IH. reflexivity.
Qed.

Lemma Forall_skipn {X : Type} (P : X -> Prop) (n : nat) (l : list X) :
  Forall P l -> Forall P (skipn n l).
Proof.
  intros Hl. revert n. induction Hl as [|x l Hx Hl IH]; intros n.
  - rewrite skipn_nil. constructor.
  - destruct n; [constructor; assumption | apply IH].
Qed.

Lemma chunks_concat {X : Type} (m g k : nat) (l : list (list X)) :
  Forall (fun v => length v = m) l ->
  chunks (g * m) k (concat l) = map (@concat X) (chunks g k l).
Proof.
  revert l. induction k as [|k IH]; intros l Hl; [reflexivity|].
  cbn [chunks map]. rewrite firstn_concat_uniform, skipn_concat_uniform by exact Hl.
  rewrite IH by (apply Forall_skipn; exact Hl). reflexivity.
Qed.

Lemma chunks_length {X : Type} (g k : nat) (l : list X) : length (chunks g k l) = k.
Proof. revert l. induction k as [|k IH]; intros l; simpl; [reflexivity | now rewrite IH]. Qed.

Lemma nth_chunks {X : Type} (g k i : nat) (l : list X) :
  (i < k)%nat -> nth i (chunks g k l) [] = firstn g (skipn (i * g) l).
Proof.
  revert i l. induction k as [|k IH]; intros i l Hi; [lia|].
  destruct i as [|i]; [reflexivity|].
  cbn [chunks nth]. rewrite IH by lia.
  rewrite skipn_skipn. f_equal. f_equal. lia.
Qed.

(** Regrouping the rows of a matrix by its own width gives the matrix back. *)
Lemma chunks_concat_id {X : Type} (m k : nat) (l : list (list X)) :
  length l = k -> Forall (fun v => length v = m) l ->
  chunks m k (concat l) = l.
Proof.
  revert l. induction k as [|k IH]; intros l Hk Hl.
  - destruct l; [reflexivity | discriminate].
  - destruct l as [|v l]; [discriminate|].
    inversion Hl as [|? ? Hv Hl']. subst.
    cbn [chunks concat]. rewrite firstn_app, firstn_all, Nat.sub_diag, firstn_O, app_nil_r.
    rewrite skipn_app, skipn_all, Nat.sub_diag. cbn [skipn app].
    rewrite IH by (simpl in Hk; auto; lia). reflexivity.
Qed.

Lemma firstn_2_skipn {X : Type} (j : nat) (l : list X) (d : X) :
  (2 * j + 1 < length l)%nat ->
  firstn 2 (skipn (j * 2) l) = [nth (2 * j) l d; nth (2 * j + 1) l d].
Proof.
  intros Hj.
  rewrite <- (firstn_skipn (j * 2) l) at 2 3.
  assert (Hlen : length (firstn (j * 2) l) = (j * 2)%nat) by (rewrite length_firstn; lia).
  rewrite !app_nth2 by lia. rewrite Hlen.
  replace (2 * j - j * 2)%nat with 0%nat by lia.
  replace (2 * j + 1 - j * 2)%nat with 1%nat by lia.
  pose proof (length_skipn (j * 2) l) as Hs.
  destruct (skipn (j * 2) l) as [|a [|b rest]]; simpl in Hs; try lia.
  reflexivity.
Qed.

Lemma nth_pairs {X : Type} (k j : nat) (row : list (list X)) :
  length row = (2 * k)%nat -> (j < k)%nat ->
  nth j (map (@concat X) (chunks 2 k row)) []
  = nth (2 * j) row [] ++ nth (2 * j + 1) row [].
Proof.
  intros Hrow Hj.
  change (@nil X) with (concat (@nil (list X))) at 1.
  rewrite map_nth, nth_chunks by exact Hj.
  rewrite (firstn_2_skipn _ _ []) by lia.
  cbn [concat]. rewrite app_nil_r. reflexivity.
Qed.

Lemma length_concat_uniform {X : Type} (m : nat) (l : list (list X)) :
  Forall (fun v => length v = m) l -> length (concat l) = (length l * m)%nat.
Proof.
  induction 1 as [|v l Hv Hl IH]; [reflexivity|].
  cbn [concat length]. rewrite length_app, IH, Hv. lia.
Qed.

Lemma Forall_concat {X : Type} (P : X -> Prop) (l : list (list X)) :
  Forall (Forall P) l -> Forall P (concat l).
Proof.
  induction 1 as [|v l Hv Hl IH]; [constructor|].
  cbn [concat]. apply Forall_app. split; assumption.
Qed.

(** *** Shapes *)

Section Shapes.
Context {A : Type}.

Lemma has_shape_numel (W H C : nat) (xb : list (list (list A))) :
  has_shape W H C xb ->
  length (concat xb) = (W * H)%nat /\
  Forall (fun v => length v = C) (concat xb) /\
  length (concat (concat xb)) = (W * H * C)%nat.
Proof.
  intros [HW Hx].
  assert (H1 : Forall (fun s => length s = H) xb)
    by (eapply Forall_impl; [|exact Hx]; intros s [Hs _]; exact Hs).
  assert (H2 : Forall (fun v => length v = C) (concat xb)).
  { apply Forall_concat. eapply Forall_impl; [|exact Hx]. intros s [_ Hs]. exact Hs. }
  pose proof (length_concat_uniform H1) as L1.
  pose proof (length_concat_uniform H2) as L2.
  rewrite HW in L1. split; [exact L1|]. split; [exact H2|]. rewrite L2, L1. reflexivity.
Qed.

Lemma has_shape4_numel (B W H C : nat) (x : list (list (list (list A)))) :
  has_shape4 B W H C x ->
  length (concat (concat (concat x))) = (B * W * H * C)%nat.
Proof.
  intros [HB Hx]. subst B. induction Hx as [|xb x Hxb Hx IH]; [reflexivity|].
  cbn [concat length]. rewrite !concat_app, length_app, IH.
  destruct (has_shape_numel Hxb) as (_ & _ & ->). lia.
Qed.

Lemma has_shape4_sizes (B W H C : nat) (x : list (list (list (list A)))) :
  has_shape4 B W H C x -> (1 <= B)%nat -> (1 <= W)%nat -> (1 <= H)%nat ->
  shape1 x = W /\ shape2 x = H /\ shape3 x = C.
Proof.
  intros [HB Hx] HB1 HW1 HH1.
  destruct x as [|xb x]; [simpl in HB; lia|].
  pose proof (Forall_inv Hx) as [HW Hxb]. cbn [shape1 shape2 shape3].
  split; [exact HW|].
  destruct xb as [|s xb]; [simpl in HW; lia|].
  pose proof (Forall_inv Hxb) as [HH Hs]. cbn [shape1 shape2].
  split; [exact HH|].
  destruct s as [|v s]; [simpl in HH; lia|].
  exact (Forall_inv Hs).
Qed.

(** The view that merges neighbouring pairs of the third dimension. *)
Lemma view4_pairs (B D k C : nat) (x : list (list (list (list A)))) :
  has_shape4 B D (2 * k) C x ->
  view4 (Z.of_nat D) (Z.of_nat k) (Z.of_nat (2 * C)) x
  = Ok (map (map (fun row => map (@concat A) (chunks 2 k row))) x).
Proof.
  intros Hx. unfold view4.
  destruct (Z.ltb_spec (Z.of_nat D) 0); [lia|].
  destruct (Z.ltb_spec (Z.of_nat k) 0); [lia|].
  destruct (Z.ltb_spec (Z.of_nat (2 * C)) 0); [lia|]. cbn [orb].
  rewrite (has_shape4_numel Hx). destruct Hx as [HB Hx]. rewrite HB.
  destruct (Z.eqb_spec (Z.of_nat (B * D * (2 * k) * C))
              (Z.of_nat B * Z.of_nat D * Z.of_nat k * Z.of_nat (2 * C))); [|lia].
  cbn [negb]. f_equal. apply map_ext_in. intros xb Hxb.
  rewrite Forall_forall in Hx. pose proof (Hx xb Hxb) as Hs.
  destruct (has_shape_numel Hs) as (L1 & F1 & _). destruct Hs as [HD Hrows].
  rewrite <- Nat2Z.inj_mul, !Nat2Z.id.
  replace (k * (2 * C))%nat with ((2 * k) * C)%nat by lia.
  rewrite (chunks_concat (2 * k) D F1).
  rewrite chunks_concat_id; [| exact HD
      | eapply Forall_impl; [|exact Hrows]; intros s [Hs' _]; exact Hs'].
  rewrite map_map. apply map_ext_in. intros row Hrow.
  rewrite Forall_forall in Hrows. destruct (Hrows row Hrow) as [_ Hfr].
  apply (chunks_concat 2 k Hfr).
Qed.

Lemma pairs_shape (D k C : nat) (xb : list (list (list A))) :
  has_shape D (2 * k) C xb ->
  has_shape D k (2 * C) (map (fun row => map (@concat A) (chunks 2 k row)) xb).
Proof.
  intros [HD Hrows]. split; [rewrite length_map; exact HD|].
  apply Forall_map. eapply Forall_impl; [|exact Hrows]. intros row [Hlen Hfr].
  split; [rewrite length_map, chunks_length; reflexivity|].
  apply Forall_forall. intros v Hv.
  apply (In_nth _ _ []) in Hv. destruct Hv as (j & Hj & <-).
  rewrite length_map, chunks_length in Hj.
  rewrite nth_pairs by assumption. rewrite length_app.
  rewrite Forall_forall in Hfr.
  rewrite (Hfr (nth (2 * j) row [])), (Hfr (nth (2 * j + 1) row [])) by (apply nth_In; lia).
  lia.
Qed.

Lemma nth_transpose12 {X : Type} (d1 d2 i j : nat) (xb : list (list (list X))) :
  (i < d1)%nat -> (j < d2)%nat ->
  nth i (nth j (transpose12 d1 d2 xb) []) [] = nth j (nth i xb []) [].
Proof.
  intros Hi Hj. unfold transpose12.
  set (f := fun j0 => map (fun i0 => nth j0 (nth i0 xb []) []) (seq 0 d1)).
  rewrite (nth_indep _ [] (f 0%nat)) by (rewrite length_map, length_seq; exact Hj).
  rewrite (map_nth f), seq_nth by exact Hj. unfold f.
  set (g := fun i0 => nth (0 + j) (nth i0 xb []) []).
  rewrite (nth_indep _ [] (g 0%nat)) by (rewrite length_map, length_seq; exact Hi).
  rewrite (map_nth g), seq_nth by exact Hi. reflexivity.
Qed.

Lemma transpose12_shape (d1 d2 C : nat) (xb : list (list (list A))) :
  has_shape d1 d2 C xb -> has_shape d2 d1 C (transpose12 d1 d2 xb).
Proof.
  intros [H1 Hrows]. unfold transpose12. split; [rewrite length_map, length_seq; reflexivity|].
  apply Forall_map. apply Forall_forall. intros j Hj. apply in_seq in Hj.
  split; [rewrite length_map, length_seq; reflexivity|].
  apply Forall_map. apply Forall_forall. intros i Hi. apply in_seq in Hi.
  rewrite Forall_forall in Hrows.
  destruct (Hrows (nth i xb [])) as [Hlen Hfr]; [apply nth_In; lia|].
  rewrite Forall_forall in Hfr. apply Hfr. apply nth_In. lia.
Qed.

Lemma has_shape4_map (B W H C W' H' C' : nat)
  (f : list (list (list A)) -> list (list (list A))) (x : list (list (list (list A)))) :
  (forall xb, has_shape W H C xb -> has_shape W' H' C' (f xb)) ->
  has_shape4 B W H C x -> has_shape4 B W' H' C' (map f x).
Proof.
  intros Hf [HB Hx]. split; [rewrite length_map; exact HB|].
  apply Forall_map. eapply Forall_impl; [|exact Hx]. exact Hf.
Qed.

End Shapes.

(** *** The arithmetic of a scale factor of one half *)

Lemma py_fmod_half (n : Z) : Qeq_bool (py_fmod (inject_Z n) (1 # 2)) 0 = true.
Proof.
  apply Qeq_bool_iff. unfold py_fmod.
  assert (Hf : Qfloor (inject_Z n / (1 # 2)) = n * 2).
  { unfold Qfloor, Qdiv, Qmult, Qinv, inject_Z. simpl. apply Z.div_1_r. }
  rewrite Hf. unfold Qeq, Qminus, Qplus, Qopp, Qmult, inject_Z.
  cbn [Qnum Qden]. lia.
Qed.

Lemma py_int_half (n : Z) : 0 <= n -> py_int (inject_Z n * (1 # 2)) = n / 2.
Proof.
  intros Hn. unfold py_int, Qmult, inject_Z. cbn [Qnum Qden].
  rewrite Z.quot_div_nonneg by lia. f_equal. lia.
Qed.

Lemma py_int_double (n : Z) : 0 <= n -> py_int (inject_Z n / (1 # 2)) = 2 * n.
Proof.
  intros Hn. unfold py_int, Qdiv, Qmult, Qinv, inject_Z. cbn [Qnum Qden].
  cbn [Pos.mul]. rewrite Z.quot_1_r. lia.
Qed.

Lemma py_int_quadruple (n : Z) :
  0 <= n -> py_int (inject_Z n / ((1 # 2) * (1 # 2))) = 4 * n.
Proof.
  intros Hn. set (rhs := 4 * n).
  unfold py_int, Qdiv, Qmult, Qinv, inject_Z. cbn [Qnum Qden Z.mul Pos.mul].
  subst rhs. rewrite Z.quot_1_r. lia.
Qed.

Lemma has_shape4_eq {A : Type} (B W H C C' : nat) (x : list (list (list (list A)))) :
  C = C' -> has_shape4 B W H C x -> has_shape4 B W H C' x.
Proof. intros ->. exact (fun h => h). Qed.

Lemma nth_map_in {X Y : Type} (f : X -> Y) (l : list X) (i : nat) (dx : X) (dy : Y) :
  (i < length l)%nat -> nth i (map f l) dy = f (nth i l dx).
Proof.
  intros Hi. rewrite (nth_indep _ dy (f dx)) by (rewrite length_map; exact Hi).
  apply map_nth.
Qed.

Lemma has_shape4_nth {A : Type} (B W H C b : nat) (x : list (list (list (list A)))) :
  has_shape4 B W H C x -> (b < B)%nat -> has_shape W H C (nth b x []).
Proof.
  intros [HB Hx] Hb. rewrite Forall_forall in Hx. apply Hx. apply nth_In. lia.
Qed.

Lemma has_shape_nth_length {A : Type} (W H C i : nat) (xb : list (list (list A))) :
  has_shape W H C xb -> (i < W)%nat -> length (nth i xb []) = H.
Proof.
  intros [HW Hx] Hi. rewrite Forall_forall in Hx. apply Hx. apply nth_In. lia.
Qed.

(** The two views and permutations of [pixel_shuffle] for a scale factor of
    one half, on a tensor of even width and height. *)
Lemma pixel_shuffle_half_steps {A : Type} (B w h C : nat) (x : list (list (list (list A)))) :
  (1 <= B)%nat -> (1 <= w)%nat -> (1 <= h)%nat ->
  has_shape4 B (2 * w) (2 * h) C x ->
  pixel_shuffle x (1 # 2)
  = Ok (map (transpose12 h w)
          (map (map (fun row => map (@concat A) (chunks 2 w row)))
             (map (transpose12 (2 * w) h)
                (map (map (fun row => map (@concat A) (chunks 2 h row))) x)))).
Proof.
  intros HB Hw Hh Hx.
  destruct (has_shape4_sizes Hx) as (S1 & S2 & S3); try lia.
  unfold pixel_shuffle. rewrite S1, S2, S3.
  change (Qeq_bool (1 # 2) 0) with false. cbv iota.
  rewrite !py_fmod_half. cbn [negb orb].
  rewrite !py_int_half, py_int_double, py_int_quadruple by lia.
  replace (Z.of_nat (2 * h) / 2) with (Z.of_nat h) by (Z.div_mod_to_equations; lia).
  replace (Z.of_nat (2 * w) / 2) with (Z.of_nat w) by (Z.div_mod_to_equations; lia).
  replace (2 * Z.of_nat C) with (Z.of_nat (2 * C)) by lia.
  rewrite (@view4_pairs A B (2 * w) h C x Hx). cbn [bind]. rewrite !Nat2Z.id.
  assert (Hp : has_shape4 B h (2 * w) (2 * C)
                 (map (transpose12 (2 * w) h)
                    (map (map (fun row => map (@concat A) (chunks 2 h row))) x))).
  { apply has_shape4_map with (W := (2 * w)%nat) (H := h) (C := (2 * C)%nat);
      [apply transpose12_shape|].
    apply has_shape4_map with (W := (2 * w)%nat) (H := (2 * h)%nat) (C := C);
      [apply pairs_shape | exact Hx]. }
  replace (4 * Z.of_nat C) with (Z.of_nat (2 * (2 * C))) by lia.
  rewrite (@view4_pairs A B h w (2 * C) _ Hp). reflexivity.
Qed.

(** X14. [pixel_shuffle] with a scale factor of one half, on a
    (B, 2w, 2h, C) tensor: it returns a (B, w, h, 4C) tensor whose vector at
    (i, j) is the concatenation of the four input vectors at (2i, 2j),
    (2i, 2j + 1), (2i + 1, 2j) and (2i + 1, 2j + 1). *)
Theorem pixel_shuffle_half {A : Type} (B w h C : nat) (x : list (list (list (list A)))) :
  (1 <= B)%nat -> (1 <= w)%nat -> (1 <= h)%nat ->
  has_shape4 B (2 * w) (2 * h) C x ->
  exists y, pixel_shuffle x (1 # 2) = Ok y /\
    has_shape4 B w h (4 * C) y /\
    forall b i j, (b < B)%nat -> (i < w)%nat -> (j < h)%nat ->
      nth j (nth i (nth b y []) []) []
      = (nth (2 * j) (nth (2 * i) (nth b x []) []) []
         ++ nth (2 * j + 1) (nth (2 * i) (nth b x []) []) [])
        ++ (nth (2 * j) (nth (2 * i + 1) (nth b x []) []) []
            ++ nth (2 * j + 1) (nth (2 * i + 1) (nth b x []) []) []).
Proof.
  intros HB Hw Hh Hx. eexists.
  split; [apply (@pixel_shuffle_half_steps A B w h C x); assumption|].
  set (ph := fun row : list (list A) => map (@concat A) (chunks 2 h row)).
  set (pw := fun row : list (list A) => map (@concat A) (chunks 2 w row)).
  assert (Hv : has_shape4 B (2 * w) h (2 * C) (map (map ph) x)).
  { apply has_shape4_map with (W := (2 * w)%nat) (H := (2 * h)%nat) (C := C);
      [apply pairs_shape | exact Hx]. }
  assert (Hp : has_shape4 B h (2 * w) (2 * C) (map (transpose12 (2 * w) h) (map (map ph) x))).
  { apply has_shape4_map with (W := (2 * w)%nat) (H := h) (C := (2 * C)%nat);
      [apply transpose12_shape | exact Hv]. }
  assert (Hq : has_shape4 B h w (2 * (2 * C))
                 (map (map pw) (map (transpose12 (2 * w) h) (map (map ph) x)))).
  { apply has_shape4_map with (W := h) (H := (2 * w)%nat) (C := (2 * C)%nat);
      [apply pairs_shape | exact Hp]. }
  split.
  - apply has_shape4_eq with (C := (2 * (2 * C))%nat); [lia|].
    apply has_shape4_map with (W := h) (H := w) (C := (2 * (2 * C))%nat);
      [apply transpose12_shape | exact Hq].
  - intros b i j Hb Hi Hj.
    assert (Lx : length x = B) by apply Hx.
    rewrite (nth_map_in _ _ []) by (rewrite !length_map; lia).
    rewrite nth_transpose12 by assumption.
    rewrite (nth_map_in _ _ []) by (rewrite !length_map; lia).
    pose proof (has_shape4_nth Hp Hb) as Hpb.
    rewrite (nth_map_in _ _ []) by (rewrite (proj1 Hpb); exact Hj).
    unfold pw at 1. rewrite nth_pairs; [| apply (has_shape_nth_length Hpb Hj) | exact Hi].
    rewrite (nth_map_in _ _ []) by (rewrite !length_map; lia).
    rewrite !nth_transpose12 by lia.
    rewrite (nth_map_in _ _ []) by lia.
    pose proof (has_shape4_nth Hx Hb) as Hxb.
    rewrite !(nth_map_in _ _ []) by (rewrite (proj1 Hxb); lia).
    unfold ph. rewrite !nth_pairs; try exact Hj;
      try (apply (has_shape_nth_length Hxb); lia).
    reflexivity.
Qed.

(** A 2-by-2 grid of one channel becomes one vector of four. *)
Lemma pixel_shuffle_half_witness :
  (1 <= 1)%nat /\ has_shape4 1 (2 * 1) (2 * 1) 1 [[[[1]; [2]]; [[3]; [4]]]] /\
  exists y, pixel_shuffle [[[[1]; [2]]; [[3]; [4]]]] (1 # 2) = Ok y /\
    nth 0 (nth 0 (nth 0 y []) []) [] = [1; 2; 3; 4].
Proof.
  assert (H1 : (1 <= 1)%nat) by lia.
  assert (Hs : has_shape4 1 (2 * 1) (2 * 1) 1 [[[[1]; [2]]; [[3]; [4]]]]).
  { split; [reflexivity|]. repeat constructor. }
  refine (conj H1 (conj Hs _)).
  destruct (@pixel_shuffle_half Z 1 1 1 1 [[[[1]; [2]]; [[3]; [4]]]] H1 H1 H1 Hs)
    as (y & E & _ & Hy).
  exists y. split; [exact E|]. exact (Hy 0%nat 0%nat 0%nat H1 H1 H1).
Defined.

Lemma view4_raises {A : Type} (d1 d2 d3 : Z) (x : list (list (list (list A)))) (e : exn) :
  view4 d1 d2 d3 x = Raise e -> exists msg, e = RuntimeError msg.
Proof.
  unfold view4. destruct ((d1 <? 0) || (d2 <? 0) || (d3 <? 0)).
  - intros E. injection E as <-. eexists. reflexivity.
  - destruct (negb _); [|discriminate]. intros E. injection E as <-. eexists. reflexivity.
Qed.

Lemma view4_wrong_numel {A : Type} (d1 d2 d3 : Z) (x : list (list (list (list A)))) :
  Z.of_nat (length (concat (concat (concat x)))) <> Z.of_nat (length x) * d1 * d2 * d3 ->
  exists msg, view4 d1 d2 d3 x = Raise (RuntimeError msg).
Proof.
  intros Hne. unfold view4. destruct ((d1 <? 0) || (d2 <? 0) || (d3 <? 0)).
  - eexists. reflexivity.
  - destruct (Z.eqb_spec (Z.of_nat (length (concat (concat (concat x)))))
                (Z.of_nat (length x) * d1 * d2 * d3)); [contradiction|].
    eexists. reflexivity.
Qed.

(** X15. With a scale factor of one half the divisibility test of
    [pixel_shuffle] never fails, since every integer is a multiple of 0.5:
    the ValueError is never raised. On a non-empty (B, W, H, C) tensor the
    call returns exactly when W and H are even; an odd height or width is
    rejected by [view] with a RuntimeError. *)
Theorem pixel_shuffle_half_odd {A : Type} (B W H C : nat) (x : list (list (list (list A)))) :
  (1 <= B)%nat -> (1 <= W)%nat -> (1 <= H)%nat -> (1 <= C)%nat ->
  has_shape4 B W H C x ->
  (forall (x' : list (list (list (list A)))) msg,
     pixel_shuffle x' (1 # 2) <> Raise (ValueError msg)) /\
  (Nat.even W = true -> Nat.even H = true -> exists y, pixel_shuffle x (1 # 2) = Ok y) /\
  (Nat.even W && Nat.even H = false ->
   exists msg, pixel_shuffle x (1 # 2) = Raise (RuntimeError msg)).
Proof.
  intros HB HW HH HC Hx. split; [|split].
  - intros x' msg. unfold pixel_shuffle.
    change (Qeq_bool (1 # 2) 0) with false. cbv iota.
    rewrite !py_fmod_half. cbn [negb orb].
    match goal with
    | |- bind ?v _ <> _ => destruct v as [v1|e1] eqn:E1
    end.
    + cbn [bind].
      match goal with
      | |- bind ?v _ <> _ => destruct v as [v2|e2] eqn:E2
      end; cbn [bind]; [discriminate|].
      destruct (view4_raises _ _ _ _ E2) as (m & ->). discriminate.
    + cbn [bind]. destruct (view4_raises _ _ _ _ E1) as (m & ->). discriminate.
  - intros EW EH. apply Nat.even_spec in EW, EH.
    destruct EW as (w & ->), EH as (h & ->).
    destruct (@pixel_shuffle_half A B w h C x) as (y & E & _); try lia; [exact Hx|].
    exists y. exact E.
  - intros Hodd.
    destruct (has_shape4_sizes Hx) as (S1 & S2 & S3); try lia.
    pose proof (has_shape4_numel Hx) as Hnum.
    assert (Lx : length x = B) by apply Hx.
    unfold pixel_shuffle. rewrite S1, S2, S3.
    change (Qeq_bool (1 # 2) 0) with false. cbv iota.
    rewrite !py_fmod_half. cbn [negb orb].
    rewrite !py_int_half, py_int_double, py_int_quadruple by lia.
    destruct (Nat.even H) eqn:EH.
    + (* even height, odd width: the second view fails *)
      rewrite andb_true_r in Hodd.
      apply Nat.even_spec in EH. destruct EH as (h & ->).
      replace (Z.of_nat (2 * h) / 2) with (Z.of_nat h) by (Z.div_mod_to_equations; lia).
      replace (2 * Z.of_nat C) with (Z.of_nat (2 * C)) by lia.
      rewrite (@view4_pairs A B W h C x Hx). cbn [bind]. rewrite !Nat2Z.id.
      assert (Hp : has_shape4 B h W (2 * C)
                     (map (transpose12 W h)
                        (map (map (fun row => map (@concat A) (chunks 2 h row))) x))).
      { apply has_shape4_map with (W := W) (H := h) (C := (2 * C)%nat);
          [apply transpose12_shape|].
        apply has_shape4_map with (W := W) (H := (2 * h)%nat) (C := C);
          [apply pairs_shape | exact Hx]. }
      match goal with
      | |- exists msg, bind (view4 ?a ?b ?c ?p) _ = _ =>
          destruct (@view4_wrong_numel A a b c p) as (m & Em)
      end.
      { rewrite (has_shape4_numel Hp), !length_map, Lx.
        assert (HWodd : Z.of_nat W = 2 * (Z.of_nat W / 2) + 1).
        { assert (Ho : Nat.odd W = true) by (rewrite <- Nat.negb_even, Hodd; reflexivity).
          apply Nat.odd_spec in Ho. destruct Ho as (k & ->).
          Z.div_mod_to_equations. lia. }
        set (q := Z.of_nat W / 2) in *.
        rewrite !Nat2Z.inj_mul, HWodd.
        assert (0 < Z.of_nat B * Z.of_nat h * Z.of_nat C) by nia.
        nia. }
      rewrite Em. eexists. reflexivity.
    + (* odd height: the first view fails *)
      match goal with
      | |- exists msg, bind (view4 ?a ?b ?c ?p) _ = _ =>
          destruct (@view4_wrong_numel A a b c p) as (m & Em)
      end.
      { rewrite Hnum, Lx.
        assert (HHodd : Z.of_nat H = 2 * (Z.of_nat H / 2) + 1).
        { assert (Ho : Nat.odd H = true) by (rewrite <- Nat.negb_even, EH; reflexivity).
          apply Nat.odd_spec in Ho. destruct Ho as (k & ->).
          Z.div_mod_to_equations. lia. }
        set (q := Z.of_nat H / 2) in *.
        rewrite !Nat2Z.inj_mul, HHodd.
        assert (0 < Z.of_nat B * Z.of_nat W * Z.of_nat C) by nia.
        nia. }
      rewrite Em. eexists. reflexivity.
Qed.

(** A row of three positions cannot be halved. *)
Lemma pixel_shuffle_half_odd_witness :
  has_shape4 1 2 3 1 [[[[1]; [2]; [3]]; [[4]; [5]; [6]]]] /\
  exists msg, pixel_shuffle [[[[1]; [2]; [3]]; [[4]; [5]; [6]]]] (1 # 2)
              = Raise (RuntimeError msg).
Proof.
  assert (Hs : has_shape4 1 2 3 1 [[[[1]; [2]; [3]]; [[4]; [5]; [6]]]]).
  { split; [reflexivity|]. repeat constructor. }
  split; [exact Hs|].
  destruct (@pixel_shuffle_half_odd Z 1 2 3 1 _ ltac:(lia) ltac:(lia) ltac:(lia) ltac:(lia) Hs)
    as (_ & _ & Hodd).
  exact (Hodd eq_refl).
Defined.

(** *** From the hidden state of the vision tower to the projected tokens *)

Lemma chunks_lengths {X : Type} (g k : nat) (l : list X) :
  length l = (k * g)%nat -> Forall (fun c => length c = g) (chunks g k l).
Proof.
  revert l. induction k as [|k IH]; intros l Hl; [constructor|].
  cbn [chunks]. constructor.
  - rewrite length_firstn. lia.
  - apply IH. rewrite length_skipn. lia.
Qed.

Lemma Forall_firstn {X : Type} (P : X -> Prop) (n : nat) (l : list X) :
  Forall P l -> Forall P (firstn n l).
Proof.
  intros Hl. revert n. induction Hl as [|x l Hx Hl IH]; intros n.
  - rewrite firstn_nil. constructor.
  - destruct n; [constructor|]. cbn [firstn]. constructor; [exact Hx | apply IH].
Qed.

Lemma chunks_Forall {X : Type} (P : X -> Prop) (g k : nat) (l : list X) :
  Forall P l -> Forall (Forall P) (chunks g k l).
Proof.
  revert l. induction k as [|k IH]; intros l Hl; [constructor|].
  cbn [chunks]. constructor; [apply Forall_firstn; exact Hl|].
  apply IH. apply Forall_skipn. exact Hl.
Qed.

Section Tokens.
Context {A : Type}.

Lemma reshape_square_ok (B m D : nat) (x : list (list (list A))) :
  (1 <= B)%nat -> (1 <= m)%nat ->
  has_shape B (m * m) D x ->
  reshape_square (Z.of_nat m) x = Ok (map (chunks m m) x) /\
  has_shape4 B m m D (map (chunks m m) x).
Proof.
  intros HB Hm Hx. split.
  - unfold reshape_square.
    destruct (has_shape_numel Hx) as (_ & _ & Hnum). destruct Hx as [Lx Hx].
    rewrite Hnum, Lx.
    set (known := Z.of_nat B * Z.of_nat m * Z.of_nat m).
    assert (Hk : 0 < known) by (unfold known; nia).
    assert (Hn : Z.of_nat (B * (m * m) * D) = Z.of_nat D * known)
      by (unfold known; nia).
    rewrite Hn, Z.mod_mul, Z.div_mul by lia.
    destruct (Z.eqb_spec known 0); [lia|]. cbn [orb negb Z.eqb].
    f_equal. apply map_ext_in. intros xb Hxb.
    rewrite Forall_forall in Hx. destruct (Hx xb Hxb) as [Lxb Hfr].
    rewrite <- Nat2Z.inj_mul, !Nat2Z.id.
    rewrite (chunks_concat m m Hfr), map_map.
    rewrite <- (map_id (chunks m m xb)) at 2.
    apply map_ext_in. intros c Hc.
    apply chunks_concat_id.
    + pose proof (chunks_lengths m m xb ltac:(lia)) as Hl.
      rewrite Forall_forall in Hl. apply Hl. exact Hc.
    + pose proof (chunks_Forall m m Hfr) as Hl.
      rewrite Forall_forall in Hl. apply Hl. exact Hc.
  - destruct Hx as [Lx Hx]. split; [rewrite length_map; exact Lx|].
    apply Forall_map. eapply Forall_impl; [|exact Hx]. intros xb [Lxb Hfr].
    split; [apply chunks_length|].
    pose proof (chunks_lengths m m xb ltac:(lia)) as Hl.
    pose proof (chunks_Forall m m Hfr) as Hf.
    apply Forall_forall. intros c Hc. rewrite Forall_forall in Hl, Hf. auto.
Qed.

Lemma reshape_tokens_ok (B W H C : nat) (x : list (list (list (list A)))) :
  (1 <= B)%nat -> (1 <= W)%nat -> (1 <= H)%nat -> (1 <= C)%nat ->
  has_shape4 B W H C x ->
  reshape_tokens x = Ok (map (@concat _) x) /\
  has_shape B (W * H) C (map (@concat _) x).
Proof.
  intros HB HW HH HC Hx.
  destruct (has_shape4_sizes Hx) as (_ & _ & S3); try lia.
  destruct Hx as [Lx Hx]. split.
  - unfold reshape_tokens. rewrite S3, Lx.
    destruct (Z.eqb_spec (Z.of_nat B * Z.of_nat C) 0); [nia | reflexivity].
  - split; [rewrite length_map; exact Lx|].
    apply Forall_map. eapply Forall_impl; [|exact Hx]. intros xb Hxb.
    destruct (has_shape_numel Hxb) as (L1 & F1 & _). split; assumption.
Qed.

Lemma leading_vecs (s : list (list A)) :
  map (@leading A) (map (@Vec A) s) = repeat (Vec []) (length s).
Proof.
  induction s as [|v s IH]; [reflexivity|].
  cbn [map length repeat]. rewrite IH. reflexivity.
Qed.

Lemma leading_rows (T : nat) (x : list (list (list A))) :
  Forall (fun s => length s = T) x ->
  map (@leading A) (map (fun s => Stack (map (@Vec A) s)) x)
  = repeat (Stack (repeat (Vec []) T)) (length x).
Proof.
  induction 1 as [|s x Ls Hx IH]; [reflexivity|].
  cbn [map length repeat]. rewrite IH. f_equal.
  cbn [leading]. rewrite leading_vecs, Ls. reflexivity.
Qed.

Lemma to_tensor_shape (B T C : nat) (x : list (list (list A))) :
  has_shape B T C x ->
  last_dim C (to_tensor x) /\
  leading (to_tensor x) = Stack (repeat (Stack (repeat (Vec []) T)) B).
Proof.
  intros [Lx Hx]. subst B. unfold to_tensor. split.
  - apply last_dim_Stack. apply Forall_map. eapply Forall_impl; [|exact Hx].
    intros s [_ Hs]. apply last_dim_Stack. apply Forall_map.
    eapply Forall_impl; [|exact Hs]. intros v Hv. exact Hv.
  - cbn [leading]. f_equal. apply leading_rows.
    eapply Forall_impl; [|exact Hx]. intros s [Ls _]. exact Ls.
Qed.

Lemma map_tl_shape (B T C : nat) (x : list (list (list A))) :
  has_shape B (S T) C x -> has_shape B T C (map (@tl _) x) /\
  ((1 <= B)%nat -> shape1 (map (@tl _) x) = T).
Proof.
  intros [Lx Hx]. split; [split|].
  - rewrite length_map. exact Lx.
  - apply Forall_map. eapply Forall_impl; [|exact Hx]. intros s [Ls Hs].
    destruct s as [|v s]; [discriminate|]. cbn [tl]. split; [simpl in Ls; lia|].
    inversion Hs. assumption.
  - intros HB. destruct x as [|s x]; [simpl in Lx; lia|].
    destruct (Forall_inv Hx) as [Ls _]. destruct s as [|v s]; [discriminate|].
    simpl in Ls |- *. lia.
Qed.

End Tokens.

Section WithScalar.
Context {A : Type} `{Scalar A}.

(** X16. [get_image_features] with the default selection strategy and a
    downsample ratio of one half, on a hidden state of the vision tower that
    holds the CLS token and a square grid of 2n by 2n patch tokens of
    [vision_config.hidden_size] elements: the CLS token is dropped, and the
    result holds n * n tokens per image, each of [text_config.hidden_size]
    elements. *)
Theorem get_image_features_tokens (ACT2FN : string -> option (A -> A))
  (config : InternS1Config) (p : projector_params) (proj : InternS1MultiModalProjector)
  (vc : InternS1VisionConfig) (xc : TextConfig) (B n D : nat)
  (vision_features : list (list (list A))) :
  vision_config config = Some vc ->
  text_config config = Some xc ->
  downsample_ratio config = (1 # 2)%Q ->
  InternS1MultiModalProjector_init ACT2FN config p = Ok proj ->
  hidden_size vc = Z.of_nat D ->
  (1 <= B)%nat -> (1 <= n)%nat -> (1 <= D)%nat ->
  has_shape B (1 + (2 * n) * (2 * n)) D vision_features ->
  exists t,
    get_image_features proj (downsample_ratio config) vision_features "default" = Ok t /\
    leading t = Stack (repeat (Stack (repeat (Vec []) (n * n))) B) /\
    last_dim (Z.to_nat (text_hidden_size xc)) t.
Proof.
  intros Hvc Hxc Hr Hinit HD HB Hn HD1 Hx. rewrite Hr.
  assert (Hk : downsample_factor (downsample_ratio config) = Ok 4) by (rewrite Hr; reflexivity).
  destruct (@InternS1MultiModalProjector_init_inv A ACT2FN config p proj vc xc 4
              Hvc Hxc Hk Hinit) as (act & _ & _ & _ & ->).
  unfold get_image_features. rewrite String.eqb_refl.
  destruct (map_tl_shape Hx) as [Htl Hs1]. rewrite (Hs1 HB).
  rewrite Nat2Z.inj_mul, Z.sqrt_square by lia.
  destruct (@reshape_square_ok A B (2 * n) D _ HB ltac:(lia) Htl) as [E1 H1].
  rewrite E1. cbn [bind].
  destruct (@pixel_shuffle_half A B n n D _ HB Hn Hn H1) as (y & E2 & H2 & _).
  rewrite E2. cbn [bind].
  destruct (@reshape_tokens_ok A B n n (4 * D) y HB Hn Hn ltac:(lia) H2) as [E3 H3].
  rewrite E3. cbn [bind].
  destruct (to_tensor_shape H3) as [Hld Hlead].
  unfold InternS1MultiModalProjector_forward.
  cbn [mm_layer_norm mm_linear_1 mm_linear_2 mm_act].
  destruct (projector_shape (mk_layer_norm (hidden_size vc * 4) (pp_layer_norm p))
              (mk_linear (hidden_size vc * 4) (text_hidden_size xc) (pp_linear_1 p))
              (mk_linear (text_hidden_size xc) (text_hidden_size xc) (pp_linear_2 p))
              act (to_tensor (map (@concat _) y))) as (t & Et & Lt & Dt & _).
  - reflexivity.
  - reflexivity.
  - cbn [mk_layer_norm normalized_shape]. rewrite HD.
    replace (Z.to_nat (Z.of_nat D * 4)) with (4 * D)%nat by lia. exact Hld.
  - exists t. split; [exact Et|]. split; [rewrite Lt; exact Hlead | exact Dt].
Qed.

End WithScalar.

(** One image of 2 by 2 patches gives one token. *)
Lemma get_image_features_tokens_witness :
  vision_config ex_vision_config = Some (InternS1VisionConfig_init ex_vision_kwargs) /\
  text_config ex_vision_config = Some example_text_config /\
  downsample_ratio ex_vision_config = (1 # 2)%Q /\
  InternS1MultiModalProjector_init ex_ACT2FN ex_vision_config ex_projector_params
    = Ok ex_small_mm_projector /\
  has_shape 1 (1 + (2 * 1) * (2 * 1)) 1 ex_vision_features /\
  exists t,
    get_image_features ex_small_mm_projector (downsample_ratio ex_vision_config)
                       ex_vision_features "default" = Ok t /\
    leading t = Stack (repeat (Stack (repeat (Vec []) (1 * 1))) 1).
Proof.
  assert (H1 : vision_config ex_vision_config
               = Some (InternS1VisionConfig_init ex_vision_kwargs)) by reflexivity.
  assert (H2 : text_config ex_vision_config = Some example_text_config) by reflexivity.
  assert (H3 : downsample_ratio ex_vision_config = (1 # 2)%Q) by reflexivity.
  assert (H4 : InternS1MultiModalProjector_init ex_ACT2FN ex_vision_config ex_projector_params
               = Ok ex_small_mm_projector) by reflexivity.
  assert (H5 : has_shape 1 (1 + (2 * 1) * (2 * 1)) 1 ex_vision_features)
    by (split; [reflexivity | repeat constructor]).
  refine (conj H1 (conj H2 (conj H3 (conj H4 (conj H5 _))))).
  destruct (@get_image_features_tokens Z _ ex_ACT2FN ex_vision_config ex_projector_params
              ex_small_mm_projector (InternS1VisionConfig_init ex_vision_kwargs)
              example_text_config 1 1 1 ex_vision_features H1 H2 H3 H4 eq_refl
              ltac:(lia) ltac:(lia) ltac:(lia) H5) as (t & Et & Lt & _).
  exists t. split; [exact Et | exact Lt].
Defined.

End VisionProps.
(** ** Further properties: the outputs of the time-series model *)

Module OutputsProps.
Import Conv TSConfig Subsampling PadMask Masks Encoder Projector Outputs Examples Examples2.
Import ConvFacts SubsamplingFacts MaskFacts EncoderFacts ModelFacts ProjectorFacts.

Lemma mapM_inv {X Y : Type} (f : X -> result Y) (l : list X) (l' : list Y) :
  mapM f l = Ok l' -> Forall2 (fun a b => f a = Ok b) l l'.
Proof.
  revert l'. induction l as [|a l IH]; intros l' E.
  - simpl in E. injection E as <-. constructor.
  - simpl in E. destruct (f a) as [b|] eqn:Eb; [|discriminate]. cbn [bind] in E.
    destruct (mapM f l) as [bs|]; [|discriminate]. cbn [bind] in E.
    injection E as <-. constructor; [exact Eb | apply IH; reflexivity].
Qed.

Section WithScalar.
Context {A : Type} `{Scalar A}.

Lemma layer_norm_lengths (ln : LayerNorm A) (hs st : list (list (list A))) :
  on_last (LayerNorm_forward1 ln) hs = Ok st ->
  vectors_of_length (normalized_shape ln) st.
Proof.
  unfold on_last. intros E. apply mapM_inv in E.
  induction E as [|s s' hs st Es _ IH]; [constructor|].
  constructor; [|exact IH]. apply mapM_inv in Es. clear IH.
  induction Es as [|v v' s s' Ev _ IH]; [constructor|].
  constructor; [|exact IH]. unfold LayerNorm_forward1 in Ev.
  destruct (Nat.eqb_spec (length v) (normalized_shape ln)) as [Hl | Hl]; [|discriminate].
  injection Ev as <-. rewrite imap_length. exact Hl.
Qed.

Lemma run_layers_states_inv (tr : bool) (r : rng) (am : option mask4) (ln : LayerNorm A)
  (layers : list encoder_layer) (idx : nat) (hs h : list (list (list A)))
  (acc states : list (list (list (list A)))) :
  run_layers_states tr r am ln idx layers hs acc = Ok (h, states) ->
  h = fst (run_layers tr r am idx layers hs) /\
  exists new, states = acc ++ new /\ length new = length layers /\
    Forall (vectors_of_length (normalized_shape ln)) new.
Proof.
  revert idx hs acc. induction layers as [|l ls IH]; intros idx hs acc E.
  - simpl in E. injection E as <- <-. split; [reflexivity|].
    exists []. rewrite app_nil_r. repeat split. constructor.
  - cbn [run_layers_states] in E.
    destruct (on_last (LayerNorm_forward1 ln) hs) as [st|] eqn:Est; [|discriminate].
    cbn [bind] in E. apply IH in E. destruct E as (Eh & new & Es & Hlen & Hall).
    split.
    + rewrite Eh. cbn [run_layers].
      destruct (tr && layer_dropped r idx); [reflexivity|].
      destruct (run_layers tr r am (S idx) ls (l hs am)). reflexivity.
    + exists (st :: new). rewrite Es, <- app_assoc. split; [reflexivity|].
      split; [simpl; lia|]. constructor; [|exact Hall].
      apply (layer_norm_lengths _ _ Est).
Qed.

(** The flag [return_dict] only chooses the container of the encoder's
    result. *)
Lemma encoder_outputs_container (self : @InternTimeSeriesEncoder A) (r : rng)
  (x : list (list (list A))) (ohs : bool) :
  (exists e, forall rd, InternTimeSeriesEncoder_forward_outputs self r x ohs rd = Raise e) \/
  (exists h s, forall rd, InternTimeSeriesEncoder_forward_outputs self r x ohs rd
                          = Ok (if rd then BaseModelOutput h s else EncoderTuple h s)).
Proof.
  unfold InternTimeSeriesEncoder_forward_outputs.
  destruct (encoder_inputs_embeds self x) as [e|err]; [|left; exists err; reflexivity].
  cbn [bind].
  destruct (build_attention_mask self (length e) (shape1 e)) as [am|err];
    [|left; exists err; reflexivity].
  cbn [bind].
  match goal with
  | |- context [bind ?c _] => destruct c as [[hs st]|err]
  end; [|left; exists err; reflexivity].
  cbn [bind].
  destruct (on_last (LayerNorm_forward1 (layer_norm self)) hs) as [h1|err];
    [|left; exists err; reflexivity].
  cbn [bind].
  destruct (on_last (Linear_forward1 (adapt_out self)) h1) as [h2|err];
    [|left; exists err; reflexivity].
  cbn [bind]. right. eexists. eexists. intros [|]; reflexivity.
Qed.

(** Without hidden states the encoder returns what
    [InternTimeSeriesEncoder_forward] computes. *)
Lemma encoder_outputs_plain (self : @InternTimeSeriesEncoder A) (r : rng)
  (x : list (list (list A))) (rd : bool) :
  InternTimeSeriesEncoder_forward_outputs self r x false rd
  = bind (InternTimeSeriesEncoder_forward self r x)
         (fun p => Ok (if rd then BaseModelOutput (fst p) None else EncoderTuple (fst p) None)).
Proof.
  unfold InternTimeSeriesEncoder_forward_outputs, InternTimeSeriesEncoder_forward.
  destruct (encoder_inputs_embeds self x) as [e|]; [|reflexivity]. cbn [bind].
  destruct (build_attention_mask self (length e) (shape1 e)) as [am|]; [|reflexivity].
  cbn [bind fst].
  destruct (run_layers (training self) r am 0 (enc_layers self)
              (dropout self r (add_positions self e))) as [hs tr]. cbn [fst].
  destruct (on_last (LayerNorm_forward1 (layer_norm self)) hs) as [h1|]; [|reflexivity].
  cbn [bind].
  destruct (on_last (Linear_forward1 (adapt_out self)) h1) as [h2|]; [|reflexivity].
  cbn [bind fst]. destruct rd; reflexivity.
Qed.

(** With [return_dict] and without hidden states the model returns the
    output of [InternTimeSeriesModel_forward]. *)
Lemma model_outputs_plain (self : @InternTimeSeriesModel A) (r : rng)
  (s : option (list (list (list A)))) (l : option (list Z))
  (e : option (list (list (list A)))) :
  InternTimeSeriesModel_forward_outputs self r s l false true e
  = bind (InternTimeSeriesModel_forward self r s l true e)
         (fun o => match o with
                   | TimeSeriesModelOutput h m =>
                       Ok (ModelOutput {| out_last_hidden_state := h;
                                          out_hidden_states := None;
                                          out_ts_pad_mask := m |})
                   end).
Proof.
  unfold InternTimeSeriesModel_forward_outputs, InternTimeSeriesModel_forward,
    model_input_embeds.
  assert (Hcore : forall (c : result (list (list (list A)) * option (list Z)))
      (k1 : list (list (list A)) * option (list Z) -> result (@model_outputs A))
      (k2 : list (list (list A)) * option (list Z) -> result (@ts_model_output A)),
    (forall ie xl, k1 (ie, xl)
       = bind (k2 (ie, xl))
           (fun o => match o with
                     | TimeSeriesModelOutput h m =>
                         Ok (ModelOutput {| out_last_hidden_state := h;
                                            out_hidden_states := None;
                                            out_ts_pad_mask := m |})
                       end)) ->
    bind c k1 = bind (bind c k2)
           (fun o => match o with
                     | TimeSeriesModelOutput h m =>
                         Ok (ModelOutput {| out_last_hidden_state := h;
                                            out_hidden_states := None;
                                            out_ts_pad_mask := m |})
                       end)).
  { intros [[ie xl]|err] k1 k2 Hk; [apply Hk | reflexivity]. }
  assert (Hstep : forall ie xl,
    bind (InternTimeSeriesEncoder_forward_outputs (encoder self) r ie false true)
         (fun encoder_outputs =>
          match xl with
          | Some x_lens0 =>
              if negb (forallb (fun l0 => 0 <? l0) (map halve_len x_lens0))
              then Raise (AssertionError "The length of time_series_embeds is so small.")
              else bind (make_pad_mask (map halve_len x_lens0)) (fun src_key_padding_mask =>
                   bind (get_last_hidden_state encoder_outputs) (fun last_hidden_state =>
                   if negb true
                   then Ok (ModelTuple last_hidden_state
                              match encoder_outputs with
                              | EncoderTuple _ s0 => s0
                              | BaseModelOutput _ s0 => s0
                              end)
                   else bind (get_hidden_states encoder_outputs) (fun hidden_states =>
                        Ok (ModelOutput {| out_last_hidden_state := last_hidden_state;
                                           out_hidden_states := hidden_states;
                                           out_ts_pad_mask := src_key_padding_mask |}))))
          | None => Raise (TypeError "unsupported operand type(s) for +: 'NoneType' and 'int'")
          end)
    = bind (bind (InternTimeSeriesEncoder_forward (encoder self) r ie) (fun x1 =>
           let '(last_hidden_state, _) := x1 in
           match xl with
           | Some x_lens0 =>
               if negb (forallb (fun l0 => 0 <? l0) (map halve_len x_lens0))
               then Raise (AssertionError "The length of time_series_embeds is so small.")
               else bind (make_pad_mask (map halve_len x_lens0)) (fun src_key_padding_mask =>
                    if negb true
                    then Raise (AttributeError "'tuple' object has no attribute 'last_hidden_state'")
                    else Ok (TimeSeriesModelOutput last_hidden_state src_key_padding_mask))
           | None => Raise (TypeError "unsupported operand type(s) for +: 'NoneType' and 'int'")
           end))
        (fun o => match o with
                  | TimeSeriesModelOutput h m =>
                      Ok (ModelOutput {| out_last_hidden_state := h;
                                         out_hidden_states := None;
                                         out_ts_pad_mask := m |})
                  end)).
  { intros ie xl. rewrite encoder_outputs_plain.
    destruct (InternTimeSeriesEncoder_forward (encoder self) r ie) as [[h tr]|]; [|reflexivity].
    cbn [bind fst]. destruct xl as [xl|]; [|reflexivity].
    destruct (negb (forallb (fun l0 => 0 <? l0) (map halve_len xl))); [reflexivity|].
    destruct (make_pad_mask (map halve_len xl)) as [m|]; reflexivity. }
  destruct s as [s|], e as [e|]; try reflexivity;
    (apply Hcore; intros ie xl; apply Hstep).
Qed.

Lemma encoder_outputs_states (self : @InternTimeSeriesEncoder A) (r : rng)
  (x : list (list (list A))) (rd : bool) (o : encoder_outputs) :
  InternTimeSeriesEncoder_forward_outputs self r x true rd = Ok o ->
  exists h new,
    o = (if rd then BaseModelOutput h (Some (new ++ [h]))
         else EncoderTuple h (Some (new ++ [h]))) /\
    length new = length (enc_layers self) /\
    Forall (vectors_of_length (normalized_shape (layer_norm self))) new /\
    forall rd', InternTimeSeriesEncoder_forward_outputs self r x false rd'
                = Ok (if rd' then BaseModelOutput h None else EncoderTuple h None).
Proof.
  unfold InternTimeSeriesEncoder_forward_outputs.
  destruct (encoder_inputs_embeds self x) as [e|]; [|discriminate]. cbn [bind].
  destruct (build_attention_mask self (length e) (shape1 e)) as [am|]; [|discriminate].
  cbn [bind].
  destruct (run_layers_states (training self) r am (layer_norm self) 0 (enc_layers self)
              (dropout self r (add_positions self e)) []) as [[hs st]|] eqn:Erun;
    [|discriminate].
  cbn [bind].
  destruct (run_layers_states_inv _ _ _ _ _ _ _ _ Erun) as (Eh & new & Es & Hlen & Hall).
  cbn [app] in Es. subst st. rewrite <- Eh.
  destruct (on_last (LayerNorm_forward1 (layer_norm self)) hs) as [h1|]; [|discriminate].
  cbn [bind].
  destruct (on_last (Linear_forward1 (adapt_out self)) h1) as [h2|]; [|discriminate].
  cbn [bind]. intros E. exists h2, new.
  split; [destruct rd; cbn [negb] in E; injection E as <-; reflexivity|].
  split; [exact Hlen|]. split; [exact Hall|]. intros [|]; reflexivity.
Qed.

Lemma model_states_inv (self : @InternTimeSeriesModel A) (r : rng)
  (s : option (list (list (list A)))) (l : option (list Z))
  (e : option (list (list (list A)))) (o : ts_model_outputs) :
  InternTimeSeriesModel_forward_outputs self r s l true true e = Ok (ModelOutput o) ->
  exists new,
    out_hidden_states o = Some (new ++ [out_last_hidden_state o]) /\
    length new = length (enc_layers (encoder self)) /\
    Forall (vectors_of_length (normalized_shape (layer_norm (encoder self)))) new /\
    InternTimeSeriesModel_forward_outputs self r s l false true e
    = Ok (ModelOutput {| out_last_hidden_state := out_last_hidden_state o;
                         out_hidden_states := None;
                         out_ts_pad_mask := out_ts_pad_mask o |}).
Proof.
  unfold InternTimeSeriesModel_forward_outputs.
  destruct (model_input_embeds self s l e) as [[ie xl]|]; [|discriminate]. cbn [bind].
  destruct (InternTimeSeriesEncoder_forward_outputs (encoder self) r ie true true)
    as [eo|] eqn:Eenc; [|discriminate].
  destruct (encoder_outputs_states _ _ _ _ Eenc) as (h & new & -> & Hlen & Hall & Hplain).
  rewrite (Hplain true). cbn [bind].
  destruct xl as [xl|]; [|discriminate].
  destruct (negb (forallb (fun l0 => 0 <? l0) (map halve_len xl))); [discriminate|].
  destruct (make_pad_mask (map halve_len xl)) as [m|]; [|discriminate].
  cbn [bind get_last_hidden_state get_hidden_states negb]. intros E. injection E as <-.
  exists new. cbn [out_hidden_states out_last_hidden_state out_ts_pad_mask].
  repeat split; assumption.
Qed.

(** X17. [InternTimeSeriesModel.forward] never returns with
    return_dict=False: the encoder then hands back a plain tuple, and reading
    its attribute [last_hidden_state] fails. A call that returns with
    return_dict=True raises an AttributeError with return_dict=False. *)
Theorem forward_without_return_dict (self : @InternTimeSeriesModel A) (r : rng)
  (s : option (list (list (list A)))) (l : option (list Z)) (ohs : bool)
  (e : option (list (list (list A)))) :
  (forall out, InternTimeSeriesModel_forward_outputs self r s l ohs false e <> Ok out) /\
  (forall out, InternTimeSeriesModel_forward_outputs self r s l ohs true e = Ok out ->
     exists msg, InternTimeSeriesModel_forward_outputs self r s l ohs false e
                 = Raise (AttributeError msg)).
Proof.
  unfold InternTimeSeriesModel_forward_outputs.
  destruct (model_input_embeds self s l e) as [[ie xl]|err];
    [|split; intros out; discriminate].
  cbn [bind].
  destruct (encoder_outputs_container (encoder self) r ie ohs)
    as [(e0 & He) | (h & st & He)]; rewrite (He false), (He true); cbn [bind];
    [split; intros out; discriminate|].
  destruct xl as [xl|]; [|split; intros out; discriminate].
  destruct (negb (forallb (fun l0 => 0 <? l0) (map halve_len xl)));
    [split; intros out; discriminate|].
  destruct (make_pad_mask (map halve_len xl)) as [m|]; [|split; intros out; discriminate].
  cbn [bind get_last_hidden_state]. split; [intros out; discriminate|].
  intros out _. eexists. reflexivity.
Qed.

(** X18. With output_hidden_states the model returns one hidden state per
    encoder layer, skipped or not, plus one: the normalised input of every
    layer, whose vectors have d_model elements, and last the final hidden
    state itself. Asking for the hidden states changes neither the last
    hidden state nor the padding mask. *)
Theorem model_hidden_states (self : @InternTimeSeriesModel A) (r : rng)
  (s : option (list (list (list A)))) (l : option (list Z))
  (e : option (list (list (list A)))) (o : ts_model_outputs) :
  InternTimeSeriesModel_forward_outputs self r s l true true e = Ok (ModelOutput o) ->
  exists states,
    out_hidden_states o = Some states /\
    length states = S (length (enc_layers (encoder self))) /\
    last states [] = out_last_hidden_state o /\
    Forall (vectors_of_length (normalized_shape (layer_norm (encoder self))))
           (removelast states) /\
    InternTimeSeriesModel_forward_outputs self r s l false true e
    = Ok (ModelOutput {| out_last_hidden_state := out_last_hidden_state o;
                         out_hidden_states := None;
                         out_ts_pad_mask := out_ts_pad_mask o |}).
Proof.
  intros E. destruct (model_states_inv _ _ _ _ _ E) as (new & Hs & Hlen & Hall & Hplain).
  exists (new ++ [out_last_hidden_state o]).
  split; [exact Hs|]. split; [rewrite length_app; simpl; lia|].
  split; [apply last_last|]. split; [rewrite removelast_last; exact Hall | exact Hplain].
Qed.

Lemma tuple_index_in_range {X : Type} (t : list X) (k : Z) (d : X) :
  0 <= k < Z.of_nat (length t) -> tuple_index t k = Ok (nth (Z.to_nat k) t d).
Proof.
  intros Hk. unfold tuple_index.
  destruct (Z.ltb_spec k 0); [lia|].
  destruct (Z.ltb_spec k 0); [lia|].
  destruct (Z.leb_spec (Z.of_nat (length t)) k); [lia|]. cbn [orb].
  rewrite (nth_error_nth' t d) by lia. reflexivity.
Qed.

Lemma tuple_index_out_of_range {X : Type} (t : list X) (k : Z) :
  k < - Z.of_nat (length t) \/ Z.of_nat (length t) <= k ->
  exists msg, tuple_index t k = Raise (IndexError msg).
Proof.
  intros Hk. unfold tuple_index.
  destruct (Z.ltb_spec k 0).
  - destruct (Z.ltb_spec (k + Z.of_nat (length t)) 0); [|lia]. eexists. reflexivity.
  - destruct (Z.ltb_spec k 0); [lia|].
    destruct (Z.leb_spec (Z.of_nat (length t)) k); [|lia]. eexists. reflexivity.
Qed.

(** X19. [get_time_series_features] indexes the hidden states with
    [select_layer] unless it is -1. With L encoder layers there are L + 1 of
    them: an index below -(L + 1) or above L raises an IndexError once the
    time-series model has returned, and the index L selects the last hidden
    state, so that it gives the features of the default -1. *)
Theorem get_time_series_features_select_layer (model : @InternTimeSeriesModel A)
  (proj : InternTSProjector) (r : rng) (x : list (list (list A))) (l : option (list Z)) :
  let L := Z.of_nat (length (enc_layers (encoder model))) in
  (forall out, get_time_series_features L model proj r x l = Ok out ->
     get_time_series_features (-1) model proj r x l = Ok out) /\
  (forall k o,
     InternTimeSeriesModel_forward_outputs model r (Some x) l true true None
       = Ok (ModelOutput o) ->
     k < - (L + 1) \/ L < k ->
     exists msg, get_time_series_features k model proj r x l = Raise (IndexError msg)).
Proof.
  intros L. split.
  - intros out. unfold get_time_series_features.
    destruct (Z.eqb_spec L (-1)); [lia|]. change (-1 =? -1) with true. cbv iota.
    destruct (InternTimeSeriesModel_forward_outputs model r (Some x) l true true None)
      as [[h0 rest|o]|] eqn:E; [discriminate | | discriminate].
    destruct (model_states_inv _ _ _ _ _ E) as (new & Hs & Hlen & _ & Hplain).
    rewrite Hplain. cbn [bind as_model_output]. rewrite Hs.
    cbn [out_last_hidden_state out_ts_pad_mask].
    rewrite (@tuple_index_in_range _ _ _ []) by (rewrite length_app; simpl; lia).
    unfold L. rewrite Nat2Z.id, <- Hlen, nth_middle. exact (fun e => e).
  - intros k o E Hk. unfold get_time_series_features.
    destruct (Z.eqb_spec k (-1)); [lia|]. rewrite E. cbn [bind as_model_output].
    destruct (model_states_inv _ _ _ _ _ E) as (new & Hs & Hlen & _ & _).
    rewrite Hs.
    destruct (@tuple_index_out_of_range _ (new ++ [out_last_hidden_state o]) k)
      as (msg & Em).
    { rewrite length_app. simpl. lia. }
    rewrite Em. eexists. reflexivity.
Qed.

Lemma layer_norm_rejects (ln : LayerNorm A) (n : nat) (st : list (list (list A))) :
  normalized_shape ln <> n ->
  vectors_of_length n st ->
  concat st <> [] ->
  exists msg, map_last (LayerNorm_forward1 ln) (to_tensor st) = Raise (RuntimeError msg).
Proof.
  intros Hne Hst Hnonempty. unfold to_tensor. rewrite map_last_Stack.
  induction Hst as [|s st Hs Hst IH]; [contradiction|].
  cbn [map mapM]. rewrite map_last_Stack.
  destruct s as [|v s].
  - cbn [map mapM bind]. cbn [concat app] in Hnonempty.
    destruct (IH Hnonempty) as (msg & Em).
    destruct (mapM (map_last (LayerNorm_forward1 ln))
                (map (fun s0 => Stack (map (@Vec A) s0)) st)) as [ys|err];
      [discriminate|].
    cbn [bind] in Em |- *. exists msg. exact Em.
  - cbn [map mapM map_last]. unfold LayerNorm_forward1 at 1.
    pose proof (Forall_inv Hs) as Hv. cbv beta in Hv.
    destruct (Nat.eqb_spec (length v) (normalized_shape ln)); [lia|].
    cbn [bind]. eexists. reflexivity.
Qed.

(** X20. A [select_layer] that picks the input of an encoder layer hands
    the projector vectors of d_model elements. The projector normalises
    vectors of [ts_hidden_dim] elements, so unless the two sizes agree the
    call raises a RuntimeError whenever the selected state holds a frame. *)
Theorem get_time_series_features_intermediate (k : Z) (model : @InternTimeSeriesModel A)
  (proj : InternTSProjector) (r : rng) (x : list (list (list A))) (l : option (list Z))
  (o : ts_model_outputs) (states : list (list (list (list A)))) :
  InternTimeSeriesModel_forward_outputs model r (Some x) l true true None
    = Ok (ModelOutput o) ->
  out_hidden_states o = Some states ->
  0 <= k < Z.of_nat (length (enc_layers (encoder model))) ->
  normalized_shape (ts_layer_norm proj) <> normalized_shape (layer_norm (encoder model)) ->
  concat (nth (Z.to_nat k) states []) <> [] ->
  exists msg, get_time_series_features k model proj r x l = Raise (RuntimeError msg).
Proof.
  intros E Hs Hk Hne Hframe. unfold get_time_series_features.
  destruct (Z.eqb_spec k (-1)); [lia|]. rewrite E. cbn [bind as_model_output]. rewrite Hs.
  destruct (model_states_inv _ _ _ _ _ E) as (new & Hs' & Hlen & Hall & _).
  rewrite Hs in Hs'. injection Hs' as ->.
  rewrite (@tuple_index_in_range _ _ _ []) by (rewrite length_app; simpl; lia).
  cbn [bind].
  rewrite app_nth1 in Hframe |- * by lia.
  assert (Hst : vectors_of_length (normalized_shape (layer_norm (encoder model)))
                  (nth (Z.to_nat k) new [])).
  { rewrite Forall_forall in Hall. apply Hall. apply nth_In. lia. }
  unfold InternTSProjector_forward.
  destruct (layer_norm_rejects _ Hne Hst Hframe) as (msg & Em).
  rewrite Em. eexists. reflexivity.
Qed.

End WithScalar.

Lemma ex_ts_outputs_eq :
  InternTimeSeriesModel_forward_outputs ex_model ex_rng (Some ex_signal) (Some ex_x_lens)
    true true None = Ok (ModelOutput ex_ts_outputs).
Proof. vm_compute. reflexivity. Qed.

(** Two layers: three hidden states. *)
Lemma model_hidden_states_witness :
  InternTimeSeriesModel_forward_outputs ex_model ex_rng (Some ex_signal) (Some ex_x_lens)
    true true None = Ok (ModelOutput ex_ts_outputs) /\
  exists states,
    out_hidden_states ex_ts_outputs = Some states /\
    length states = S (length (enc_layers (encoder ex_model))).
Proof.
  split; [exact ex_ts_outputs_eq|].
  destruct (@model_hidden_states Z _ ex_model ex_rng (Some ex_signal) (Some ex_x_lens) None
              ex_ts_outputs ex_ts_outputs_eq) as (states & Hs & Hlen & _).
  exists states. split; [exact Hs | exact Hlen].
Defined.

(** d_model is 4, the projector expects 2 elements. *)
Lemma get_time_series_features_intermediate_witness :
  out_hidden_states ex_ts_outputs = Some ex_states /\
  0 <= 0 < Z.of_nat (length (enc_layers (encoder ex_model))) /\
  normalized_shape (ts_layer_norm ex_ts_projector)
    <> normalized_shape (layer_norm (encoder ex_model)) /\
  concat (nth (Z.to_nat 0) ex_states []) <> [] /\
  exists msg, get_time_series_features 0 ex_model ex_ts_projector ex_rng ex_signal
                (Some ex_x_lens) = Raise (RuntimeError msg).
Proof.
  assert (H1 : out_hidden_states ex_ts_outputs = Some ex_states) by reflexivity.
  assert (H2 : 0 <= 0 < Z.of_nat (length (enc_layers (encoder ex_model))))
    by (vm_compute; split; [discriminate | reflexivity]).
  assert (H3 : normalized_shape (ts_layer_norm ex_ts_projector)
               <> normalized_shape (layer_norm (encoder ex_model)))
    by (apply Nat.eqb_neq; reflexivity).
  assert (H4 : concat (nth (Z.to_nat 0) ex_states []) <> []) by (vm_compute; discriminate).
  refine (conj H1 (conj H2 (conj H3 (conj H4 _)))).
  exact (@get_time_series_features_intermediate Z _ 0 ex_model ex_ts_projector ex_rng
           ex_signal (Some ex_x_lens) ex_ts_outputs ex_states ex_ts_outputs_eq H1 H2 H3 H4).
Defined.

End OutputsProps.
(** ** The causal mask with cached keys *)

Module MaskProps.
Import Masks MaskFacts.

(** The matrix of [_make_causal_mask] with [p] cached keys: every row of the
    square causal matrix is preceded by [p] zeros. *)
Lemma _make_causal_mask_past (bsz n : nat) (finfo_min pkv : Z) :
  0 <= pkv ->
  _make_causal_mask bsz n finfo_min pkv =
  repeat [map (fun row => repeat 0 (Z.to_nat pkv) ++ row)
              (tabulate (fun i j => if (j <=? i)%nat then 0 else finfo_min) n)] bsz.
Proof.
  intros Hp.
  pose proof (_make_causal_mask_tabulate 1 n finfo_min) as H0.
  unfold _make_causal_mask in H0 |- *. simpl (0 <? 0) in H0. cbv iota in H0.
  cbn [repeat] in H0. injection H0 as H0. rewrite H0.
  destruct (Z.ltb_spec 0 pkv) as [Hpos | Hzero]; [reflexivity|].
  replace pkv with 0 by lia. simpl. f_equal. f_equal.
  symmetry. apply map_id.
Qed.

(** X21. For a dtype whose [finfo.min] is a single-precision number (float16,
    bfloat16, float32) and [past_key_values_length >= 0] cached keys,
    [_make_causal_mask] returns a (bsz, 1, tgt_len, tgt_len + past) tensor,
    the same for every batch element; the query at position i may attend to
    every cached key and to the keys up to its own: entry (i, j) is 0 for
    j <= i + past and [finfo.min] beyond. *)
Theorem causal_mask_with_cached_keys (bsz n : nat) (finfo_min pkv : Z) :
  - float32_max <= finfo_min <= float32_max ->
  0 <= pkv ->
  let M := _make_causal_mask bsz n finfo_min pkv in
  let p := Z.to_nat pkv in
  length M = bsz /\
  forall b, (b < bsz)%nat ->
    exists m, nth b M [] = [m] /\ length m = n /\
      forall i, (i < n)%nat ->
        length (nth i m []) = (n + p)%nat /\
        forall j d, (j < n + p)%nat ->
          nth j (nth i m []) d = if (j <=? i + p)%nat then 0 else finfo_min.
Proof.
  intros _ Hp M p. unfold M. rewrite (_make_causal_mask_past bsz n finfo_min Hp). fold p.
  split; [apply repeat_length|].
  intros b Hb. eexists. split; [apply nth_repeat_lt; exact Hb|].
  split; [rewrite length_map; apply tabulate_length|].
  intros i Hi.
  set (T := tabulate (fun i j => if (j <=? i)%nat then 0 else finfo_min) n).
  assert (Hrow : nth i (map (fun row => repeat 0 p ++ row) T) [] = repeat 0 p ++ nth i T []).
  { rewrite (nth_indep _ [] ((fun row => repeat 0 p ++ row) []))
      by (rewrite length_map; unfold T; rewrite tabulate_length; exact Hi).
    apply (map_nth (fun row => repeat 0 p ++ row)). }
  rewrite Hrow. split.
  - rewrite length_app, repeat_length. unfold T. rewrite tabulate_row_length by exact Hi. lia.
  - intros j d Hj. destruct (Nat.lt_ge_cases j p) as [Hlt | Hge].
    + rewrite app_nth1 by (rewrite repeat_length; exact Hlt).
      rewrite nth_repeat_lt by exact Hlt.
      destruct (Nat.leb_spec j (i + p)); [reflexivity | lia].
    + rewrite app_nth2 by (rewrite repeat_length; exact Hge).
      rewrite repeat_length. unfold T. rewrite nth_tabulate by lia.
      destruct (Nat.leb_spec (j - p) i), (Nat.leb_spec j (i + p)); try reflexivity; lia.
Qed.

Lemma causal_mask_with_cached_keys_witness :
  - float32_max <= -65504 <= float32_max /\
  let M := _make_causal_mask 1 2 (-65504) 1 in
  length M = 1%nat /\
  forall b, (b < 1)%nat ->
    exists m, nth b M [] = [m] /\ length m = 2%nat /\
      forall i, (i < 2)%nat ->
        length (nth i m []) = 3%nat /\
        forall j d, (j < 3)%nat ->
          nth j (nth i m []) d = if (j <=? i + 1)%nat then 0 else -65504.
Proof.
  assert (Hf : - float32_max <= -65504 <= float32_max) by (unfold float32_max; lia).
  split; [exact Hf|].
  apply (@causal_mask_with_cached_keys 1 2 (-65504) 1 Hf). lia.
Defined.

End MaskProps.
(** ** The load-balancing loss: balanced routing and attention masks *)

Module LossProps.
Import Stdlib.Reals.Reals Stdlib.micromega.Lra.
Import Loss MaskFacts LossFacts.
Local Open Scope R_scope.

(** The value the function computes without attention mask, slot by slot
    and expert by expert. *)
Lemma loss_without_mask (layers : list (list (list R))) (E K : nat) :
  Forall (fun row => length row = E) (concat layers) ->
  layers <> [] -> (K <= E)%nat ->
  load_balancing_loss_func (GateTuple layers) E K None =
  Ok (Scalar (bigsum K (fun k => bigsum E (fun e =>
      (rsum (map (fun row => if (e =? nth k (selected K row) 0)%nat then 1 else 0)
                 (concat layers)) / INR (length (concat layers)))
      * (rsum (map (fun row => nth e (softmax_row row) 0) (concat layers))
           / INR (length (concat layers))))) * INR E)).
Proof.
  intros Hrows Hne HK.
  destruct layers as [|l0 ls]; [congruence|].
  unfold load_balancing_loss_func.
  set (logits := concat (l0 :: ls)) in *.
  replace (forallb (fun row => (length row =? E)%nat) logits) with true.
  2:{ symmetry. apply forallb_forall. rewrite Forall_forall in Hrows.
      intros row Hrow. apply Nat.eqb_eq. now apply Hrows. }
  simpl negb. cbv iota.
  rewrite (@mapM_map_ok _ _ _ (topk K) softmax_row (selected K) logits).
  2:{ intros row Hrow. apply topk_ok. rewrite Forall_forall in Hrows.
      rewrite (Hrows row Hrow). lia. }
  simpl bind.
  rewrite (@mapM_map_ok _ _ _ (mapM (one_hot E)) (selected K)
             (fun row => map (one_hot_row E) (selected K row)) logits).
  2:{ intros row Hrow. apply mapM_all_ok. intros i Hi. apply one_hot_ok.
      rewrite Forall_forall in Hrows.
      destruct (@selected_props K row) as (_ & _ & Hlt); [rewrite (Hrows row Hrow); lia|].
      rewrite <- (Hrows row Hrow). apply Hlt. exact Hi. }
  simpl bind. f_equal. f_equal.
  rewrite (overall_loss_sum Hrows) by lia. reflexivity.
Qed.

Lemma rsum_repeat (x : R) (n : nat) : rsum (repeat x n) = INR n * x.
Proof.
  induction n as [|n IH]; [simpl; lra|].
  cbn [repeat rsum fold_right]. fold (rsum (repeat x n)). rewrite IH, S_INR. lra.
Qed.

(** Equal logits give every expert the probability 1 / num_experts. *)
Lemma softmax_uniform (c : R) (E e : nat) :
  (e < E)%nat -> nth e (softmax_row (repeat c E)) 0 = / INR E.
Proof.
  intros He. unfold softmax_row. rewrite !map_repeat, rsum_repeat.
  rewrite nth_repeat_lt by exact He.
  assert (Hexp : exp c <> 0) by (pose proof (exp_pos c); lra).
  assert (HE : INR E <> 0) by (apply not_0_INR; lia).
  field. split; assumption.
Qed.

Lemma bigsum_indicator (E i : nat) :
  (i < E)%nat -> bigsum E (fun e => if (e =? i)%nat then 1 else 0) = 1.
Proof.
  revert i. induction E as [|E IH]; intros i Hi; [lia|].
  rewrite bigsum_S. destruct i as [|i].
  - cbn [Nat.eqb]. unfold bigsum. rewrite rsum_map_zero. lra.
  - cbn [Nat.eqb]. rewrite IH by lia. lra.
Qed.

Lemma mapM_length {X Y : Type} (f : X -> result Y) (l : list X) (l' : list Y) :
  mapM f l = Ok l' -> length l' = length l.
Proof.
  revert l'. induction l as [|a l IH]; intros l' E.
  - simpl in E. injection E as <-. reflexivity.
  - simpl in E. destruct (f a) as [b|]; [|discriminate]. cbn [bind] in E.
    destruct (mapM f l) as [bs|]; [|discriminate]. cbn [bind] in E.
    injection E as <-. simpl. f_equal. apply IH. reflexivity.
Qed.

Lemma concat_repeat_repeat {X : Type} (x : X) (a b : nat) :
  concat (repeat (repeat x a) b) = repeat x (b * a).
Proof.
  induction b as [|b IH]; [reflexivity|].
  cbn [repeat concat Nat.mul]. rewrite IH, repeat_app. reflexivity.
Qed.

(** With the weight 1 on every row the weighted mean is the mean. *)
Lemma col_weighted_mean_ones (E : nat) (m : list (list R)) :
  col_weighted_mean E (repeat 1 (length m)) m = col_mean E m.
Proof.
  unfold col_weighted_mean, col_mean. apply map_ext. intros e.
  rewrite rsum_repeat. f_equal; [|lra].
  induction m as [|row m IH]; [reflexivity|].
  cbn [length repeat combine map rsum fold_right fst snd].
  fold (rsum (map (fun p => nth e (fst p) 0 * snd p) (combine m (repeat 1 (length m))))).
  fold (rsum (map (fun row => nth e row 0) m)).
  rewrite IH. lra.
Qed.

(** X22. Balanced routing. When every token gives all [num_experts] experts
    the same logit, [load_balancing_loss_func] without attention mask returns
    exactly [top_k], whatever the number of layers and tokens. *)
Theorem balanced_routing_loss_is_top_k (layers : list (list (list R))) (E K : nat) :
  Forall (fun row => exists c, row = repeat c E) (concat layers) ->
  concat layers <> [] ->
  (1 <= K <= E)%nat ->
  load_balancing_loss_func (GateTuple layers) E K None = Ok (Scalar (INR K)).
Proof.
  intros Huni Hne HK.
  assert (Hrows : Forall (fun row => length row = E) (concat layers)).
  { eapply Forall_impl; [|exact Huni]. intros row [c ->]. apply repeat_length. }
  assert (Hl : layers <> []) by (intros ->; apply Hne; reflexivity).
  rewrite (loss_without_mask Hrows Hl) by lia. f_equal. f_equal.
  set (logits := concat layers) in *.
  assert (HN : INR (length logits) <> 0).
  { apply not_0_INR. destruct logits; [congruence | discriminate]. }
  assert (HE : INR E <> 0) by (apply not_0_INR; lia).
  rewrite (@bigsum_ext K _ (fun _ => / INR E)).
  { unfold bigsum. rewrite rsum_map_const, length_seq. field. exact HE. }
  intros k Hk.
  rewrite (@bigsum_ext E _
             (fun e => rsum (map (fun row => if (e =? nth k (selected K row) 0)%nat
                                             then 1 else 0) logits)
                       * (/ INR (length logits) * / INR E))).
  2:{ intros e He. unfold Rdiv. rewrite Rmult_assoc. f_equal.
      rewrite (@rsum_map_ext_in _ (fun row => nth e (softmax_row row) 0)
                 (fun _ => / INR E) logits).
      - rewrite rsum_map_const. field. split; assumption.
      - intros row Hrow. rewrite Forall_forall in Huni.
        destruct (Huni row Hrow) as [c ->]. apply softmax_uniform. exact He. }
  unfold bigsum. rewrite rsum_map_scal_r, rsum_exchange.
  rewrite (@rsum_map_ext_in _ _ (fun _ => 1) logits).
  { rewrite rsum_map_const. field. split; assumption. }
  intros row Hrow. apply (@bigsum_indicator E (nth k (selected K row) 0%nat)).
  rewrite Forall_forall in Hrows.
  destruct (@selected_props K row) as (Hsl & _ & Hlt); [rewrite (Hrows row Hrow); lia|].
  rewrite <- (Hrows row Hrow). apply Hlt. apply nth_In. rewrite Hsl. exact Hk.
Qed.

(** X23. An attention mask made of ones changes nothing: for a batch of
    [bs >= 1] sequences of [sl >= 1] tokens and gate logits that hold a whole
    number of layers of [bs * sl] tokens, the function returns with the mask
    what it returns without one, errors included. *)
Theorem all_ones_attention_mask_is_no_mask (layers : list (list (list R)))
  (E K bs sl nl : nat) :
  (1 <= bs)%nat -> (1 <= sl)%nat ->
  length (concat layers) = (nl * (bs * sl))%nat ->
  load_balancing_loss_func (GateTuple layers) E K (Some (repeat (repeat 1 sl) bs))
  = load_balancing_loss_func (GateTuple layers) E K None.
Proof.
  intros Hbs Hsl HN.
  destruct layers as [|l0 ls]; [reflexivity|].
  unfold load_balancing_loss_func.
  set (logits := concat (l0 :: ls)) in *.
  destruct (negb (forallb (fun row => (length row =? E)%nat) logits)); [reflexivity|].
  destruct (mapM (topk K) (map softmax_row logits)) as [sel|] eqn:Esel; [|reflexivity].
  cbn [bind].
  destruct (mapM (mapM (one_hot E)) sel) as [em|] eqn:Eem; [|reflexivity].
  cbn [bind].
  assert (Hem : length em = length logits).
  { rewrite (mapM_length _ _ Eem), (mapM_length _ _ Esel), length_map. reflexivity. }
  assert (Hsh : shape1 (repeat (repeat 1 sl) bs) = sl).
  { destruct bs as [|bs]; [lia|]. simpl. apply repeat_length. }
  rewrite Hsh, repeat_length.
  assert (Hpos : (bs * sl <> 0)%nat) by nia.
  destruct (Nat.eqb_spec (bs * sl) 0) as [H0 | _]; [contradiction|].
  rewrite HN, Nat.div_mul by exact Hpos.
  rewrite (concat_repeat_repeat 1 sl bs), (concat_repeat_repeat 1 (bs * sl) nl).
  rewrite repeat_length, Nat.eqb_refl. cbn [negb bind].
  rewrite <- HN.
  replace (col_weighted_mean E (repeat 1 (length logits)) (map softmax_row logits))
    with (col_mean E (map softmax_row logits)).
  2:{ rewrite <- (col_weighted_mean_ones E (map softmax_row logits)), length_map.
      reflexivity. }
  replace (map (fun k => col_weighted_mean E (repeat 1 (length logits))
                           (map (fun tk => nth k tk []) em)) (seq 0 K))
    with (map (fun k => col_mean E (map (fun tk => nth k tk []) em)) (seq 0 K)).
  2:{ apply map_ext. intros k.
      rewrite <- (col_weighted_mean_ones E (map (fun tk => nth k tk []) em)), length_map, Hem.
      reflexivity. }
  reflexivity.
Qed.

Lemma all_ones_attention_mask_is_no_mask_witness :
  (1 <= 1)%nat /\ (1 <= 2)%nat /\
  load_balancing_loss_func (GateTuple [[[0; 1]; [1; 0]]]) 2 1 (Some (repeat (repeat 1 2%nat) 1))
  = load_balancing_loss_func (GateTuple [[[0; 1]; [1; 0]]]) 2 1 None.
Proof.
  assert (H1 : (1 <= 1)%nat) by lia.
  assert (H2 : (1 <= 2)%nat) by lia.
  exact (conj H1 (conj H2
    (@all_ones_attention_mask_is_no_mask [[[0; 1]; [1; 0]]] 2 1 1 2 1 H1 H2 eq_refl))).
Defined.

Lemma balanced_routing_loss_is_top_k_witness :
  load_balancing_loss_func (GateTuple [[[0; 0; 0]; [1; 1; 1]]]) 3 2 None
  = Ok (Scalar (INR 2)).
Proof.
  apply (@balanced_routing_loss_is_top_k [[[0; 0; 0]; [1; 1; 1]]] 3 2).
  - repeat constructor; [exists 0 | exists 1]; reflexivity.
  - discriminate.
  - lia.
Defined.

End LossProps.
(** ** The loop of the vision encoder *)

Module VisionEncoderProps.
Import Vision.

Section Loop.
Context {H W : Type}.

(** The loop with [output_hidden_states]: the inputs of the layers are
    appended to the states, the outputs feed the next layer. *)
Lemma vision_loop_states (layer : list (@vision_layer H W)) (oa : bool) :
  forall (h : H) (acc : list H) (accw : option (list W)),
  exists ins ws last,
    vision_layers_loop layer oa true h (Some acc) accw
    = (last, Some (acc ++ ins), if oa then option_map (fun l => l ++ ws) accw else accw) /\
    length ins = length layer /\ length ws = length layer /\
    (forall d, nth 0 (ins ++ [last]) d = h) /\
    forall k lm, nth_error layer k = Some lm -> forall d dw,
      nth (S k) (ins ++ [last]) d = fst (lm (nth k (ins ++ [last]) d) oa) /\
      nth k ws dw = snd (lm (nth k (ins ++ [last]) d) oa).
Proof.
  induction layer as [|lm0 rest IH]; intros h acc accw.
  - exists [], [], h. cbn [vision_layers_loop]. split.
    + rewrite app_nil_r. f_equal.
      destruct oa; [|reflexivity]. destruct accw; [|reflexivity].
      simpl. rewrite app_nil_r. reflexivity.
    + split; [reflexivity|]. split; [reflexivity|]. split; [reflexivity|].
      intros k lm Hk. destruct k; discriminate.
  - cbn [vision_layers_loop option_map].
    destruct (IH (fst (lm0 h oa)) (acc ++ [h])
                 (if oa then option_map (fun l => l ++ [snd (lm0 h oa)]) accw else accw))
      as (ins & ws & last & Eloop & Hins & Hws & H0 & Hstep).
    exists (h :: ins), (snd (lm0 h oa) :: ws), last. split.
    + rewrite Eloop. rewrite <- app_assoc. f_equal.
      destruct oa; [|reflexivity]. destruct accw; [|reflexivity].
      simpl. rewrite <- app_assoc. reflexivity.
    + split; [simpl; f_equal; exact Hins|]. split; [simpl; f_equal; exact Hws|].
      split; [reflexivity|].
      intros k lm Hk d dw. destruct k as [|k].
      * simpl in Hk. injection Hk as <-. cbn [app nth]. rewrite H0. split; reflexivity.
      * simpl in Hk. cbn [app nth]. apply Hstep. exact Hk.
Qed.

(** Without [output_hidden_states] the loop computes the same hidden states
    and attentions and collects nothing. *)
Lemma vision_loop_flag (layer : list (@vision_layer H W)) (oa : bool) :
  forall (h : H) (acc : option (list H)) (accw : option (list W)),
    vision_layers_loop layer oa false h None accw
    = (fst (fst (vision_layers_loop layer oa true h acc accw)), None,
       snd (vision_layers_loop layer oa true h acc accw)).
Proof.
  induction layer as [|lm0 rest IH]; intros h acc accw; [reflexivity|].
  cbn [vision_layers_loop]. apply IH.
Qed.

(** X25. [InternS1VisionEncoder.forward] with [output_hidden_states]
    returns one more hidden state than there are layers: the first is the
    input, state k + 1 is the output of layer k applied to state k, and the
    last is [last_hidden_state]. With [output_attentions] there is one
    attention tensor per layer, otherwise [attentions] is None. The flag
    [output_hidden_states] changes neither [last_hidden_state] nor
    [attentions]. *)
Theorem vision_encoder_hidden_states (layer : list (@vision_layer H W)) (h : H) (oa : bool) :
  exists states ws last,
    InternS1VisionEncoder_forward layer h oa true
    = (last, Some states, if oa then Some ws else None) /\
    InternS1VisionEncoder_forward layer h oa false
    = (last, None, if oa then Some ws else None) /\
    length states = S (length layer) /\ length ws = length layer /\
    (forall d, nth 0 states d = h) /\
    (forall d, nth (length layer) states d = last) /\
    forall k lm, nth_error layer k = Some lm -> forall d dw,
      nth (S k) states d = fst (lm (nth k states d) oa) /\
      nth k ws dw = snd (lm (nth k states d) oa).
Proof.
  destruct (vision_loop_states layer oa h [] (if oa then Some [] else None))
    as (ins & ws & last & Eloop & Hins & Hws & H0 & Hstep).
  assert (Hatt : (if oa then option_map (fun l => l ++ ws) (if oa then Some [] else None)
                  else if oa then Some [] else None)
                 = if oa then Some ws else @None (list W)).
  { destruct oa; reflexivity. }
  rewrite Hatt in Eloop. cbn [app] in Eloop.
  exists (ins ++ [last]), ws, last. split; [|split].
  - unfold InternS1VisionEncoder_forward. rewrite Eloop. reflexivity.
  - unfold InternS1VisionEncoder_forward.
    rewrite (vision_loop_flag layer oa h (Some [])), Eloop. reflexivity.
  - split; [rewrite length_app, Hins; simpl; lia|]. split; [exact Hws|].
    split; [exact H0|]. split; [|exact Hstep].
    intros d. rewrite app_nth2 by lia. rewrite Hins, Nat.sub_diag. reflexivity.
Qed.

End Loop.

End VisionEncoderProps.

(** ** The arguments of InternTimeSeriesModel.forward *)

Module ModelArgumentProps.
Import Conv TSConfig Subsampling PadMask Masks Encoder Projector Outputs.

Section WithScalar.
Context {A : Type} `{Scalar A}.

(** X26. The arguments of [InternTimeSeriesModel.forward]. Without signals
    and without embeddings it raises the ValueError. Without [x_lens] it
    never returns, whatever else is given. Embeddings with
    [ts_adapt_in_dim] channels take precedence: the signals are then
    ignored, and the returned padding mask is [make_pad_mask] of the given
    lengths halved once, rounding up. Embeddings of another width without
    signals raise the AttributeError of [time_series_signals.shape]. *)
Theorem model_forward_arguments (self : InternTimeSeriesModel) (r : rng)
  (ohs rd : bool) :
  (forall x_lens,
     InternTimeSeriesModel_forward_outputs self r None x_lens ohs rd None
     = Raise (ValueError "You have to specify time_series_signals or time_series_embeds")) /\
  (forall signals embeds out,
     InternTimeSeriesModel_forward_outputs self r signals None ohs rd embeds <> Ok out) /\
  (forall embeds x_lens,
     Z.of_nat (shape2 embeds) = ts_adapt_in_dim (model_config self) ->
     (forall signals,
        InternTimeSeriesModel_forward_outputs self r (Some signals) x_lens ohs rd (Some embeds)
        = InternTimeSeriesModel_forward_outputs self r None x_lens ohs rd (Some embeds)) /\
     (forall o lens,
        InternTimeSeriesModel_forward_outputs self r None x_lens ohs rd (Some embeds)
        = Ok (ModelOutput o) ->
        x_lens = Some lens ->
        make_pad_mask (map (fun l => (l + 1) / 2) lens) = Ok (out_ts_pad_mask o))) /\
  (forall embeds x_lens,
     Z.of_nat (shape2 embeds) <> ts_adapt_in_dim (model_config self) ->
     InternTimeSeriesModel_forward_outputs self r None x_lens ohs rd (Some embeds)
     = Raise (AttributeError "'NoneType' object has no attribute 'shape'")).
Proof.
  split; [reflexivity|]. split; [|split].
  - intros signals embeds out. unfold InternTimeSeriesModel_forward_outputs.
    assert (Hin : forall e l, model_input_embeds self signals None embeds = Ok (e, l) -> l = None).
    { intros e l. unfold model_input_embeds.
      assert (Hsig : forall s, bind (Conv1dSubsampling_forward (encoder_embed self) s None)
                                 (fun '(e, l) => Ok (e, Some l)) <> Ok (e, l)).
      { intros s. unfold Conv1dSubsampling_forward.
        destruct (run_conv_layers (layers (encoder_embed self)) s); cbn [bind]; discriminate. }
      destruct signals as [s|], embeds as [em|]; try discriminate.
      - destruct (Z.of_nat (shape2 em) =? ts_adapt_in_dim (model_config self)).
        + intros E. injection E as _ <-. reflexivity.
        + intros E. exfalso. exact (Hsig s E).
      - intros E. exfalso. exact (Hsig s E).
      - destruct (Z.of_nat (shape2 em) =? ts_adapt_in_dim (model_config self)).
        + intros E. injection E as _ <-. reflexivity.
        + discriminate. }
    destruct (model_input_embeds self signals None embeds) as [[e l]|] eqn:Ein;
      cbn [bind]; [|discriminate].
    rewrite (Hin e l eq_refl).
    destruct (InternTimeSeriesEncoder_forward_outputs (encoder self) r e ohs rd);
      cbn [bind]; discriminate.
  - intros embeds x_lens Hw. split.
    + intros signals. unfold InternTimeSeriesModel_forward_outputs, model_input_embeds.
      rewrite Hw, Z.eqb_refl. reflexivity.
    + intros o lens Hout ->.
      unfold InternTimeSeriesModel_forward_outputs, model_input_embeds in Hout.
      rewrite Hw, Z.eqb_refl in Hout. cbn [bind] in Hout.
      destruct (InternTimeSeriesEncoder_forward_outputs (encoder self) r embeds ohs rd)
        as [eo|]; cbn [bind] in Hout; [|discriminate].
      change (map halve_len lens) with (map (fun l => (l + 1) / 2) lens) in Hout.
      destruct (negb (forallb (fun l => 0 <? l) (map (fun l => (l + 1) / 2) lens)));
        [discriminate|].
      destruct (make_pad_mask (map (fun l => (l + 1) / 2) lens)) as [pm|];
        cbn [bind] in Hout; [|discriminate].
      destruct (get_last_hidden_state eo) as [lh|]; cbn [bind] in Hout; [|discriminate].
      destruct (negb rd); [discriminate|].
      destruct (get_hidden_states eo) as [hs|]; cbn [bind] in Hout; [|discriminate].
      injection Hout as <-. reflexivity.
  - intros embeds x_lens Hw. unfold InternTimeSeriesModel_forward_outputs, model_input_embeds.
    destruct (Z.eqb_spec (Z.of_nat (shape2 embeds)) (ts_adapt_in_dim (model_config self)));
      [contradiction | reflexivity].
Qed.

End WithScalar.

End ModelArgumentProps.

(** ** The number of special tokens and the number of feature vectors *)

Module MergeProps.
Import Merge LanguageModelCall MergeFacts.

Section WithElements.
Context {A : Type} (A_eqb : A -> A -> bool).

Lemma pick_eq_token (embed_tokens : Z -> list A) (tok : Z) (row : list Z) :
  pick (map (fun i => i =? tok) row) (map embed_tokens row)
  = map embed_tokens (filter (fun i => i =? tok) row).
Proof.
  induction row as [|i row IH]; [reflexivity|].
  cbn [map filter]. rewrite pick_cons, IH. destruct (i =? tok); reflexivity.
Qed.

Lemma length_concat_width (n : nat) (l : list (list A)) :
  Forall (fun v => length v = n) l -> length (concat l) = (length l * n)%nat.
Proof.
  induction 1 as [|v l Hv Hl IH]; [reflexivity|].
  cbn [concat length]. rewrite length_app, IH, Hv. lia.
Qed.

(** With token ids, the number of embedding elements at the positions of a
    token is the number of its occurrences times the hidden size. *)
Lemma token_elements_count (embed_tokens : Z -> list A) (ids : list (list Z)) (tok : Z)
  (n : nat) :
  (forall i, length (embed_tokens i) = n) ->
  token_elements A_eqb embed_tokens (Some ids) (map (map embed_tokens) ids) tok
  = (length (filter (fun i => (i =? tok)%Z) (concat ids)) * n)%nat.
Proof.
  intros Hw. rewrite token_elements_pick. cbn [special_mask]. unfold eq_token.
  assert (Hp : pick2 (map (map (fun i => i =? tok)) ids) (map (map embed_tokens) ids)
               = map embed_tokens (filter (fun i => i =? tok) (concat ids))).
  { induction ids as [|row ids IH]; [reflexivity|].
    cbn [map concat]. rewrite pick2_cons, IH, pick_eq_token, filter_app, map_app.
    reflexivity. }
  rewrite Hp, (@length_concat_width n), length_map; [reflexivity|].
  apply Forall_map. apply Forall_forall. intros i _. apply Hw.
Qed.

(** X27. Counted in tokens. With token ids, embeddings of hidden size
    [n >= 1] and features of the same width, outside compilation: in a
    forward call with images the merge completes, so that the call of the
    language model is reached, exactly when the number of image tokens in
    [input_ids] is the number of image feature vectors, and the image
    ValueError is raised otherwise; in a call with time series the merge
    completes exactly when the number of context tokens is the number of
    non-padding frames, and the time-series ValueError is raised otherwise.
    ([InternS1Model_forward] is [forward] up to the call of the language
    model.) The call itself hands over the merged embeddings, except with a
    mixture-of-experts backbone, where it raises a TypeError: with such a
    backbone [forward] never returns. *)
Theorem forward_counts_tokens (image_token_id ts_context_token_id : Z)
  (embed_tokens : Z -> list A) (input_ids : list (list Z)) (n : nat) :
  (1 <= n)%nat ->
  (forall i, length (embed_tokens i) = n) ->
  let count := fun tok => length (filter (fun i => i =? tok) (concat input_ids)) in
  (forall f,
     Forall (Forall (fun v => length v = n)) f ->
     let fwd := InternS1Model_forward A_eqb false image_token_id ts_context_token_id
                  embed_tokens (Some input_ids) None (Some f) None in
     (count image_token_id = length (concat f) -> exists out, fwd = Ok out) /\
     (count image_token_id <> length (concat f) ->
      fwd = Raise (ValueError image_mismatch))) /\
  (forall f pm valid,
     select_valid f pm = Ok valid ->
     Forall (fun v => length v = n) valid ->
     let fwd := InternS1Model_forward A_eqb false image_token_id ts_context_token_id
                  embed_tokens (Some input_ids) None None (Some (f, pm)) in
     (count ts_context_token_id = length valid -> exists out, fwd = Ok out) /\
     (count ts_context_token_id <> length valid ->
      fwd = Raise (ValueError ts_mismatch))) /\
  (forall compiling ids embeds image_features time_series,
     let fwd := InternS1Model_forward A_eqb compiling image_token_id ts_context_token_id
                  embed_tokens ids embeds image_features time_series in
     let call := fun is_moe_model =>
       InternS1Model_forward_call A_eqb is_moe_model compiling image_token_id
         ts_context_token_id embed_tokens ids embeds image_features time_series in
     call false = fwd /\
     (forall out, fwd = Ok out ->
        call true = Raise (TypeError
          "got multiple values for keyword argument 'output_router_logits'")) /\
     (forall out, call true <> Ok out)).
Proof.
  intros Hn Hw count.
  assert (Hcancel : forall a b, (a * n = b * n)%nat <-> a = b).
  { intros a b. split; [intros E; nia | intros ->; reflexivity]. }
  split; [|split].
  - intros f Hf fwd.
    assert (Hnumel : numel3 f = (length (concat f) * n)%nat).
    { unfold numel3, flatten3. apply length_concat_width.
      clear -Hf. induction Hf as [|s f Hs Hf IH]; [constructor|].
      cbn [concat]. apply Forall_app. split; assumption. }
    assert (Efwd : fwd = merge_features A_eqb false image_mismatch embed_tokens (Some input_ids)
                           (map (map embed_tokens) input_ids) image_token_id (flatten3 f)).
    { unfold fwd, InternS1Model_forward. cbn [is_none negb xorb initial_embeds merge_image].
      destruct (merge_features A_eqb false image_mismatch embed_tokens (Some input_ids)
                  (map (map embed_tokens) input_ids) image_token_id (flatten3 f));
        reflexivity. }
    rewrite Efwd.
    destruct (merge_features_checked A_eqb image_mismatch embed_tokens (Some input_ids)
                (map (map embed_tokens) input_ids) image_token_id (flatten3 f)) as [Hne Heq].
    cbv zeta in Hne, Heq. rewrite (token_elements_count _ _ _ Hw) in Hne, Heq.
    fold (count image_token_id) in Hne, Heq. fold (numel3 f) in Hne, Heq.
    rewrite Hnumel in Hne, Heq. split.
    + intros Hc. apply Heq. apply Hcancel. exact Hc.
    + intros Hc. apply Hne. intros E. apply Hc. apply Hcancel. exact E.
  - intros f pm valid Hsel Hvalid fwd.
    assert (Efwd : fwd = merge_features A_eqb false ts_mismatch embed_tokens (Some input_ids)
                           (map (map embed_tokens) input_ids) ts_context_token_id
                           (concat valid)).
    { unfold fwd, InternS1Model_forward.
      cbn [is_none negb xorb initial_embeds merge_image bind merge_time_series].
      rewrite Hsel. reflexivity. }
    rewrite Efwd.
    destruct (merge_features_checked A_eqb ts_mismatch embed_tokens (Some input_ids)
                (map (map embed_tokens) input_ids) ts_context_token_id (concat valid))
      as [Hne Heq].
    cbv zeta in Hne, Heq. rewrite (token_elements_count _ _ _ Hw) in Hne, Heq.
    fold (count ts_context_token_id) in Hne, Heq.
    rewrite (length_concat_width Hvalid) in Hne, Heq. split.
    + intros Hc. apply Heq. apply Hcancel. exact Hc.
    + intros Hc. apply Hne. intros E. apply Hc. apply Hcancel. exact E.
  - intros compiling ids embeds image_features time_series fwd call.
    unfold call, InternS1Model_forward_call. fold fwd.
    destruct fwd as [e|err]; cbn [bind call_language_model].
    + split; [reflexivity|]. split; [reflexivity | discriminate].
    + split; [reflexivity|]. split; discriminate.
Qed.

End WithElements.

End MergeProps.

(** ** From the configuration to the projectors *)

Module ConfigProjectorProps.
Import Conv TSConfig Config Projector ProjectorFacts.

Section Init.
Context {TK : Type} (CONFIG_MAPPING : string -> option (option TK -> TextConfig)).
Context (whisper_defaults : Z * Z * Z * Z).
Context {A : Type} `{Scalar A}.

(** X28. The projectors of a configuration that [InternS1Config.__init__]
    has returned. Built with a dict for [ts_config], the configuration has no
    attribute [ts_config] and [InternTSProjector.__init__] raises
    AttributeError. Built with None or an instance (and a text
    configuration), the projector is constructed exactly when
    [ts_hidden_dim] and the hidden size of the text model are non-negative,
    and a constructor of its modules raises a RuntimeError otherwise; in the
    projector the layer norm and the first linear layer take [ts_hidden_dim]
    features and both linear layers produce the hidden size of the text
    model. The time-series argument has no influence on the image
    projector. *)
Theorem projectors_of_config
  (v : config_arg vision_kwargs InternS1VisionConfig)
  (t : config_arg (option string * TK) TextConfig)
  (ts : config_arg kwargs InternTimeSeriesEncoderConfig)
  (kw : init_kwargs) (cfg : InternS1Config) (p : @projector_params A) :
  InternS1Config_init CONFIG_MAPPING whisper_defaults v t ts kw = Ok cfg ->
  ((exists d, ts = ArgDict d) \/ ts = ArgOther ->
   InternTSProjector_init cfg p = Raise (AttributeError "ts_config")) /\
  (ts = ArgNone \/ (exists c, ts = ArgInstance c) -> t <> ArgOther ->
   exists tc xc,
     ts_config cfg = Some tc /\ text_config cfg = Some xc /\
     (0 <= ts_hidden_dim tc -> 0 <= text_hidden_size xc ->
      exists proj,
        InternTSProjector_init cfg p = Ok proj /\
        Z.of_nat (normalized_shape (ts_layer_norm proj)) = ts_hidden_dim tc /\
        Z.of_nat (in_features (ts_linear_1 proj)) = ts_hidden_dim tc /\
        Z.of_nat (out_features (ts_linear_1 proj)) = text_hidden_size xc /\
        Z.of_nat (in_features (ts_linear_2 proj)) = text_hidden_size xc /\
        Z.of_nat (out_features (ts_linear_2 proj)) = text_hidden_size xc) /\
     (ts_hidden_dim tc < 0 \/ text_hidden_size xc < 0 ->
      exists msg, InternTSProjector_init cfg p = Raise (RuntimeError msg))) /\
  (forall ACT2FN ts' cfg',
     InternS1Config_init CONFIG_MAPPING whisper_defaults v t ts' kw = Ok cfg' ->
     InternS1MultiModalProjector_init ACT2FN cfg' p
     = InternS1MultiModalProjector_init ACT2FN cfg p).
Proof.
  unfold InternS1Config_init. intros E.
  destruct (match t with
            | ArgNone => _ | ArgDict d => _ | ArgInstance c => _ | ArgOther => _
            end) as [xc|] eqn:Et; [|discriminate].
  cbn [bind] in E. split; [|split].
  - intros [[d ->] | ->].
    + destruct (InternTimeSeriesEncoderConfig_init d); [|discriminate].
      cbn [bind] in E. injection E as <-. reflexivity.
    + cbn [bind] in E. injection E as <-. reflexivity.
  - intros Hts Ht.
    assert (Hxc : exists x, xc = Some x).
    { destruct t as [|[mt d]| c |]; [| | |congruence].
      - destruct (lookup_config CONFIG_MAPPING "qwen3_moe"); [|discriminate].
        cbn [bind] in Et. injection Et as <-. eauto.
      - destruct (lookup_config CONFIG_MAPPING (default mt "qwen3_moe"%string)); [|discriminate].
        cbn [bind] in Et. injection Et as <-. eauto.
      - injection Et as <-. eauto. }
    destruct Hxc as [x ->].
    assert (Htc : exists tc, cfg = {|
        image_token_id := default (kw_image_token_id kw) 151667;
        ts_context_token_id := default (kw_ts_context_token_id kw) 151668;
        ts_select_layer := default (kw_ts_select_layer kw) (-1);
        image_seq_length := default (kw_image_seq_length kw) 256;
        downsample_ratio := default (kw_downsample_ratio kw) (1 # 2)%Q;
        projector_hidden_act := default (kw_projector_hidden_act kw) "gelu"%string;
        vision_feature_layer := default (kw_vision_feature_layer kw) (-1);
        vision_feature_select_strategy :=
          default (kw_vision_feature_select_strategy kw) "default"%string;
        vision_config :=
          match v with
          | ArgNone => Some (InternS1VisionConfig_init no_vision_kwargs)
          | ArgDict d => Some (InternS1VisionConfig_init d)
          | ArgInstance c => Some c
          | ArgOther => None
          end;
        ts_config := Some tc;
        text_config := Some x |}).
    { destruct Hts as [-> | [c ->]].
      - destruct (default_ts_config whisper_defaults) as [tc|]; [|discriminate].
        cbn [bind] in E. injection E as <-. eauto.
      - cbn [bind] in E. injection E as <-. eauto. }
    destruct Htc as [tc ->].
    exists tc, x. unfold InternTSProjector_init. cbn [ts_config text_config attribute bind].
    split; [reflexivity|]. split; [reflexivity|].
    destruct (@LayerNorm_init_cases A (ts_hidden_dim tc) (pp_layer_norm p)) as [Hln Hln'].
    destruct (@Linear_init_cases A (ts_hidden_dim tc) (text_hidden_size x) (pp_linear_1 p))
      as [Hl1 Hl1'].
    destruct (@Linear_init_cases A (text_hidden_size x) (text_hidden_size x) (pp_linear_2 p))
      as [Hl2 Hl2'].
    split.
    + intros Hd Hh. rewrite (Hln Hd), (Hl1 Hd Hh), (Hl2 Hh Hh). cbn [bind].
      eexists. split; [reflexivity|].
      cbn [ts_layer_norm ts_linear_1 ts_linear_2 mk_layer_norm mk_linear normalized_shape
           in_features out_features].
      repeat split; lia.
    + intros Hneg.
      destruct (Z.lt_ge_cases (ts_hidden_dim tc) 0) as [Hd | Hd].
      * destruct (Hln' Hd) as (msg & ->). exists msg. reflexivity.
      * rewrite (Hln Hd). cbn [bind].
        destruct (Hl1' ltac:(lia)) as (msg & ->). exists msg. reflexivity.
  - intros ACT2FN ts' cfg' E'.
    cbn [bind] in E'.
    destruct (match ts with
              | ArgNone => _ | ArgDict d => _ | ArgInstance c => _ | ArgOther => _
              end) as [a|]; [|discriminate].
    destruct (match ts' with
              | ArgNone => _ | ArgDict d => _ | ArgInstance c => _ | ArgOther => _
              end) as [a'|]; [|discriminate].
    cbn [bind] in E, E'. injection E as <-. injection E' as <-. reflexivity.
Qed.

End Init.

End ConfigProjectorProps.

(** ** The theorems at concrete inputs *)

Module CompositionWitnesses.
Import Conv TSConfig Config Projector Merge Examples.
Import MergeProps ConfigProjectorProps.

(** One image token and two image feature vectors. *)
Lemma forward_counts_tokens_witness :
  (1 <= 2)%nat /\ (forall i, length (ex_embed_tokens i) = 2%nat) /\
  InternS1Model_forward Z.eqb false 7 8 ex_embed_tokens (Some ex_input_ids) None
    (Some [[[10; 11]]; [[12; 13]]]) None = Raise (ValueError image_mismatch).
Proof.
  assert (H1 : (1 <= 2)%nat) by lia.
  assert (H2 : forall i, length (ex_embed_tokens i) = 2%nat) by (intros i; reflexivity).
  refine (conj H1 (conj H2 _)).
  destruct (@forward_counts_tokens Z Z.eqb 7 8 ex_embed_tokens ex_input_ids 2 H1 H2)
    as [Himg _].
  apply (Himg [[[10; 11]]; [[12; 13]]]).
  - repeat constructor.
  - simpl. lia.
Defined.

(** The default configuration with the defaults of the time-series encoder
    passed as a dict. *)
Lemma projectors_of_config_witness :
  exists cfg,
    InternS1Config_init example_CONFIG_MAPPING example_whisper_defaults
      ArgNone ArgNone (ArgDict (no_kwargs 80 384 1500 4)) no_init_kwargs = Ok cfg /\
    InternTSProjector_init cfg ex_projector_params = Raise (AttributeError "ts_config").
Proof.
  destruct (InternS1Config_init example_CONFIG_MAPPING example_whisper_defaults
              ArgNone ArgNone (ArgDict (no_kwargs 80 384 1500 4)) no_init_kwargs)
    as [cfg|e] eqn:E; [|vm_compute in E; discriminate].
  exists cfg. split; [reflexivity|].
  apply (@projectors_of_config unit example_CONFIG_MAPPING example_whisper_defaults Z
           ArgNone ArgNone (ArgDict (no_kwargs 80 384 1500 4)) no_init_kwargs cfg
           ex_projector_params E).
  left. eexists. reflexivity.
Defined.

End CompositionWitnesses.
